(* ===== verification/_CoqProject ===== *)
-Q . S2P
Prelude.v
Kernel.v
KernelFacts.v
Structs.v
CryptoApi.v
Sg.v
Cryptlib.v
CryptlibFacts.v
Zc.v
ZcFacts.v
Fcrypt.v
FcryptFacts.v
Run.v
RunFacts.v
Authenc.v
AuthencFacts.v
Ioctl.v
FileFacts.v
IoctlFacts.v
Vring.v
VringFacts.v
RingFacts.v
VirtioDev.v
VirtioDevFacts.v
Bus.v
BusFacts.v
PortFacts.v
QemuFile.v
QemuFileFacts.v
Migrate.v
MigrateFacts.v
Backend.v
BackendFacts.v
Stack.v
StackFacts.v
SessionFacts.v
ResetFacts.v
Driver.v
DriverDev.v
DriverFacts.v
LifeFacts.v
RequestFacts.v
EndToEnd.v
SetupFacts.v
Toy.v
Examples.v
StackExamples.v
MigrateExamples.v
DriverExamples.v
