(* ===== verification/Prelude.v ===== *)
(** * Verification of the paravirtual crypto stack

    ** The program

    The repository lets a program in a virtual machine use the cryptographic
    hardware of the host.  A request goes through these parts, and its answer
    back through the same ones:

    - the driver in the kernel of the guest
      ([Virtio-serial-askisi/sgerag_virtio_crypto/linux_kernel/virtio_crypto.c])
      makes a device file of every crypto port; it packs an ioctl of a program
      into a [struct crypto_data] and sends it through the output queue of the
      port;
    - the ring code of QEMU ([Virtio-serial-askisi/qemu-1.2.0/hw/virtio.c] and
      [iov.c]) takes the entry from the memory of the guest;
    - the virtio-serial bus ([sgerag_virtio_crypto/qemu/virtio-serial-bus.c])
      hands it to the port;
    - the crypto port ([sgerag_virtio_crypto/qemu/virtio-crypto.c]) turns it into
      an ioctl on /dev/crypto of the host;
    - cryptodev-linux ([cryptodev-linux/*.c]), the driver behind /dev/crypto, runs
      it on the ciphers and hashes of the kernel of the host.

    The state of the device moves to another host through the buffered files of
    QEMU ([qemu-1.2.0/savevm.c]).  Paths here are relative to [src/].

    ** How code is modelled

    C code is a Rocq function in the state monad [M] of this file: [Done a s] is a
    normal end with result [a], [Crash c] is what the code must never do (free
    twice, use after free, run over a buffer, take a lock twice, fail a BUG, loop
    for ever) or, as [Exited], a call of [exit] or [abort].  Kernel code works on
    a pair of the environment [Kernel.env] and the object it is about ([K X A]).
    The environment holds memory, the live heap objects, the pinned pages, and
    what the surroundings decide: which allocations succeed, which random words
    and descriptors come out, what uninitialised memory reads as.  Integers are in
    [Z] with their wrap-around written out ([u8] to [u64], [s32]); a negative
    result is an error number, as in C.  Structures go through memory as the
    bytes of their layout.

    A weakest precondition [wp] says that code ends in [Done] and what then
    holds, so a theorem of that form includes termination and the absence of
    crashes; [wpe] also allows [Exited], for code that a hostile guest can make
    exit.  [owns e l] says that the live heap objects are exactly those in [l]:
    keeping it means that nothing leaks and nothing is freed twice.

    Loops that are not structural are [while_loop], whose fuel [LOOP_BOUND] is
    [2 ^ 80] iterations and ends in [Crash Diverges] when it runs out.  No
    theorem reaches it: loops are bounded by a measure below the fuel, which
    comes from 16-bit ring indices, 32-bit or 64-bit lengths or the finite number
    of jobs, sessions, ports or buffers.  A few loops have a fuel of their own,
    which comes from their data: the bounce-buffer loop of [Run] from the length
    of the request, the walks along a chain of [Vring] from the size of the
    descriptor table and the number of heads, and the growth of the page arrays of
    [Zc] from the width of an int; the theorems about them show that it is enough.
    [sg_copy] of [Sg] has a step for every entry of the array, past which the walk
    is an error of its own.

    ** Files

    Foundations.
    - [Prelude]: machine integers, error numbers, the monad, loops, [wp], lists.
    - [Kernel], [KernelFacts]: memory, user copies, allocator, page pinning, and
      the reasoning about them (ownership, specifications, tactics).

    cryptodev-linux.
    - [Structs]: the structures and ioctl numbers of [crypto/cryptodev.h] and of
      the 32-bit compatibility layer.
    - [CryptoApi]: the kernel CryptoAPI, which the repository only calls, as the
      class [CryptoAPI] with its documented laws.
    - [Sg], [Zc]: [util.c], [zc.c]; [Cryptlib]: [cryptlib.c]; [Fcrypt]: the
      sessions of [ioctl.c]; [Run]: [main.c]; [Authenc]: [authenc.c]; [Ioctl]: the
      rest of [ioctl.c].  A [struct fcrypt] with its jobs is [crypt_priv], a
      [struct csession] is [csession].
    - [CryptlibFacts], [ZcFacts], [FcryptFacts], [RunFacts], [AuthencFacts],
      [FileFacts], [IoctlFacts]: their theorems.

    QEMU.
    - [Vring]: the ring code and the vector copies; [VirtioDev]: the rest of
      [virtio.c]; [Bus]: [virtio-serial-bus.c]; [Backend]: [virtio-crypto.c];
      [QemuFile]: [savevm.c]; [Migrate]: saving and loading; [Stack]: the system
      calls of QEMU on the host, as calls of [Ioctl].
    - [VringFacts], [RingFacts], [VirtioDevFacts], [BusFacts], [PortFacts],
      [BackendFacts], [QemuFileFacts], [MigrateFacts], [StackFacts],
      [SessionFacts], [ResetFacts]: their theorems.

    The guest.
    - [Driver], [DriverDev]: [virtio_crypto.c].  The state [drv] holds the ports,
      port buffers and devices by their addresses, and the state of the kernel
      below, which is the class [GuestKernel].
    - [DriverFacts], [LifeFacts], [RequestFacts], [SetupFacts]: its theorems.
    - [EndToEnd]: the driver on top of the device.

    Instances.
    - [Toy]: a CryptoAPI that satisfies the laws; [Examples], [StackExamples],
      [MigrateExamples], [DriverExamples]: concrete sessions, guests, hosts and
      requests to which the theorems are applied.

    ** What the theorems show

    /dev/crypto.  An ioctl that encrypts or decrypts returns 0 and leaves in user
    memory exactly the output of one operation on the whole source, the new IV
    and the digest, for 64-bit and 32-bit callers; the zero-copy path and the
    bounce-buffer path do the same; decrypting undoes encrypting.  Creating,
    finishing, opening and releasing balance.  Every other ioctl keeps the
    invariant of the file whatever the caller passes.  Asynchronous jobs are
    served in the order of submission in every interleaving, none is lost, and
    the worker serves them all.  TLS records round trip, and a record or packet
    with a wrong tag is refused, for SRTP before anything is decrypted.

    The device.  Whatever the guest writes into its memory, the ring code and the
    data path of the bus end within all bounds or the process exits; on a
    well-formed ring they hand over exactly the bytes offered, and touch no other
    memory.  Plugging, unplugging and resetting keep the bus well formed and leave
    nothing open.  A device that is loaded from what another one saved continues
    where that one was, and a stream that does not fit is refused.

    The driver.  Every sensible sequence of openings, closings, interrupts and
    messages of the host on a port runs to its end with every buffer in one place
    and every object freed once.  The driver and the device mean the same queues.

    The whole.  A kick of the guest with a request in the queue is carried out on
    /dev/crypto of the host: a new session is keyed with the key of the request, a
    session that is finished leaves nothing, and an encryption or decryption
    leaves exactly the output of the cipher in the reply buffer of the guest.  A
    program in the guest gets, through the driver, what the cipher of the host
    makes of its source and IV.

    ** Assumptions

    Code outside the repository is a class, with its documented behaviour as
    laws, and an instance that satisfies them among the examples.
    - [CryptoAPI]: ciphers work block by block with a chaining value and
      decryption undoes encryption ([CipherLaws]); hashes absorb in any pieces
      ([HashLaws]); results have their sizes ([CryptoAPISizes]); calls on valid
      arguments succeed ([CryptoAPISucceeds], where a theorem says so).
    - [HostKernel]: open, ioctl and close under QEMU, which [Stack] instantiates
      with the model of cryptodev.
    - [CryptoLimits]: CRYPTO_DATA_MAX_LEN and CRYPTO_BLOCK_MAX_LEN, which the code
      uses and no header of the repository defines, are any sizes.
    - [GuestKernel]: virtqueues, the driver core and the terminal layer of Linux,
      with [VirtqueueLaws] (a buffer that is added comes back once, and the host
      writes only where it may), [PromptHost] (the host takes what it is sent, so
      that busy waiting ends), [ServiceLaws] (the driver core leaves the queues
      alone), [AnsweringHost] (one request, one answer) and [FindVqsLaw] (the
      queues are numbered as they are asked for).
    - [FileOps]: the file, socket or block device under a buffered file, with
      [OutStream] and [InStream].
    - [map_ok]: which ranges of guest memory QEMU can map.  Memory of QEMU and
      physical memory of the guest are one memory, which the guest does not change
      during a call; the theorems for hostile guests hold for any contents.

    Handlers run to their end: the locks of the code are left out, except that
    taking a mutex twice is a crash.  Waiting is testing the condition again after
    [sleep], which is a parameter.  Log output, wake-ups and signals leave no
    trace.

    ** Not modelled

    - The rest of QEMU 1.2.0: an unmodified copy of the emulator, of which the
      device uses [virtio.c], [iov.c] and [savevm.c].  Of these, eventfd notifiers,
      the getters for vhost, [iov_memset], socket transfers, seeking, rate limits
      and the table of savevm handlers are left out; the transport (PCI) that adds
      its own state to a migration is a parameter of [Migrate].
    - Registration: QOM types, module set-up of cryptodev, command line and monitor
      of QEMU, and [virtio_serial_exit].
    - Two text reports and the SIGIO list of the guest driver, which change nothing
      the driver reads.
    - [virtio_console.c] and [virtio-console.c]: the originals that the driver and
      the crypto port were made from; their code is what [Driver] and [Backend]
      model, without the requests.
    - The socket client, the demos, the examples and tests of cryptodev, the LDD3
      examples and sdd: programs that do input and output around the interfaces
      above, or do not use them.
    - Concurrency inside a handler, real time, and the contents of log messages.

    Modelled and executable without a theorem of its own: the console part of the
    driver, the two session requests of the driver, probing and removing a device,
    the control queue of the bus beyond its messages, and plain AEAD requests. *)
From stdpp Require Import base gmap gmultiset list strings numbers.
Open Scope Z_scope.

(** ** Machine integers *)

Abbreviation bytes := (list Z).

Definition u8 (z : Z) : Z := z mod 2 ^ 8.
Definition u16 (z : Z) : Z := z mod 2 ^ 16.
Definition u32 (z : Z) : Z := z mod 2 ^ 32.
Definition u64 (z : Z) : Z := z mod 2 ^ 64.

(** Conversion to a two's complement [int]. *)
Definition s32 (z : Z) : Z := (z + 2 ^ 31) mod 2 ^ 32 - 2 ^ 31.

Lemma s32_small z : 0 <= z < 2 ^ 31 -> s32 z = z.
Proof. intros. unfold s32. rewrite Z.mod_small by lia. lia. Qed.
Lemma u32_small z : 0 <= z < 2 ^ 32 -> u32 z = z.
Proof. intros. by apply Z.mod_small. Qed.

(** [flags & mask] used as a condition. *)
Definition has_flag (flags mask : Z) : bool := negb (Z.land flags mask =? 0).

(** ** Error numbers *)

Definition ENOENT : Z := 2.
Definition EAGAIN : Z := 11.
Definition ENOMEM : Z := 12.
Definition EFAULT : Z := 14.
Definition EBUSY : Z := 16.
Definition EINVAL : Z := 22.
Definition EMFILE : Z := 24.
Definition EBADMSG : Z := 74.
Definition EINPROGRESS : Z := 115.

(** ** State and failure *)

(** What stops a run of the code for good. *)
Inductive crash :=
  | BUG            (** an assertion of the code itself *)
  | DoubleFree     (** an object is released that is not live *)
  | UseAfterFree   (** an object or a page is used that is not live *)
  | Deadlock       (** a mutex is taken by its holder *)
  | OutOfBounds    (** a buffer is accessed past its end *)
  | NullDeref      (** a scatterlist is walked past its last entry *)
  | DivByZero
  | BadContext     (** a user copy outside of process context *)
  | Diverges       (** a loop does not end *)
  | Exited.        (** the process ends itself, by exit or abort *)

Inductive outcome (S A : Type) : Type :=
  | Done (a : A) (s : S)
  | Crash (c : crash).
Arguments Done {S A} a s.
Arguments Crash {S A} c.

(** Computations over a state [S]. *)
Definition M (S A : Type) : Type := S -> outcome S A.

Global Instance M_ret S : MRet (M S) := fun A a s => Done a s.
Global Instance M_bind S : MBind (M S) := fun A B f m s =>
  match m s with
  | Done a s' => f a s'
  | Crash c => Crash c
  end.

Definition crashed {S A} (c : crash) : M S A := fun _ => Crash c.

(** Weakest preconditions: the run ends, without a crash, in a result and a
    state that satisfy [Q]. *)
Definition wp {S A} (m : M S A) (Q : A -> S -> Prop) (s : S) : Prop :=
  match m s with
  | Done a s' => Q a s'
  | Crash _ => False
  end.

Section Wp.
Context {S A B : Type}.
Implicit Types (m : M S A) (s : S).

Lemma wp_ret (a : A) (Q : A -> S -> Prop) s : Q a s -> wp (mret a) Q s.
Proof. done. Qed.

Lemma wp_bind m (f : A -> M S B) (Q : B -> S -> Prop) s :
  wp m (fun a => wp (f a) Q) s -> wp (m ≫= f) Q s.
Proof. unfold wp, mbind, M_bind. by destruct (m s). Qed.

Lemma wp_mono m (P Q : A -> S -> Prop) s :
  wp m P s -> (forall a s', P a s' -> Q a s') -> wp m Q s.
Proof. unfold wp. destruct (m s); naive_solver. Qed.

Lemma wp_done m (Q : A -> S -> Prop) s :
  wp m Q s <-> exists a s', m s = Done a s' /\ Q a s'.
Proof. unfold wp. destruct (m s); naive_solver. Qed.

(** A computation that is known to end with [a] in [s']. *)
Lemma wp_eq m (Q : A -> S -> Prop) s a s' :
  m s = Done a s' -> Q a s' -> wp m Q s.
Proof. unfold wp. by intros ->. Qed.

Lemma bind_done m (f : A -> M S B) s a s' :
  m s = Done a s' -> (m ≫= f) s = f a s'.
Proof. unfold mbind, M_bind. by intros ->. Qed.

Lemma bind_crash m (f : A -> M S B) s c :
  m s = Crash c -> (m ≫= f) s = Crash c.
Proof. unfold mbind, M_bind. by intros ->. Qed.
End Wp.

(** The run ends in a result and a state that satisfy [Q], or the process
    ends itself; it does not crash in any other way. *)
Definition wpe {S A} (m : M S A) (Q : A -> S -> Prop) (s : S) : Prop :=
  match m s with
  | Done a s' => Q a s'
  | Crash c => c = Exited
  end.

Section Wpe.
Context {S A B : Type}.
Implicit Types (m : M S A) (s : S).

Lemma wpe_ret (a : A) (Q : A -> S -> Prop) s : Q a s -> wpe (mret a) Q s.
Proof. done. Qed.

Lemma wpe_bind m (f : A -> M S B) (Q : B -> S -> Prop) s :
  wpe m (fun a => wpe (f a) Q) s -> wpe (m ≫= f) Q s.
Proof. unfold wpe, mbind, M_bind. by destruct (m s). Qed.

Lemma wpe_mono m (P Q : A -> S -> Prop) s :
  wpe m P s -> (forall a s', P a s' -> Q a s') -> wpe m Q s.
Proof. unfold wpe. destruct (m s); naive_solver. Qed.

Lemma wpe_eq m (Q : A -> S -> Prop) s a s' :
  m s = Done a s' -> Q a s' -> wpe m Q s.
Proof. unfold wpe. by intros ->. Qed.

Lemma wpe_exit (Q : A -> S -> Prop) s : wpe (crashed Exited) Q s.
Proof. done. Qed.

Lemma wpe_cases m (Q : A -> S -> Prop) s :
  wpe m Q s <-> m s = Crash Exited \/ exists a s', m s = Done a s' /\ Q a s'.
Proof. unfold wpe. destruct (m s); naive_solver. Qed.
End Wpe.

(** What a run leaves if it ends. *)
Definition wlp {S A} (m : M S A) (Q : A -> S -> Prop) (s : S) : Prop :=
  forall a s', m s = Done a s' -> Q a s'.

Section Wlp.
Context {S A B : Type}.
Implicit Types (m : M S A) (s : S).

Lemma wlp_ret (a : A) (Q : A -> S -> Prop) s : Q a s -> wlp (mret a) Q s.
Proof. intros HQ a' s' [= <- <-]. done. Qed.

Lemma wlp_bind m (f : A -> M S B) (Q : B -> S -> Prop) s :
  wlp m (fun a => wlp (f a) Q) s -> wlp (m ≫= f) Q s.
Proof.
  intros Hm b s'' E. unfold mbind, M_bind in E. destruct (m s) as [a s'|] eqn:Em; [|done].
  exact (Hm _ _ Em _ _ E).
Qed.

Lemma wlp_any m (Q : A -> S -> Prop) s : (forall a s', Q a s') -> wlp m Q s.
Proof. intros HQ a s' _. apply HQ. Qed.

Lemma wlp_mono m (P Q : A -> S -> Prop) s :
  wlp m P s -> (forall a s', P a s' -> Q a s') -> wlp m Q s.
Proof. intros Hm HPQ a s' E. by apply HPQ, Hm. Qed.
End Wlp.

(** ** Loops *)

(** Runs [body] up to [n] times, until it gives a result. *)
Fixpoint repeat_until {S St R} (n : positive) (body : St -> M S (St + R)) (st : St) : M S (St + R) :=
  let twice (p : positive) (st : St) : M S (St + R) :=
    r ← repeat_until p body st;
    match r with inl st => repeat_until p body st | inr r => mret (inr r) end in
  match n with
  | xH => body st
  | xO p => twice p st
  | xI p => r ← body st; match r with inl st => twice p st | inr r => mret (inr r) end
  end.

(** A loop of the code: [Diverges] after more rounds than any of them can take. *)
Definition LOOP_BOUND : positive := Pos.pow 2 80.
Definition while_loop {S St R} (body : St -> M S (St + R)) (st : St) : M S R :=
  r ← repeat_until LOOP_BOUND body st;
  match r with inl _ => crashed Diverges | inr r => mret r end.

(** Weakest preconditions that tolerate the crashes in [ok]; [wp] and [wpe] are
    instances. *)
Definition wpc {S A} (ok : crash -> Prop) (m : M S A) (Q : A -> S -> Prop) (s : S) : Prop :=
  match m s with
  | Done a s' => Q a s'
  | Crash c => ok c
  end.

Section While.
Context {S St R : Type} (ok : crash -> Prop).
Implicit Types (body : St -> M S (St + R)).

Lemma wpc_bind {A B} (m : M S A) (f : A -> M S B) (Q : B -> S -> Prop) s :
  wpc ok m (fun a => wpc ok (f a) Q) s -> wpc ok (m ≫= f) Q s.
Proof. unfold wpc, mbind, M_bind. by destruct (m s). Qed.

Lemma wpc_mono {A} (m : M S A) (P Q : A -> S -> Prop) s :
  wpc ok m P s -> (forall a s', P a s' -> Q a s') -> wpc ok m Q s.
Proof. unfold wpc. destruct (m s); naive_solver. Qed.

Lemma wpc_eq {A} (m : M S A) (Q : A -> S -> Prop) s a s' : m s = Done a s' -> Q a s' -> wpc ok m Q s.
Proof. unfold wpc. by intros ->. Qed.

Lemma wpc_cases {A} (m : M S A) (Q : A -> S -> Prop) s :
  wpc ok m Q s <-> (exists c, m s = Crash c /\ ok c) \/ exists a s', m s = Done a s' /\ Q a s'.
Proof. unfold wpc. destruct (m s); naive_solver. Qed.

Lemma wpc_crashed {A} c (Q : A -> S -> Prop) s : ok c -> wpc ok (crashed c) Q s.
Proof. done. Qed.

Lemma wpe_tolerated {A} (m : M S A) (Q : A -> S -> Prop) s : ok Exited -> wpe m Q s -> wpc ok m Q s.
Proof. unfold wpe, wpc. destruct (m s); [done|]. by intros ? ->. Qed.

(** Each round keeps [I] and lowers the measure, or ends with [Q]. *)
Definition round_ok (I : Z -> St -> S -> Prop) (Q : R -> S -> Prop) (z : Z) (r : St + R) (s : S) : Prop :=
  match r with inl st => exists z', 0 <= z' < z /\ I z' st s | inr r => Q r s end.

(** The same after [n] rounds. *)
Definition rounds_ok (I : Z -> St -> S -> Prop) (Q : R -> S -> Prop) (n : positive) (z : Z)
    (r : St + R) (s : S) : Prop :=
  match r with inl st => exists z', 0 <= z' /\ z' + Z.pos n <= z /\ I z' st s | inr r => Q r s end.

Lemma repeat_until_wpc body (I : Z -> St -> S -> Prop) (Q : R -> S -> Prop) :
  (forall z st s, I z st s -> wpc ok (body st) (round_ok I Q z) s) ->
  forall n z st s, I z st s -> wpc ok (repeat_until n body st) (rounds_ok I Q n z) s.
Proof.
  intros Hbody.
  assert (Htwice : forall p z st s,
    (forall z st s, I z st s -> wpc ok (repeat_until p body st) (rounds_ok I Q p z) s) -> I z st s ->
    wpc ok (r ← repeat_until p body st; match r with inl st => repeat_until p body st | inr r => mret (inr r) end)
      (rounds_ok I Q p~0 z) s).
  { intros p z st s IH HI. apply wpc_bind. eapply wpc_mono; [by apply IH|].
    intros [st2|r] s2; [|done]. intros (z2 & Hz2 & Hle & HI2).
    eapply wpc_mono; [by apply IH|]. intros [st3|r] s3; [|done]. intros (z3 & ? & ? & ?). exists z3.
    split_and!; [done|lia|done]. }
  intros n. induction n as [p IH|p IH|]; intros z st s HI; cbn [repeat_until].
  - apply wpc_bind. eapply wpc_mono; [by apply Hbody|]. intros [st1|r] s1; [|done].
    intros (z1 & Hz1 & HI1). eapply wpc_mono; [by apply Htwice|].
    intros [st3|r] s3; [|done]. intros (z3 & ? & ? & ?). exists z3. split_and!; [done|lia|done].
  - by apply Htwice.
  - eapply wpc_mono; [by apply Hbody|]. intros [st1|r] s1; [|done]. intros (z1 & ? & ?). exists z1.
    split_and!; [lia|lia|done].
Qed.

Lemma wpc_while body (I : Z -> St -> S -> Prop) (Q : R -> S -> Prop) z st s :
  (forall z st s, I z st s -> wpc ok (body st) (round_ok I Q z) s) ->
  I z st s -> z < Z.pos LOOP_BOUND -> wpc ok (while_loop body st) Q s.
Proof.
  intros Hbody HI Hz. unfold while_loop. apply wpc_bind.
  eapply wpc_mono; [by eapply repeat_until_wpc|]. intros [st'|r] s'; [|done].
  intros (z' & ? & ? & _). lia.
Qed.
End While.

Lemma wp_wpc {S A} (m : M S A) (Q : A -> S -> Prop) s : wp m Q s <-> wpc (fun _ => False) m Q s.
Proof. done. Qed.
Lemma wpe_wpc {S A} (m : M S A) (Q : A -> S -> Prop) s : wpe m Q s <-> wpc (fun c => c = Exited) m Q s.
Proof. done. Qed.

Lemma wp_while {S St R} (body : St -> M S (St + R)) (I : Z -> St -> S -> Prop) (Q : R -> S -> Prop) z st s :
  (forall z st s, I z st s -> wp (body st) (round_ok I Q z) s) ->
  I z st s -> z < Z.pos LOOP_BOUND -> wp (while_loop body st) Q s.
Proof. intros Hb HI Hz. apply wp_wpc. eapply wpc_while; [|exact HI|exact Hz]. intros. by apply wp_wpc, Hb. Qed.

Lemma wpe_while {S St R} (body : St -> M S (St + R)) (I : Z -> St -> S -> Prop) (Q : R -> S -> Prop) z st s :
  (forall z st s, I z st s -> wpe (body st) (round_ok I Q z) s) ->
  I z st s -> z < Z.pos LOOP_BOUND -> wpe (while_loop body st) Q s.
Proof. intros Hb HI Hz. apply wpe_wpc. eapply wpc_while; [|exact HI|exact Hz]. intros. by apply wpe_wpc, Hb. Qed.

(** A run of the loop, round by round. *)
Inductive loops {S St R} (body : St -> M S (St + R)) : nat -> St -> S -> R -> S -> Prop :=
  | loops_end st s r s' : body st s = Done (inr r) s' -> loops body O st s r s'
  | loops_next n st s st1 s1 r s' :
      body st s = Done (inl st1) s1 -> loops body n st1 s1 r s' -> loops body (Datatypes.S n) st s r s'.

Lemma while_loops {S St R} (body : St -> M S (St + R)) n st s r s' :
  loops body n st s r s' -> Z.of_nat n < Z.pos LOOP_BOUND -> while_loop body st s = Done r s'.
Proof.
  intros Hl Hn.
  assert (Hw : wp (while_loop body st) (fun r1 s1 => r1 = r /\ s1 = s') s).
  { eapply (wp_while body (fun z st s => exists k, z = Z.of_nat k /\ loops body k st s r s')); [|by exists n|done].
    intros z st0 s0 (k & -> & Hk). inversion Hk as [? ? ? ? E|? ? ? ? ? ? ? E Hk']; subst; (eapply wp_eq; [exact E|]).
    - done.
    - eexists. split; [|eexists; split; [reflexivity|exact Hk']]. lia. }
  apply wp_done in Hw as (? & ? & E & -> & ->). exact E.
Qed.

Global Opaque while_loop.

(** ** Little-endian fields of C structures *)

Definition is_byte (z : Z) : Prop := 0 <= z < 256.

Fixpoint le_bytes (n : nat) (z : Z) : bytes :=
  match n with
  | O => []
  | S n' => z mod 256 :: le_bytes n' (z / 256)
  end.

Fixpoint le_val (bs : bytes) : Z :=
  match bs with
  | [] => 0
  | b :: bs' => b + 256 * le_val bs'
  end.

(** Reads an integer field of [n] bytes, or [n] raw bytes, off the front. *)
Definition field (n : nat) (b : bytes) : Z * bytes := (le_val (take n b), drop n b).
Definition raw (n : nat) (b : bytes) : bytes * bytes := (take n b, drop n b).

Lemma length_le_bytes n z : length (le_bytes n z) = n.
Proof. revert z; induction n; intros; simpl; auto. Qed.

Lemma le_bytes_byte n z : Forall is_byte (le_bytes n z).
Proof.
  revert z; induction n as [|n IH]; intros z; simpl; constructor; [|done].
  apply Z.mod_pos_bound; lia.
Qed.

Lemma le_val_le_bytes n z : le_val (le_bytes n z) = z mod 2 ^ (8 * Z.of_nat n).
Proof.
  revert z; induction n as [|n IH]; intros z; simpl.
  - by rewrite Z.mod_1_r.
  - rewrite IH. replace (8 * Z.of_nat (S n)) with (8 + 8 * Z.of_nat n) by lia.
    rewrite Z.pow_add_r by lia. change (2 ^ 8) with 256.
    rewrite Z.rem_mul_r by lia. lia.
Qed.

Lemma le_bytes_le_val bs : Forall is_byte bs -> le_bytes (length bs) (le_val bs) = bs.
Proof.
  induction 1 as [|b bs [Hb1 Hb2] _ IH]; [done|]; simpl.
  rewrite (Z.add_comm b), (Z.mul_comm 256), Z.div_add_l by lia.
  rewrite Z.div_small, Z.add_0_r, IH by lia. f_equal.
  rewrite Z.add_comm, Z.mod_add by lia. by apply Z.mod_small.
Qed.

Lemma le_val_bound bs :
  Forall is_byte bs -> 0 <= le_val bs < 2 ^ (8 * Z.of_nat (length bs)).
Proof.
  induction 1 as [|b bs [Hb1 Hb2] _ IH]; simpl; [lia|].
  replace (8 * Z.of_nat (S (length bs))) with (8 + 8 * Z.of_nat (length bs)) by lia.
  rewrite Z.pow_add_r by lia. change (2 ^ 8) with 256. lia.
Qed.

Lemma field_le n z rest :
  0 <= z < 2 ^ (8 * Z.of_nat n) -> field n (le_bytes n z ++ rest) = (z, rest).
Proof.
  intros Hz. unfold field.
  rewrite take_app_length', drop_app_length' by (symmetry; apply length_le_bytes).
  by rewrite le_val_le_bytes, Z.mod_small.
Qed.

Lemma field_le_last n z :
  0 <= z < 2 ^ (8 * Z.of_nat n) -> field n (le_bytes n z) = (z, []).
Proof. intros Hz. rewrite <- (app_nil_r (le_bytes n z)). by apply field_le. Qed.

Lemma raw_app n bs rest : length bs = n -> raw n (bs ++ rest) = (bs, rest).
Proof. intros <-. unfold raw. by rewrite take_app_length, drop_app_length. Qed.

Lemma field_inv n b v rest :
  field n b = (v, rest) -> (n <= length b)%nat -> Forall is_byte b ->
  b = le_bytes n v ++ rest /\ 0 <= v < 2 ^ (8 * Z.of_nat n) /\
  Forall is_byte rest /\ length b = (n + length rest)%nat.
Proof.
  intros [= <- <-] Hn Hb.
  assert (Hl : length (take n b) = n) by (rewrite length_take; lia).
  assert (Ht : Forall is_byte (take n b)) by by apply Forall_take.
  repeat split.
  - rewrite <- Hl at 1. rewrite le_bytes_le_val by done. by rewrite take_drop.
  - by apply le_val_bound.
  - rewrite <- Hl at 2. by apply le_val_bound.
  - by apply Forall_drop.
  - rewrite length_drop; lia.
Qed.

Lemma raw_inv n b v rest :
  raw n b = (v, rest) -> (n <= length b)%nat -> Forall is_byte b ->
  b = v ++ rest /\ length v = n /\ Forall is_byte rest /\ length b = (n + length rest)%nat.
Proof.
  intros [= <- <-] Hn Hb. rewrite take_drop, length_take, length_drop.
  repeat split; [lia|by apply Forall_drop|lia].
Qed.

Global Arguments le_bytes : simpl never.
Global Arguments field : simpl never.
Global Arguments raw : simpl never.

(** ** Permutations of lists of objects *)

Section Perm.
Context {A : Type}.
Implicit Types (l r t : list A).
Lemma perm_cancel_app l t r l2 : l2 ≡ₚ l ++ r -> t ≡ₚ r -> l ++ t ≡ₚ l2.
Proof. by intros -> ->. Qed.
Lemma perm_cancel_cons x t r l2 : l2 ≡ₚ x :: r -> t ≡ₚ r -> x :: t ≡ₚ l2.
Proof. by intros -> ->. Qed.
Lemma perm_seg_app l l' t r : t ≡ₚ l ++ r -> l' ++ t ≡ₚ l ++ (l' ++ r).
Proof. intros ->. apply Permutation_app_swap_app. Qed.
Lemma perm_seg_cons l b t r : t ≡ₚ l ++ r -> b :: t ≡ₚ l ++ (b :: r).
Proof. intros ->. apply Permutation_middle. Qed.
Lemma perm_elem_app x l' t r : t ≡ₚ x :: r -> l' ++ t ≡ₚ x :: (l' ++ r).
Proof. intros ->. symmetry. apply Permutation_middle. Qed.
Lemma perm_elem_cons x b t r : t ≡ₚ x :: r -> b :: t ≡ₚ x :: (b :: r).
Proof. intros ->. apply perm_swap. Qed.
Lemma perm_close l l' : l ++ [] ≡ₚ l' ++ [] -> l ≡ₚ l'.
Proof. by rewrite !app_nil_r. Qed.
End Perm.

(** Brings a segment or an element to the front: [l ≡ₚ x :: ?rest]. *)
Ltac perm_front :=
  first
    [ reflexivity
    | lazymatch goal with
      | |- _ ++ _ ≡ₚ _ ++ _ => apply perm_seg_app
      | |- _ :: _ ≡ₚ _ ++ _ => apply perm_seg_cons
      | |- _ ++ _ ≡ₚ _ :: _ => apply perm_elem_app
      | |- _ :: _ ≡ₚ _ :: _ => apply perm_elem_cons
      end; perm_front ].

Ltac perm_loop :=
  lazymatch goal with
  | |- [] ≡ₚ _ => reflexivity
  | |- _ :: _ ≡ₚ _ => eapply perm_cancel_cons; [perm_front|perm_loop]
  | |- _ ++ _ ≡ₚ _ => eapply perm_cancel_app; [perm_front|perm_loop]
  end.

(** Solves permutations between concatenations of the same parts. *)
Ltac perm_solve :=
  apply perm_close;
  repeat (rewrite <- app_assoc || rewrite <- app_comm_cons || rewrite app_nil_l); perm_loop.
