(* ===== verification/Kernel.v ===== *)
(** * The kernel environment

    The primitives of the kernel the drivers are written against: user
    memory and the copies from and to it, the allocator, page pinning and the
    random generator.  What the environment decides (which pages are mapped,
    which allocations succeed, which random words come out) is part of the
    state, so every theorem quantifies over it. *)
From stdpp Require Import base gmap gmultiset list strings numbers.
From S2P Require Import Prelude.
Open Scope Z_scope.

Definition PAGE_SHIFT : Z := 12.
Definition PAGE_SIZE : Z := 4096.

(** End of the user half of the address space (x86-64). *)
Definition TASK_SIZE : Z := 2 ^ 47 - PAGE_SIZE.

(** What [poll] reports. *)
Definition POLLIN : Z := 1.
Definition POLLOUT : Z := 4.
Definition POLLRDNORM : Z := 64.
Definition POLLWRNORM : Z := 256.
Definition POLLHUP : Z := 16.

(** ** Memory

    One address space of bytes.  A page is identified with its virtual page
    number; [m_pages] holds the mapped user pages with their write
    permission. *)
Record mem := Mem { m_pages : gmap Z bool; m_bytes : gmap Z Z }.

Definition page_of (a : Z) : Z := a / PAGE_SIZE.

Definition peek (m : mem) (a : Z) : Z := default 0 (m_bytes m !! a).
Definition poke (a v : Z) (m : mem) : mem := Mem (m_pages m) (<[a := v]> (m_bytes m)).

Definition peeks (m : mem) (l : list Z) : bytes := peek m <$> l.

(** Stores [bs] at the addresses [l], in order. *)
Fixpoint pokes (l : list Z) (bs : bytes) (m : mem) : mem :=
  match l, bs with
  | a :: l', b :: bs' => pokes l' bs' (poke a b m)
  | _, _ => m
  end.

Definition readable (m : mem) (a : Z) : bool :=
  (0 <=? a) && (a <? TASK_SIZE) &&
  match m_pages m !! page_of a with Some _ => true | None => false end.
Definition writable (m : mem) (a : Z) : bool :=
  (0 <=? a) && (a <? TASK_SIZE) &&
  match m_pages m !! page_of a with Some w => w | None => false end.

(** The addresses an access touches before it faults. *)
Fixpoint upto_fault (ok : Z -> bool) (l : list Z) : list Z :=
  match l with
  | a :: l' => if ok a then a :: upto_fault ok l' else []
  | [] => []
  end.

Definition access_ok (a n : Z) : bool := (0 <=? a) && (a + n <=? TASK_SIZE).

(** ** The environment *)

(** Kinds of kernel objects. *)
Inductive kobj :=
  | OSession | OPageArray | OSgArray | OTfm | ORequest | OResult | OItem | OPriv | OFreePage
  | OBuffer | OPortdev | OPort | OPortBuf | OVqArray | OCdev | ODevice | OHvc | ODentry.

Global Instance kobj_eq_dec : EqDecision kobj.
Proof. solve_decision. Defined.

Record env := Env {
  e_mem : mem;
  e_user : bool;            (** running in the context of the calling process *)
  e_allocs : list bool;     (** outcomes of the next allocations; all succeed after that *)
  e_rng : list Z;           (** the next random words *)
  e_fds : list Z;           (** results of the next [get_unused_fd] calls *)
  e_heap : gmap Z kobj;     (** the live kernel objects *)
  e_next : Z;               (** the address the next object gets *)
  e_pins : gmultiset Z;     (** user pages held by [get_user_pages] *)
  e_junk : Z                (** what uninitialised memory reads as *)
}.

Definition set_mem (f : mem -> mem) (e : env) : env :=
  Env (f (e_mem e)) (e_user e) (e_allocs e) (e_rng e) (e_fds e) (e_heap e) (e_next e) (e_pins e) (e_junk e).
Definition set_allocs (l : list bool) (e : env) : env :=
  Env (e_mem e) (e_user e) l (e_rng e) (e_fds e) (e_heap e) (e_next e) (e_pins e) (e_junk e).
Definition set_rng (l : list Z) (e : env) : env :=
  Env (e_mem e) (e_user e) (e_allocs e) l (e_fds e) (e_heap e) (e_next e) (e_pins e) (e_junk e).
Definition set_fds (l : list Z) (e : env) : env :=
  Env (e_mem e) (e_user e) (e_allocs e) (e_rng e) l (e_heap e) (e_next e) (e_pins e) (e_junk e).
Definition set_heap (f : gmap Z kobj -> gmap Z kobj) (e : env) : env :=
  Env (e_mem e) (e_user e) (e_allocs e) (e_rng e) (e_fds e) (f (e_heap e)) (e_next e) (e_pins e) (e_junk e).
Definition set_next (n : Z) (e : env) : env :=
  Env (e_mem e) (e_user e) (e_allocs e) (e_rng e) (e_fds e) (e_heap e) n (e_pins e) (e_junk e).
Definition set_pins (f : gmultiset Z -> gmultiset Z) (e : env) : env :=
  Env (e_mem e) (e_user e) (e_allocs e) (e_rng e) (e_fds e) (e_heap e) (e_next e) (f (e_pins e)) (e_junk e).
Definition set_user (b : bool) (e : env) : env :=
  Env (e_mem e) b (e_allocs e) (e_rng e) (e_fds e) (e_heap e) (e_next e) (e_pins e) (e_junk e).

(** Kernel code: the environment and the object [X] it works on. *)
Definition K (X A : Type) : Type := M (env * X) A.

Section Primitives.
Context {X : Type}.

Definition getx : K X X := fun s => Done s.2 s.
Definition setx (x : X) : K X unit := fun s => Done tt (s.1, x).
Definition modx (f : X -> X) : K X unit := fun s => Done tt (s.1, f s.2).
Definition gete : K X env := fun s => Done s.1 s.
Definition mode (f : env -> env) : K X unit := fun s => Done tt (f s.1, s.2).

(** [kmalloc], [kzalloc], [__get_free_page] and the allocation of transforms
    and requests: NULL, or the address of a new object.  Every object gets
    pages of its own. *)
Definition kalloc (k : kobj) : K X Z :=
  e ← gete;
  match e_allocs e with
  | false :: l => mode (set_allocs l);; mret 0
  | l =>
      mode (fun e => set_next (e_next e + PAGE_SIZE)
                       (set_heap <[e_next e := k]> (set_allocs (tail l) e)));;
      mret (e_next e)
  end.

(** [kmalloc] of [n] bytes: as many pages as they take. *)
Definition kmalloc (n : Z) (k : kobj) : K X Z :=
  p ← kalloc k;
  (if p =? 0 then mret tt
   else mode (fun e => set_next (e_next e + PAGE_SIZE * (Z.max 0 (n - 1) / PAGE_SIZE)) e));;
  mret p.

(** [kfree] and the other release functions; NULL is ignored. *)
Definition kfree (p : Z) : K X unit :=
  if p =? 0 then mret tt
  else e ← gete;
    match e_heap e !! p with
    | Some _ => mode (set_heap (delete p))
    | None => crashed DoubleFree
    end.

(** Access to a kernel object through a pointer. *)
Definition touch (p : Z) : K X unit :=
  e ← gete;
  match e_heap e !! p with
  | Some _ => mret tt
  | None => crashed UseAfterFree
  end.

(** [copy_from_user]: the bytes that arrive (zero padded) and the number of
    bytes that could not be copied. *)
Definition copy_from_user (a n : Z) : K X (bytes * Z) :=
  e ← gete;
  if negb (e_user e) then crashed BadContext
  else
    let l := if access_ok a n then upto_fault (readable (e_mem e)) (seqZ a n) else [] in
    let left := n - Z.of_nat (length l) in
    mret (peeks (e_mem e) l ++ replicate (Z.to_nat left) 0, left).

(** [copy_to_user]: the number of bytes that could not be copied; the bytes
    before the fault are written. *)
Definition copy_to_user (a : Z) (bs : bytes) : K X Z :=
  e ← gete;
  if negb (e_user e) then crashed BadContext
  else
    let n := Z.of_nat (length bs) in
    let l := if access_ok a n then upto_fault (writable (e_mem e)) (seqZ a n) else [] in
    mode (set_mem (pokes l bs));;
    mret (n - Z.of_nat (length l)).

(** [get_user] and [put_user] of a 32-bit value: one access, which happens
    completely or not at all. *)
Definition get_user (a : Z) : K X (Z * Z) :=
  e ← gete;
  if negb (e_user e) then crashed BadContext
  else
    let l := seqZ a 4 in
    if forallb (readable (e_mem e)) l then mret (le_val (peeks (e_mem e) l), 0)
    else mret (0, - EFAULT).
Definition put_user (v a : Z) : K X Z :=
  e ← gete;
  if negb (e_user e) then crashed BadContext
  else
    let l := seqZ a 4 in
    if forallb (writable (e_mem e)) l then
      mode (set_mem (pokes l (le_bytes 4 v)));; mret 0
    else mret (- EFAULT).

(** [get_user_pages]: pins the pages from that of [a] on, up to the first
    one that is not mapped (or not writable); the pages pinned. *)
Definition get_user_pages (a pgcount : Z) (write : bool) : K X (list Z) :=
  e ← gete;
  let ok p := (if write then writable else readable) (e_mem e) (p * PAGE_SIZE) in
  let l := upto_fault ok (seqZ (page_of a) pgcount) in
  mode (set_pins (fun s => list_to_set_disj l ⊎ s));;
  mret l.

(** [page_cache_release] *)
Definition page_cache_release (p : Z) : K X unit :=
  e ← gete;
  if decide (p ∈ e_pins e) then mode (set_pins (fun s => s ∖ {[+ p +]}))
  else crashed UseAfterFree.
End Primitives.

(** Runs [m] on an object of its own, such as a local variable. *)
Definition on_local {X Y A} (y : Y) (m : K Y A) : K X (A * Y) := fun s =>
  match m (s.1, y) with
  | Done a (e, y') => Done (a, y') (e, s.2)
  | Crash c => Crash c
  end.
