(* ===== verification/KernelFacts.v ===== *)
(** * Reasoning about kernel code

    Ownership of kernel objects, specifications of the primitives, and the
    tactics the component proofs use. *)
From stdpp Require Import base gmap gmultiset list strings numbers.
From S2P Require Import Prelude Kernel.
Open Scope Z_scope.

(** ** Ownership

    [owns e l]: the live objects are exactly those of [l], each once.  A
    specification that takes [owns e (mine ++ rest)] to [owns e' (mine' ++ rest)]
    for every [rest] says that the code touches no object but its own, frees
    nothing twice and leaks nothing. *)
Definition owns (e : env) (l : list (Z * kobj)) : Prop :=
  NoDup l.*1 /\ e_heap e = list_to_map l.

(** The allocator never hands an address out twice, nor NULL, and never one
    of user space; every object has pages of its own. *)
Record env_ok (e : env) : Prop := {
  env_next : TASK_SIZE <= e_next e;
  env_aligned : e_next e mod PAGE_SIZE = 0;
  env_heap : forall a k, e_heap e !! a = Some k ->
    TASK_SIZE <= a < e_next e /\ a mod PAGE_SIZE = 0
}.

Lemma owns_perm e l l' : l ≡ₚ l' -> owns e l -> owns e l'.
Proof.
  intros Hp [Hn Hh]. split; [by rewrite <- Hp|].
  rewrite Hh. by apply list_to_map_proper.
Qed.

Global Instance owns_proper e : Proper ((≡ₚ) ==> iff) (owns e).
Proof. intros l l' Hp. split; by apply owns_perm. Qed.

Lemma owns_lookup e l a k : owns e l -> (a, k) ∈ l -> e_heap e !! a = Some k.
Proof. intros [Hn ->] Hin. by apply elem_of_list_to_map. Qed.

Lemma owns_nonnull e l a k : env_ok e -> owns e l -> (a, k) ∈ l -> a <> 0.
Proof.
  intros He Ho Hin. pose proof (env_heap _ He _ _ (owns_lookup _ _ _ _ Ho Hin)).
  unfold TASK_SIZE, PAGE_SIZE in *. lia.
Qed.

(** Everything but the allocator's state is the same. *)
Record same_world (e e' : env) : Prop := {
  sw_mem : e_mem e' = e_mem e;
  sw_user : e_user e' = e_user e;
  sw_rng : e_rng e' = e_rng e;
  sw_fds : e_fds e' = e_fds e;
  sw_pins : e_pins e' = e_pins e;
  sw_junk : e_junk e' = e_junk e;
  sw_allocs : e_allocs e = [] -> e_allocs e' = []
}.

Global Instance same_world_refl : Reflexive same_world.
Proof. by constructor. Qed.
Global Instance same_world_trans : Transitive same_world.
Proof. intros e1 e2 e3 [] []. constructor; try congruence; auto. Qed.

(** ** Tactics *)

Create HintDb kernel discriminated.
#[export] Hint Resolve same_world_refl same_world_trans : kernel.

(** Runs the primitives that only read or replace the state. *)
Ltac kstep :=
  lazymatch goal with
  | |- wp (mret _) _ _ => apply wp_ret
  | |- wp (_ ≫= _) _ _ => apply wp_bind
  | |- wp getx _ _ => apply wp_ret
  | |- wp gete _ _ => apply wp_ret
  | |- wp (modx _) _ _ => apply wp_ret
  | |- wp (mode _) _ _ => apply wp_ret
  | |- wp (setx _) _ _ => apply wp_ret
  end; cbn [fst snd].
Ltac ksteps := repeat kstep.

(** The same, also past tests of a result that is known to be 0, or not. *)
Ltac kred :=
  first [ progress (change (0 =? 0) with true; cbn [negb])
        | match goal with
          | H : ?p <> 0 |- wp ?m _ _ =>
              match m with context [p =? 0] => rewrite (proj2 (Z.eqb_neq p 0) H); cbn [negb] end
          end ].
Ltac kgo := repeat (kstep || kred).

(** Continues after a call with a specification. *)
Ltac kapply H := eapply wp_mono; [eapply H|].

(** ** Specifications of the primitives *)

Section Specs.
Context {X : Type}.
Implicit Types (e : env) (x : X).

Lemma kalloc_spec e x k l (Q : Z -> env * X -> Prop) :
  env_ok e -> owns e l ->
  (forall e', same_world e e' -> env_ok e' -> owns e' l -> e_allocs e <> [] -> Q 0 (e', x)) ->
  (forall p e', same_world e e' -> env_ok e' -> owns e' ((p, k) :: l) -> p <> 0 ->
     TASK_SIZE <= p -> p mod PAGE_SIZE = 0 -> Q p (e', x)) ->
  wp (kalloc k) Q (e, x).
Proof.
  intros He [Hn Hh] H0 H1. destruct He as [Hnext Hal Hheap].
  unfold kalloc. ksteps.
  assert (Hfresh : wp (mode (fun e' => set_next (e_next e' + PAGE_SIZE)
             (set_heap <[e_next e' := k]> (set_allocs (tail (e_allocs e)) e')));; mret (e_next e))
             Q (e, x)).
  { ksteps. apply H1; simpl.
    - constructor; simpl; try done. by intros ->.
    - constructor; simpl.
      + unfold PAGE_SIZE; lia.
      + rewrite <- Z.add_mod_idemp_l, Hal by done. done.
      + intros a k' Hl. destruct (decide (a = e_next e)) as [->|Hne].
        * split; [unfold PAGE_SIZE; lia|done].
        * rewrite lookup_insert_ne in Hl by done. destruct (Hheap _ _ Hl).
          split; [unfold PAGE_SIZE in *; lia|done].
    - split; [|simpl; by rewrite Hh]. csimpl. constructor; [|done].
      intros ([a k'] & Heq & Hin)%list_elem_of_fmap. simpl in Heq.
      assert (Hl : e_heap e !! a = Some k') by (rewrite Hh; by apply elem_of_list_to_map).
      apply Hheap in Hl. lia.
    - unfold TASK_SIZE, PAGE_SIZE in *; lia.
    - done.
    - done. }
  revert Hfresh. destruct (e_allocs e) as [|[] al] eqn:Ha; intros Hfresh; [exact Hfresh|exact Hfresh|].
  ksteps. apply H0; [constructor; simpl; congruence| |by split|done].
  constructor; done.
Qed.

Lemma kmalloc_spec n e x k l (Q : Z -> env * X -> Prop) :
  env_ok e -> owns e l ->
  (forall e', same_world e e' -> env_ok e' -> owns e' l -> e_allocs e <> [] -> Q 0 (e', x)) ->
  (forall p e', same_world e e' -> env_ok e' -> owns e' ((p, k) :: l) -> p <> 0 ->
     TASK_SIZE <= p -> p mod PAGE_SIZE = 0 -> Q p (e', x)) ->
  wp (kmalloc n k) Q (e, x).
Proof.
  intros He Ho H0 H1. unfold kmalloc. apply wp_bind. eapply kalloc_spec; [exact He|exact Ho|..].
  - intros e' Hw He' Ho' Ha. rewrite Z.eqb_refl. ksteps. by apply H0.
  - intros p e' Hw He' Ho' Hp Ht Hm. rewrite (proj2 (Z.eqb_neq p 0)) by done. ksteps. apply H1; try done.
    + by destruct Hw.
    + destruct He' as [Hn Hal Hh]. pose proof (Z.div_pos (Z.max 0 (n - 1)) PAGE_SIZE ltac:(lia) ltac:(done)). split; cbn.
      * unfold PAGE_SIZE in *. lia.
      * by rewrite Z.mul_comm, Z_mod_plus_full.
      * intros a k' Hl. destruct (Hh a k' Hl). unfold PAGE_SIZE in *. lia.
Qed.

Lemma kfree_spec e x p k l (Q : unit -> env * X -> Prop) :
  env_ok e -> owns e ((p, k) :: l) ->
  (forall e', same_world e e' -> env_ok e' -> owns e' l -> Q tt (e', x)) ->
  wp (kfree p) Q (e, x).
Proof.
  intros He Ho HQ. unfold kfree.
  assert (Hl : e_heap e !! p = Some k) by (eapply owns_lookup; [done|left]).
  assert (Hp : p <> 0) by (eapply owns_nonnull; [done..|left]).
  apply Z.eqb_neq in Hp as ->. ksteps. rewrite Hl. ksteps.
  destruct Ho as [Hn Hh]. csimpl in Hn. apply list.NoDup_cons in Hn as [Hnin Hn].
  apply HQ; [by constructor| |].
  - destruct He. constructor; simpl; try done.
    intros a k' [_ Ha]%lookup_delete_Some. eauto.
  - split; [done|]. simpl. rewrite Hh. simpl.
    rewrite delete_insert_id; [done|]. by apply not_elem_of_list_to_map.
Qed.

Lemma kfree_null e x (Q : unit -> env * X -> Prop) : Q tt (e, x) -> wp (kfree 0) Q (e, x).
Proof. done. Qed.

Lemma touch_spec e x p k l (Q : unit -> env * X -> Prop) :
  owns e l -> (p, k) ∈ l -> Q tt (e, x) -> wp (touch p) Q (e, x).
Proof. intros Ho Hin HQ. unfold touch. ksteps. by rewrite (owns_lookup _ _ _ _ Ho Hin). Qed.
End Specs.

(** An allocation: the goal for NULL, and the one for a new object [p]. *)
Ltac kalloc_as p e' :=
  eapply kalloc_spec; [eassumption|eassumption|intros|intros p e' ? ? ? ? ? ?].
Ltac kalloc_with p e' Hw He Ho :=
  eapply kalloc_spec; [eassumption|eassumption|intros e' Hw He Ho ?|intros p e' Hw He Ho ? ? ?].

(** Frees an object that is among those owned, or NULL. *)
Ltac kfree_one :=
  lazymatch goal with
  | |- wp (kfree 0) _ _ => apply kfree_null
  | Ho : owns ?e _ |- wp (kfree _) _ (?e, _) =>
      eapply kfree_spec; [eassumption|eapply owns_perm; [|exact Ho]; perm_front|];
      clear Ho; intros
  end.

(** Running code on a local object. *)
Lemma on_local_spec {X Y A} (e : env) (x : X) (y : Y) (m : K Y A) Q :
  wp m (fun a s => Q (a, s.2) (s.1, x)) (e, y) -> wp (on_local y m) Q (e, x).
Proof. unfold wp, on_local. simpl. by destruct (m (e, y)) as [a [e' y']|]. Qed.

(** ** Memory *)

Lemma peek_poke_eq a v m : peek (poke a v m) a = v.
Proof. unfold peek, poke. simpl. by rewrite lookup_insert_eq. Qed.
Lemma peek_poke_ne a b v m : a <> b -> peek (poke a v m) b = peek m b.
Proof. intros. unfold peek, poke. simpl. by rewrite lookup_insert_ne. Qed.

Lemma peek_pokes_notin l bs m a : a ∉ l -> peek (pokes l bs m) a = peek m a.
Proof.
  revert bs m. induction l as [|b l IH]; intros [|v bs] m Hin; simpl; try done.
  apply not_elem_of_cons in Hin as [Hne Hin].
  rewrite IH by done. by apply peek_poke_ne.
Qed.

Lemma peeks_pokes_disj l l' bs m : l ## l' -> peeks (pokes l' bs m) l = peeks m l.
Proof.
  intros Hd. unfold peeks. apply list_fmap_ext. intros i a Ha%list_elem_of_lookup_2.
  apply peek_pokes_notin. set_solver.
Qed.

Lemma peeks_pokes_eq l bs m :
  NoDup l -> length l = length bs -> peeks (pokes l bs m) l = bs.
Proof.
  revert bs m. induction l as [|a l IH]; intros [|v bs] m Hn Hl; try done.
  apply list.NoDup_cons in Hn as [Hin Hn]. simpl in *. injection Hl as Hl.
  rewrite IH by done. f_equal. rewrite peek_pokes_notin by done. apply peek_poke_eq.
Qed.

Lemma pokes_app l1 l2 bs1 bs2 m :
  length l1 = length bs1 ->
  pokes (l1 ++ l2) (bs1 ++ bs2) m = pokes l2 bs2 (pokes l1 bs1 m).
Proof.
  revert bs1 m. induction l1 as [|a l1 IH]; intros [|b bs1] m Hl; try done.
  simpl in *. apply IH. lia.
Qed.

Lemma pokes_pages l bs m : m_pages (pokes l bs m) = m_pages m.
Proof. revert bs m. induction l; intros [|b bs] m; simpl; try done. by rewrite IHl. Qed.

Lemma length_peeks m l : length (peeks m l) = length l.
Proof. apply length_fmap. Qed.

Lemma peeks_app m l1 l2 : peeks m (l1 ++ l2) = peeks m l1 ++ peeks m l2.
Proof. apply fmap_app. Qed.

(** Memory holds bytes. *)
Definition mem_ok (m : mem) : Prop := forall a, is_byte (peek m a).

Lemma peeks_bytes m l : mem_ok m -> Forall is_byte (peeks m l).
Proof. intros Hm. apply list.Forall_forall. intros x (a & -> & _)%list_elem_of_fmap. apply Hm. Qed.

Lemma readable_pages m m' a : m_pages m' = m_pages m -> readable m' a = readable m a.
Proof. unfold readable. by intros ->. Qed.
Lemma writable_pages m m' a : m_pages m' = m_pages m -> writable m' a = writable m a.
Proof. unfold writable. by intros ->. Qed.
Lemma writable_readable m a : writable m a = true -> readable m a = true.
Proof.
  unfold writable, readable. intros [-> Hw]%andb_prop. by destruct (m_pages m !! page_of a).
Qed.

(** A user buffer that can be read, or written, completely. *)
Definition range_readable (m : mem) (a n : Z) : Prop :=
  access_ok a n = true /\ forallb (readable m) (seqZ a n) = true.
Definition range_writable (m : mem) (a n : Z) : Prop :=
  access_ok a n = true /\ forallb (writable m) (seqZ a n) = true.

Lemma upto_fault_all ok l : forallb ok l = true -> upto_fault ok l = l.
Proof.
  induction l as [|a l IH]; simpl; [done|]. intros [-> Hl]%andb_prop. by rewrite IH.
Qed.

Lemma upto_fault_prefix ok l : upto_fault ok l `prefix_of` l.
Proof.
  induction l as [|a l IH]; simpl; [done|]. destruct (ok a); [by apply prefix_cons|by apply prefix_nil].
Qed.

Lemma upto_fault_length ok l : (length (upto_fault ok l) <= length l)%nat.
Proof. apply prefix_length, upto_fault_prefix. Qed.

Lemma upto_fault_full ok l : length (upto_fault ok l) = length l -> upto_fault ok l = l.
Proof. intros Hl. destruct (upto_fault_prefix ok l) as [k Hk]. rewrite Hk in Hl at 2.
  rewrite length_app in Hl. destruct k; simpl in Hl; [|lia]. by rewrite app_nil_r in Hk.
Qed.

(** What changes when only the contents of memory change. *)
Record same_env (e e' : env) : Prop := {
  se_pages : m_pages (e_mem e') = m_pages (e_mem e);
  se_user : e_user e' = e_user e;
  se_rng : e_rng e' = e_rng e;
  se_fds : e_fds e' = e_fds e;
  se_pins : e_pins e' = e_pins e;
  se_junk : e_junk e' = e_junk e;
  se_allocs : e_allocs e = [] -> e_allocs e' = []
}.

Global Instance same_env_refl : Reflexive same_env.
Proof. by constructor. Qed.
Global Instance same_env_trans : Transitive same_env.
Proof. intros e1 e2 e3 [] []. constructor; try congruence; auto. Qed.

Lemma same_world_env e e' : same_world e e' -> same_env e e'.
Proof. intros []. constructor; congruence || auto. Qed.

(** An environment that differs in the contents of its memory only. *)
Lemma same_env_mem e f : (forall m, m_pages (f m) = m_pages m) -> same_env e (set_mem f e).
Proof. intros Hf. constructor; simpl; auto. Qed.
Lemma env_ok_mem e f : env_ok e -> env_ok (set_mem f e).
Proof. intros []. by constructor. Qed.
Lemma owns_mem e f l : owns (set_mem f e) l <-> owns e l.
Proof. done. Qed.

#[export] Hint Resolve same_world_env same_env_refl same_env_trans : kernel.

Section CopySpecs.
Context {X : Type}.
Implicit Types (e : env) (x : X).

Lemma copy_from_user_spec e x a n (Q : bytes * Z -> env * X -> Prop) :
  e_user e = true -> 0 <= n ->
  (forall bs nleft, length bs = Z.to_nat n -> 0 <= nleft ->
     (nleft = 0 -> bs = peeks (e_mem e) (seqZ a n)) ->
     (range_readable (e_mem e) a n -> nleft = 0) ->
     Q (bs, nleft) (e, x)) ->
  wp (copy_from_user a n) Q (e, x).
Proof.
  intros Hu Hn HQ. unfold copy_from_user. ksteps. rewrite Hu. cbn [negb]. ksteps.
  set (l := if access_ok a n then _ else _).
  assert (Hl : (length l <= Z.to_nat n)%nat).
  { unfold l. destruct (access_ok a n); simpl; [|lia].
    etrans; [apply upto_fault_length|]. by rewrite length_seqZ. }
  apply HQ.
  - rewrite length_app, length_peeks, length_replicate. lia.
  - lia.
  - intros H0. assert (Hf : length l = Z.to_nat n) by lia.
    rewrite H0. simpl. rewrite app_nil_r. f_equal. unfold l in *.
    destruct (access_ok a n); simpl in *.
    + apply upto_fault_full. by rewrite length_seqZ.
    + symmetry. apply nil_length_inv. by rewrite length_seqZ.
  - intros [Ha Hr]. unfold l. rewrite Ha, (upto_fault_all _ _ Hr), length_seqZ. lia.
Qed.

Lemma copy_to_user_spec e x a bs (Q : Z -> env * X -> Prop) :
  e_user e = true ->
  (forall l nleft, l `prefix_of` seqZ a (Z.of_nat (length bs)) -> 0 <= nleft ->
     (nleft = 0 -> l = seqZ a (Z.of_nat (length bs))) ->
     (range_writable (e_mem e) a (Z.of_nat (length bs)) -> nleft = 0) ->
     Forall (fun b => writable (e_mem e) b = true) l ->
     Q nleft (set_mem (pokes l bs) e, x)) ->
  wp (copy_to_user a bs) Q (e, x).
Proof.
  intros Hu HQ. unfold copy_to_user. ksteps. rewrite Hu. cbn [negb]. ksteps.
  set (n := Z.of_nat (length bs)). set (l := if access_ok a n then _ else _).
  assert (Hp : l `prefix_of` seqZ a n).
  { unfold l. destruct (access_ok a n); [apply upto_fault_prefix|apply prefix_nil]. }
  assert (Hn : length (seqZ a n) = length bs) by (rewrite length_seqZ; unfold n; lia).
  pose proof (prefix_length _ _ Hp) as Hl.
  apply HQ; [done|unfold n; lia| | |].
  - intros H0. destruct Hp as [k Hk]. rewrite Hk in Hn. rewrite length_app in Hn.
    assert (k = []) as -> by (apply nil_length_inv; unfold n in H0; lia).
    by rewrite app_nil_r in Hk.
  - intros [Ha Hw]. unfold l. fold n in Ha, Hw. rewrite Ha, (upto_fault_all _ _ Hw), length_seqZ. unfold n; lia.
  - unfold l. destruct (access_ok a n); [|constructor].
    clear. induction (seqZ a n) as [|b k IH]; simpl; [constructor|].
    destruct (writable (e_mem e) b) eqn:E; by constructor.
Qed.

Lemma get_user_spec e x a (Q : Z * Z -> env * X -> Prop) :
  e_user e = true ->
  (forallb (readable (e_mem e)) (seqZ a 4) = true ->
     Q (le_val (peeks (e_mem e) (seqZ a 4)), 0) (e, x)) ->
  (forallb (readable (e_mem e)) (seqZ a 4) = false -> Q (0, - EFAULT) (e, x)) ->
  wp (get_user a) Q (e, x).
Proof.
  intros Hu H1 H0. unfold get_user. ksteps. rewrite Hu. cbn [negb].
  destruct (forallb _ _); ksteps; auto.
Qed.

Lemma put_user_spec e x v a (Q : Z -> env * X -> Prop) :
  e_user e = true ->
  (forallb (writable (e_mem e)) (seqZ a 4) = true ->
     Q 0 (set_mem (pokes (seqZ a 4) (le_bytes 4 v)) e, x)) ->
  (forallb (writable (e_mem e)) (seqZ a 4) = false -> Q (- EFAULT) (e, x)) ->
  wp (put_user v a) Q (e, x).
Proof.
  intros Hu H1 H0. unfold put_user. ksteps. rewrite Hu. cbn [negb].
  destruct (forallb _ _); ksteps; auto.
Qed.
End CopySpecs.

(** ** User memory *)

(** The two memories look the same from user space. *)
Definition user_eq (m m' : mem) : Prop := forall a, a < TASK_SIZE -> peek m a = peek m' a.

Global Instance user_eq_equiv : Equivalence user_eq.
Proof.
  split; [done|by intros m m' H a Ha; rewrite H|].
  intros m1 m2 m3 H1 H2 a Ha. by rewrite H1, H2.
Qed.

Lemma peek_pokes_ext l bs m m' a :
  peek m a = peek m' a -> peek (pokes l bs m) a = peek (pokes l bs m') a.
Proof.
  revert bs m m'. induction l as [|b l IH]; intros [|v bs] m m' Ha; simpl; try done. apply IH.
  destruct (decide (b = a)) as [->|]; [by rewrite !peek_poke_eq|by rewrite !peek_poke_ne].
Qed.

Global Instance pokes_user_eq l bs : Proper (user_eq ==> user_eq) (pokes l bs).
Proof. intros m m' Hm a Ha. by apply peek_pokes_ext, Hm. Qed.

Lemma user_eq_kernel data n bs m : TASK_SIZE <= data -> user_eq (pokes (seqZ data n) bs m) m.
Proof. intros Hd a Ha. apply peek_pokes_notin. rewrite elem_of_seqZ. lia. Qed.

Lemma peeks_user_eq m m' a n : a + n <= TASK_SIZE -> user_eq m m' -> peeks m (seqZ a n) = peeks m' (seqZ a n).
Proof.
  intros Ha Hm. unfold peeks. apply list_fmap_ext. intros i b Hb%list_elem_of_lookup_2.
  apply elem_of_seqZ in Hb. apply Hm. lia.
Qed.

Lemma seqZ_split a k n : 0 <= k <= n -> seqZ a n = seqZ a k ++ seqZ (a + k) (n - k).
Proof. intros. rewrite <- seqZ_app by lia. f_equal. lia. Qed.

Lemma seqZ_disjoint a n b k : a + n <= b \/ b + k <= a -> seqZ a n ## seqZ b k.
Proof. intros H x Hx%elem_of_seqZ Hy%elem_of_seqZ. lia. Qed.

Lemma range_readable_split m a k n :
  0 <= k <= n -> range_readable m a n -> range_readable m a k /\ range_readable m (a + k) (n - k).
Proof.
  intros Hk [Ha Hf]. rewrite (seqZ_split a k n), forallb_app in Hf by done.
  apply andb_prop in Hf as [? ?]. unfold range_readable, access_ok in *. split; (split; [lia|done]).
Qed.
Lemma range_writable_split m a k n :
  0 <= k <= n -> range_writable m a n -> range_writable m a k /\ range_writable m (a + k) (n - k).
Proof.
  intros Hk [Ha Hf]. rewrite (seqZ_split a k n), forallb_app in Hf by done.
  apply andb_prop in Hf as [? ?]. unfold range_writable, access_ok in *. split; (split; [lia|done]).
Qed.

Lemma range_readable_pages m m' a n :
  m_pages m' = m_pages m -> range_readable m a n -> range_readable m' a n.
Proof.
  intros Hp [Ha Hf]. split; [done|]. rewrite <- Hf. clear Hf.
  induction (seqZ a n) as [|x l IH]; simpl; [done|]. by rewrite IH, (readable_pages _ _ _ Hp).
Qed.
Lemma range_writable_pages m m' a n :
  m_pages m' = m_pages m -> range_writable m a n -> range_writable m' a n.
Proof.
  intros Hp [Ha Hf]. split; [done|]. rewrite <- Hf. clear Hf.
  induction (seqZ a n) as [|x l IH]; simpl; [done|]. by rewrite IH, (writable_pages _ _ _ Hp).
Qed.

Lemma range_readable_bounds m a n : range_readable m a n -> 0 <= a /\ a + n <= TASK_SIZE.
Proof. intros [Ha _]. unfold access_ok in Ha. lia. Qed.
Lemma range_writable_bounds m a n : range_writable m a n -> 0 <= a /\ a + n <= TASK_SIZE.
Proof. intros [Ha _]. unfold access_ok in Ha. lia. Qed.

Lemma writable_range m x n : range_writable m x n -> range_readable m x n.
Proof.
  intros [Ha Hf]. split; [done|]. rewrite forallb_forall in *. intros y Hy. by apply writable_readable, Hf.
Qed.

(** Storing what is there changes nothing. *)
Lemma pokes_peeks a n m x : peek (pokes (seqZ a n) (peeks m (seqZ a n)) m) x = peek m x.
Proof.
  destruct (decide (x ∈ seqZ a n)) as [Hx|Hx]; [|by apply peek_pokes_notin].
  assert (E : peeks (pokes (seqZ a n) (peeks m (seqZ a n)) m) (seqZ a n) = peeks m (seqZ a n)).
  { apply peeks_pokes_eq; [apply NoDup_seqZ|by rewrite length_peeks]. }
  apply list_elem_of_lookup in Hx as [i Hi]. 
  assert (E' := f_equal (fun l => l !! i) E). unfold peeks in E'. rewrite !list_lookup_fmap, Hi in E'. by injection E'.
Qed.

(** ** Blocks of bytes *)

(** The [n] bytes of a block from [off] on. *)
Definition sub (off n : Z) (R : bytes) : bytes := take (Z.to_nat n) (drop (Z.to_nat off) R).

Lemma sub_peeks m cr N off n : 0 <= off -> 0 <= n -> off + n <= N -> sub off n (peeks m (seqZ cr N)) = peeks m (seqZ (cr + off) n).
Proof.
  intros H0 Hn HN. unfold sub. rewrite (seqZ_split cr off N), peeks_app, drop_app_length' by (rewrite ?length_peeks, ?length_seqZ; lia).
  rewrite (seqZ_split (cr + off) n (N - off)), peeks_app, take_app_length' by (rewrite ?length_peeks, ?length_seqZ; lia). done.
Qed.

(** A field that is stored keeps its place, and later ones leave it alone. *)
Lemma peeks_stored x n bs m : 0 <= n -> Z.of_nat (length bs) = n -> peeks (pokes (seqZ x n) bs m) (seqZ x n) = bs.
Proof. intros Hn Hl. apply peeks_pokes_eq; [apply NoDup_seqZ|]. rewrite length_seqZ. lia. Qed.
Lemma peeks_apart x n y k bs m : x + n <= y \/ y + k <= x -> peeks (pokes (seqZ y k) bs m) (seqZ x n) = peeks m (seqZ x n).
Proof. intros Hd. by apply peeks_pokes_disj, seqZ_disjoint. Qed.

(** A part of a block that is replaced. *)
Definition splice (off : Z) (bs R : bytes) : bytes := take (Z.to_nat off) R ++ bs ++ drop (Z.to_nat (off + Z.of_nat (length bs))) R.

Lemma peeks_splice cr N off n bs m : 0 <= off -> 0 <= n -> off + n <= N -> Z.of_nat (length bs) = n ->
  peeks (pokes (seqZ (cr + off) n) bs m) (seqZ cr N) = splice off bs (peeks m (seqZ cr N)).
Proof.
  intros H0 Hn HN Hl. unfold splice. rewrite Hl.
  rewrite (seqZ_split cr off N), (seqZ_split (cr + off) n (N - off)) by lia. rewrite !peeks_app.
  rewrite (peeks_apart cr off), (peeks_apart (cr + off + n)), peeks_stored by (done || lia). rewrite take_app_length' by (rewrite length_peeks, length_seqZ; lia). do 2 f_equal.
  rewrite app_assoc, drop_app_length' by (rewrite length_app, !length_peeks, !length_seqZ; lia). done.
Qed.
