(* ===== verification/Structs.v ===== *)
(** * The /dev/crypto interface structures

    The constants and structures of [crypto/cryptodev.h] and the 32-bit
    compatibility structures of [cryptodev_int.h], with their memory layout
    (x86-64 and i386): a structure is copied from and to user memory as the
    bytes of its layout, alignment holes included. *)
From stdpp Require Import base gmap list strings numbers.
From S2P Require Import Prelude.
Open Scope Z_scope.

(** ** Constants *)

Definition CRYPTO_HMAC_MAX_KEY_LEN : Z := 512.
Definition CRYPTO_CIPHER_MAX_KEY_LEN : Z := 64.

(** [enum cryptodev_crypto_op_t] *)
Definition CRYPTO_DES_CBC : Z := 1.
Definition CRYPTO_3DES_CBC : Z := 2.
Definition CRYPTO_BLF_CBC : Z := 3.
Definition CRYPTO_MD5_HMAC : Z := 6.
Definition CRYPTO_SHA1_HMAC : Z := 7.
Definition CRYPTO_RIPEMD160_HMAC : Z := 8.
Definition CRYPTO_AES_CBC : Z := 11.
Definition CRYPTO_MD5 : Z := 13.
Definition CRYPTO_SHA1 : Z := 14.
Definition CRYPTO_NULL : Z := 16.
Definition CRYPTO_SHA2_256_HMAC : Z := 18.
Definition CRYPTO_SHA2_384_HMAC : Z := 19.
Definition CRYPTO_SHA2_512_HMAC : Z := 20.
Definition CRYPTO_AES_CTR : Z := 21.
Definition CRYPTO_AES_ECB : Z := 23.
Definition CRYPTO_AES_GCM : Z := 50.
Definition CRYPTO_CAMELLIA_CBC : Z := 101.
Definition CRYPTO_RIPEMD160 : Z := 102.
Definition CRYPTO_SHA2_256 : Z := 103.
Definition CRYPTO_SHA2_384 : Z := 104.
Definition CRYPTO_SHA2_512 : Z := 105.

Definition EALG_MAX_BLOCK_LEN : Z := 16.
Definition AALG_MAX_RESULT_LEN : Z := 64.
Definition CRYPTODEV_MAX_ALG_NAME : Z := 64.

Definition SIOP_FLAG_KERNEL_DRIVER_ONLY : Z := 1.

Definition COP_ENCRYPT : Z := 0.
Definition COP_DECRYPT : Z := 1.

Definition COP_FLAG_NONE : Z := 0.
Definition COP_FLAG_UPDATE : Z := 1.
Definition COP_FLAG_FINAL : Z := 2.
Definition COP_FLAG_WRITE_IV : Z := 4.
Definition COP_FLAG_NO_ZC : Z := 8.
Definition COP_FLAG_AEAD_TLS_TYPE : Z := 16.
Definition COP_FLAG_AEAD_SRTP_TYPE : Z := 32.
Definition COP_FLAG_RESET : Z := 64.

(** ** Structures *)

(** [struct session_op] (48 bytes). *)
Record session_op := SessionOp {
  so_cipher : Z; so_mac : Z;
  so_keylen : Z; so_pad0 : bytes; so_key : Z;
  so_mackeylen : Z; so_pad1 : bytes; so_mackey : Z;
  so_ses : Z; so_pad2 : bytes }.

(** [struct alg_info]: two NUL-terminated names of 64 bytes. *)
Record alg_info := AlgInfo { cra_name : bytes; cra_driver_name : bytes }.

(** [struct session_info_op] (268 bytes). *)
Record session_info_op := SessionInfoOp {
  si_ses : Z; si_cipher_info : alg_info; si_hash_info : alg_info;
  si_alignmask : Z; si_pad0 : bytes; si_flags : Z }.

(** [struct crypt_op] (48 bytes). *)
Record crypt_op := CryptOp {
  co_ses : Z; co_op : Z; co_flags : Z; co_len : Z; co_pad0 : bytes;
  co_src : Z; co_dst : Z; co_mac : Z; co_iv : Z }.

(** [struct crypt_auth_op] (72 bytes). *)
Record crypt_auth_op := CryptAuthOp {
  ca_ses : Z; ca_op : Z; ca_flags : Z; ca_len : Z; ca_auth_len : Z;
  ca_auth_src : Z; ca_src : Z; ca_dst : Z; ca_tag : Z;
  ca_tag_len : Z; ca_pad0 : bytes; ca_iv : Z; ca_iv_len : Z; ca_pad1 : bytes }.

(** [struct compat_session_op] and [struct compat_crypt_op] (28 bytes each). *)
Record compat_session_op := CompatSessionOp {
  cso_cipher : Z; cso_mac : Z; cso_keylen : Z; cso_key : Z;
  cso_mackeylen : Z; cso_mackey : Z; cso_ses : Z }.
Record compat_crypt_op := CompatCryptOp {
  cco_ses : Z; cco_op : Z; cco_flags : Z; cco_len : Z;
  cco_src : Z; cco_dst : Z; cco_mac : Z; cco_iv : Z }.

Definition sizeof_session_op : Z := 48.
Definition sizeof_session_info_op : Z := 268.
Definition sizeof_crypt_op : Z := 48.
Definition sizeof_crypt_auth_op : Z := 72.
Definition sizeof_compat_session_op : Z := 28.
Definition sizeof_compat_crypt_op : Z := 28.

(** ** Ioctl numbers *)

Definition _IOC (dir ty nr size : Z) : Z :=
  Z.lor (Z.shiftl dir 30) (Z.lor (Z.shiftl size 16) (Z.lor (Z.shiftl ty 8) nr)).
Definition _IOW := _IOC 1.
Definition _IOR := _IOC 2.
Definition _IOWR := _IOC 3.

Definition ioc_c : Z := 99. (* 'c' *)
Definition CRIOGET : Z := _IOWR ioc_c 101 4.
Definition CIOCGSESSION : Z := _IOWR ioc_c 102 sizeof_session_op.
Definition CIOCFSESSION : Z := _IOW ioc_c 103 4.
Definition CIOCCRYPT : Z := _IOWR ioc_c 104 sizeof_crypt_op.
Definition CIOCASYMFEAT : Z := _IOR ioc_c 106 4.
Definition CIOCGSESSINFO : Z := _IOWR ioc_c 107 sizeof_session_info_op.
Definition CIOCASYNCCRYPT : Z := _IOW ioc_c 107 sizeof_crypt_op.
Definition CIOCASYNCFETCH : Z := _IOR ioc_c 108 sizeof_crypt_op.
Definition CIOCAUTHCRYPT : Z := _IOWR ioc_c 109 sizeof_crypt_auth_op.
Definition COMPAT_CIOCGSESSION : Z := _IOWR ioc_c 102 sizeof_compat_session_op.
Definition COMPAT_CIOCCRYPT : Z := _IOWR ioc_c 104 sizeof_compat_crypt_op.
Definition COMPAT_CIOCASYNCCRYPT : Z := _IOW ioc_c 107 sizeof_compat_crypt_op.
Definition COMPAT_CIOCASYNCFETCH : Z := _IOR ioc_c 108 sizeof_compat_crypt_op.

(** ** Layout *)

Definition encode_session_op (s : session_op) : bytes :=
  le_bytes 4 (so_cipher s) ++ le_bytes 4 (so_mac s) ++
  le_bytes 4 (so_keylen s) ++ so_pad0 s ++ le_bytes 8 (so_key s) ++
  le_bytes 4 (so_mackeylen s) ++ so_pad1 s ++ le_bytes 8 (so_mackey s) ++
  le_bytes 4 (so_ses s) ++ so_pad2 s.

Definition decode_session_op (b : bytes) : session_op :=
  let '(cipher, b) := field 4 b in
  let '(mac, b) := field 4 b in
  let '(keylen, b) := field 4 b in
  let '(pad0, b) := raw 4 b in
  let '(key, b) := field 8 b in
  let '(mackeylen, b) := field 4 b in
  let '(pad1, b) := raw 4 b in
  let '(mackey, b) := field 8 b in
  let '(ses, b) := field 4 b in
  SessionOp cipher mac keylen pad0 key mackeylen pad1 mackey ses b.

Definition encode_session_info_op (s : session_info_op) : bytes :=
  le_bytes 4 (si_ses s) ++
  cra_name (si_cipher_info s) ++ cra_driver_name (si_cipher_info s) ++
  cra_name (si_hash_info s) ++ cra_driver_name (si_hash_info s) ++
  le_bytes 2 (si_alignmask s) ++ si_pad0 s ++ le_bytes 4 (si_flags s).

Definition decode_session_info_op (b : bytes) : session_info_op :=
  let '(ses, b) := field 4 b in
  let '(cn, b) := raw 64 b in
  let '(cd, b) := raw 64 b in
  let '(hn, b) := raw 64 b in
  let '(hd, b) := raw 64 b in
  let '(alignmask, b) := field 2 b in
  let '(pad0, b) := raw 2 b in
  let '(flags, b) := field 4 b in
  SessionInfoOp ses (AlgInfo cn cd) (AlgInfo hn hd) alignmask pad0 flags.

Definition encode_crypt_op (c : crypt_op) : bytes :=
  le_bytes 4 (co_ses c) ++ le_bytes 2 (co_op c) ++ le_bytes 2 (co_flags c) ++
  le_bytes 4 (co_len c) ++ co_pad0 c ++
  le_bytes 8 (co_src c) ++ le_bytes 8 (co_dst c) ++ le_bytes 8 (co_mac c) ++ le_bytes 8 (co_iv c).

Definition decode_crypt_op (b : bytes) : crypt_op :=
  let '(ses, b) := field 4 b in
  let '(op, b) := field 2 b in
  let '(flags, b) := field 2 b in
  let '(len, b) := field 4 b in
  let '(pad0, b) := raw 4 b in
  let '(src, b) := field 8 b in
  let '(dst, b) := field 8 b in
  let '(mac, b) := field 8 b in
  let '(iv, b) := field 8 b in
  CryptOp ses op flags len pad0 src dst mac iv.

Definition encode_crypt_auth_op (c : crypt_auth_op) : bytes :=
  le_bytes 4 (ca_ses c) ++ le_bytes 2 (ca_op c) ++ le_bytes 2 (ca_flags c) ++
  le_bytes 4 (ca_len c) ++ le_bytes 4 (ca_auth_len c) ++
  le_bytes 8 (ca_auth_src c) ++ le_bytes 8 (ca_src c) ++ le_bytes 8 (ca_dst c) ++
  le_bytes 8 (ca_tag c) ++ le_bytes 4 (ca_tag_len c) ++ ca_pad0 c ++
  le_bytes 8 (ca_iv c) ++ le_bytes 4 (ca_iv_len c) ++ ca_pad1 c.

Definition decode_crypt_auth_op (b : bytes) : crypt_auth_op :=
  let '(ses, b) := field 4 b in
  let '(op, b) := field 2 b in
  let '(flags, b) := field 2 b in
  let '(len, b) := field 4 b in
  let '(auth_len, b) := field 4 b in
  let '(auth_src, b) := field 8 b in
  let '(src, b) := field 8 b in
  let '(dst, b) := field 8 b in
  let '(tag, b) := field 8 b in
  let '(tag_len, b) := field 4 b in
  let '(pad0, b) := raw 4 b in
  let '(iv, b) := field 8 b in
  let '(iv_len, b) := field 4 b in
  CryptAuthOp ses op flags len auth_len auth_src src dst tag tag_len pad0 iv iv_len b.

Definition encode_compat_session_op (s : compat_session_op) : bytes :=
  le_bytes 4 (cso_cipher s) ++ le_bytes 4 (cso_mac s) ++ le_bytes 4 (cso_keylen s) ++
  le_bytes 4 (cso_key s) ++ le_bytes 4 (cso_mackeylen s) ++ le_bytes 4 (cso_mackey s) ++
  le_bytes 4 (cso_ses s).

Definition decode_compat_session_op (b : bytes) : compat_session_op :=
  let '(cipher, b) := field 4 b in
  let '(mac, b) := field 4 b in
  let '(keylen, b) := field 4 b in
  let '(key, b) := field 4 b in
  let '(mackeylen, b) := field 4 b in
  let '(mackey, b) := field 4 b in
  let '(ses, b) := field 4 b in
  CompatSessionOp cipher mac keylen key mackeylen mackey ses.

Definition encode_compat_crypt_op (c : compat_crypt_op) : bytes :=
  le_bytes 4 (cco_ses c) ++ le_bytes 2 (cco_op c) ++ le_bytes 2 (cco_flags c) ++
  le_bytes 4 (cco_len c) ++ le_bytes 4 (cco_src c) ++ le_bytes 4 (cco_dst c) ++
  le_bytes 4 (cco_mac c) ++ le_bytes 4 (cco_iv c).

Definition decode_compat_crypt_op (b : bytes) : compat_crypt_op :=
  let '(ses, b) := field 4 b in
  let '(op, b) := field 2 b in
  let '(flags, b) := field 2 b in
  let '(len, b) := field 4 b in
  let '(src, b) := field 4 b in
  let '(dst, b) := field 4 b in
  let '(mac, b) := field 4 b in
  let '(iv, b) := field 4 b in
  CompatCryptOp ses op flags len src dst mac iv.

(** The layout of a structure type: its size, its codec and the values that
    fit its fields. *)
Class Layout (T : Type) := {
  sizeof : nat;
  encode : T -> bytes;
  decode : bytes -> T;
  fits : T -> Prop
}.

(** What makes a layout exact: values survive a copy through memory, and
    memory survives a copy through a value. *)
Class LayoutOk (T : Type) `{Layout T} := {
  encode_length : forall x : T, fits x -> length (encode x) = sizeof;
  decode_encode : forall x : T, fits x -> decode (encode x) = x;
  encode_decode : forall b : bytes, length b = sizeof -> Forall is_byte b ->
    encode (decode b) = b /\ fits (decode b)
}.

Definition is_u (n z : Z) : Prop := 0 <= z < 2 ^ (8 * n).

Definition session_op_fits (s : session_op) : Prop :=
  is_u 4 (so_cipher s) /\ is_u 4 (so_mac s) /\ is_u 4 (so_keylen s) /\ length (so_pad0 s) = 4%nat /\
  is_u 8 (so_key s) /\ is_u 4 (so_mackeylen s) /\ length (so_pad1 s) = 4%nat /\
  is_u 8 (so_mackey s) /\ is_u 4 (so_ses s) /\ length (so_pad2 s) = 4%nat.

Definition alg_info_fits (i : alg_info) : Prop :=
  length (cra_name i) = 64%nat /\ length (cra_driver_name i) = 64%nat.

Definition session_info_op_fits (s : session_info_op) : Prop :=
  is_u 4 (si_ses s) /\ alg_info_fits (si_cipher_info s) /\ alg_info_fits (si_hash_info s) /\
  is_u 2 (si_alignmask s) /\ length (si_pad0 s) = 2%nat /\ is_u 4 (si_flags s).

Definition crypt_op_fits (c : crypt_op) : Prop :=
  is_u 4 (co_ses c) /\ is_u 2 (co_op c) /\ is_u 2 (co_flags c) /\ is_u 4 (co_len c) /\
  length (co_pad0 c) = 4%nat /\
  is_u 8 (co_src c) /\ is_u 8 (co_dst c) /\ is_u 8 (co_mac c) /\ is_u 8 (co_iv c).

Definition crypt_auth_op_fits (c : crypt_auth_op) : Prop :=
  is_u 4 (ca_ses c) /\ is_u 2 (ca_op c) /\ is_u 2 (ca_flags c) /\ is_u 4 (ca_len c) /\
  is_u 4 (ca_auth_len c) /\ is_u 8 (ca_auth_src c) /\ is_u 8 (ca_src c) /\ is_u 8 (ca_dst c) /\
  is_u 8 (ca_tag c) /\ is_u 4 (ca_tag_len c) /\ length (ca_pad0 c) = 4%nat /\
  is_u 8 (ca_iv c) /\ is_u 4 (ca_iv_len c) /\ length (ca_pad1 c) = 4%nat.

Definition compat_session_op_fits (s : compat_session_op) : Prop :=
  is_u 4 (cso_cipher s) /\ is_u 4 (cso_mac s) /\ is_u 4 (cso_keylen s) /\ is_u 4 (cso_key s) /\
  is_u 4 (cso_mackeylen s) /\ is_u 4 (cso_mackey s) /\ is_u 4 (cso_ses s).

Definition compat_crypt_op_fits (c : compat_crypt_op) : Prop :=
  is_u 4 (cco_ses c) /\ is_u 2 (cco_op c) /\ is_u 2 (cco_flags c) /\ is_u 4 (cco_len c) /\
  is_u 4 (cco_src c) /\ is_u 4 (cco_dst c) /\ is_u 4 (cco_mac c) /\ is_u 4 (cco_iv c).

Global Instance session_op_layout : Layout session_op :=
  {| sizeof := 48; encode := encode_session_op; decode := decode_session_op;
     fits := session_op_fits |}.
Global Instance session_info_op_layout : Layout session_info_op :=
  {| sizeof := 268; encode := encode_session_info_op; decode := decode_session_info_op;
     fits := session_info_op_fits |}.
Global Instance crypt_op_layout : Layout crypt_op :=
  {| sizeof := 48; encode := encode_crypt_op; decode := decode_crypt_op;
     fits := crypt_op_fits |}.
Global Instance crypt_auth_op_layout : Layout crypt_auth_op :=
  {| sizeof := 72; encode := encode_crypt_auth_op; decode := decode_crypt_auth_op;
     fits := crypt_auth_op_fits |}.
Global Instance compat_session_op_layout : Layout compat_session_op :=
  {| sizeof := 28; encode := encode_compat_session_op; decode := decode_compat_session_op;
     fits := compat_session_op_fits |}.
Global Instance compat_crypt_op_layout : Layout compat_crypt_op :=
  {| sizeof := 28; encode := encode_compat_crypt_op; decode := decode_compat_crypt_op;
     fits := compat_crypt_op_fits |}.

(** ** The layouts are exact *)

Lemma is_u_range n z (k : nat) : Z.of_nat k = n -> is_u n z -> 0 <= z < 2 ^ (8 * Z.of_nat k).
Proof. intros <-. done. Qed.

Ltac layout_fields :=
  repeat (first
    [ rewrite field_le by (eapply is_u_range; [|eassumption]; reflexivity)
    | rewrite field_le_last by (eapply is_u_range; [|eassumption]; reflexivity)
    | rewrite raw_app by assumption ]; cbv beta iota).

Ltac layout_length :=
  repeat rewrite length_app; rewrite ?length_le_bytes; lia.

(** Peels the fields of a decoded structure off the front of the bytes. *)
Ltac peel_fields :=
  repeat (match goal with
  | |- context [field ?n ?b] =>
      let v := fresh "v" in let r := fresh "r" in let E := fresh "E" in
      destruct (field n b) as [v r] eqn:E;
      apply field_inv in E as (-> & ? & ? & ?); [|lia|assumption]
  | |- context [raw ?n ?b] =>
      let v := fresh "v" in let r := fresh "r" in let E := fresh "E" in
      destruct (raw n b) as [v r] eqn:E;
      apply raw_inv in E as (-> & ? & ? & ?); [|lia|assumption]
  end; cbv beta iota).

(** What is left after the last field is empty. *)
Ltac no_rest :=
  try match goal with
  | |- context [?a ++ ?r] =>
      is_var r; assert (r = []) as -> by (apply nil_length_inv; lia); rewrite ?app_nil_r
  end.

(** Discharges the three laws of [LayoutOk]; [enc] and [dec] unfold the codec. *)
Ltac layout_fits x Hx :=
  destruct x; unfold fits in Hx; hnf in Hx; unfold alg_info_fits in Hx;
  repeat match goal with i : alg_info |- _ => destruct i end;
  cbn -[Z.pow] in *; destruct_and?.

Ltac layout_ok enc dec :=
  constructor;
  [ intros x Hx; layout_fits x Hx; unfold enc; cbn -[Z.pow]; layout_length
  | intros x Hx; layout_fits x Hx; unfold enc, dec; cbn -[Z.pow]; layout_fields; done
  | intros b Hl Hb; cbn -[Z.pow] in *; unfold dec; peel_fields; unfold enc; cbn -[Z.pow];
    split; [no_rest; done | hnf; unfold alg_info_fits; cbn -[Z.pow]; repeat split; lia] ].

Global Instance session_op_layout_ok : LayoutOk session_op.
Proof. layout_ok encode_session_op decode_session_op. Qed.

Global Instance crypt_op_layout_ok : LayoutOk crypt_op.
Proof. layout_ok encode_crypt_op decode_crypt_op. Qed.

Global Instance crypt_auth_op_layout_ok : LayoutOk crypt_auth_op.
Proof. layout_ok encode_crypt_auth_op decode_crypt_auth_op. Qed.

Global Instance compat_session_op_layout_ok : LayoutOk compat_session_op.
Proof. layout_ok encode_compat_session_op decode_compat_session_op. Qed.

Global Instance compat_crypt_op_layout_ok : LayoutOk compat_crypt_op.
Proof. layout_ok encode_compat_crypt_op decode_compat_crypt_op. Qed.

Global Instance session_info_op_layout_ok : LayoutOk session_info_op.
Proof. layout_ok encode_session_info_op decode_session_info_op. Qed.

(** ** The binary interface *)

Definition ioctl_numbers : list Z :=
  [CRIOGET; CIOCGSESSION; CIOCFSESSION; CIOCCRYPT; CIOCASYMFEAT; CIOCGSESSINFO;
   CIOCASYNCCRYPT; CIOCASYNCFETCH; CIOCAUTHCRYPT].
Definition compat_ioctl_numbers : list Z :=
  [CRIOGET; CIOCFSESSION; CIOCASYMFEAT; CIOCGSESSINFO; COMPAT_CIOCGSESSION; COMPAT_CIOCCRYPT;
   COMPAT_CIOCASYNCCRYPT; COMPAT_CIOCASYNCFETCH].

(** The size field of an ioctl number. *)
Definition ioc_size (cmd : Z) : Z := Z.land (Z.shiftr cmd 16) 16383.

