(* ===== verification/CryptoApi.v ===== *)
(** * The kernel CryptoAPI, as an interface

    The ciphers, hashes and AEAD transforms behind /dev/crypto are not part of
    this repository.  [CryptoAPI] names what the driver calls; [CryptoAPILaws]
    states the documented behaviour its correctness rests on. *)
From stdpp Require Import base gmap list strings numbers.
From S2P Require Import Prelude Kernel.
Open Scope Z_scope.

Record cipher_alg := CipherAlg {
  alg_blocksize : Z; alg_ivsize : Z; alg_alignmask : Z;
  alg_keysizes : option (Z * Z);   (** [min_keysize], [max_keysize]; [None]: no algorithm record *)
  alg_authsize : Z                 (** AEAD: the largest tag *)
}.

Record hash_alg := HashAlg { alg_digestsize : Z; alg_hash_alignmask : Z }.

(** The result of a request: what the call returns, the notifications the
    completion callback gets, and the updated chaining value and output. *)
Record crypt_res := CryptRes {
  cr_ret : Z; cr_events : list Z; cr_iv : bytes; cr_out : bytes }.

Class CryptoAPI := {
  (** the running state of a hash request *)
  hstate : Type;
  hstate_new : hstate;
  (** [crypto_alloc_ablkcipher] and what it allocates; [None]: no such algorithm *)
  ablkcipher : string -> option cipher_alg;
  ablkcipher_setkey : string -> bytes -> Z;
  (** name, key, IV, input *)
  ablkcipher_encrypt : string -> bytes -> bytes -> bytes -> crypt_res;
  ablkcipher_decrypt : string -> bytes -> bytes -> bytes -> crypt_res;
  aead : string -> option cipher_alg;
  aead_setkey : string -> bytes -> Z;
  (** name, key, tag size, associated data, IV, input *)
  aead_encrypt : string -> bytes -> Z -> bytes -> bytes -> bytes -> crypt_res;
  aead_decrypt : string -> bytes -> Z -> bytes -> bytes -> bytes -> crypt_res;
  ahash : string -> option hash_alg;
  ahash_setkey : string -> bytes -> Z;
  (** name, key: the result and the initial state *)
  ahash_init : string -> bytes -> Z * hstate;
  (** the call's result, the notifications, the new state or the digest *)
  ahash_update : string -> hstate -> bytes -> Z * list Z * hstate;
  ahash_final : string -> hstate -> Z * list Z * bytes;
  alg_driver_name : string -> option string;
  (** [CRYPTO_ALG_KERN_DRIVER_ONLY], on kernels that define it *)
  kern_driver_only : option (string -> bool)
}.

(** ** Finished requests *)

(** The result of a request once it is complete: the value returned, or the
    error the completion reported. *)
Definition final_err (events : list Z) : option Z :=
  foldl (fun cur err => if err =? - EINPROGRESS then cur else Some err) None events.

Definition in_progress (ret : Z) : Prop := ret = - EINPROGRESS \/ ret = - EBUSY.

Definition req_ok (ret : Z) (events : list Z) : Prop :=
  ret = 0 \/ (in_progress ret /\ final_err events = Some 0).

(** ** Laws *)

(** The documented ranges of the parameters of an algorithm, and that every
    accepted request completes.  Memory safety of the driver rests on these. *)
Class CryptoAPISizes `{CryptoAPI} := {
  ablkcipher_sizes : forall name a, ablkcipher name = Some a ->
    0 < alg_blocksize a /\ (alg_blocksize a | PAGE_SIZE) /\ 0 <= alg_ivsize a <= 16;
  aead_sizes : forall name a, aead name = Some a ->
    0 < alg_blocksize a /\ 0 <= alg_ivsize a <= 16 /\ 0 <= alg_authsize a <= 16;
  ahash_sizes : forall name a, ahash name = Some a -> 0 < alg_digestsize a <= 64;
  (** ciphers work in place: as many bytes out as in *)
  ablkcipher_length : forall (dec : bool) name key iv data,
    let r := (if dec then ablkcipher_decrypt else ablkcipher_encrypt) name key iv data in
    length (cr_out r) = length data /\ length (cr_iv r) = length iv;
  aead_length : forall (dec : bool) name key tag assoc iv data,
    let r := (if dec then aead_decrypt else aead_encrypt) name key tag assoc iv data in
    0 <= tag ->
    Z.of_nat (length (cr_out r)) <= Z.of_nat (length data) + (if dec then 0 else tag) /\
    length (cr_iv r) = length iv;
  ahash_length : forall name a st ret ev d,
    ahash name = Some a -> ahash_final name st = (ret, ev, d) ->
    length d = Z.to_nat (alg_digestsize a);
  ablkcipher_completes : forall (dec : bool) name key iv data,
    let r := (if dec then ablkcipher_decrypt else ablkcipher_encrypt) name key iv data in
    in_progress (cr_ret r) -> is_Some (final_err (cr_events r));
  aead_completes : forall (dec : bool) name key tag assoc iv data,
    let r := (if dec then aead_decrypt else aead_encrypt) name key tag assoc iv data in
    in_progress (cr_ret r) -> is_Some (final_err (cr_events r));
  ahash_update_completes : forall name st data ret ev st',
    ahash_update name st data = (ret, ev, st') -> in_progress ret -> is_Some (final_err ev);
  ahash_final_completes : forall name st ret ev d,
    ahash_final name st = (ret, ev, d) -> in_progress ret -> is_Some (final_err ev)
}.

(** Ciphers: decryption inverts encryption, and a message may be processed in
    pieces that are multiples of the block size, since the transform leaves the
    chaining value in the IV buffer. *)
Class CipherLaws `{CryptoAPI} := {
  ablkcipher_inverse : forall name a key iv data,
    let r := ablkcipher_encrypt name key iv data in
    ablkcipher name = Some a -> (alg_blocksize a | Z.of_nat (length data)) ->
    req_ok (cr_ret r) (cr_events r) ->
    let r' := ablkcipher_decrypt name key iv (cr_out r) in
    req_ok (cr_ret r') (cr_events r') /\ cr_out r' = data;
  ablkcipher_chunks : forall (dec : bool) name a key iv d1 d2,
    let f := (if dec then ablkcipher_decrypt else ablkcipher_encrypt) name key in
    let r1 := f iv d1 in
    let r2 := f (cr_iv r1) d2 in
    ablkcipher name = Some a -> (alg_blocksize a | Z.of_nat (length d1)) ->
    req_ok (cr_ret r1) (cr_events r1) -> req_ok (cr_ret r2) (cr_events r2) ->
    let r := f iv (d1 ++ d2) in
    req_ok (cr_ret r) (cr_events r) /\ cr_out r = cr_out r1 ++ cr_out r2 /\ cr_iv r = cr_iv r2;
  (** the IV has [alg_ivsize] bytes; what follows in the buffer has no effect *)
  ablkcipher_iv : forall (dec : bool) name a key iv iv' data,
    let f := (if dec then ablkcipher_decrypt else ablkcipher_encrypt) name key in
    ablkcipher name = Some a ->
    take (Z.to_nat (alg_ivsize a)) iv = take (Z.to_nat (alg_ivsize a)) iv' ->
    cr_out (f iv data) = cr_out (f iv' data)
}.

(** Hashes: hashing in pieces is hashing the concatenation. *)
Class HashLaws `{CryptoAPI} := {
  ahash_chunks : forall name st d1 d2 ret1 ev1 st1 ret2 ev2 st2,
    ahash_update name st d1 = (ret1, ev1, st1) -> req_ok ret1 ev1 ->
    ahash_update name st1 d2 = (ret2, ev2, st2) -> req_ok ret2 ev2 ->
    exists ret ev, ahash_update name st (d1 ++ d2) = (ret, ev, st2) /\ req_ok ret ev
}.

(** Transforms that do not fail: on input of a permitted length, requests
    succeed (at once or when they complete).  This is how the software
    implementations behave; hardware may report errors. *)
Class CryptoAPISucceeds `{CryptoAPI} := {
  ablkcipher_ok : forall (dec : bool) name a key iv data,
    let r := (if dec then ablkcipher_decrypt else ablkcipher_encrypt) name key iv data in
    ablkcipher name = Some a -> (alg_blocksize a | Z.of_nat (length data)) ->
    req_ok (cr_ret r) (cr_events r);
  ahash_init_ok : forall name a key, ahash name = Some a -> (ahash_init name key).1 = 0;
  ahash_update_ok : forall name a st data ret ev st',
    ahash name = Some a -> ahash_update name st data = (ret, ev, st') -> req_ok ret ev;
  ahash_final_ok : forall name a st ret ev d,
    ahash name = Some a -> ahash_final name st = (ret, ev, d) -> req_ok ret ev
}.
