(* ===== verification/Sg.v ===== *)
(** * Scatterlists and zero copy

    The scatterlist of the kernel, and the code that builds one over user
    pages: [zc.c], [zc.h] and [util.c] of cryptodev-linux. *)
From stdpp Require Import base gmap gmultiset list strings numbers.
From S2P Require Import Prelude Kernel KernelFacts.
Open Scope Z_scope.

(** ** Scatterlists *)

(** An entry: [sg_len] bytes at [sg_off] of a page; [sg_last] marks the end of
    the list. *)
Record sg_entry := SG { sg_page : Z; sg_off : Z; sg_len : Z; sg_last : bool }.

(** An entry of a zeroed array, and one of memory that was never written. *)
Definition sg_zero : sg_entry := SG 0 0 0 false.
Definition sg_junk : sg_entry := SG (-1) 0 0 false.

(** The entries from [i] up to the end mark; the walk off the array is [None]. *)
Fixpoint sg_upto_last (l : list sg_entry) : option (list sg_entry) :=
  match l with
  | [] => None
  | e :: l' => if sg_last e then Some [e] else cons e <$> sg_upto_last l'
  end.
Definition sg_chain (arr : list sg_entry) (i : nat) : option (list sg_entry) :=
  sg_upto_last (drop i arr).

(** The addresses an entry, and a list of entries, cover. *)
Definition sg_entry_addrs (e : sg_entry) : list Z :=
  seqZ (sg_page e * PAGE_SIZE + sg_off e) (sg_len e).
Definition sg_addrs (l : list sg_entry) : list Z := l ≫= sg_entry_addrs.

(** A page that may be accessed: a pinned user page or a live kernel page. *)
Definition page_live (e : env) (p : Z) : bool :=
  bool_decide (p ∈ e_pins e) || bool_decide (is_Some (e_heap e !! (p * PAGE_SIZE))).

Section Walk.
Context {X : Type}.

(** The addresses of [n] bytes from byte [start] of the list on.  Walking
    past the last entry dereferences NULL; a page that is not held may be
    gone. *)
Definition sg_walk (l : list sg_entry) (start n : Z) : K X (list Z) :=
  e ← gete;
  let addrs := sg_addrs l in
  if Z.of_nat (length addrs) <? start + n then crashed NullDeref
  else
    let part := take (Z.to_nat n) (drop (Z.to_nat start) addrs) in
    if forallb (fun a => page_live e (page_of a)) part then mret part
    else crashed UseAfterFree.

Definition sg_read (l : list sg_entry) (start n : Z) : K X bytes :=
  addrs ← sg_walk l start n;
  e ← gete;
  mret (peeks (e_mem e) addrs).

Definition sg_write (l : list sg_entry) (start : Z) (bs : bytes) : K X unit :=
  addrs ← sg_walk l start (Z.of_nat (length bs));
  mode (set_mem (pokes addrs bs)).

(** [scatterwalk_map_and_copy] out of and into a list; [start] is unsigned. *)
Definition scatterwalk_read (l : list sg_entry) (start n : Z) : K X bytes :=
  if n =? 0 then mret [] else sg_read l (u32 start) n.
Definition scatterwalk_write (l : list sg_entry) (start : Z) (bs : bytes) : K X unit :=
  match bs with [] => mret tt | _ => sg_write l (u32 start) bs end.
End Walk.

(** ** Scatterlist arrays *)

(** [sg_set_page] keeps the end mark. *)
Definition sg_set_page (page len off : Z) (e : sg_entry) : sg_entry := SG page off len (sg_last e).
Definition sg_mark_end (e : sg_entry) : sg_entry := SG (sg_page e) (sg_off e) (sg_len e) true.

(** [sg_init_table(arr + i, n)] for [n > 0]. *)
Definition sg_init_table (i n : nat) (arr : list sg_entry) : list sg_entry :=
  take i arr ++ (replicate (n - 1) sg_zero ++ [sg_mark_end sg_zero]) ++ drop (i + n) arr.

(** [sg_init_one(&sg, buf, len)] *)
Definition sg_init_one (buf len : Z) : list sg_entry :=
  [SG (page_of buf) (buf mod PAGE_SIZE) len true].

(** Where the loop of [sg_advance] stops: the index of the entry it reaches
    ([None] for NULL) and what is left to consume. *)
Fixpoint sg_advance_to (l : list sg_entry) (i : nat) (consumed : Z) : option (option nat * Z) :=
  match l with
  | [] => None
  | e :: l' =>
      if sg_len e <=? u32 consumed then
        let consumed := s32 (consumed - sg_len e) in
        if sg_last e then Some (None, consumed) else sg_advance_to l' (S i) consumed
      else Some (Some i, consumed)
  end.

(** [sg_advance(arr + i, consumed)]: the array afterwards, and the index
    returned; [None] when the walk leaves the array. *)
Definition sg_advance (arr : list sg_entry) (i : nat) (consumed : Z)
    : option (list sg_entry * option nat) :=
  match sg_advance_to (drop i arr) i consumed with
  | None => None
  | Some (None, _) => Some (arr, None)
  | Some (Some j, consumed) =>
      let step e :=
        let off := sg_off e + consumed in
        let len := sg_len e - consumed in
        if PAGE_SIZE <=? off
        then sg_set_page (sg_page e + off / PAGE_SIZE) len (off mod PAGE_SIZE) e
        else SG (sg_page e) off len (sg_last e) in
      Some (alter step j arr, Some j)
  end.

(** [sg_copy(arr + i, arr + j, len)]: the result and the array afterwards. *)
Fixpoint sg_copy (fuel : nat) (arr : list sg_entry) (i j : nat) (len : Z)
    : option (Z * list sg_entry) :=
  match fuel, arr !! i, arr !! j with
  | S fuel, Some from, Some to =>
      if sg_len from <? u32 len then
        let len := s32 (len - sg_len from) in
        let arr := <[j := sg_set_page (sg_page from) (sg_len from) (sg_off from) to]> arr in
        if negb (len =? 0) && (sg_last from || sg_last to) then Some (- ENOMEM, arr)
        else sg_copy fuel arr (S i) (S j) len
      else
        let to := if negb (len =? 0) then sg_set_page (sg_page from) len (sg_off from) to else to in
        Some (0, <[j := sg_mark_end to]> arr)
  | _, _, _ => None
  end.

(** ** Facts *)

(** All pages of a list are held. *)
Definition sg_live (e : env) (l : list sg_entry) : Prop :=
  Forall (fun a => page_live e (page_of a) = true) (sg_addrs l).

Lemma sg_addrs_cons e l : sg_addrs (e :: l) = sg_entry_addrs e ++ sg_addrs l.
Proof. done. Qed.
Lemma sg_addrs_app l1 l2 : sg_addrs (l1 ++ l2) = sg_addrs l1 ++ sg_addrs l2.
Proof. unfold sg_addrs. apply bind_app. Qed.

Section WalkSpecs.
Context {X : Type}.
Implicit Types (e : env) (x : X).

(** The addresses of a part of a list. *)
Definition sg_part (l : list sg_entry) (start n : Z) : list Z :=
  take (Z.to_nat n) (drop (Z.to_nat start) (sg_addrs l)).

Lemma sg_walk_spec e x l start n (Q : list Z -> env * X -> Prop) :
  start + n <= Z.of_nat (length (sg_addrs l)) -> sg_live e l ->
  Q (sg_part l start n) (e, x) -> wp (sg_walk l start n) Q (e, x).
Proof.
  intros Hn Hl HQ. unfold sg_walk. ksteps.
  replace (_ <? _) with false by lia.
  match goal with |- context [forallb ?f ?l] => assert (Hf : forallb f l = true) end.
  { apply forallb_forall. intros a Ha. apply (proj1 (Forall_forall _ _) Hl).
    apply list_elem_of_In in Ha. apply list_elem_of_In. eapply elem_of_sublist; [exact Ha|].
    etrans; [apply sublist_take|apply sublist_drop]. }
  by rewrite Hf.
Qed.

Lemma sg_read_spec e x l start n (Q : bytes -> env * X -> Prop) :
  start + n <= Z.of_nat (length (sg_addrs l)) -> sg_live e l ->
  Q (peeks (e_mem e) (sg_part l start n)) (e, x) -> wp (sg_read l start n) Q (e, x).
Proof. intros Hn Hl HQ. unfold sg_read. ksteps. apply sg_walk_spec; [done..|]. by ksteps. Qed.

Lemma sg_write_spec e x l start bs (Q : unit -> env * X -> Prop) :
  start + Z.of_nat (length bs) <= Z.of_nat (length (sg_addrs l)) -> sg_live e l ->
  Q tt (set_mem (pokes (sg_part l start (Z.of_nat (length bs))) bs) e, x) ->
  wp (sg_write l start bs) Q (e, x).
Proof. intros Hn Hl HQ. unfold sg_write. ksteps. apply sg_walk_spec; [done..|]. by ksteps. Qed.
End WalkSpecs.

Lemma length_sg_part l start n :
  0 <= start -> 0 <= n -> start + n <= Z.of_nat (length (sg_addrs l)) ->
  length (sg_part l start n) = Z.to_nat n.
Proof. intros. unfold sg_part. rewrite length_take, length_drop. lia. Qed.

Lemma sg_part_all l n : Z.of_nat (length (sg_addrs l)) <= n -> sg_part l 0 n = sg_addrs l.
Proof. intros. unfold sg_part. rewrite drop_0. apply take_ge. lia. Qed.

Lemma sg_live_mem e f l : sg_live (set_mem f e) l <-> sg_live e l.
Proof. done. Qed.

(** The last entry of a list is the one that is marked. *)
Fixpoint mark_last (l : list sg_entry) : list sg_entry :=
  match l with
  | [] => []
  | [e] => [sg_mark_end e]
  | e :: l' => e :: mark_last l'
  end.

Lemma mark_last_snoc l e : mark_last (l ++ [e]) = l ++ [sg_mark_end e].
Proof. induction l as [|a l IH]; [done|]. simpl. rewrite IH. by destruct l. Qed.

Lemma sg_addrs_mark_last l : sg_addrs (mark_last l) = sg_addrs l.
Proof.
  induction l as [|a l _] using rev_ind; [done|].
  by rewrite mark_last_snoc, !sg_addrs_app.
Qed.

Lemma sg_upto_last_mark l r :
  l <> [] -> Forall (fun e => sg_last e = false) l ->
  sg_upto_last (mark_last l ++ r) = Some (mark_last l).
Proof.
  induction l as [|a l IH]; [done|]. intros _ [Ha Hl]%Forall_cons_iff.
  destruct l as [|b l].
  - done.
  - change (mark_last (a :: b :: l)) with (a :: mark_last (b :: l)).
    rewrite <- app_comm_cons. cbn [sg_upto_last]. rewrite Ha, IH by done. done.
Qed.

(** Writing a new list into an array, as [__get_userbuf] does. *)
Lemma sg_table_written (arr new : list sg_entry) (i n : nat) :
  (0 < n)%nat -> length new = n -> (i + n <= length arr)%nat ->
  alter sg_mark_end (i + n - 1)%nat (list_inserts i new (sg_init_table i n arr)) =
  take i arr ++ mark_last new ++ drop (i + n) arr.
Proof.
  intros Hn Hl Hi. unfold sg_init_table.
  assert (Ht : length (take i arr) = i) by (rewrite length_take; lia).
  rewrite <- Ht at 2. rewrite <- (Nat.add_0_r (length (take i arr))).
  rewrite list_inserts_app_r, list_inserts_0_r.
  2: { rewrite length_app, length_replicate. simpl. lia. }
  destruct new as [|x new' _] using rev_ind; [simpl in Hl; lia|].
  rewrite mark_last_snoc. rewrite length_app in Hl. simpl in Hl.
  rewrite alter_app_r_alt by lia. f_equal.
  rewrite <- !(assoc_L (++)), alter_app_r_alt by lia. f_equal.
  replace (i + n - 1 - length (take i arr) - length new')%nat with 0%nat by lia. done.
Qed.

Lemma sg_chain_written (arr new : list sg_entry) (i : nat) r :
  new <> [] -> Forall (fun e => sg_last e = false) new -> (i <= length arr)%nat ->
  sg_chain (take i arr ++ mark_last new ++ r) i = Some (mark_last new).
Proof.
  intros Hn Hf Hi. unfold sg_chain.
  rewrite drop_app_ge by (rewrite length_take; lia).
  replace (i - length (take i arr))%nat with 0%nat by (rewrite length_take; lia).
  rewrite drop_0. by apply sg_upto_last_mark.
Qed.

Lemma sg_entry_addrs_one buf len :
  0 <= buf -> sg_addrs (sg_init_one buf len) = seqZ buf len.
Proof.
  intros Hb. unfold sg_addrs, sg_init_one. simpl. rewrite app_nil_r.
  unfold sg_entry_addrs, page_of. simpl. f_equal.
  rewrite (Z.div_mod buf PAGE_SIZE) at 3 by done. lia.
Qed.
