(* ===== verification/Cryptlib.v ===== *)
(** * Ciphers and hashes of a session

    [cryptlib.c] and [cryptlib.h] of cryptodev-linux: setting a cipher or a
    hash up, tearing it down, and running requests on scatterlists. *)
From stdpp Require Import base gmap gmultiset list strings numbers.
From S2P Require Import Prelude Kernel KernelFacts Structs CryptoApi Sg.
Open Scope Z_scope.

(** ** Data *)

(** [struct cipher_data].  The last four fields are the state the CryptoAPI
    keeps in the transform and in the AEAD request. *)
Record cipher_data := CipherData {
  cd_init : Z; cd_blocksize : Z; cd_aead : Z; cd_stream : Z; cd_ivsize : Z; cd_alignmask : Z;
  cd_s : Z; cd_request : Z; cd_as : Z; cd_arequest : Z; cd_result : Z; cd_iv : bytes;
  tfm_name : string; tfm_key : bytes; tfm_authsize : Z; req_assoc : bytes }.

Definition cipher_data_zero : cipher_data :=
  CipherData 0 0 0 0 0 0 0 0 0 0 0 (replicate (Z.to_nat EALG_MAX_BLOCK_LEN) 0) EmptyString [] 0 [].

Definition set_cd_init (v : Z) (c : cipher_data) : cipher_data :=
  CipherData v (cd_blocksize c) (cd_aead c) (cd_stream c) (cd_ivsize c) (cd_alignmask c)
    (cd_s c) (cd_request c) (cd_as c) (cd_arequest c) (cd_result c) (cd_iv c)
    (tfm_name c) (tfm_key c) (tfm_authsize c) (req_assoc c).
Definition set_cd_sizes (blocksize ivsize alignmask : Z) (c : cipher_data) : cipher_data :=
  CipherData (cd_init c) blocksize (cd_aead c) (cd_stream c) ivsize alignmask
    (cd_s c) (cd_request c) (cd_as c) (cd_arequest c) (cd_result c) (cd_iv c)
    (tfm_name c) (tfm_key c) (tfm_authsize c) (req_assoc c).
Definition set_cd_mode (stream aead : Z) (c : cipher_data) : cipher_data :=
  CipherData (cd_init c) (cd_blocksize c) aead stream (cd_ivsize c) (cd_alignmask c)
    (cd_s c) (cd_request c) (cd_as c) (cd_arequest c) (cd_result c) (cd_iv c)
    (tfm_name c) (tfm_key c) (tfm_authsize c) (req_assoc c).
Definition set_cd_s (v : Z) (c : cipher_data) : cipher_data :=
  CipherData (cd_init c) (cd_blocksize c) (cd_aead c) (cd_stream c) (cd_ivsize c) (cd_alignmask c)
    v (cd_request c) (cd_as c) (cd_arequest c) (cd_result c) (cd_iv c)
    (tfm_name c) (tfm_key c) (tfm_authsize c) (req_assoc c).
Definition set_cd_request (v : Z) (c : cipher_data) : cipher_data :=
  CipherData (cd_init c) (cd_blocksize c) (cd_aead c) (cd_stream c) (cd_ivsize c) (cd_alignmask c)
    (cd_s c) v (cd_as c) (cd_arequest c) (cd_result c) (cd_iv c)
    (tfm_name c) (tfm_key c) (tfm_authsize c) (req_assoc c).
Definition set_cd_as (v : Z) (c : cipher_data) : cipher_data :=
  CipherData (cd_init c) (cd_blocksize c) (cd_aead c) (cd_stream c) (cd_ivsize c) (cd_alignmask c)
    (cd_s c) (cd_request c) v (cd_arequest c) (cd_result c) (cd_iv c)
    (tfm_name c) (tfm_key c) (tfm_authsize c) (req_assoc c).
Definition set_cd_arequest (v : Z) (c : cipher_data) : cipher_data :=
  CipherData (cd_init c) (cd_blocksize c) (cd_aead c) (cd_stream c) (cd_ivsize c) (cd_alignmask c)
    (cd_s c) (cd_request c) (cd_as c) v (cd_result c) (cd_iv c)
    (tfm_name c) (tfm_key c) (tfm_authsize c) (req_assoc c).
Definition set_cd_result (v : Z) (c : cipher_data) : cipher_data :=
  CipherData (cd_init c) (cd_blocksize c) (cd_aead c) (cd_stream c) (cd_ivsize c) (cd_alignmask c)
    (cd_s c) (cd_request c) (cd_as c) (cd_arequest c) v (cd_iv c)
    (tfm_name c) (tfm_key c) (tfm_authsize c) (req_assoc c).
Definition set_cd_iv (v : bytes) (c : cipher_data) : cipher_data :=
  CipherData (cd_init c) (cd_blocksize c) (cd_aead c) (cd_stream c) (cd_ivsize c) (cd_alignmask c)
    (cd_s c) (cd_request c) (cd_as c) (cd_arequest c) (cd_result c) v
    (tfm_name c) (tfm_key c) (tfm_authsize c) (req_assoc c).
Definition set_tfm (name : string) (key : bytes) (c : cipher_data) : cipher_data :=
  CipherData (cd_init c) (cd_blocksize c) (cd_aead c) (cd_stream c) (cd_ivsize c) (cd_alignmask c)
    (cd_s c) (cd_request c) (cd_as c) (cd_arequest c) (cd_result c) (cd_iv c)
    name key (tfm_authsize c) (req_assoc c).
Definition set_tfm_authsize (v : Z) (c : cipher_data) : cipher_data :=
  CipherData (cd_init c) (cd_blocksize c) (cd_aead c) (cd_stream c) (cd_ivsize c) (cd_alignmask c)
    (cd_s c) (cd_request c) (cd_as c) (cd_arequest c) (cd_result c) (cd_iv c)
    (tfm_name c) (tfm_key c) v (req_assoc c).
Definition set_req_assoc (v : bytes) (c : cipher_data) : cipher_data :=
  CipherData (cd_init c) (cd_blocksize c) (cd_aead c) (cd_stream c) (cd_ivsize c) (cd_alignmask c)
    (cd_s c) (cd_request c) (cd_as c) (cd_arequest c) (cd_result c) (cd_iv c)
    (tfm_name c) (tfm_key c) (tfm_authsize c) v.

Section Hash.
Context `{CryptoAPI}.

(** [struct hash_data], with the state the CryptoAPI keeps in the transform
    and in the request. *)
Record hash_data := HashData {
  hd_init : Z; hd_digestsize : Z; hd_alignmask : Z;
  hd_s : Z; hd_result : Z; hd_request : Z;
  ahash_name : string; ahash_key : bytes; ahash_st : hstate }.

Definition hash_data_zero : hash_data := HashData 0 0 0 0 0 0 EmptyString [] hstate_new.

Definition set_hd_init (v : Z) (h : hash_data) : hash_data :=
  HashData v (hd_digestsize h) (hd_alignmask h) (hd_s h) (hd_result h) (hd_request h)
    (ahash_name h) (ahash_key h) (ahash_st h).
Definition set_hd_sizes (digestsize alignmask : Z) (h : hash_data) : hash_data :=
  HashData (hd_init h) digestsize alignmask (hd_s h) (hd_result h) (hd_request h)
    (ahash_name h) (ahash_key h) (ahash_st h).
Definition set_hd_s (v : Z) (h : hash_data) : hash_data :=
  HashData (hd_init h) (hd_digestsize h) (hd_alignmask h) v (hd_result h) (hd_request h)
    (ahash_name h) (ahash_key h) (ahash_st h).
Definition set_hd_result (v : Z) (h : hash_data) : hash_data :=
  HashData (hd_init h) (hd_digestsize h) (hd_alignmask h) (hd_s h) v (hd_request h)
    (ahash_name h) (ahash_key h) (ahash_st h).
Definition set_hd_request (v : Z) (h : hash_data) : hash_data :=
  HashData (hd_init h) (hd_digestsize h) (hd_alignmask h) (hd_s h) (hd_result h) v
    (ahash_name h) (ahash_key h) (ahash_st h).
Definition set_ahash_tfm (name : string) (key : bytes) (h : hash_data) : hash_data :=
  HashData (hd_init h) (hd_digestsize h) (hd_alignmask h) (hd_s h) (hd_result h) (hd_request h)
    name key (ahash_st h).
Definition set_ahash_st (v : hstate) (h : hash_data) : hash_data :=
  HashData (hd_init h) (hd_digestsize h) (hd_alignmask h) (hd_s h) (hd_result h) (hd_request h)
    (ahash_name h) (ahash_key h) v.
End Hash.

(** ** Completion *)

(** [cryptodev_complete]: the callback of a request, storing the error of the
    finished request in its [cryptodev_result]. *)
Definition cryptodev_complete (res : option Z) (err : Z) : option Z :=
  if err =? - EINPROGRESS then res else Some err.

(** [waitfor]: waits for a request that is in progress. *)
Definition waitfor {X} (events : list Z) (ret : Z) : K X Z :=
  if ret =? 0 then mret 0
  else if (ret =? - EINPROGRESS) || (ret =? - EBUSY) then
    match foldl cryptodev_complete None events with
    | None => crashed Diverges           (* wait_for_completion never returns *)
    | Some err => if negb (err =? 0) then mret err else mret 0
    end
  else mret ret.

Definition ERR_PTR : Z := - ENOMEM.

Section Cryptlib.
Context `{CryptoAPI}.

(** ** Ciphers *)

(** What a block of code ends with: a return, a jump to the cleanup code, or
    the value of [ret] it goes on with. *)
Inductive flow := Return (r : Z) | Goto (r : Z) | Next (ret : Z).

(** The [error:] label of [cryptodev_cipher_init]. *)
Definition cipher_init_error (aead : Z) (ret : Z) : K cipher_data Z :=
  out ← getx;
  (if aead =? 0 then
     (if negb (cd_request out =? 0) then kfree (cd_request out) else mret tt);;
     (if negb (cd_s out =? 0) then kfree (cd_s out) else mret tt)
   else
     (if negb (cd_arequest out =? 0) then kfree (cd_arequest out) else mret tt);;
     (if negb (cd_s out =? 0) then kfree (cd_as out) else mret tt));;
  kfree (cd_result out);;
  mret ret.

(** The transform of [cryptodev_cipher_init] (up to [setkey]). *)
Definition cipher_init_tfm (alg_name : string) (keyp : bytes) (aead_ : Z) : K cipher_data flow :=
  let keylen := Z.of_nat (length keyp) in
  if aead_ =? 0 then
    match ablkcipher alg_name with
    | None => modx (set_cd_s ERR_PTR);; mret (Return (- EINVAL))
    | Some alg =>
        s ← kalloc OTfm;
        if s =? 0 then modx (set_cd_s ERR_PTR);; mret (Return (- EINVAL))
        else
          modx (set_cd_s s);;
          if match alg_keysizes alg with
             | Some (min_keysize, max_keysize) =>
                 (0 <? max_keysize) && ((keylen <? min_keysize) || (max_keysize <? keylen))
             | None => false
             end
          then mret (Goto (- EINVAL))
          else
            modx (set_cd_sizes (alg_blocksize alg) (alg_ivsize alg) (alg_alignmask alg));;
            modx (set_tfm alg_name keyp);;
            mret (Next (ablkcipher_setkey alg_name keyp))
    end
  else
    match aead alg_name with
    | None => modx (set_cd_as ERR_PTR);; mret (Return (- EINVAL))
    | Some alg =>
        s ← kalloc OTfm;
        if s =? 0 then modx (set_cd_as ERR_PTR);; mret (Return (- EINVAL))
        else
          modx (set_cd_as s);;
          modx (set_cd_sizes (alg_blocksize alg) (alg_ivsize alg) (alg_alignmask alg));;
          modx (set_tfm alg_name keyp);;
          modx (set_tfm_authsize (alg_authsize alg));;
          mret (Next (aead_setkey alg_name keyp))
    end.

(** [cryptodev_cipher_init]; [keyp] holds [keylen] bytes. *)
Definition cryptodev_cipher_init (alg_name : string) (keyp : bytes) (stream aead : Z)
    : K cipher_data Z :=
  setx cipher_data_zero;;
  f ← cipher_init_tfm alg_name keyp aead;
  match f with
  | Return r => mret r
  | Goto r => cipher_init_error aead r
  | Next ret =>
      if negb (ret =? 0) then cipher_init_error aead (- EINVAL)
      else
        modx (set_cd_mode stream aead);;
        result ← kalloc OResult;
        modx (set_cd_result result);;
        if result =? 0 then cipher_init_error aead (- ENOMEM)
        else
          request ← kalloc ORequest;
          modx (if aead =? 0 then set_cd_request request else set_cd_arequest request);;
          if request =? 0 then cipher_init_error aead (- ENOMEM)
          else modx (set_cd_init 1);; mret 0
  end.

(** [cryptodev_cipher_deinit] *)
Definition cryptodev_cipher_deinit : K cipher_data unit :=
  c ← getx;
  if negb (cd_init c =? 0) then
    (if cd_aead c =? 0 then
       (if negb (cd_request c =? 0) then kfree (cd_request c) else mret tt);;
       (if negb (cd_s c =? 0) then kfree (cd_s c) else mret tt)
     else
       (if negb (cd_arequest c =? 0) then kfree (cd_arequest c) else mret tt);;
       (if negb (cd_as c =? 0) then kfree (cd_as c) else mret tt));;
    kfree (cd_result c);;
    modx (set_cd_init 0)
  else mret tt.

(** The request common to [cryptodev_cipher_encrypt] and
    [cryptodev_cipher_decrypt]. *)
Definition cipher_request (dec : bool) (src dst : list sg_entry) (len : Z) : K cipher_data Z :=
  c ← getx;
  touch (cd_result c);;
  touch (if cd_aead c =? 0 then cd_request c else cd_arequest c);;
  data ← sg_read src 0 len;
  let r :=
    if cd_aead c =? 0 then
      (if dec then ablkcipher_decrypt else ablkcipher_encrypt)
        (tfm_name c) (tfm_key c) (cd_iv c) data
    else
      (if dec then aead_decrypt else aead_encrypt)
        (tfm_name c) (tfm_key c) (tfm_authsize c) (req_assoc c) (cd_iv c) data in
  modx (set_cd_iv (cr_iv r));;
  sg_write dst 0 (cr_out r);;
  waitfor (cr_events r) (cr_ret r).

(** [cryptodev_cipher_encrypt], [cryptodev_cipher_decrypt] *)
Definition cryptodev_cipher_encrypt := cipher_request false.
Definition cryptodev_cipher_decrypt := cipher_request true.

(** [cryptodev_cipher_auth]; the associated data of the next request. *)
Definition cryptodev_cipher_auth (sg1 : list sg_entry) (len : Z) : K cipher_data unit :=
  c ← getx;
  touch (cd_arequest c);;
  a ← (if len =? 0 then mret [] else sg_read sg1 0 len);
  modx (set_req_assoc a).

Definition cryptodev_cipher_set_tag_size (size : Z) : K cipher_data unit :=
  c ← getx;
  if negb (cd_aead c =? 0) then modx (set_tfm_authsize size) else mret tt.

Definition cryptodev_cipher_get_tag_size : K cipher_data Z :=
  c ← getx;
  mret (if negb (cd_init c =? 0) && negb (cd_aead c =? 0) then tfm_authsize c else 0).

(** [memcpy(dst, src, n)] over buffers of at least [n] bytes. *)
Definition memcpy (dst src : bytes) (n : Z) : bytes :=
  take (Z.to_nat n) src ++ drop (Z.to_nat n) dst.

Definition cryptodev_cipher_set_iv (iv : bytes) (iv_size : Z) : K cipher_data unit :=
  modx (fun c => set_cd_iv (memcpy (cd_iv c) iv (Z.min iv_size EALG_MAX_BLOCK_LEN)) c).

(** [cryptodev_cipher_get_iv]: the new contents of [iv]. *)
Definition cryptodev_cipher_get_iv (iv : bytes) (iv_size : Z) : K cipher_data bytes :=
  c ← getx;
  mret (memcpy iv (cd_iv c) (Z.min iv_size EALG_MAX_BLOCK_LEN)).

(** ** Hashes *)

(** The [error:] label of [cryptodev_hash_init]. *)
Definition hash_init_error (ret : Z) : K hash_data Z :=
  h ← getx;
  kfree (hd_result h);;
  kfree (hd_s h);;
  mret ret.

(** [cryptodev_hash_init] *)
Definition cryptodev_hash_init (alg_name : string) (hmac_mode : Z) (mackey : bytes)
    : K hash_data Z :=
  match ahash alg_name with
  | None => modx (set_hd_s ERR_PTR);; mret (- EINVAL)
  | Some alg =>
      s ← kalloc OTfm;
      if s =? 0 then modx (set_hd_s ERR_PTR);; mret (- EINVAL)
      else
        modx (set_hd_s s);;
        let ret := if negb (hmac_mode =? 0) then ahash_setkey alg_name mackey else 0 in
        if negb (ret =? 0) then hash_init_error (- EINVAL)
        else
          modx (set_ahash_tfm alg_name (if negb (hmac_mode =? 0) then mackey else []));;
          modx (set_hd_sizes (alg_digestsize alg) (alg_hash_alignmask alg));;
          result ← kalloc OResult;
          modx (set_hd_result result);;
          if result =? 0 then hash_init_error (- ENOMEM)
          else
            request ← kalloc ORequest;
            modx (set_hd_request request);;
            if request =? 0 then hash_init_error (- ENOMEM)
            else
              h ← getx;
              let '(ret, st) := ahash_init (ahash_name h) (ahash_key h) in
              modx (set_ahash_st st);;
              if negb (ret =? 0) then
                kfree request;; hash_init_error ret
              else modx (set_hd_init 1);; mret 0
  end.

(** [cryptodev_hash_deinit] *)
Definition cryptodev_hash_deinit : K hash_data unit :=
  h ← getx;
  if negb (hd_init h =? 0) then
    (if negb (hd_request h =? 0) then kfree (hd_request h) else mret tt);;
    kfree (hd_result h);;
    (if negb (hd_s h =? 0) then kfree (hd_s h) else mret tt);;
    modx (set_hd_init 0)
  else mret tt.

(** [cryptodev_hash_reset] *)
Definition cryptodev_hash_reset : K hash_data Z :=
  h ← getx;
  touch (hd_request h);;
  let '(ret, st) := ahash_init (ahash_name h) (ahash_key h) in
  modx (set_ahash_st st);;
  if negb (ret =? 0) then mret ret else mret 0.

(** [cryptodev_hash_update] *)
Definition cryptodev_hash_update (sg : list sg_entry) (len : Z) : K hash_data Z :=
  h ← getx;
  touch (hd_result h);;
  touch (hd_request h);;
  data ← sg_read sg 0 len;
  let '(ret, events, st) := ahash_update (ahash_name h) (ahash_st h) data in
  modx (set_ahash_st st);;
  waitfor events ret.

(** [cryptodev_hash_final]: the result and the contents of [output]. *)
Definition cryptodev_hash_final : K hash_data (Z * bytes) :=
  h ← getx;
  touch (hd_result h);;
  touch (hd_request h);;
  let '(ret, events, digest) := ahash_final (ahash_name h) (ahash_st h) in
  ret ← waitfor events ret;
  (* output is a buffer of AALG_MAX_RESULT_LEN bytes *)
  if AALG_MAX_RESULT_LEN <? Z.of_nat (length digest) then crashed OutOfBounds
  else mret (ret, digest).
End Cryptlib.
