(* ===== verification/CryptlibFacts.v ===== *)
(** * Facts about ciphers and hashes

    Which objects a cipher or a hash owns, that setting up and tearing down
    balance, and what a request computes. *)
From stdpp Require Import base gmap gmultiset list strings numbers.
From S2P Require Import Prelude Kernel KernelFacts Structs CryptoApi Sg Cryptlib.
Open Scope Z_scope.

(** ** Waiting *)

(** The result of a request once it has completed. *)
Definition req_result (ret : Z) (events : list Z) : Z :=
  if (ret =? - EINPROGRESS) || (ret =? - EBUSY) then default 0 (final_err events) else ret.

Lemma req_result_ok ret ev :
  (in_progress ret -> is_Some (final_err ev)) -> req_result ret ev = 0 <-> req_ok ret ev.
Proof.
  intros Hc. unfold req_result, req_ok, in_progress in *.
  destruct (Z.eqb_spec ret (- EINPROGRESS)) as [Hr|]; [|destruct (Z.eqb_spec ret (- EBUSY)) as [Hr|]];
    cbn [orb]; [| |split; [intros ->; by left|]; intros [?|[[?|?] _]]; lia];
    (destruct Hc as [err ->]; [by auto|]; cbn [default from_option id];
     split; [intros ->; auto|]; intros [?|[_ ?]]; [unfold EINPROGRESS, EBUSY in *; lia|congruence]).
Qed.

Lemma waitfor_spec {X} (e : env) (x : X) ret ev (Q : Z -> env * X -> Prop) :
  (in_progress ret -> is_Some (final_err ev)) -> Q (req_result ret ev) (e, x) ->
  wp (waitfor ev ret) Q (e, x).
Proof.
  intros Hc HQ. unfold waitfor, req_result, in_progress in *.
  destruct (Z.eqb_spec ret 0) as [->|Hne]; [done|].
  destruct (orb _ _) eqn:Hp; [|done].
  destruct Hc as [err Herr]; [lia|]. change (foldl cryptodev_complete None ev) with (final_err ev).
  rewrite Herr in *. simpl in HQ. destruct (Z.eqb_spec err 0) as [->|]; done.
Qed.

Section CryptlibFacts.
Context `{CryptoAPI, !CryptoAPISizes}.
Implicit Types (e : env) (c : cipher_data) (h : hash_data).

(** ** Ownership *)

Definition cdata_objs c : list (Z * kobj) :=
  if cd_init c =? 0 then []
  else if cd_aead c =? 0
  then [(cd_request c, ORequest); (cd_s c, OTfm); (cd_result c, OResult)]
  else [(cd_arequest c, ORequest); (cd_as c, OTfm); (cd_result c, OResult)].

Definition hdata_objs h : list (Z * kobj) :=
  if hd_init h =? 0 then []
  else [(hd_request h, ORequest); (hd_result h, OResult); (hd_s h, OTfm)].

(** The parameters are those of the algorithm the transform was made for. *)
Record cdata_ok c : Prop := {
  cdata_iv : length (cd_iv c) = Z.to_nat EALG_MAX_BLOCK_LEN;
  cdata_alg : cd_init c <> 0 ->
    exists a, (if cd_aead c =? 0 then ablkcipher else aead) (tfm_name c) = Some a /\
      cd_blocksize c = alg_blocksize a /\ cd_ivsize c = alg_ivsize a;
  cdata_authsize : 0 <= tfm_authsize c;
  cdata_unset : cd_init c = 0 -> cd_ivsize c = 0
}.

Record hdata_ok h : Prop := {
  hdata_alg : hd_init h <> 0 ->
    exists a, ahash (ahash_name h) = Some a /\ hd_digestsize h = alg_digestsize a
}.

Lemma cdata_ok_zero : cdata_ok cipher_data_zero.
Proof. by constructor. Qed.
Lemma hdata_ok_zero : hdata_ok hash_data_zero.
Proof. by constructor. Qed.

(** ** Setting up and tearing down *)

Lemma cipher_deinit_spec e c R (Q : unit -> env * cipher_data -> Prop) :
  env_ok e -> owns e (cdata_objs c ++ R) ->
  (forall e', same_world e e' -> env_ok e' -> owns e' R -> Q tt (e', set_cd_init 0 c)) ->
  wp cryptodev_cipher_deinit Q (e, c).
Proof.
  intros He Ho HQ. unfold cryptodev_cipher_deinit, cdata_objs in *. ksteps.
  destruct (Z.eqb_spec (cd_init c) 0) as [Hi|Hi]; cbn [negb].
  { ksteps. replace c with (set_cd_init 0 c); [by apply HQ|]. destruct c; simpl in *. by subst. }
  ksteps. destruct (cd_aead c =? 0); simpl in Ho; ksteps;
    (rewrite (proj2 (Z.eqb_neq _ _)) by (eapply owns_nonnull; [done..|]; repeat constructor)); cbn [negb];
    kfree_one; ksteps;
    (rewrite (proj2 (Z.eqb_neq _ _)) by (eapply owns_nonnull; [done..|]; repeat constructor)); cbn [negb];
    kfree_one; ksteps; kfree_one; ksteps; apply HQ; eauto using same_world_trans.
Qed.

Lemma hash_deinit_spec e h R (Q : unit -> env * hash_data -> Prop) :
  env_ok e -> owns e (hdata_objs h ++ R) ->
  (forall e', same_world e e' -> env_ok e' -> owns e' R -> Q tt (e', set_hd_init 0 h)) ->
  wp cryptodev_hash_deinit Q (e, h).
Proof.
  intros He Ho HQ. unfold cryptodev_hash_deinit, hdata_objs in *. ksteps.
  destruct (Z.eqb_spec (hd_init h) 0) as [Hi|Hi]; cbn [negb].
  { ksteps. replace h with (set_hd_init 0 h); [by apply HQ|]. destruct h; simpl in *. by subst. }
  simpl in Ho. ksteps.
  (rewrite (proj2 (Z.eqb_neq _ _)) by (eapply owns_nonnull; [done..|]; repeat constructor)); cbn [negb].
  kfree_one. ksteps. kfree_one. ksteps.
  (rewrite (proj2 (Z.eqb_neq _ _)) by (eapply owns_nonnull; [done..|]; repeat constructor)); cbn [negb].
  kfree_one. ksteps. apply HQ; eauto using same_world_trans.
Qed.
(** The cleanup code frees what was allocated so far, except for the transform
    of an AEAD cipher, of which it tests the wrong pointer. *)
Lemma cipher_init_error_ablk e c r res (Q : Z -> env * cipher_data -> Prop) R :
  env_ok e -> cd_request c = 0 -> cd_s c <> 0 -> cd_result c = res ->
  owns e ((if res =? 0 then [] else [(res, OResult)]) ++ (cd_s c, OTfm) :: R) ->
  (forall e', same_world e e' -> env_ok e' -> owns e' R -> Q r (e', c)) ->
  wp (cipher_init_error 0 r) Q (e, c).
Proof.
  intros He Hreq Hs Hres Ho HQ. unfold cipher_init_error. ksteps.
  change (0 =? 0) with true. cbv iota. ksteps. rewrite Hreq. change (negb (0 =? 0)) with false. ksteps.
  rewrite (proj2 (Z.eqb_neq _ _) Hs). cbn [negb]. rewrite Hres. clear Hres.
  destruct (Z.eqb_spec res 0) as [->|]; simpl in Ho; ksteps; kfree_one; ksteps; kfree_one; ksteps;
    apply HQ; eauto using same_world_trans.
Qed.

Lemma cipher_init_error_aead e c r res a (Q : Z -> env * cipher_data -> Prop) R :
  a <> 0 -> env_ok e -> cd_arequest c = 0 -> cd_s c = 0 -> cd_result c = res ->
  owns e ((if res =? 0 then [] else [(res, OResult)]) ++ R) ->
  (forall e', same_world e e' -> env_ok e' -> owns e' R -> Q r (e', c)) ->
  wp (cipher_init_error a r) Q (e, c).
Proof.
  intros Ha He Hreq Hs Hres Ho HQ. unfold cipher_init_error. ksteps.
  rewrite (proj2 (Z.eqb_neq _ _) Ha), Hreq, Hs. change (negb (0 =? 0)) with false. ksteps.
  rewrite Hres. clear Hres.
  destruct (Z.eqb_spec res 0) as [->|]; simpl in Ho; ksteps; kfree_one; ksteps; apply HQ; eauto with kernel.
Qed.

(** The algorithm exists and takes the key. *)
Definition cipher_accepts (name : string) (key : bytes) (aead_ : Z) : bool :=
  if aead_ =? 0 then
    match ablkcipher name with
    | None => false
    | Some alg =>
        negb match alg_keysizes alg with
             | Some (min_keysize, max_keysize) =>
                 (0 <? max_keysize) && ((Z.of_nat (length key) <? min_keysize) ||
                                        (max_keysize <? Z.of_nat (length key)))
             | None => false
             end && (ablkcipher_setkey name key =? 0)
    end
  else match aead name with None => false | Some _ => aead_setkey name key =? 0 end.

Definition hash_accepts (name : string) (hmac : Z) (key : bytes) : bool :=
  match ahash name with
  | None => false
  | Some _ => ((hmac =? 0) || (ahash_setkey name key =? 0)) &&
              ((ahash_init name (if hmac =? 0 then [] else key)).1 =? 0)
  end.

(** What [cryptodev_cipher_init] leaves on success. *)
Record cipher_ready (name : string) (key : bytes) (stream aead_ : Z) c : Prop := {
  cr_ok : cdata_ok c;
  cr_init : cd_init c = 1;
  cr_name : tfm_name c = name;
  cr_key : tfm_key c = key;
  cr_stream : cd_stream c = stream;
  cr_aead : cd_aead c = aead_
}.

(** What the four allocation sites of the initialisation leave to prove. *)
Ltac init_ready c Halg :=
  constructor; simpl; try done; constructor; simpl; try done; eauto.

Lemma cipher_init_ablk_spec e c name key stream R (Q : Z -> env * cipher_data -> Prop) :
  env_ok e -> owns e R ->
  (forall e' c', same_world e e' -> env_ok e' -> owns e' (cdata_objs c' ++ R) ->
     cipher_ready name key stream 0 c' -> Q 0 (e', c')) ->
  (forall r e' c', r < 0 -> same_world e e' -> env_ok e' -> owns e' R ->
     cipher_accepts name key 0 = false \/ e_allocs e <> [] -> Q r (e', c')) ->
  wp (cryptodev_cipher_init name key stream 0) Q (e, c).
Proof.
  intros He Ho Hok Herr. unfold cryptodev_cipher_init, cipher_init_tfm, cipher_accepts in *. kgo.
  change (0 =? 0) with true in Herr. cbv iota in Herr.
  destruct (ablkcipher name) as [alg|] eqn:Halg; [|ksteps; apply Herr; auto with kernel; done].
  set (bad := match alg_keysizes alg with Some _ => _ | None => _ end) in *.
  ksteps. kalloc_as s e1; [kgo; apply Herr; by auto|].
  assert (Hal : forall e2, same_world e1 e2 -> e_allocs e2 <> [] -> e_allocs e <> []).
  { intros e2 Hw Hne Hn. apply Hne. eapply sw_allocs; [done|]. by eapply sw_allocs. }
  assert (Hgoto : forall res e2 r c1, r < 0 -> same_world e1 e2 -> env_ok e2 ->
    owns e2 ((if res =? 0 then [] else [(res, OResult)]) ++ (s, OTfm) :: R) ->
    negb bad && (ablkcipher_setkey name key =? 0) = false \/ e_allocs e <> [] ->
    cd_request c1 = 0 -> cd_s c1 = s -> cd_result c1 = res -> wp (cipher_init_error 0 r) Q (e2, c1)).
  { intros res e2 r c1 Hr ? ? ? ? ? Hs ?. apply cipher_init_error_ablk with res R; rewrite ?Hs; try done.
    intros. apply Herr; eauto using same_world_trans. }
  kgo. fold bad. destruct bad; kgo; [apply (Hgoto 0); by auto with kernel|].
  destruct (Z.eqb_spec (ablkcipher_setkey name key) 0); kgo;
    [|apply (Hgoto 0); try done; left; apply andb_false_r].
  kalloc_as res e2; [kgo; apply (Hgoto 0); try done; right; by apply (Hal e1)|]. kgo.
  kalloc_as req e3; kgo.
  - apply (Hgoto res); try done; [by etrans| |right; by apply (Hal e2)]. by rewrite (proj2 (Z.eqb_neq res 0)).
  - apply Hok; [by do 2 etrans|done| |by init_ready c Halg].
    simpl. eapply owns_perm; [|eassumption]. apply perm_skip, perm_swap.
Qed.
(** For an AEAD cipher the transform is lost when a later step fails. *)
Lemma cipher_init_aead_spec e c name key stream a R (Q : Z -> env * cipher_data -> Prop) :
  a <> 0 -> env_ok e -> owns e R ->
  (forall e' c', same_world e e' -> env_ok e' -> owns e' (cdata_objs c' ++ R) ->
     cipher_ready name key stream a c' -> Q 0 (e', c')) ->
  (forall r e' c' lost, r < 0 -> same_world e e' -> env_ok e' -> owns e' (lost ++ R) ->
     lost = [] \/ (exists s, lost = [(s, OTfm)]) /\ (aead_setkey name key <> 0 \/ e_allocs e <> []) ->
     cipher_accepts name key a = false \/ e_allocs e <> [] -> Q r (e', c')) ->
  wp (cryptodev_cipher_init name key stream a) Q (e, c).
Proof.
  intros Ha He Ho Hok Herr. unfold cryptodev_cipher_init, cipher_init_tfm, cipher_accepts in *.
  rewrite (proj2 (Z.eqb_neq _ _) Ha) in Herr. kgo.
  destruct (aead name) as [alg|] eqn:Halg; [|ksteps; apply Herr with []; auto with kernel; done].
  destruct (aead_sizes _ _ Halg) as (_ & _ & Htag & _).
  ksteps. kalloc_as s e1; [kgo; apply Herr with []; auto with kernel; done|].
  assert (Hgoto : forall res e2 r c1, r < 0 -> same_world e1 e2 -> env_ok e2 ->
    owns e2 ((if res =? 0 then [] else [(res, OResult)]) ++ (s, OTfm) :: R) ->
    aead_setkey name key <> 0 \/ e_allocs e <> [] ->
    cd_arequest c1 = 0 -> cd_s c1 = 0 -> cd_result c1 = res -> wp (cipher_init_error a r) Q (e2, c1)).
  { intros res e2 r c1 Hr ? ? ? Hwhy ? Hs ?.
    apply cipher_init_error_aead with res ((s, OTfm) :: R); try done.
    intros. apply Herr with [(s, OTfm)]; eauto using same_world_trans.
    destruct Hwhy; [left; lia|by right]. }
  assert (Hal : forall e2, same_world e1 e2 -> e_allocs e2 <> [] -> e_allocs e <> []).
  { intros e2 Hw Hne Hn. apply Hne. eapply sw_allocs; [done|]. by eapply sw_allocs. }
  kgo. destruct (Z.eqb_spec (aead_setkey name key) 0); kgo; [|apply (Hgoto 0); by auto with kernel].
  kalloc_as res e2; [kgo; apply (Hgoto 0); try done; right; by apply (Hal e1)|]. kgo.
  kalloc_as req e3; kgo.
  - apply (Hgoto res); try done; [by etrans| |right; by apply (Hal e2)]. by rewrite (proj2 (Z.eqb_neq res 0)).
  - apply Hok; [by do 2 etrans|done| |].
    + unfold cdata_objs. simpl. rewrite (proj2 (Z.eqb_neq a 0)) by done.
      eapply owns_perm; [|eassumption]. apply perm_skip, perm_swap.
    + constructor; simpl; try done. constructor; simpl; try done.
      rewrite (proj2 (Z.eqb_neq a 0)) by done. eauto.
Qed.

(** What [cryptodev_hash_init] leaves on success. *)
Record hash_ready (name : string) (key : bytes) h : Prop := {
  hr_ok : hdata_ok h;
  hr_init : hd_init h = 1;
  hr_name : ahash_name h = name;
  hr_key : ahash_key h = key;
  hr_st : ahash_st h = (ahash_init name key).2
}.

Lemma hash_init_spec e h name hmac key R (Q : Z -> env * hash_data -> Prop) :
  env_ok e -> owns e R -> hd_result h = 0 ->
  (forall e' h', same_world e e' -> env_ok e' -> owns e' (hdata_objs h' ++ R) ->
     hash_ready name (if hmac =? 0 then [] else key) h' -> Q 0 (e', h')) ->
  (forall r e' h', r <> 0 -> same_world e e' -> env_ok e' -> owns e' R ->
     hash_accepts name hmac key = false \/ e_allocs e <> [] -> Q r (e', h')) ->
  wp (cryptodev_hash_init name hmac key) Q (e, h).
Proof.
  intros He Ho Hres Hok Herr. unfold cryptodev_hash_init, hash_accepts in *.
  destruct (ahash name) as [alg|] eqn:Halg; [|ksteps; apply Herr; auto with kernel; done].
  ksteps. kalloc_as s e1; [kgo; apply Herr; by auto|]. kgo.
  assert (Hal : forall e2, same_world e1 e2 -> e_allocs e2 <> [] -> e_allocs e <> []).
  { intros e2 Hw Hne Hn. apply Hne. eapply sw_allocs; [done|]. by eapply sw_allocs. }
  set (acc := _ && _) in Herr.
  assert (Hgoto : forall res e2 r h1, r <> 0 -> same_world e1 e2 -> env_ok e2 ->
    owns e2 ((if res =? 0 then [] else [(res, OResult)]) ++ (s, OTfm) :: R) ->
    acc = false \/ e_allocs e <> [] -> hd_s h1 = s -> hd_result h1 = res -> wp (hash_init_error r) Q (e2, h1)).
  { intros res e2 r h1 Hr ? ? Ho2 ? Hs Hr1. unfold hash_init_error. ksteps. rewrite Hs, Hr1. clear Hr1.
    destruct (Z.eqb_spec res 0) as [->|]; simpl in Ho2; kfree_one; ksteps; kfree_one; ksteps;
      apply Herr; eauto using same_world_trans. }
  set (keyed := if negb (hmac =? 0) then ahash_setkey name key else 0).
  destruct (Z.eqb_spec keyed 0) as [Hk|Hk]; kgo.
  2: { apply (Hgoto 0); try done. left. unfold keyed, acc in *. destruct (hmac =? 0); simpl in *; lia. }
  kalloc_as res e2; [kgo; apply (Hgoto 0); try done; right; by apply (Hal e1)|]. kgo.
  kalloc_as req e3; kgo.
  { apply (Hgoto res); try done; [by etrans| |right; by apply (Hal e2)]. by rewrite (proj2 (Z.eqb_neq res 0)). }
  simpl. destruct (ahash_init name (if negb (hmac =? 0) then key else [])) as [ret st] eqn:Hinit. kgo.
  destruct (Z.eqb_spec ret 0); kgo.
  - apply Hok; [by do 2 etrans|done|by simpl|].
    constructor; simpl; try done; [constructor; simpl; eauto|by destruct (hmac =? 0)|].
    destruct (hmac =? 0); simpl in Hinit; by rewrite Hinit.
  - kfree_one. kgo. apply (Hgoto res); eauto using same_world_trans.
    + by rewrite (proj2 (Z.eqb_neq res 0)).
    + left. unfold acc. destruct (hmac =? 0); simpl in *; rewrite Hinit; simpl; lia.
Qed.
(** ** Requests *)

(** What a cipher without authentication computes on [data]. *)
Definition cipher_run (dec : bool) c (data : bytes) : crypt_res :=
  (if dec then ablkcipher_decrypt else ablkcipher_encrypt) (tfm_name c) (tfm_key c) (cd_iv c) data.

Lemma cipher_request_spec e c dec ssg dsg len l (Q : Z -> env * cipher_data -> Prop) :
  owns e l -> cdata_objs c ⊆ l -> cd_init c <> 0 -> cd_aead c = 0 ->
  0 <= len <= Z.of_nat (length (sg_addrs ssg)) -> len <= Z.of_nat (length (sg_addrs dsg)) ->
  sg_live e ssg -> sg_live e dsg ->
  (let r := cipher_run dec c (peeks (e_mem e) (sg_part ssg 0 len)) in
   Q (req_result (cr_ret r) (cr_events r))
     (set_mem (pokes (sg_part dsg 0 len) (cr_out r)) e, set_cd_iv (cr_iv r) c)) ->
  wp (cipher_request dec ssg dsg len) Q (e, c).
Proof.
  intros Ho Hsub Hi Ha Hs Hd Hls Hld HQ. unfold cipher_request, cdata_objs in *.
  rewrite (proj2 (Z.eqb_neq _ _) Hi), Ha in Hsub. simpl in Hsub. kgo.
  eapply touch_spec; [exact Ho|apply Hsub; repeat constructor|]. kgo. rewrite Ha.
  change (0 =? 0) with true. cbv iota. eapply touch_spec; [exact Ho|apply Hsub; repeat constructor|].
  kgo. apply sg_read_spec; [lia|done|]. kgo. fold (cipher_run dec c (peeks (e_mem e) (sg_part ssg 0 len))).
  set (data := peeks _ _) in *. set (r := cipher_run dec c data) in *.
  assert (Hdl : length data = Z.to_nat len) by (unfold data; rewrite length_peeks, length_sg_part; lia).
  destruct (ablkcipher_length dec (tfm_name c) (tfm_key c) (cd_iv c) data) as [Hol _].
  fold (cipher_run dec c data) in Hol. fold r in Hol.
  apply sg_write_spec; [lia|done|]. replace (Z.of_nat (length (cr_out r))) with len by lia.
  apply waitfor_spec; [apply ablkcipher_completes|]. exact HQ.
Qed.

Lemma hash_update_spec e h sg len l (Q : Z -> env * hash_data -> Prop) :
  owns e l -> hdata_objs h ⊆ l -> hd_init h <> 0 ->
  0 <= len <= Z.of_nat (length (sg_addrs sg)) -> sg_live e sg ->
  (let '(ret, ev, st) := ahash_update (ahash_name h) (ahash_st h)
                           (peeks (e_mem e) (sg_part sg 0 len)) in
   Q (req_result ret ev) (e, set_ahash_st st h)) ->
  wp (cryptodev_hash_update sg len) Q (e, h).
Proof.
  intros Ho Hsub Hi Hs Hl HQ. unfold cryptodev_hash_update, hdata_objs in *.
  rewrite (proj2 (Z.eqb_neq _ _) Hi) in Hsub. kgo.
  eapply touch_spec; [exact Ho|apply Hsub; repeat constructor|]. kgo.
  eapply touch_spec; [exact Ho|apply Hsub; repeat constructor|]. kgo.
  apply sg_read_spec; [lia|done|]. kgo.
  destruct (ahash_update _ _ _) as [[ret ev] st] eqn:Hup. kgo.
  apply waitfor_spec; [by eapply ahash_update_completes|]. exact HQ.
Qed.

Lemma hash_final_spec e h l (Q : Z * bytes -> env * hash_data -> Prop) :
  owns e l -> hdata_objs h ⊆ l -> hd_init h <> 0 -> hdata_ok h ->
  (let '(ret, ev, digest) := ahash_final (ahash_name h) (ahash_st h) in
   length digest = Z.to_nat (hd_digestsize h) -> 0 < hd_digestsize h <= 64 ->
   Q (req_result ret ev, digest) (e, h)) ->
  wp cryptodev_hash_final Q (e, h).
Proof.
  intros Ho Hsub Hi Hok HQ. unfold cryptodev_hash_final, hdata_objs in *.
  rewrite (proj2 (Z.eqb_neq _ _) Hi) in Hsub. kgo.
  eapply touch_spec; [exact Ho|apply Hsub; repeat constructor|]. kgo.
  eapply touch_spec; [exact Ho|apply Hsub; repeat constructor|].
  destruct (hdata_alg _ Hok Hi) as (a & Ha & Hd). pose proof (ahash_sizes _ _ Ha).
  destruct (ahash_final _ _) as [[ret ev] d] eqn:Hf.
  pose proof (ahash_length _ _ _ _ _ _ Ha Hf) as Hl. kgo.
  apply waitfor_spec; [by eapply ahash_final_completes|].
  unfold AALG_MAX_RESULT_LEN. replace (_ <? _) with false by lia. kgo. rewrite Hd in HQ. by apply HQ.
Qed.

Lemma hash_reset_spec e h l (Q : Z -> env * hash_data -> Prop) :
  owns e l -> hdata_objs h ⊆ l -> hd_init h <> 0 ->
  (let '(ret, st) := ahash_init (ahash_name h) (ahash_key h) in Q ret (e, set_ahash_st st h)) ->
  wp cryptodev_hash_reset Q (e, h).
Proof.
  intros Ho Hsub Hi HQ. unfold cryptodev_hash_reset, hdata_objs in *.
  rewrite (proj2 (Z.eqb_neq _ _) Hi) in Hsub. kgo.
  eapply touch_spec; [exact Ho|apply Hsub; repeat constructor|].
  destruct (ahash_init _ _) as [ret st]. kgo. destruct (Z.eqb_spec ret 0); kgo; [|done]. by subst.
Qed.
End CryptlibFacts.
