(* ===== verification/Zc.v ===== *)
(** * Sessions and zero copy

    [struct csession] of [cryptodev_int.h], and [zc.c]: making user buffers
    available as scatterlists over their own pages. *)
From stdpp Require Import base gmap gmultiset list strings numbers.
From S2P Require Import Prelude Kernel KernelFacts Structs CryptoApi Sg Cryptlib.
Open Scope Z_scope.

Section Zc.
Context `{CryptoAPI}.

(** [struct csession]; [cs_addr] is the address of the object, [cs_locked]
    the state of its mutex [sem], and [cs_pages], [cs_sg] the arrays at the
    addresses [cs_pages_at] and [cs_sg_at]. *)
Record csession := CSession {
  cs_addr : Z; cs_locked : bool;
  cs_cdata : cipher_data; cs_hdata : hash_data;
  cs_sid : Z; cs_alignmask : Z;
  cs_array_size : Z; cs_used_pages : Z; cs_readonly_pages : Z;
  cs_pages_at : Z; cs_pages : list Z;
  cs_sg_at : Z; cs_sg : list sg_entry }.

Definition set_cs_locked (v : bool) (s : csession) : csession :=
  CSession (cs_addr s) v (cs_cdata s) (cs_hdata s) (cs_sid s) (cs_alignmask s)
    (cs_array_size s) (cs_used_pages s) (cs_readonly_pages s)
    (cs_pages_at s) (cs_pages s) (cs_sg_at s) (cs_sg s).
Definition set_cs_cdata (v : cipher_data) (s : csession) : csession :=
  CSession (cs_addr s) (cs_locked s) v (cs_hdata s) (cs_sid s) (cs_alignmask s)
    (cs_array_size s) (cs_used_pages s) (cs_readonly_pages s)
    (cs_pages_at s) (cs_pages s) (cs_sg_at s) (cs_sg s).
Definition set_cs_hdata (v : hash_data) (s : csession) : csession :=
  CSession (cs_addr s) (cs_locked s) (cs_cdata s) v (cs_sid s) (cs_alignmask s)
    (cs_array_size s) (cs_used_pages s) (cs_readonly_pages s)
    (cs_pages_at s) (cs_pages s) (cs_sg_at s) (cs_sg s).
Definition set_cs_sid (v : Z) (s : csession) : csession :=
  CSession (cs_addr s) (cs_locked s) (cs_cdata s) (cs_hdata s) v (cs_alignmask s)
    (cs_array_size s) (cs_used_pages s) (cs_readonly_pages s)
    (cs_pages_at s) (cs_pages s) (cs_sg_at s) (cs_sg s).
Definition set_cs_alignmask (v : Z) (s : csession) : csession :=
  CSession (cs_addr s) (cs_locked s) (cs_cdata s) (cs_hdata s) (cs_sid s) v
    (cs_array_size s) (cs_used_pages s) (cs_readonly_pages s)
    (cs_pages_at s) (cs_pages s) (cs_sg_at s) (cs_sg s).
Definition set_cs_array_size (v : Z) (s : csession) : csession :=
  CSession (cs_addr s) (cs_locked s) (cs_cdata s) (cs_hdata s) (cs_sid s) (cs_alignmask s)
    v (cs_used_pages s) (cs_readonly_pages s)
    (cs_pages_at s) (cs_pages s) (cs_sg_at s) (cs_sg s).
Definition set_cs_used_pages (v : Z) (s : csession) : csession :=
  CSession (cs_addr s) (cs_locked s) (cs_cdata s) (cs_hdata s) (cs_sid s) (cs_alignmask s)
    (cs_array_size s) v (cs_readonly_pages s)
    (cs_pages_at s) (cs_pages s) (cs_sg_at s) (cs_sg s).
Definition set_cs_readonly_pages (v : Z) (s : csession) : csession :=
  CSession (cs_addr s) (cs_locked s) (cs_cdata s) (cs_hdata s) (cs_sid s) (cs_alignmask s)
    (cs_array_size s) (cs_used_pages s) v
    (cs_pages_at s) (cs_pages s) (cs_sg_at s) (cs_sg s).
Definition set_cs_pages (p : Z) (v : list Z) (s : csession) : csession :=
  CSession (cs_addr s) (cs_locked s) (cs_cdata s) (cs_hdata s) (cs_sid s) (cs_alignmask s)
    (cs_array_size s) (cs_used_pages s) (cs_readonly_pages s)
    p v (cs_sg_at s) (cs_sg s).
Definition set_cs_sg (p : Z) (v : list sg_entry) (s : csession) : csession :=
  CSession (cs_addr s) (cs_locked s) (cs_cdata s) (cs_hdata s) (cs_sid s) (cs_alignmask s)
    (cs_array_size s) (cs_used_pages s) (cs_readonly_pages s)
    (cs_pages_at s) (cs_pages s) p v.

(** A session fresh from [kzalloc]. *)
Definition csession_zero (addr : Z) : csession :=
  CSession addr false cipher_data_zero hash_data_zero 0 0 0 0 0 0 [] 0 [].

(** Calls on [&ses->cdata] and [&ses->hdata]. *)
Definition on_cdata {A} (m : K cipher_data A) : K csession A :=
  s ← getx;
  '(a, c) ← on_local (cs_cdata s) m;
  modx (set_cs_cdata c);;
  mret a.
Definition on_hdata {A} (m : K hash_data A) : K csession A :=
  s ← getx;
  '(a, h) ← on_local (cs_hdata s) m;
  modx (set_cs_hdata h);;
  mret a.

(** ** zc.h, zc.c *)

Definition DEFAULT_PREALLOC_PAGES : Z := 32.

(** [PAGECOUNT(buf, buflen)], as the [unsigned long] it computes. *)
Definition PAGECOUNT (buf buflen : Z) : Z :=
  if buflen =? 0 then 0
  else u64 (Z.shiftr (u64 (buf + buflen - 1)) PAGE_SHIFT - Z.shiftr (u64 buf) PAGE_SHIFT + 1).

(** [PAGEOFFSET(buf)] *)
Definition PAGEOFFSET (buf : Z) : Z := buf mod PAGE_SIZE.

(** The loop of [__get_userbuf]: entries for the pages [pg], [len] bytes;
    [None] when the list ends before the buffer. *)
Fixpoint fill_pages (pg : list Z) (len : Z) : option (list sg_entry) :=
  if len =? 0 then Some []
  else
    match pg with
    | [] => None
    | p :: pg' =>
        let pglen := Z.min PAGE_SIZE len in
        cons (SG p 0 pglen false) <$> fill_pages pg' (len - pglen)
    end.

(** The entries [__get_userbuf] writes for the pages [pg] of a buffer. *)
Definition userbuf_entries (addr len : Z) (pg : list Z) : option (list sg_entry) :=
  match pg with
  | [] => None
  | p :: pg' =>
      let pglen := Z.min (PAGE_SIZE - PAGEOFFSET addr) len in
      cons (SG p (PAGEOFFSET addr) pglen false) <$> fill_pages pg' (len - pglen)
  end.

(** [__get_userbuf(addr, len, write, pgcount, ses->pages + at, ses->sg + at, ...)] *)
Definition __get_userbuf (addr len : Z) (write : bool) (pgcount : Z) (at_ : nat)
    : K csession Z :=
  if (pgcount =? 0) || (len =? 0) || (addr =? 0) then
    s ← getx;
    if (length (cs_sg s) <=? at_)%nat then crashed OutOfBounds else
    modx (fun s => set_cs_sg (cs_sg_at s) (alter sg_mark_end at_ (cs_sg s)) s);;
    mret 0
  else
    pg ← get_user_pages addr pgcount write;
    s ← getx;
    (* get_user_pages stores the pages it pinned *)
    if Z.of_nat (length (cs_pages s)) <? Z.of_nat at_ + Z.of_nat (length pg)
    then crashed OutOfBounds
    else
      modx (fun s => set_cs_pages (cs_pages_at s) (list_inserts at_ pg (cs_pages s)) s);;
      if negb (Z.of_nat (length pg) =? pgcount) then mret (- EINVAL)
      else
        let n := length pg in
        if Z.of_nat (length (cs_sg s)) <? Z.of_nat at_ + pgcount then crashed OutOfBounds
        else
          let arr := sg_init_table at_ n (cs_sg s) in
          match userbuf_entries addr len pg with
          | None => crashed NullDeref
          | Some new =>
              let arr := list_inserts at_ new arr in
              modx (fun s => set_cs_sg (cs_sg_at s) (alter sg_mark_end (at_ + n - 1)%nat arr) s);;
              mret 0
          end.

(** The loop of [adjust_sg_array]; [array_size] is an [int]. *)
Fixpoint grow_array (fuel : nat) (array_size pagecount : Z) : option Z :=
  if pagecount <=? array_size then Some array_size
  else match fuel with
       | O => None
       | S fuel => grow_array fuel (s32 (array_size * 2)) pagecount
       end.

(** [krealloc] of the array at [p] to [n] elements: the address, and the
    contents, of which the new part is not initialised. *)
Definition krealloc {A} (k : kobj) (p : Z) (l : list A) (junk : A) (n : Z) : K csession (Z * list A) :=
  q ← kalloc k;
  if q =? 0 then mret (0, l)
  else kfree p;; mret (q, resize (Z.to_nat n) junk l).

(** [adjust_sg_array] *)
Definition adjust_sg_array (pagecount : Z) : K csession Z :=
  s ← getx;
  match grow_array 64 (cs_array_size s) pagecount with
  | None => crashed Diverges
  | Some array_size =>
      '(p, pages) ← krealloc OPageArray (cs_pages_at s) (cs_pages s) (-1) array_size;
      if p =? 0 then mret (- ENOMEM)
      else
        modx (set_cs_pages p pages);;
        '(q, sg) ← krealloc OSgArray (cs_sg_at s) (cs_sg s) sg_junk array_size;
        if q =? 0 then mret (- ENOMEM)
        else
          modx (set_cs_sg q sg);;
          modx (set_cs_array_size array_size);;
          mret 0
  end.

(** The loop of [release_user_pages] over the pages left. *)
Fixpoint release_pages (pg : list Z) : K csession unit :=
  match pg with
  | [] => mret tt
  | p :: pg' =>
      page_cache_release p;;
      s ← getx;
      (if cs_readonly_pages s =? 0 then mret tt
       else modx (set_cs_readonly_pages (cs_readonly_pages s - 1)));;
      release_pages pg'
  end.

(** [release_user_pages] *)
Definition release_user_pages : K csession unit :=
  s ← getx;
  (if Z.of_nat (length (cs_pages s)) <? cs_used_pages s then crashed OutOfBounds
   else release_pages (take (Z.to_nat (cs_used_pages s)) (cs_pages s)));;
  modx (set_cs_used_pages 0).

(** The scatterlist at [ses->sg + i]. *)
Definition sg_at (i : nat) : K csession (list sg_entry) :=
  s ← getx;
  match sg_chain (cs_sg s) i with
  | Some l => mret l
  | None => crashed OutOfBounds
  end.

(** [get_userbuf]: the result, and [*src_sg] and [*dst_sg]; a NULL list is
    empty. *)
Definition get_userbuf (src src_len dst dst_len : Z)
    : K csession (Z * list sg_entry * list sg_entry) :=
  let src_len := if (src =? 0) && negb (src_len =? 0) then 0 else src_len in
  let dst_len := if (dst =? 0) && negb (dst_len =? 0) then 0 else dst_len in
  let src_pagecount := s32 (PAGECOUNT src src_len) in
  let dst_pagecount := s32 (PAGECOUNT dst dst_len) in
  modx (set_cs_used_pages (u32 (if src =? dst then Z.max src_pagecount dst_pagecount
                                else src_pagecount + dst_pagecount)));;
  modx (set_cs_readonly_pages (if src =? dst then 0 else u32 src_pagecount));;
  s ← getx;
  rc ← (if cs_array_size s <? cs_used_pages s then adjust_sg_array (s32 (cs_used_pages s))
        else mret 0);
  if negb (rc =? 0) then mret (rc, [], [])
  else
    s ← getx;
    if src =? dst then
      rc ← __get_userbuf src src_len true (cs_used_pages s) 0;
      if negb (rc =? 0) then mret (rc, [], [])
      else l ← sg_at 0; mret (0, l, l)
    else
      rc ← (if negb (src =? 0) then __get_userbuf src src_len false (cs_readonly_pages s) 0
            else mret 0);
      if negb (rc =? 0) then mret (rc, [], [])
      else
        let at_ := Z.to_nat (cs_readonly_pages s) in
        let writable_pages := u32 (cs_used_pages s - cs_readonly_pages s) in
        rc ← (if negb (dst =? 0) then __get_userbuf dst dst_len true writable_pages at_
              else mret 0);
        if negb (rc =? 0) then release_user_pages;; mret (rc, [], [])
        else
          src_sg ← (if negb (src =? 0) then sg_at 0 else mret []);
          dst_sg ← (if negb (dst =? 0) then sg_at at_ else mret []);
          mret (0, src_sg, dst_sg).
End Zc.
