(* ===== verification/ZcFacts.v ===== *)
(** * Facts about zero copy

    The scatterlists built over user pages cover exactly the user's buffer, the
    arrays of a session grow as needed, and every page that is pinned is
    released. *)
From stdpp Require Import base gmap gmultiset list strings numbers.
From S2P Require Import Prelude Kernel KernelFacts Structs CryptoApi Sg Cryptlib Zc.
Open Scope Z_scope.

(** ** Pages of a buffer *)

Lemma PAGECOUNT_range a n :
  0 <= a -> 0 < n -> a + n <= TASK_SIZE ->
  PAGECOUNT a n = page_of (a + n - 1) - page_of a + 1 /\
  0 < PAGECOUNT a n <= n /\ PAGECOUNT a n <= n / PAGE_SIZE + 2.
Proof.
  intros Ha Hn Hr. unfold PAGECOUNT, page_of, TASK_SIZE, PAGE_SHIFT, PAGE_SIZE, u64 in *.
  replace (n =? 0) with false by lia. rewrite !Z.shiftr_div_pow2 by lia.
  change (2 ^ 12) with 4096. change (2 ^ 47 - 4096) with 140737488351232 in *.
  change (2 ^ 64) with 18446744073709551616.
  rewrite (Z.mod_small (a + n - 1)), (Z.mod_small a) by lia.
  pose proof (Z.div_mod (a + n - 1) 4096). pose proof (Z.mod_pos_bound (a + n - 1) 4096).
  pose proof (Z.div_mod a 4096). pose proof (Z.mod_pos_bound a 4096).
  pose proof (Z.div_mod n 4096). pose proof (Z.mod_pos_bound n 4096).
  rewrite Z.mod_small; [|nia]. lia.
Qed.

(** Consecutive pages. *)
Lemma fill_pages_seqZ p (n : nat) len :
  0 <= len -> (Z.of_nat n - 1) * PAGE_SIZE < len <= Z.of_nat n * PAGE_SIZE ->
  exists l, fill_pages (seqZ p (Z.of_nat n)) len = Some l /\ length l = n /\
    Forall (fun e => sg_last e = false) l /\ sg_addrs l = seqZ (p * PAGE_SIZE) len.
Proof.
  revert p len. induction n as [|n IH]; intros p len H0 Hl.
  - exists []. assert (len = 0) as -> by lia. done.
  - rewrite seqZ_cons by lia. cbn [fill_pages].
    assert (0 < len) by (unfold PAGE_SIZE in *; lia).
    replace (len =? 0) with false by lia.
    destruct (IH (Z.succ p) (len - Z.min PAGE_SIZE len)) as (l & Hf & Hlen & Hlast & Ha);
      [unfold PAGE_SIZE in *; lia..|].
    replace (Z.pred (Z.of_nat (S n))) with (Z.of_nat n) by lia. rewrite Hf.
    eexists. split; [done|]. split; [by simpl; f_equal|]. split; [by constructor|].
    rewrite sg_addrs_cons, Ha. unfold sg_entry_addrs. cbn [sg_page sg_off sg_len].
    destruct (decide (len <= PAGE_SIZE)).
    + rewrite Z.min_r by lia. rewrite Z.sub_diag, app_nil_r. f_equal. lia.
    + rewrite Z.min_l by lia. replace len with (PAGE_SIZE + (len - PAGE_SIZE)) at 2 by lia.
      rewrite seqZ_app by (unfold PAGE_SIZE in *; lia). f_equal; f_equal; lia.
Qed.

Lemma userbuf_entries_seqZ a n :
  0 <= a -> 0 < n -> a + n <= TASK_SIZE ->
  exists l, userbuf_entries a n (seqZ (page_of a) (PAGECOUNT a n)) = Some l /\
    Z.of_nat (length l) = PAGECOUNT a n /\
    Forall (fun e => sg_last e = false) l /\ sg_addrs l = seqZ a n.
Proof.
  intros Ha Hn Hr. destruct (PAGECOUNT_range a n Ha Hn Hr) as (Hc & Hpos & _).
  rewrite seqZ_cons by lia. unfold userbuf_entries.
  pose proof (Z.div_mod a PAGE_SIZE ltac:(done)) as Hd.
  pose proof (Z.mod_pos_bound a PAGE_SIZE ltac:(done)) as Hm.
  set (first := Z.min (PAGE_SIZE - PAGEOFFSET a) n).
  assert (Hfirst : a + first = (page_of a + 1) * PAGE_SIZE \/ first = n)
    by (unfold first, PAGEOFFSET, page_of; lia).
  assert (Hf0 : 0 < first <= n) by (unfold first, PAGEOFFSET; lia).
  pose proof (Z.div_mod (a + n - 1) PAGE_SIZE ltac:(done)) as Hd2.
  pose proof (Z.mod_pos_bound (a + n - 1) PAGE_SIZE ltac:(done)) as Hm2.
  destruct (fill_pages_seqZ (Z.succ (page_of a)) (Z.to_nat (PAGECOUNT a n - 1)) (n - first))
    as (l & Hf & Hlen & Hlast & Hl); [lia| |].
  { unfold first, PAGEOFFSET, page_of, PAGE_SIZE in *. lia. }
  replace (Z.of_nat (Z.to_nat (PAGECOUNT a n - 1))) with (Z.pred (PAGECOUNT a n)) in Hf by lia.
  rewrite Hf. eexists. split; [done|]. split; [simpl; lia|]. split; [by constructor|].
  rewrite sg_addrs_cons, Hl. unfold sg_entry_addrs. cbn [sg_page sg_off sg_len].
  replace (page_of a * PAGE_SIZE + PAGEOFFSET a) with a by (unfold page_of, PAGEOFFSET; lia).
  destruct Hfirst as [Hfi| ->].
  - replace (Z.succ (page_of a) * PAGE_SIZE) with (a + first) by lia.
    rewrite <- seqZ_app by lia. f_equal. lia.
  - by rewrite Z.sub_diag, app_nil_r.
Qed.

(** The pages of a range are exactly the pages of its bytes. *)
Lemma elem_of_pages a n p :
  0 <= a -> 0 < n -> a + n <= TASK_SIZE ->
  p ∈ seqZ (page_of a) (PAGECOUNT a n) <-> exists b, b ∈ seqZ a n /\ page_of b = p.
Proof.
  intros Ha Hn Hr. destruct (PAGECOUNT_range a n Ha Hn Hr) as (Hc & _ & _).
  rewrite elem_of_seqZ, Hc. setoid_rewrite elem_of_seqZ. unfold page_of. split.
  - intros Hp. exists (Z.max a (p * PAGE_SIZE)). unfold PAGE_SIZE in *. clear Hr Hc.
    Z.to_euclidean_division_equations. lia.
  - intros (b & Hb & <-). unfold PAGE_SIZE in *. clear Hr Hc. Z.to_euclidean_division_equations. lia.
Qed.

(** ** Growing the arrays *)

Lemma grow_array_fuel fuel a n :
  0 < a -> n <= 2 ^ 30 -> n <= a * 2 ^ Z.of_nat fuel ->
  exists r, grow_array fuel a n = Some r /\ a <= r /\ n <= r /\ (r = a \/ r < 2 * n).
Proof.
  revert a. induction fuel as [|fuel IH]; intros a Ha Hn Hf; cbn [grow_array].
  - exists a. replace (n <=? a) with true by lia. split; [done|lia].
  - destruct (Z.leb_spec n a); [exists a; split; [done|lia]|].
    assert (s32 (a * 2) = a * 2) as -> by (unfold s32; rewrite Z.mod_small by lia; lia).
    destruct (IH (a * 2)) as (r & -> & ? & ? & ?); [lia..| |].
    { rewrite Nat2Z.inj_succ, Z.pow_succ_r in Hf by lia. lia. }
    exists r. split; [done|lia].
Qed.

Section ZcFacts.
Context `{CryptoAPI}.
Implicit Types (e : env) (s : csession).

(** The two arrays of a session hold at least [array_size] entries each. *)
Record arrays_ok s : Prop := {
  arrays_size : 32 <= cs_array_size s <= 2 ^ 23;
  arrays_pages : cs_array_size s <= Z.of_nat (length (cs_pages s));
  arrays_sg : cs_array_size s <= Z.of_nat (length (cs_sg s))
}.

(** Everything but the arrays and the page counts is the same. *)
Record same_session s s' : Prop := {
  ss_addr : cs_addr s' = cs_addr s;
  ss_locked : cs_locked s' = cs_locked s;
  ss_cdata : cs_cdata s' = cs_cdata s;
  ss_hdata : cs_hdata s' = cs_hdata s;
  ss_sid : cs_sid s' = cs_sid s;
  ss_alignmask : cs_alignmask s' = cs_alignmask s
}.

Global Instance same_session_refl : Reflexive same_session.
Proof. by constructor. Qed.
Global Instance same_session_trans : Transitive same_session.
Proof. intros s1 s2 s3 [] []. constructor; congruence. Qed.

Definition array_objs s : list (Z * kobj) :=
  [(cs_pages_at s, OPageArray); (cs_sg_at s, OSgArray)].

Lemma krealloc_spec {A} e s k p (l : list A) junk n R (Q : Z * list A -> env * csession -> Prop) :
  env_ok e -> owns e ((p, k) :: R) ->
  (forall e', same_world e e' -> env_ok e' -> owns e' ((p, k) :: R) -> e_allocs e <> [] ->
     Q (0, l) (e', s)) ->
  (forall q e', same_world e e' -> env_ok e' -> owns e' ((q, k) :: R) -> q <> 0 ->
     Q (q, resize (Z.to_nat n) junk l) (e', s)) ->
  wp (krealloc k p l junk n) Q (e, s).
Proof.
  intros He Ho H0 H1. unfold krealloc. ksteps.
  apply kalloc_spec with ((p, k) :: R); [done..| |].
  - intros. ksteps. by apply H0.
  - intros q e' Hw He' Ho' Hq _ _. apply Z.eqb_neq in Hq as Hq'. rewrite Hq'. ksteps.
    assert (Ho2 : owns e' ((p, k) :: (q, k) :: R)) by (eapply owns_perm, Ho'; apply perm_swap).
    eapply kfree_spec; [done..|]. intros e'' Hw' ??. ksteps.
    apply H1; [by etrans|done..].
Qed.

(** [adjust_sg_array]: the arrays have room for [n] pages afterwards, or
    nothing a caller relies on has changed. *)
Lemma adjust_sg_array_spec e s n R (Q : Z -> env * csession -> Prop) :
  env_ok e -> owns e (array_objs s ++ R) -> arrays_ok s -> n <= 2 ^ 22 ->
  (forall rc e' s', same_world e e' -> env_ok e' -> owns e' (array_objs s' ++ R) ->
     arrays_ok s' -> same_session s s' ->
     cs_used_pages s' = cs_used_pages s -> cs_readonly_pages s' = cs_readonly_pages s ->
     rc = 0 /\ n <= cs_array_size s' \/ rc = - ENOMEM /\ e_allocs e <> [] ->
     Q rc (e', s')) ->
  wp (adjust_sg_array n) Q (e, s).
Proof.
  intros He Ho [Hsz Hp Hg] Hn HQ. unfold adjust_sg_array. ksteps.
  destruct (grow_array_fuel 64 (cs_array_size s) n) as (r & -> & Hr1 & Hr2 & Hr3);
    [lia|lia|nia|]. ksteps.
  eapply krealloc_spec; [done|exact Ho|..].
  - intros e' Hw He' Ho' Ha. ksteps. apply HQ; try done. right. done.
  - intros q e' Hw He' Ho' Hq. apply Z.eqb_neq in Hq as Hq'. rewrite Hq'. ksteps.
    eapply owns_perm in Ho'; [|apply perm_swap].
    eapply krealloc_spec; [done|exact Ho'|..].
    + intros e2 Hw2 He2 Ho2 Ha. ksteps. apply HQ; try done; [by etrans| | |].
      * eapply owns_perm, Ho2. apply perm_swap.
      * constructor; simpl; rewrite ?length_resize; lia.
      * right. split; [done|]. intros Hn0. by apply Ha, (sw_allocs _ _ Hw).
    + intros q2 e2 Hw2 He2 Ho2 Hq2. apply Z.eqb_neq in Hq2 as Hq2'. rewrite Hq2'. ksteps.
      apply HQ; try done; [by etrans| | |].
      * eapply owns_perm, Ho2. apply perm_swap.
      * constructor; simpl; rewrite ?length_resize; lia.
      * left. done.
Qed.
(** ** Pinning a buffer *)

(** A user buffer in mapped memory, to be read or written. *)
Definition range_ok (write : bool) (m : mem) (a n : Z) : Prop :=
  if write then range_writable m a n else range_readable m a n.

Lemma range_ok_bounds w m a n : range_ok w m a n -> 0 <= a /\ a + n <= TASK_SIZE.
Proof. destruct w; intros [Ha _]; unfold access_ok in Ha; lia. Qed.

Definition pages_of (a n : Z) : list Z := seqZ (page_of a) (PAGECOUNT a n).

Lemma page_base p : page_of (p * PAGE_SIZE) = p.
Proof. unfold page_of. by apply Z.div_mul. Qed.

Lemma pages_ok w m a n :
  0 < n -> range_ok w m a n ->
  upto_fault (fun p => (if w then writable else readable) m (p * PAGE_SIZE)) (pages_of a n) =
  pages_of a n.
Proof.
  intros Hn Hr. destruct (range_ok_bounds _ _ _ _ Hr) as [Ha Ht].
  apply upto_fault_all, forallb_forall. intros p Hp%list_elem_of_In.
  apply elem_of_pages in Hp as (b & Hb & Hbp); [|lia..].
  assert (Hb' : (if w then writable else readable) m b = true).
  { destruct w; destruct Hr as [_ Hf]; by eapply forallb_forall, list_elem_of_In, Hb. }
  assert (Hle : 0 <= p * PAGE_SIZE <= b).
  { apply elem_of_seqZ in Hb. subst p. unfold page_of, PAGE_SIZE.
    Z.to_euclidean_division_equations. lia. }
  destruct w; unfold writable, readable in *; rewrite page_base, <- Hbp in *;
    (apply andb_true_iff in Hb' as [Hb' ->]); lia.
Qed.

(** The session once a buffer has been entered in its arrays at [i]. *)
Definition with_userbuf (i : nat) (pg : list Z) (new : list sg_entry) s : csession :=
  set_cs_sg (cs_sg_at s)
    (take i (cs_sg s) ++ mark_last new ++ drop (i + length pg) (cs_sg s))
    (set_cs_pages (cs_pages_at s) (list_inserts i pg (cs_pages s)) s).

Definition pin (pg : list Z) (e : env) : env := set_pins (fun m => list_to_set_disj pg ⊎ m) e.

Lemma get_userbuf1_spec e s a n w (i : nat) (Q : Z -> env * csession -> Prop) :
  a <> 0 -> 0 < n -> range_ok w (e_mem e) a n ->
  Z.of_nat i + PAGECOUNT a n <= Z.of_nat (length (cs_pages s)) ->
  Z.of_nat i + PAGECOUNT a n <= Z.of_nat (length (cs_sg s)) ->
  (forall new, sg_addrs new = seqZ a n -> Forall (fun x => sg_last x = false) new -> new <> [] ->
     Z.of_nat (length new) = PAGECOUNT a n ->
     Q 0 (pin (pages_of a n) e, with_userbuf i (pages_of a n) new s)) ->
  wp (__get_userbuf a n w (PAGECOUNT a n) i) Q (e, s).
Proof.
  intros Ha Hn Hr Hp Hs HQ. destruct (range_ok_bounds _ _ _ _ Hr) as [Ha0 Ht].
  destruct (PAGECOUNT_range a n) as (_ & Hc & _); [lia..|].
  destruct (userbuf_entries_seqZ a n) as (new & Hnew & Hlen & Hlast & Haddr); [lia..|].
  unfold __get_userbuf.
  replace (PAGECOUNT a n =? 0) with false by lia. replace (n =? 0) with false by lia.
  replace (a =? 0) with false by lia. cbn [orb]. unfold get_user_pages. ksteps.
  fold (pages_of a n) in *. rewrite pages_ok by done.
  assert (Hl : length (pages_of a n) = Z.to_nat (PAGECOUNT a n)) by apply length_seqZ.
  assert (Hlz : Z.of_nat (length (pages_of a n)) = PAGECOUNT a n) by (clear Hnew; lia).
  rewrite Hlz. rewrite (proj2 (Z.ltb_ge _ _)) by done. ksteps.
  rewrite Z.eqb_refl. cbn [negb cs_sg set_cs_pages].
  rewrite (proj2 (Z.ltb_ge _ _)) by done. rewrite Hnew. ksteps. cbn [cs_sg set_cs_pages].
  rewrite sg_table_written by lia.
  apply HQ; try done. intros ->. simpl in Hlen. lia.
Qed.

(** ** Releasing pages *)

Lemma release_pages_spec e s pg (Q : unit -> env * csession -> Prop) :
  list_to_set_disj pg ⊆ e_pins e ->
  (forall r, Q tt (set_pins (fun m => m ∖ list_to_set_disj pg) e, set_cs_readonly_pages r s)) ->
  wp (release_pages pg) Q (e, s).
Proof.
  revert e s. induction pg as [|p pg IH]; intros e s Hs HQ; cbn [release_pages].
  - ksteps. specialize (HQ (cs_readonly_pages s)). destruct e, s. unfold set_pins in HQ. simpl in *.
    replace (e_pins ∖ ∅) with e_pins in HQ by multiset_solver. done.
  - ksteps. unfold page_cache_release. ksteps. csimpl in Hs.
    rewrite decide_True by multiset_solver. ksteps.
    assert (Hgo : forall r, wp (release_pages pg) Q
      (set_pins (fun m => m ∖ {[+ p +]}) e, set_cs_readonly_pages r s)).
    { intros r. apply IH; [simpl; multiset_solver|]. intros r'. specialize (HQ r').
      destruct e, s. unfold set_pins in *. simpl in *.
      replace (e_pins ∖ {[+ p +]} ∖ list_to_set_disj pg)
        with (e_pins ∖ ({[+ p +]} ⊎ list_to_set_disj pg)) by multiset_solver. done. }
    destruct (cs_readonly_pages s =? 0); ksteps; [|apply Hgo].
    specialize (Hgo (cs_readonly_pages s)). by destruct s.
Qed.

Lemma release_user_pages_spec e s pg (Q : unit -> env * csession -> Prop) :
  take (Z.to_nat (cs_used_pages s)) (cs_pages s) = pg ->
  cs_used_pages s <= Z.of_nat (length (cs_pages s)) ->
  list_to_set_disj pg ⊆ e_pins e ->
  (forall r, Q tt (set_pins (fun m => m ∖ list_to_set_disj pg) e,
                   set_cs_used_pages 0 (set_cs_readonly_pages r s))) ->
  wp release_user_pages Q (e, s).
Proof.
  intros Hpg Hl Hs HQ. unfold release_user_pages. ksteps.
  replace (_ <? _) with false by lia. rewrite Hpg.
  apply release_pages_spec; [done|]. intros r. ksteps. apply HQ.
Qed.
(** ** Both buffers of a request *)

(** [e1] is [e] with the pages [pg] held. *)
Record held (pg : list Z) e e1 : Prop := {
  held_world : same_world e (set_pins (fun m => m ∖ list_to_set_disj pg) e1);
  held_pins : list_to_set_disj pg ⊆ e_pins e1
}.

Lemma held_pin pg e : held pg e (pin pg e).
Proof.
  split; [constructor; simpl; try done; multiset_solver|]. simpl. multiset_solver.
Qed.

Lemma held_pin_world pg e e1 : same_world e e1 -> held pg e (pin pg e1).
Proof.
  intros Hw. destruct (held_pin pg e1) as [Hw1 Hp]. split; [by etrans|done].
Qed.

Lemma pin_pin pg1 pg2 e : pin pg2 (pin pg1 e) = pin (pg1 ++ pg2) e.
Proof.
  unfold pin, set_pins. simpl. f_equal. rewrite list_to_set_disj_app. multiset_solver.
Qed.

Lemma sg_live_pin e pg l a n :
  sg_addrs l = seqZ a n -> 0 <= a -> 0 < n -> a + n <= TASK_SIZE -> pages_of a n ⊆ pg ->
  sg_live (pin pg e) l.
Proof.
  intros Hl Ha Hn Ht Hsub. unfold sg_live. rewrite Hl. apply list.Forall_forall. intros b Hb.
  unfold page_live. rewrite bool_decide_eq_true_2; [done|]. simpl.
  apply gmultiset_elem_of_disj_union. left. apply elem_of_list_to_set_disj, Hsub.
  apply elem_of_pages; [done..|]. eauto.
Qed.

Lemma take_inserts {A} (i : nat) (l k : list A) :
  (i + length l <= length k)%nat -> take (i + length l) (list_inserts i l k) = take i k ++ l.
Proof.
  intros Hl. rewrite <- (take_drop i k) at 1.
  assert (Ht : length (take i k) = i) by (rewrite length_take; lia).
  rewrite <- Ht at 2. rewrite <- (Nat.add_0_r (length (take i k))), list_inserts_app_r.
  rewrite <- (take_drop (length l) (drop i k)).
  rewrite list_inserts_0_r by (rewrite length_take, length_drop; lia).
  rewrite (assoc_L (++)). apply take_app_length'. rewrite length_app. lia.
Qed.

Lemma PAGECOUNT_small a n :
  0 <= a -> 0 < n < 2 ^ 32 -> a + n <= TASK_SIZE -> 0 < PAGECOUNT a n <= 2 ^ 20 + 2.
Proof.
  intros Ha Hn Ht. destruct (PAGECOUNT_range a n) as (_ & ? & Hc); [lia..|].
  split; [lia|]. etrans; [exact Hc|]. unfold PAGE_SIZE. Z.to_euclidean_division_equations. lia.
Qed.

Lemma length_pages_of a n :
  0 <= a -> 0 < n < 2 ^ 32 -> a + n <= TASK_SIZE ->
  Z.of_nat (length (pages_of a n)) = PAGECOUNT a n.
Proof.
  intros Ha Hn Ht. destruct (PAGECOUNT_small a n Ha Hn Ht) as [? _].
  unfold pages_of. rewrite length_seqZ. lia.
Qed.

Lemma arrays_ok_with_userbuf i pg new s :
  (length new = length pg)%nat -> (i + length pg <= length (cs_sg s))%nat ->
  arrays_ok s -> arrays_ok (with_userbuf i pg new s).
Proof.
  intros Hn Hl [? ? ?]. constructor; simpl; [done|by rewrite length_inserts|].
  assert (Hm : length (mark_last new) = length new).
  { clear. induction new as [|a l _] using rev_ind; [done|]. by rewrite mark_last_snoc, !length_app. }
  rewrite !length_app, length_take, length_drop, Hm. lia.
Qed.
(** What [get_userbuf] leaves: both lists over the user's own pages, which the
    session holds. *)
Record pinned_bufs e s (src slen dst dlen : Z) R e1 s1 (ssg dsg : list sg_entry) (pg : list Z)
    : Prop := {
  pb_held : held pg e e1;
  pb_env : env_ok e1;
  pb_owns : owns e1 (array_objs s1 ++ R);
  pb_arrays : arrays_ok s1;
  pb_session : same_session s s1;
  pb_src : sg_addrs ssg = seqZ src slen;
  pb_dst : sg_addrs dsg = seqZ dst dlen;
  pb_src_live : sg_live e1 ssg;
  pb_dst_live : sg_live e1 dsg;
  pb_pages : take (Z.to_nat (cs_used_pages s1)) (cs_pages s1) = pg;
  pb_used : cs_used_pages s1 <= Z.of_nat (length (cs_pages s1))
}.

Record no_room e s R e1 s1 : Prop := {
  nr_world : same_world e e1;
  nr_env : env_ok e1;
  nr_owns : owns e1 (array_objs s1 ++ R);
  nr_arrays : arrays_ok s1;
  nr_session : same_session s s1;
  nr_allocs : e_allocs e <> []
}.

Lemma get_userbuf_room e s used ro R (Q : Z -> env * csession -> Prop) :
  env_ok e -> owns e (array_objs s ++ R) -> arrays_ok s -> 0 <= used <= 2 ^ 22 ->
  (forall e1 s1, same_world e e1 -> env_ok e1 -> owns e1 (array_objs s1 ++ R) -> arrays_ok s1 ->
     same_session s s1 -> cs_used_pages s1 = used -> cs_readonly_pages s1 = ro ->
     used <= cs_array_size s1 -> Q 0 (e1, s1)) ->
  (forall e1 s1, no_room e s R e1 s1 -> Q (- ENOMEM) (e1, s1)) ->
  let s0 := set_cs_readonly_pages ro (set_cs_used_pages used s) in
  wp (if cs_array_size s0 <? cs_used_pages s0 then adjust_sg_array (s32 (cs_used_pages s0))
      else mret 0) Q (e, s0).
Proof.
  intros He Ho Ha Hu H1 H0 s0. unfold s0. cbn [cs_array_size cs_used_pages set_cs_readonly_pages set_cs_used_pages].
  destruct (Z.ltb_spec (cs_array_size s) used).
  - rewrite s32_small by lia. eapply adjust_sg_array_spec with (R := R); [done|exact Ho| |lia|].
    { destruct Ha. by constructor. }
    intros rc e1 s1 Hw He1 Ho1 Ha1 Hs Hu1 Hr1 [[-> Hn]|[-> Hal]].
    + apply H1; try done. by destruct Hs.
    + apply H0. constructor; try done. by destruct Hs.
  - ksteps. apply H1; try done. by destruct Ha.
Qed.

(** Facts about a buffer that fits the arrays. *)
Lemma userbuf_room_bound w m a n :
  0 < n < 2 ^ 32 -> range_ok w m a n ->
  0 <= a /\ a + n <= TASK_SIZE /\ 0 < PAGECOUNT a n <= 2 ^ 20 + 2 /\
  Z.of_nat (length (pages_of a n)) = PAGECOUNT a n.
Proof.
  intros Hn Hr. destruct (range_ok_bounds _ _ _ _ Hr).
  split_and!; try done; [apply PAGECOUNT_small|apply PAGECOUNT_small|apply length_pages_of]; lia.
Qed.

Lemma range_ok_world w e e1 a n :
  same_world e e1 -> range_ok w (e_mem e) a n -> range_ok w (e_mem e1) a n.
Proof. by intros [-> _ _ _ _ _ _]. Qed.

Lemma get_userbuf_inplace e s a n R (Q : _ -> env * csession -> Prop) :
  env_ok e -> owns e (array_objs s ++ R) -> arrays_ok s ->
  a <> 0 -> 0 < n < 2 ^ 32 -> range_ok true (e_mem e) a n ->
  (forall e1 s1 l pg, pinned_bufs e s a n a n R e1 s1 l l pg -> Q (0, l, l) (e1, s1)) ->
  (forall e1 s1, no_room e s R e1 s1 -> Q (- ENOMEM, [], []) (e1, s1)) ->
  wp (get_userbuf a n a n) Q (e, s).
Proof.
  intros He Ho Ha Ha0 Hn Hr H1 H0.
  destruct (userbuf_room_bound _ _ _ _ Hn Hr) as (Hpos & Ht & Hc & Hlen).
  unfold get_userbuf. rewrite (proj2 (Z.eqb_neq _ _) Ha0). cbn [andb].
  rewrite Z.eqb_refl, !s32_small, Z.max_id, u32_small by lia. ksteps.
  eapply get_userbuf_room; [exact He|exact Ho|exact Ha|lia| |].
  2: { intros e1 s1 Hnr. ksteps. by apply H0. }
  intros e1 s1 Hw He1 Ho1 Ha1 Hs Hu Hro Hroom. kgo. rewrite Hu.
  destruct Ha1 as [Hsz Hp1 Hs1] eqn:HA. clear HA.
  eapply get_userbuf1_spec with (i := 0%nat); [done|lia|by eapply range_ok_world|lia|lia|].
  intros new Hnew Hlast Hne Hnl. kgo. unfold sg_at. ksteps.
  cbn [cs_sg with_userbuf set_cs_sg]. rewrite sg_chain_written by (done || lia). ksteps.
  apply H1 with (pages_of a n). constructor; try done.
  - by apply held_pin_world.
  - by destruct He1.
  - apply arrays_ok_with_userbuf; [lia..|done].
  - by destruct Hs.
  - by rewrite sg_addrs_mark_last.
  - by rewrite sg_addrs_mark_last.
  - eapply sg_live_pin; [by rewrite sg_addrs_mark_last|lia..|done].
  - eapply sg_live_pin; [by rewrite sg_addrs_mark_last|lia..|done].
  - simpl. rewrite Hu. replace (Z.to_nat (PAGECOUNT a n)) with (0 + length (pages_of a n))%nat by lia.
    rewrite take_inserts by lia. done.
  - simpl. rewrite length_inserts, Hu. lia.
Qed.
(** The arrays once two buffers have been entered one after the other. *)
Lemma two_userbufs pg1 new1 pg2 new2 s :
  let n1 := length pg1 in
  let s2 := with_userbuf n1 pg2 new2 (with_userbuf 0 pg1 new1 s) in
  (n1 + length pg2 <= length (cs_pages s))%nat -> (n1 + length pg2 <= length (cs_sg s))%nat ->
  length new1 = n1 -> length new2 = length pg2 -> new1 <> [] -> new2 <> [] ->
  Forall (fun x => sg_last x = false) new1 -> Forall (fun x => sg_last x = false) new2 ->
  sg_chain (cs_sg s2) 0 = Some (mark_last new1) /\ sg_chain (cs_sg s2) n1 = Some (mark_last new2) /\
  take (n1 + length pg2) (cs_pages s2) = pg1 ++ pg2.
Proof.
  intros n1 s2 Hp Hs Hl1 Hl2 Hn1 Hn2 Hf1 Hf2.
  assert (Hm : length (mark_last new1) = n1).
  { rewrite <- Hl1. clear. induction new1 as [|a l _] using rev_ind; [done|].
    by rewrite mark_last_snoc, !length_app. }
  split_and!.
  - unfold s2, with_userbuf. simpl. rewrite take_app_length' by done.
    unfold sg_chain. rewrite drop_0. by apply sg_upto_last_mark.
  - unfold s2. apply sg_chain_written; [done..|]. simpl. rewrite length_app. lia.
  - unfold s2. simpl. rewrite take_inserts by (rewrite length_inserts; lia). f_equal.
    replace n1 with (0 + length pg1)%nat by done. rewrite take_inserts by lia. done.
Qed.

Lemma get_userbuf_two e s src slen dst dlen R (Q : _ -> env * csession -> Prop) :
  env_ok e -> owns e (array_objs s ++ R) -> arrays_ok s ->
  src <> 0 -> dst <> 0 -> src <> dst -> 0 < slen < 2 ^ 32 -> 0 < dlen < 2 ^ 32 ->
  range_ok false (e_mem e) src slen -> range_ok true (e_mem e) dst dlen ->
  (forall e1 s1 ssg dsg pg, pinned_bufs e s src slen dst dlen R e1 s1 ssg dsg pg ->
     Q (0, ssg, dsg) (e1, s1)) ->
  (forall e1 s1, no_room e s R e1 s1 -> Q (- ENOMEM, [], []) (e1, s1)) ->
  wp (get_userbuf src slen dst dlen) Q (e, s).
Proof.
  intros He Ho Ha Hs0 Hd0 Hne Hsl Hdl Hsr Hdr H1 H0.
  destruct (userbuf_room_bound _ _ _ _ Hsl Hsr) as (Hspos & Hst & Hsc & Hslen).
  destruct (userbuf_room_bound _ _ _ _ Hdl Hdr) as (Hdpos & Hdt & Hdc & Hdlen).
  unfold get_userbuf. rewrite (proj2 (Z.eqb_neq _ _) Hs0), (proj2 (Z.eqb_neq _ _) Hd0).
  rewrite (proj2 (Z.eqb_neq _ _) Hne). cbn [andb negb]. rewrite !s32_small, !u32_small by lia. ksteps.
  eapply get_userbuf_room; [exact He|exact Ho|exact Ha|lia| |].
  2: { intros e1 s1 Hnr. ksteps. by apply H0. }
  intros e1 s1 Hw He1 Ho1 Ha1 Hs Hu Hro Hroom. kgo. rewrite Hro.
  pose proof (arrays_pages _ Ha1). pose proof (arrays_sg _ Ha1).
  eapply get_userbuf1_spec with (i := 0%nat); [done|lia|by eapply range_ok_world|lia|lia|].
  intros new1 Hnew1 Hlast1 Hne1 Hnl1. kgo. rewrite Hu.
  replace (u32 _) with (PAGECOUNT dst dlen) by (rewrite u32_small; lia).
  assert (Ha2 : arrays_ok (with_userbuf 0 (pages_of src slen) new1 s1))
    by (apply arrays_ok_with_userbuf; [lia..|done]).
  pose proof (arrays_pages _ Ha2). pose proof (arrays_sg _ Ha2). simpl in H4, H5.
  eapply get_userbuf1_spec; [done|lia|exact (range_ok_world _ _ _ _ _ Hw Hdr)|simpl; lia..|].
  intros new2 Hnew2 Hlast2 Hne2 Hnl2.
  replace (Z.to_nat (PAGECOUNT src slen)) with (length (pages_of src slen)) by lia.
  destruct (two_userbufs (pages_of src slen) new1 (pages_of dst dlen) new2 s1)
    as (Hc1 & Hc2 & Htake); [lia|lia|lia|lia|done..|].
  kgo. unfold sg_at. ksteps. rewrite Hc1. ksteps. rewrite Hc2. ksteps.
  apply H1 with (pages_of src slen ++ pages_of dst dlen). rewrite pin_pin. constructor; try done.
  - by apply held_pin_world.
  - by destruct He1.
  - apply arrays_ok_with_userbuf; [lia|simpl; lia|done].
  - by destruct Hs.
  - by rewrite sg_addrs_mark_last.
  - by rewrite sg_addrs_mark_last.
  - eapply sg_live_pin; [by rewrite sg_addrs_mark_last|lia..|set_solver].
  - eapply sg_live_pin; [by rewrite sg_addrs_mark_last|lia..|set_solver].
  - rewrite <- Htake. simpl. rewrite Hu. f_equal. lia.
  - simpl. rewrite !length_inserts, Hu. lia.
Qed.
(** Releasing the pages after the contents of memory were changed. *)
Lemma release_held e e1 s1 s2 pg f (Q : unit -> env * csession -> Prop) :
  held pg e e1 -> env_ok e1 ->
  cs_used_pages s2 = cs_used_pages s1 -> cs_pages s2 = cs_pages s1 ->
  take (Z.to_nat (cs_used_pages s1)) (cs_pages s1) = pg ->
  cs_used_pages s1 <= Z.of_nat (length (cs_pages s1)) ->
  (forall r e2, same_world (set_mem f e) e2 -> env_ok e2 -> e_heap e2 = e_heap e1 ->
     Q tt (e2, set_cs_used_pages 0 (set_cs_readonly_pages r s2))) ->
  wp release_user_pages Q (set_mem f e1, s2).
Proof.
  intros [[] Hp] He Hu Hpg Ht Hl HQ. eapply release_user_pages_spec; rewrite ?Hu, ?Hpg; [done..|].
  intros r. apply HQ; simpl in *; [constructor; simpl; auto; congruence|by destruct He|done].
Qed.

(** C32: zero copy gives exactly the user's memory.  On a session with room for
    the buffers, [get_userbuf] either runs out of memory and changes nothing, or
    returns lists that cover byte by byte [src, src + n) and [dst, dst + n);
    [release_user_pages] then returns every page that was pinned, and nothing
    but the session's two arrays was allocated or freed. *)
Theorem get_userbuf_exact e s src dst n R :
  env_ok e -> owns e (array_objs s ++ R) -> arrays_ok s ->
  src <> 0 -> dst <> 0 -> 0 < n < 2 ^ 32 ->
  range_ok (bool_decide (src = dst)) (e_mem e) src n -> range_ok true (e_mem e) dst n ->
  wp (get_userbuf src n dst n)
    (fun '(rc, src_sg, dst_sg) '(e1, s1) =>
       owns e1 (array_objs s1 ++ R) /\ arrays_ok s1 /\ same_session s s1 /\
       (rc = - ENOMEM /\ same_world e e1 /\ e_allocs e <> [] \/
        rc = 0 /\ sg_addrs src_sg = seqZ src n /\ sg_addrs dst_sg = seqZ dst n /\
        wp release_user_pages
          (fun _ '(e2, s2) => same_world e e2 /\ owns e2 (array_objs s2 ++ R) /\
                              arrays_ok s2 /\ same_session s s2) (e1, s1)))
    (e, s).
Proof.
  intros He Ho Ha Hs Hd Hn Hrs Hrd.
  assert (Hok : forall e1 s1 ssg dsg pg, pinned_bufs e s src n dst n R e1 s1 ssg dsg pg ->
    wp release_user_pages
      (fun _ '(e2, s2) => same_world e e2 /\ owns e2 (array_objs s2 ++ R) /\
                          arrays_ok s2 /\ same_session s s2) (e1, s1)).
  { intros e1 s1 ssg dsg pg [Hh He1 Ho1 Ha1 Hs1 _ _ _ _ Hpg Hu].
    replace e1 with (set_mem id e1) by (by destruct e1).
    eapply release_held; [done..|]. intros r e2 Hw _ Hheap. split_and!.
    - replace (set_mem id e) with e in Hw by (by destruct e). done.
    - unfold owns in *. by rewrite Hheap.
    - by destruct Ha1.
    - by destruct Hs1. }
  assert (Hno : forall e1 s1, no_room e s R e1 s1 ->
    owns e1 (array_objs s1 ++ R) /\ arrays_ok s1 /\ same_session s s1 /\ same_world e e1 /\ e_allocs e <> [])
    by (by intros e1 s1 []).
  destruct (decide (src = dst)) as [->|Hne].
  - apply get_userbuf_inplace with R; try done.
    + intros e1 s1 l pg Hpb. specialize (Hok _ _ _ _ _ Hpb). destruct Hpb. naive_solver.
    + intros e1 s1 Hnr. destruct (Hno _ _ Hnr) as (? & ? & ? & ? & ?). naive_solver.
  - rewrite bool_decide_eq_false_2 in Hrs by done. apply get_userbuf_two with R; try done.
    + intros e1 s1 ssg dsg pg Hpb. specialize (Hok _ _ _ _ _ Hpb). destruct Hpb. naive_solver.
    + intros e1 s1 Hnr. destruct (Hno _ _ Hnr) as (? & ? & ? & ? & ?). naive_solver.
Qed.
End ZcFacts.
