(* ===== verification/Fcrypt.v ===== *)
(** * The sessions of a handle

    The part of [ioctl.c] that keeps the list of sessions of an open
    /dev/crypto file: creating, finding and finishing sessions. *)
From stdpp Require Import base gmap gmultiset list strings numbers.
From S2P Require Import Prelude Kernel KernelFacts Structs CryptoApi Sg Cryptlib Zc.
Open Scope Z_scope.

Definition DEF_COP_RINGSIZE : Z := 16.
Definition MAX_COP_RINGSIZE : Z := 64.

(** [struct kernel_crypt_op] (the task and its address space are those of the
    handle). *)
Record kernel_crypt_op := KernelCryptOp {
  kc_cop : crypt_op; kc_ivlen : Z; kc_iv : bytes;
  kc_digestsize : Z; kc_hash_output : bytes }.

(** [struct todo_list_item], at its address. *)
Record todo_list_item := TodoItem { it_addr : Z; it_kcop : kernel_crypt_op; it_result : Z }.

(** The cipher of [sop->cipher]: its name, [stream] and [aead]. *)
Definition cipher_of (cipher : Z) : option (option string * Z * Z) :=
  if cipher =? 0 then Some (None, 0, 0)
  else if cipher =? CRYPTO_DES_CBC then Some (Some "cbc(des)", 0, 0)
  else if cipher =? CRYPTO_3DES_CBC then Some (Some "cbc(des3_ede)", 0, 0)
  else if cipher =? CRYPTO_BLF_CBC then Some (Some "cbc(blowfish)", 0, 0)
  else if cipher =? CRYPTO_AES_CBC then Some (Some "cbc(aes)", 0, 0)
  else if cipher =? CRYPTO_AES_ECB then Some (Some "ecb(aes)", 0, 0)
  else if cipher =? CRYPTO_CAMELLIA_CBC then Some (Some "cbc(camellia)", 0, 0)
  else if cipher =? CRYPTO_AES_CTR then Some (Some "ctr(aes)", 1, 0)
  else if cipher =? CRYPTO_AES_GCM then Some (Some "gcm(aes)", 1, 1)
  else if cipher =? CRYPTO_NULL then Some (Some "ecb(cipher_null)", 1, 0)
  else None.

(** The hash of [sop->mac]: its name and [hmac_mode]. *)
Definition mac_of (mac : Z) : option (option string * Z) :=
  if mac =? 0 then Some (None, 1)
  else if mac =? CRYPTO_MD5_HMAC then Some (Some "hmac(md5)", 1)
  else if mac =? CRYPTO_RIPEMD160_HMAC then Some (Some "hmac(rmd160)", 1)
  else if mac =? CRYPTO_SHA1_HMAC then Some (Some "hmac(sha1)", 1)
  else if mac =? CRYPTO_SHA2_256_HMAC then Some (Some "hmac(sha256)", 1)
  else if mac =? CRYPTO_SHA2_384_HMAC then Some (Some "hmac(sha384)", 1)
  else if mac =? CRYPTO_SHA2_512_HMAC then Some (Some "hmac(sha512)", 1)
  else if mac =? CRYPTO_MD5 then Some (Some "md5", 0)
  else if mac =? CRYPTO_RIPEMD160 then Some (Some "rmd160", 0)
  else if mac =? CRYPTO_SHA1 then Some (Some "sha1", 0)
  else if mac =? CRYPTO_SHA2_256 then Some (Some "sha256", 0)
  else if mac =? CRYPTO_SHA2_384 then Some (Some "sha384", 0)
  else if mac =? CRYPTO_SHA2_512 then Some (Some "sha512", 0)
  else None.

Definition set_so_ses (v : Z) (s : session_op) : session_op :=
  SessionOp (so_cipher s) (so_mac s) (so_keylen s) (so_pad0 s) (so_key s)
    (so_mackeylen s) (so_pad1 s) (so_mackey s) v (so_pad2 s).

Section Fcrypt.
Context `{CryptoAPI}.

(** [struct crypt_priv], at its address; [cp_fcrypt] is the session list,
    [cp_queued] tells whether the work [cryptask] is queued, and [cp_fcount]
    counts the references to the open file. *)
Record crypt_priv := CryptPriv {
  cp_addr : Z;
  cp_fcrypt : list csession;
  cp_free : list todo_list_item; cp_todo : list todo_list_item; cp_done : list todo_list_item;
  cp_itemcount : Z; cp_queued : bool; cp_fcount : Z }.

Definition set_fcrypt (l : list csession) (p : crypt_priv) : crypt_priv :=
  CryptPriv (cp_addr p) l (cp_free p) (cp_todo p) (cp_done p) (cp_itemcount p)
    (cp_queued p) (cp_fcount p).
Definition set_free (l : list todo_list_item) (p : crypt_priv) : crypt_priv :=
  CryptPriv (cp_addr p) (cp_fcrypt p) l (cp_todo p) (cp_done p) (cp_itemcount p)
    (cp_queued p) (cp_fcount p).
Definition set_todo (l : list todo_list_item) (p : crypt_priv) : crypt_priv :=
  CryptPriv (cp_addr p) (cp_fcrypt p) (cp_free p) l (cp_done p) (cp_itemcount p)
    (cp_queued p) (cp_fcount p).
Definition set_done (l : list todo_list_item) (p : crypt_priv) : crypt_priv :=
  CryptPriv (cp_addr p) (cp_fcrypt p) (cp_free p) (cp_todo p) l (cp_itemcount p)
    (cp_queued p) (cp_fcount p).
Definition set_itemcount (n : Z) (p : crypt_priv) : crypt_priv :=
  CryptPriv (cp_addr p) (cp_fcrypt p) (cp_free p) (cp_todo p) (cp_done p) n
    (cp_queued p) (cp_fcount p).
Definition set_queued (b : bool) (p : crypt_priv) : crypt_priv :=
  CryptPriv (cp_addr p) (cp_fcrypt p) (cp_free p) (cp_todo p) (cp_done p) (cp_itemcount p)
    b (cp_fcount p).
Definition set_fcount (n : Z) (p : crypt_priv) : crypt_priv :=
  CryptPriv (cp_addr p) (cp_fcrypt p) (cp_free p) (cp_todo p) (cp_done p) (cp_itemcount p)
    (cp_queued p) n.

(** ** Creating a session *)

(** Where the setup of a session goes: on, or to one of its two labels. *)
Inductive setup := SetupOk | ErrorCipher (ret : Z) | ErrorHash (ret : Z).

Definition session_set_cipher (alg_name : option string) (sop : session_op) (stream aead : Z)
    : K csession setup :=
  match alg_name with
  | None => mret SetupOk
  | Some name =>
      if CRYPTO_CIPHER_MAX_KEY_LEN <? so_keylen sop then mret (ErrorCipher (- EINVAL))
      else
        '(keyp, nleft) ← copy_from_user (so_key sop) (so_keylen sop);
        if negb (nleft =? 0) then mret (ErrorCipher (- EFAULT))
        else
          ret ← on_cdata (cryptodev_cipher_init name keyp stream aead);
          if ret <? 0 then mret (ErrorCipher (- EINVAL)) else mret SetupOk
  end.

Definition session_set_hash (hash_name : option string) (sop : session_op) (hmac_mode aead : Z)
    : K csession setup :=
  match hash_name with
  | Some name =>
      if aead =? 0 then
        if CRYPTO_HMAC_MAX_KEY_LEN <? so_mackeylen sop then mret (ErrorHash (- EINVAL))
        else
          e ← gete;
          '(keyp, nleft) ←
            (if negb (so_mackey sop =? 0) then copy_from_user (so_mackey sop) (so_mackeylen sop)
             else mret (replicate (Z.to_nat (so_mackeylen sop)) (e_junk e), 0));
          if negb (nleft =? 0) then mret (ErrorHash (- EFAULT))
          else
            ret ← on_hdata (cryptodev_hash_init name hmac_mode keyp);
            if negb (ret =? 0) then mret (ErrorHash (- EINVAL)) else mret SetupOk
      else mret SetupOk
  | None => mret SetupOk
  end.

Definition session_set_arrays : K csession setup :=
  modx (fun s => set_cs_alignmask
                   (u32 (Z.max (cd_alignmask (cs_cdata s)) (hd_alignmask (cs_hdata s)))) s);;
  modx (set_cs_array_size DEFAULT_PREALLOC_PAGES);;
  let n := Z.to_nat DEFAULT_PREALLOC_PAGES in
  p ← kalloc OPageArray;
  modx (set_cs_pages p (replicate n 0));;
  q ← kalloc OSgArray;
  modx (set_cs_sg q (replicate n sg_zero));;
  if (q =? 0) || (p =? 0) then mret (ErrorHash (- ENOMEM)) else mret SetupOk.

(** The labels [error_hash:] and [error_cipher:]. *)
Definition session_cleanup (f : setup) : K csession unit :=
  match f with
  | SetupOk => mret tt
  | ErrorHash _ =>
      on_cdata cryptodev_cipher_deinit;;
      s ← getx;
      kfree (cs_sg_at s);;
      kfree (cs_pages_at s);;
      kfree (cs_addr s)
  | ErrorCipher _ => s ← getx; kfree (cs_addr s)
  end.

Definition session_setup (sop : session_op) (alg_name hash_name : option string)
    (stream aead hmac_mode : Z) : K csession Z :=
  f ← session_set_cipher alg_name sop stream aead;
  f ← (match f with
       | SetupOk =>
           f ← session_set_hash hash_name sop hmac_mode aead;
           match f with SetupOk => session_set_arrays | _ => mret f end
       | _ => mret f
       end);
  session_cleanup f;;
  mret (match f with SetupOk => 0 | ErrorCipher r | ErrorHash r => r end).

(** The identifier of a new session: random words until one is not taken. *)
Fixpoint fresh_sid (sids : list Z) (rng : list Z) : option (Z * list Z) :=
  match rng with
  | [] => None
  | r :: rng' => if bool_decide (u32 r ∈ sids) then fresh_sid sids rng' else Some (u32 r, rng')
  end.

(** [crypto_create_session]: the result, and [*sop] afterwards. *)
Definition crypto_create_session (sop : session_op) : K crypt_priv (Z * session_op) :=
  if (so_cipher sop =? 0) && (so_mac sop =? 0) then mret (- EINVAL, sop)
  else
    match cipher_of (so_cipher sop), mac_of (so_mac sop) with
    | Some (alg_name, stream, aead), Some (hash_name, hmac_mode) =>
        a ← kalloc OSession;
        if a =? 0 then mret (- ENOMEM, sop)
        else
          '(ret, ses_new) ← on_local (csession_zero a)
            (session_setup sop alg_name hash_name stream aead hmac_mode);
          if negb (ret =? 0) then mret (ret, sop)
          else
            e ← gete;
            p ← getx;
            match fresh_sid (cs_sid <$> cp_fcrypt p) (e_rng e) with
            | None => crashed Diverges
            | Some (sid, rng) =>
                mode (set_rng rng);;
                modx (set_fcrypt (set_cs_sid sid ses_new :: cp_fcrypt p));;
                mret (0, set_so_ses sid sop)
            end
    | _, _ => mret (- EINVAL, sop)
    end.

(** ** Finding and finishing sessions *)

(** [crypto_destroy_session] of a session that left the list. *)
Definition crypto_destroy_session (ses : csession) : K crypt_priv unit :=
  if cs_locked ses then crashed Deadlock
  else
    '(_, ses) ← on_local ses (on_cdata cryptodev_cipher_deinit;; on_hdata cryptodev_hash_deinit);
    kfree (cs_pages_at ses);;
    kfree (cs_sg_at ses);;
    kfree (cs_addr ses).

(** The first session that satisfies a test, with the rest of the list. *)
Fixpoint take_session (test : csession -> bool) (l : list csession)
    : option (csession * list csession) :=
  match l with
  | [] => None
  | s :: l' =>
      if test s then Some (s, l')
      else match take_session test l' with
           | Some (s', rest) => Some (s', s :: rest)
           | None => None
           end
  end.

(** What [list_for_each_entry_safe] leaves in its cursor when it has run
    through the whole list: the list head, taken for an entry. *)
Definition past_last_entry (p : crypt_priv) : Z := cp_addr p.

(** [crypto_finish_session] *)
Definition crypto_finish_session (sid : Z) : K crypt_priv Z :=
  p ← getx;
  ses_ptr ←
    match take_session (fun s => cs_sid s =? sid) (cp_fcrypt p) with
    | Some (ses, rest) =>
        modx (set_fcrypt rest);;
        crypto_destroy_session ses;;
        mret (cs_addr ses)
    | None => mret (past_last_entry p)
    end;
  if ses_ptr =? 0 then mret (- ENOENT) else mret 0.

(** [crypto_finish_all_sessions] *)
Fixpoint finish_sessions (l : list csession) : K crypt_priv unit :=
  match l with
  | [] => mret tt
  | ses :: rest =>
      modx (set_fcrypt rest);;
      crypto_destroy_session ses;;
      finish_sessions rest
  end.
Definition crypto_finish_all_sessions : K crypt_priv Z :=
  p ← getx;
  finish_sessions (cp_fcrypt p);;
  mret 0.

(** Updates the session object at an address. *)
Definition upd_session (a : Z) (f : csession -> csession) (l : list csession) : list csession :=
  (fun s => if cs_addr s =? a then f s else s) <$> l.

(** [crypto_get_session_by_sid]: the address of the session, which is
    locked, or NULL. *)
Definition crypto_get_session_by_sid (sid : Z) : K crypt_priv Z :=
  p ← getx;
  match list_find (fun s => cs_sid s = sid) (cp_fcrypt p) with
  | None => mret 0
  | Some (_, s) =>
      if cs_locked s then crashed Deadlock
      else
        modx (set_fcrypt (upd_session (cs_addr s) (set_cs_locked true) (cp_fcrypt p)));;
        mret (cs_addr s)
  end.

(** [crypto_put_session] *)
Definition crypto_put_session (a : Z) : K crypt_priv unit :=
  modx (fun p => set_fcrypt (upd_session a (set_cs_locked false) (cp_fcrypt p)) p).

(** Code that works on the session object at [a]. *)
Definition on_session {A} (a : Z) (m : K csession A) : K crypt_priv A :=
  p ← getx;
  match list_find (fun s => cs_addr s = a) (cp_fcrypt p) with
  | None => crashed UseAfterFree
  | Some (i, s) =>
      '(r, s') ← on_local s m;
      modx (fun p => set_fcrypt (<[i := s']> (cp_fcrypt p)) p);;
      mret r
  end.
End Fcrypt.
