(* ===== verification/FcryptFacts.v ===== *)
(** * Facts about sessions

    The invariant of a session and of an open file, the lifecycle of sessions,
    and that creating and finishing them neither leaks objects nor frees one
    twice. *)
From stdpp Require Import base gmap gmultiset list strings numbers.
From S2P Require Import Prelude Kernel KernelFacts Structs CryptoApi Sg.
From S2P Require Import Cryptlib CryptlibFacts Zc ZcFacts Fcrypt.
Open Scope Z_scope.

Section FcryptFacts.
Context `{CryptoAPI, !CryptoAPISizes}.
Implicit Types (e : env) (s : csession) (p : crypt_priv).

(** ** Invariants *)

(** The objects that belong to a session. *)
Definition ses_objs s : list (Z * kobj) :=
  cdata_objs (cs_cdata s) ++ hdata_objs (cs_hdata s) ++ array_objs s ++ [(cs_addr s, OSession)].

Record ses_ok s : Prop := {
  ses_cdata : cdata_ok (cs_cdata s);
  ses_hdata : hdata_ok (cs_hdata s);
  ses_arrays : arrays_ok s;
  ses_unlocked : cs_locked s = false
}.

Definition item_objs (l : list todo_list_item) : list (Z * kobj) :=
  (fun i => (it_addr i, OItem)) <$> l.

(** The objects that belong to an open file. *)
Definition priv_objs p : list (Z * kobj) :=
  (cp_fcrypt p ≫= ses_objs) ++ item_objs (cp_free p ++ cp_todo p ++ cp_done p) ++
  [(cp_addr p, OPriv)].

(** Session identifiers are unique, no session is locked between calls, the
    queue holds no more items than are counted, at most [MAX_COP_RINGSIZE], and
    pending jobs have been handed to the worker. *)
Record priv_ok p : Prop := {
  priv_sessions : Forall ses_ok (cp_fcrypt p);
  priv_sids : NoDup (cs_sid <$> cp_fcrypt p);
  priv_items : Z.of_nat (length (cp_free p ++ cp_todo p ++ cp_done p)) <= cp_itemcount p;
  priv_count : cp_itemcount p <= MAX_COP_RINGSIZE;
  priv_queued : cp_todo p <> [] -> cp_queued p = true
}.

(** The invariant of an open file: what it owns is live, and nothing else but
    [R] is. *)
Record handle_ok e p (R : list (Z * kobj)) : Prop := {
  handle_env : env_ok e;
  handle_priv : priv_ok p;
  handle_owns : owns e (priv_objs p ++ R)
}.

(** ** Calls on the parts of a session *)

Lemma on_cdata_spec {A} e s (m : K cipher_data A) (Q : A -> env * csession -> Prop) :
  wp m (fun a st => Q a (st.1, set_cs_cdata st.2 s)) (e, cs_cdata s) -> wp (on_cdata m) Q (e, s).
Proof. intros HQ. unfold on_cdata. kgo. apply on_local_spec. eapply wp_mono; [exact HQ|]. by intros a [e' c']. Qed.

Lemma on_hdata_spec {A} e s (m : K hash_data A) (Q : A -> env * csession -> Prop) :
  wp m (fun a st => Q a (st.1, set_cs_hdata st.2 s)) (e, cs_hdata s) -> wp (on_hdata m) Q (e, s).
Proof. intros HQ. unfold on_hdata. kgo. apply on_local_spec. eapply wp_mono; [exact HQ|]. by intros a [e' h']. Qed.

(** ** Creating a session *)

(** The key of the cipher and of the hash of a request. *)
Definition cipher_key e (sop : session_op) : bytes :=
  peeks (e_mem e) (seqZ (so_key sop) (so_keylen sop)).
Definition mac_bytes e (sop : session_op) : bytes :=
  if so_mackey sop =? 0 then replicate (Z.to_nat (so_mackeylen sop)) (e_junk e)
  else peeks (e_mem e) (seqZ (so_mackey sop) (so_mackeylen sop)).
Definition mac_key e (sop : session_op) (hmac_mode : Z) : bytes :=
  if hmac_mode =? 0 then [] else mac_bytes e sop.

(** Why an object may be lost when the setup of a session fails: a later
    allocation failed, or the key of an AEAD cipher was refused. *)
Definition lost_reason e (alg_name : option string) (aead_ : Z) (sop : session_op) : Prop :=
  e_allocs e <> [] \/
  aead_ <> 0 /\ exists name, alg_name = Some name /\ aead_setkey name (cipher_key e sop) <> 0.

(** What the cipher and the hash of a request need to be set up. *)
Definition cipher_usable e (sop : session_op) (alg_name : option string) (aead_ : Z) : Prop :=
  match alg_name with
  | None => True
  | Some name =>
      so_keylen sop <= CRYPTO_CIPHER_MAX_KEY_LEN /\
      range_readable (e_mem e) (so_key sop) (so_keylen sop) /\
      cipher_accepts name (cipher_key e sop) aead_ = true
  end.
Definition hash_usable e (sop : session_op) (hash_name : option string) (hmac_mode aead_ : Z) : Prop :=
  match (if aead_ =? 0 then hash_name else None) with
  | None => True
  | Some name =>
      so_mackeylen sop <= CRYPTO_HMAC_MAX_KEY_LEN /\
      (so_mackey sop <> 0 -> range_readable (e_mem e) (so_mackey sop) (so_mackeylen sop)) /\
      hash_accepts name hmac_mode (mac_bytes e sop) = true
  end.

Lemma set_cipher_spec e s alg_name sop stream aead_ R (Q : setup -> env * csession -> Prop) :
  env_ok e -> owns e R -> e_user e = true -> 0 <= so_keylen sop -> cs_cdata s = cipher_data_zero ->
  (forall e' c, same_world e e' -> env_ok e' -> owns e' (cdata_objs c ++ R) -> cdata_ok c ->
     match alg_name with
     | None => c = cipher_data_zero
     | Some name => cipher_ready name (cipher_key e sop) stream aead_ c
     end -> Q SetupOk (e', set_cs_cdata c s)) ->
  (forall r e' s' lost, r < 0 -> same_world e e' -> env_ok e' -> owns e' (lost ++ R) ->
     cs_addr s' = cs_addr s -> lost = [] \/ lost_reason e alg_name aead_ sop ->
     ~ cipher_usable e sop alg_name aead_ \/ e_allocs e <> [] -> Q (ErrorCipher r) (e', s')) ->
  wp (session_set_cipher alg_name sop stream aead_) Q (e, s).
Proof.
  intros He Ho Hu Hk Hz Hok Herr. unfold session_set_cipher, cipher_usable in *. destruct alg_name as [name|].
  2: { ksteps. replace s with (set_cs_cdata cipher_data_zero s) by (destruct s; simpl in *; by subst).
       apply Hok; auto using cdata_ok_zero with kernel. }
  destruct (Z.ltb_spec CRYPTO_CIPHER_MAX_KEY_LEN (so_keylen sop));
    [ksteps; apply Herr with []; auto with kernel; [done|left; intros (? & _); lia]|]. ksteps.
  apply copy_from_user_spec; [done..|]. intros bs nleft Hl Hnl Hbs Hread.
  destruct (Z.eqb_spec nleft 0) as [Hn|Hn]; kgo;
    [|apply Herr with []; auto with kernel; [done|left; intros (_ & ? & _); auto]].
  specialize (Hbs Hn). fold (cipher_key e sop) in Hbs. subst bs. apply on_cdata_spec. cbn [fst snd].
  destruct (Z.eq_dec aead_ 0) as [->|Ha].
  - eapply cipher_init_ablk_spec; [done..| |].
    + intros e' c' ? ? ? Hr. kgo. apply Hok; try done. by destruct Hr.
    + intros r e' c' Hr ? ? ? Hwhy. replace (r <? 0) with true by lia. ksteps.
      apply Herr with []; auto; [done|]. destruct Hwhy; [left; intros (_ & _ & ?); congruence|by right].
  - eapply cipher_init_aead_spec; [done..| |].
    + intros e' c' ? ? ? Hr. kgo. apply Hok; try done. by destruct Hr.
    + intros r e' c' lost Hr ? ? ? Hlost Hwhy. replace (r <? 0) with true by lia. ksteps.
      apply Herr with lost; try done; [|destruct Hwhy; [left; intros (_ & _ & ?); congruence|by right]].
      destruct Hlost as [->|[_ [?|?]]]; [by left|right; right|right; left]; eauto.
Qed.
Lemma set_hash_spec e s hash_name sop hmac_mode aead_ R (Q : setup -> env * csession -> Prop) :
  env_ok e -> owns e R -> e_user e = true -> 0 <= so_mackeylen sop -> cs_hdata s = hash_data_zero ->
  (forall e' h, same_world e e' -> env_ok e' -> owns e' (hdata_objs h ++ R) -> hdata_ok h ->
     match (if aead_ =? 0 then hash_name else None) with
     | None => h = hash_data_zero
     | Some name => hash_ready name (mac_key e sop hmac_mode) h
     end -> Q SetupOk (e', set_cs_hdata h s)) ->
  (forall r e' h, r < 0 -> same_world e e' -> env_ok e' -> owns e' R ->
     ~ hash_usable e sop hash_name hmac_mode aead_ \/ e_allocs e <> [] -> Q (ErrorHash r) (e', set_cs_hdata h s)) ->
  wp (session_set_hash hash_name sop hmac_mode aead_) Q (e, s).
Proof.
  intros He Ho Hu Hk Hz Hok Herr.
  assert (Hs : s = set_cs_hdata hash_data_zero s) by (destruct s; simpl in *; by subst).
  unfold session_set_hash, hash_usable in *. destruct hash_name as [name|].
  2: { ksteps. rewrite Hs. apply Hok; auto using hdata_ok_zero with kernel. by destruct (aead_ =? 0). }
  destruct (aead_ =? 0); cbv iota in *.
  2: { ksteps. rewrite Hs. apply Hok; auto using hdata_ok_zero with kernel. }
  assert (Herr0 : forall r, r < 0 ->
    ~ (so_mackeylen sop <= CRYPTO_HMAC_MAX_KEY_LEN /\
       (so_mackey sop <> 0 -> range_readable (e_mem e) (so_mackey sop) (so_mackeylen sop)) /\
       hash_accepts name hmac_mode (mac_bytes e sop) = true) -> Q (ErrorHash r) (e, s)).
  { intros r Hr Hno. rewrite Hs. apply Herr; [done..|by left]. }
  destruct (Z.ltb_spec CRYPTO_HMAC_MAX_KEY_LEN (so_mackeylen sop));
    [ksteps; apply Herr0; [done|intros (? & _); lia]|]. ksteps.
  assert (Hinit : forall key, key = mac_bytes e sop ->
    wp (on_hdata (cryptodev_hash_init name hmac_mode key))
      (fun ret => wp (if negb (ret =? 0) then mret (ErrorHash (- EINVAL)) else mret SetupOk) Q) (e, s)).
  { intros key Hkey. apply on_hdata_spec. cbn [fst snd].
    eapply hash_init_spec; [done..|by rewrite Hz| |].
    - intros e' h' ? ? ? Hr. kgo. rewrite Hkey in Hr. apply Hok; try done. by destruct Hr.
    - intros r e' h' Hr ? ? ? Hwhy. kgo. apply Herr; try done.
      destruct Hwhy; [left; intros (_ & _ & ?); congruence|by right]. }
  unfold mac_bytes in *. destruct (Z.eqb_spec (so_mackey sop) 0) as [|Hmk]; cbn [negb].
  - ksteps. kgo. apply Hinit. done.
  - apply copy_from_user_spec; [done..|]. intros bs nleft Hl Hnl Hbs Hread.
    destruct (Z.eqb_spec nleft 0) as [Hn|Hn]; kgo;
      [|apply Herr0; [done|intros (_ & ? & _); auto]].
    apply Hinit. by rewrite (Hbs Hn).
Qed.

Lemma set_arrays_spec e s R (Q : setup -> env * csession -> Prop) :
  env_ok e -> owns e R ->
  (forall e' s', same_world e e' -> env_ok e' -> owns e' (array_objs s' ++ R) -> arrays_ok s' ->
     cs_cdata s' = cs_cdata s -> cs_hdata s' = cs_hdata s -> cs_addr s' = cs_addr s ->
     cs_locked s' = cs_locked s -> Q SetupOk (e', s')) ->
  (forall e' s', same_world e e' -> env_ok e' ->
     owns e' ((if cs_sg_at s' =? 0 then [] else [(cs_sg_at s', OSgArray)]) ++
              (if cs_pages_at s' =? 0 then [] else [(cs_pages_at s', OPageArray)]) ++ R) ->
     cs_cdata s' = cs_cdata s -> cs_hdata s' = cs_hdata s -> cs_addr s' = cs_addr s ->
     e_allocs e <> [] -> Q (ErrorHash (- ENOMEM)) (e', s')) ->
  wp session_set_arrays Q (e, s).
Proof.
  intros He Ho Hok Herr. unfold session_set_arrays. kgo. kalloc_as p e1.
  - kgo. kalloc_as q e2; kgo; rewrite ?orb_true_r.
    + apply Herr; try done. by etrans.
    + cbn [orb]. change (0 =? 0) with true. apply Herr; try done; [by etrans|]. simpl. by rewrite (proj2 (Z.eqb_neq q 0)).
  - kgo. kalloc_as q e2; kgo.
    + cbn [orb]. apply Herr; try done; [by etrans| |].
      * simpl. by rewrite (proj2 (Z.eqb_neq p 0)).
      * intros Hn. by apply H10, (sw_allocs _ _ H1).
    + cbn [orb]. kgo. apply Hok; [by etrans|done| | |done..].
      * eapply owns_perm; [|eassumption]. apply perm_swap.
      * constructor; simpl; unfold DEFAULT_PREALLOC_PAGES; lia.
Qed.
(** The cleanup at [error_hash] frees everything but the hash. *)
Lemma cleanup_hash_spec e s r R (Q : unit -> env * csession -> Prop) :
  env_ok e ->
  owns e (cdata_objs (cs_cdata s) ++
          (if cs_sg_at s =? 0 then [] else [(cs_sg_at s, OSgArray)]) ++
          (if cs_pages_at s =? 0 then [] else [(cs_pages_at s, OPageArray)]) ++
          (cs_addr s, OSession) :: R) ->
  (forall e' s', same_world e e' -> env_ok e' -> owns e' R -> Q tt (e', s')) ->
  wp (session_cleanup (ErrorHash r)) Q (e, s).
Proof.
  intros He Ho HQ. unfold session_cleanup. kgo. apply on_cdata_spec.
  eapply cipher_deinit_spec; [done|exact Ho|]. intros e1 Hw1 He1 Ho1. kgo. simpl.
  destruct (Z.eqb_spec (cs_sg_at s) 0) as [->|]; destruct (Z.eqb_spec (cs_pages_at s) 0) as [->|];
    simpl in Ho1; kfree_one; kgo; kfree_one; kgo; kfree_one; apply HQ; eauto using same_world_trans.
Qed.

(** The session that a request describes. *)
Record session_made e sop (alg_name hash_name : option string) (stream aead_ hmac_mode : Z) s
    : Prop := {
  made_ok : ses_ok s;
  made_cipher :
    match alg_name with
    | None => cs_cdata s = cipher_data_zero
    | Some name => cipher_ready name (cipher_key e sop) stream aead_ (cs_cdata s)
    end;
  made_hash :
    match (if aead_ =? 0 then hash_name else None) with
    | None => cs_hdata s = hash_data_zero
    | Some name => hash_ready name (mac_key e sop hmac_mode) (cs_hdata s)
    end
}.

Lemma cipher_usable_world e e' sop alg_name aead_ :
  same_world e e' -> cipher_usable e' sop alg_name aead_ <-> cipher_usable e sop alg_name aead_.
Proof. intros Hw. unfold cipher_usable, cipher_key. by rewrite (sw_mem _ _ Hw). Qed.
Lemma hash_usable_world e e' sop hash_name hmac_mode aead_ :
  same_world e e' ->
  hash_usable e' sop hash_name hmac_mode aead_ <-> hash_usable e sop hash_name hmac_mode aead_.
Proof.
  intros Hw. unfold hash_usable, mac_bytes. by rewrite (sw_mem _ _ Hw), (sw_junk _ _ Hw).
Qed.

Lemma session_setup_spec e a sop alg_name hash_name stream aead_ hmac_mode R
    (Q : Z -> env * csession -> Prop) :
  env_ok e -> owns e ((a, OSession) :: R) -> e_user e = true ->
  0 <= so_keylen sop -> 0 <= so_mackeylen sop ->
  (forall e' s, same_world e e' -> env_ok e' -> owns e' (ses_objs s ++ R) -> cs_addr s = a ->
     session_made e sop alg_name hash_name stream aead_ hmac_mode s -> Q 0 (e', s)) ->
  (forall r e' s lost, r < 0 -> same_world e e' -> env_ok e' -> owns e' (lost ++ R) ->
     lost = [] \/ lost_reason e alg_name aead_ sop ->
     ~ (cipher_usable e sop alg_name aead_ /\ hash_usable e sop hash_name hmac_mode aead_) \/
       e_allocs e <> [] -> Q r (e', s)) ->
  wp (session_setup sop alg_name hash_name stream aead_ hmac_mode) Q (e, csession_zero a).
Proof.
  intros He Ho Hu Hk Hmk Hok Herr. unfold session_setup. kgo.
  eapply set_cipher_spec; [done..| |].
  2: { intros r e1 s1 lost Hr Hw He1 Ho1 Ha Hlost Hwhy. kgo. unfold session_cleanup. kgo. rewrite Ha. cbn [cs_addr csession_zero].
       kfree_one. kgo. apply Herr with lost; eauto using same_world_trans. tauto. }
  intros e1 c Hw1 He1 Ho1 Hc Hmade. kgo.
  eapply set_hash_spec; [done|done|by rewrite (sw_user _ _ Hw1)|done|done| |].
  2: { intros r e2 h Hr Hw2 He2 Ho2 Hwhy. kgo. eapply cleanup_hash_spec; [done|exact Ho2|].
       intros e3 s3 Hw3 He3 Ho3. kgo. apply Herr with []; eauto using same_world_trans.
       rewrite (hash_usable_world _ _ _ _ _ _ Hw1) in Hwhy.
       destruct Hwhy as [?|Hal]; [tauto|right]. intros Hn. by apply Hal, (sw_allocs _ _ Hw1). }
  intros e2 h Hw2 He2 Ho2 Hh Hmadeh. kgo.
  eapply set_arrays_spec; [done..| |].
  - intros e3 s3 Hw3 He3 Ho3 Ha3 Hcd Hhd Had Hlk. kgo. apply Hok; [by do 2 etrans|done| |done|].
    + unfold ses_objs. rewrite Hcd, Hhd, Had. cbn [cs_cdata cs_hdata cs_addr set_cs_hdata set_cs_cdata csession_zero].
      eapply owns_perm, Ho3. unfold array_objs. perm_solve.
    + constructor; rewrite ?Hcd, ?Hhd; try done.
      * constructor; rewrite ?Hcd, ?Hhd, ?Hlk; done.
      * cbn [cs_hdata set_cs_hdata]. unfold mac_key, mac_bytes in *. by rewrite (sw_mem _ _ Hw1), (sw_junk _ _ Hw1) in Hmadeh.
  - intros e3 s3 Hw3 He3 Ho3 Hcd Hhd Had Hal. kgo.
    eapply cleanup_hash_spec with (R := hdata_objs h ++ R); [done| |].
    + rewrite Hcd, Had. eapply owns_perm, Ho3.
      cbn [cs_cdata cs_hdata cs_addr set_cs_hdata set_cs_cdata csession_zero].
      destruct (cs_sg_at s3 =? 0), (cs_pages_at s3 =? 0); perm_solve.
    + intros e4 s4 Hw4 He4 Ho4. kgo. apply Herr with (hdata_objs h); eauto using same_world_trans.
      * done.
      * right. left. intros Hn. by apply Hal, (sw_allocs _ _ Hw2), (sw_allocs _ _ Hw1).
      * right. intros Hn. by apply Hal, (sw_allocs _ _ Hw2), (sw_allocs _ _ Hw1).
Qed.
(** ** Session identifiers *)

Lemma fresh_sid_spec sids rng :
  Exists (fun r => u32 r ∉ sids) rng ->
  exists sid rng', fresh_sid sids rng = Some (sid, rng') /\ sid ∉ sids /\ 0 <= sid < 2 ^ 32.
Proof.
  induction rng as [|r rng IH]; intros Hex; [by inversion Hex|]. cbn [fresh_sid].
  destruct (decide (u32 r ∈ sids)) as [Hin|Hin].
  - rewrite bool_decide_eq_true_2 by done. apply IH. by inversion Hex.
  - rewrite bool_decide_eq_false_2 by done. exists (u32 r), rng. split_and!; try done;
      unfold u32; apply Z.mod_pos_bound; lia.
Qed.

(** The handle with a new session. *)
Lemma handle_add e p s sid R :
  handle_ok e p ((ses_objs s) ++ R) -> ses_ok s -> sid ∉ cs_sid <$> cp_fcrypt p ->
  handle_ok e (set_fcrypt (set_cs_sid sid s :: cp_fcrypt p) p) R.
Proof.
  intros [He [] Ho] Hs Hsid. split; [done| |].
  - constructor; simpl; try done.
    + constructor; [|done]. by destruct Hs as [? ? [] ?].
    + by apply list.NoDup_cons.
  - unfold priv_objs in *. simpl. eapply owns_perm, Ho.
    change (ses_objs (set_cs_sid sid s)) with (ses_objs s). perm_solve.
Qed.

Lemma handle_world e e' p R R' :
  handle_ok e p R -> env_ok e' -> owns e' (priv_objs p ++ R') -> handle_ok e' p R'.
Proof. intros [] ? ?. by constructor. Qed.

(** The requests for a session that can be satisfied. *)
Definition session_accepts e (sop : session_op) : Prop :=
  exists alg_name stream aead_ hash_name hmac_mode,
    cipher_of (so_cipher sop) = Some (alg_name, stream, aead_) /\
    mac_of (so_mac sop) = Some (hash_name, hmac_mode) /\
    (so_cipher sop <> 0 \/ so_mac sop <> 0) /\
    cipher_usable e sop alg_name aead_ /\ hash_usable e sop hash_name hmac_mode aead_.

(** The result of [crypto_create_session]. *)
Inductive create_result e p R sop : Z -> session_op -> env -> crypt_priv -> Prop :=
  | create_ok e' s rng alg_name stream aead_ hash_name hmac_mode :
      cipher_of (so_cipher sop) = Some (alg_name, stream, aead_) ->
      mac_of (so_mac sop) = Some (hash_name, hmac_mode) ->
      same_world (set_rng rng e) e' ->
      session_made e sop alg_name hash_name stream aead_ hmac_mode s ->
      cs_sid s ∉ cs_sid <$> cp_fcrypt p ->
      0 <= cs_sid s < 2 ^ 32 ->
      handle_ok e' (set_fcrypt (s :: cp_fcrypt p) p) R ->
      create_result e p R sop 0 (set_so_ses (cs_sid s) sop) e' (set_fcrypt (s :: cp_fcrypt p) p)
  | create_err r e' lost :
      r < 0 -> ~ session_accepts e sop \/ e_allocs e <> [] ->
      same_world e e' -> handle_ok e' p (lost ++ R) ->
      lost = [] \/ e_allocs e <> [] \/
        so_cipher sop = CRYPTO_AES_GCM /\ aead_setkey "gcm(aes)" (cipher_key e sop) <> 0 ->
      create_result e p R sop r sop e' p.

Lemma cipher_of_aead c alg_name stream aead_ :
  cipher_of c = Some (alg_name, stream, aead_) -> aead_ <> 0 ->
  c = CRYPTO_AES_GCM /\ alg_name = Some "gcm(aes)".
Proof.
  unfold cipher_of. destruct (Z.eqb_spec c CRYPTO_AES_GCM) as [->|].
  - intros. simplify_eq/=. done.
  - repeat case_match; intros; by simplify_eq.
Qed.

Lemma create_session_spec e p R sop (Q : Z * session_op -> env * crypt_priv -> Prop) :
  handle_ok e p R -> e_user e = true -> 0 <= so_keylen sop -> 0 <= so_mackeylen sop ->
  Exists (fun r => u32 r ∉ cs_sid <$> cp_fcrypt p) (e_rng e) ->
  (forall r sop' e' p', create_result e p R sop r sop' e' p' -> Q (r, sop') (e', p')) ->
  wp (crypto_create_session sop) Q (e, p).
Proof.
  intros Hh Hu Hk Hmk Hrng HQ. destruct (Hh) as [He Hp Ho].
  assert (Hinv : ~ session_accepts e sop -> Q (- EINVAL, sop) (e, p)).
  { intros Hno. apply HQ, create_err with []; auto with kernel. done. }
  unfold crypto_create_session. destruct (_ && _) eqn:Hboth.
  { ksteps. apply Hinv. intros (? & ? & ? & ? & ? & _ & _ & Hb & _). lia. }
  destruct (cipher_of _) as [[[alg_name stream] aead_]|] eqn:Hc.
  2: { ksteps. apply Hinv. intros (? & ? & ? & ? & ? & ? & _). congruence. }
  destruct (mac_of _) as [[hash_name hmac_mode]|] eqn:Hm.
  2: { ksteps. apply Hinv. intros (? & ? & ? & ? & ? & _ & ? & _). congruence. }
  kgo. kalloc_as a e1.
  { kgo. apply HQ, create_err with []; [done|by right|done|by eapply handle_world|by left]. }
  kgo. apply on_local_spec. eapply session_setup_spec; [done|done|by rewrite (sw_user _ _ H1)|done..| |].
  - intros e2 s Hw2 He2 Ho2 Ha Hmade. kgo.
    assert (Hw : same_world e e2) by (by etrans).
    rewrite (sw_rng _ _ Hw). destruct (fresh_sid_spec _ _ Hrng) as (sid & rng & -> & Hnin & Hsid). kgo.
    assert (Hm' : session_made e sop alg_name hash_name stream aead_ hmac_mode (set_cs_sid sid s)).
    { destruct Hmade as [[? ? [] ?] Hmc Hmh]. unfold cipher_key, mac_key, mac_bytes in *.
      rewrite (sw_mem _ _ H1), ?(sw_junk _ _ H1) in *. by constructor. }
    apply HQ, (create_ok e p R sop (set_rng rng e2) (set_cs_sid sid s) rng alg_name stream aead_
                 hash_name hmac_mode); try done.
    + destruct Hw. by constructor.
    + apply handle_add; [|by destruct Hmade|done]. eapply handle_world; [done|by destruct He2|].
      eapply owns_perm, Ho2. perm_solve.
  - intros r e2 s lost Hr Hw2 He2 Ho2 Hlost Hwhy. kgo. replace (r =? 0) with false by lia. kgo.
    apply HQ, create_err with lost; try done; [|by etrans| |].
    + rewrite (cipher_usable_world _ _ _ _ _ H1), (hash_usable_world _ _ _ _ _ _ H1) in Hwhy.
      destruct Hwhy as [Hwhy|Hal]; [left|right; intros Hn; by apply Hal, (sw_allocs _ _ H1)].
      intros (? & ? & ? & ? & ? & Hc' & Hm' & _ & ? & ?). rewrite Hc in Hc'. rewrite Hm in Hm'.
      simplify_eq. by apply Hwhy.
    + eapply handle_world; [done..|]. eapply owns_perm, Ho2. perm_solve.
    + destruct Hlost as [->|[Hal|(Hae & name & -> & Hset)]]; [by left| |].
      * right. left. intros Hn. by apply Hal, (sw_allocs _ _ H1).
      * right. right. destruct (cipher_of_aead _ _ _ _ Hc Hae) as [? [= ->]].
        unfold cipher_key in *. by rewrite (sw_mem _ _ H1) in Hset.
Qed.
(** ** Finishing sessions *)

Lemma destroy_spec e p s R (Q : unit -> env * crypt_priv -> Prop) :
  env_ok e -> owns e (ses_objs s ++ R) -> cs_locked s = false ->
  (forall e', same_world e e' -> env_ok e' -> owns e' R -> Q tt (e', p)) ->
  wp (crypto_destroy_session s) Q (e, p).
Proof.
  intros He Ho Hl HQ. unfold crypto_destroy_session. rewrite Hl. kgo. apply on_local_spec. kgo.
  apply on_cdata_spec. unfold ses_objs in Ho. rewrite <- !app_assoc in Ho.
  eapply cipher_deinit_spec; [done|exact Ho|]. intros e1 Hw1 He1 Ho1. kgo.
  apply on_hdata_spec. eapply hash_deinit_spec; [done|exact Ho1|]. intros e2 Hw2 He2 Ho2. kgo.
  simpl in *. kfree_one. kgo. kfree_one. kgo. kfree_one. apply HQ; eauto using same_world_trans.
Qed.

Lemma take_session_some test l s rest :
  take_session test l = Some (s, rest) ->
  exists l1 l2, l = l1 ++ s :: l2 /\ rest = l1 ++ l2 /\ test s = true.
Proof.
  revert rest. induction l as [|x l IH]; intros rest; simpl; [done|].
  destruct (test x) eqn:Hx.
  - intros [= <- <-]. by exists [], l.
  - destruct (take_session test l) as [[s' r']|]; [|done]. intros [= -> <-].
    destruct (IH _ eq_refl) as (l1 & l2 & -> & -> & ?). by exists (x :: l1), l2.
Qed.

Lemma take_session_none test l : take_session test l = None -> Forall (fun s => test s = false) l.
Proof.
  induction l as [|x l IH]; simpl; [constructor|].
  destruct (test x) eqn:Hx; [done|]. destruct (take_session test l) as [[]|]; [done|]. auto.
Qed.

(** The sessions other than [sid]. *)
Definition other_sessions (sid : Z) (l : list csession) : list csession :=
  filter (fun s => cs_sid s <> sid) l.

Lemma other_sessions_absent sid l : sid ∉ cs_sid <$> l -> other_sessions sid l = l.
Proof.
  intros Hn. unfold other_sessions. induction l as [|x l IH]; [done|].
  csimpl in Hn. apply not_elem_of_cons in Hn as [Hx Hn].
  rewrite filter_cons_True by done. by rewrite IH.
Qed.

Lemma take_other sid l1 s l2 :
  NoDup (cs_sid <$> l1 ++ s :: l2) -> cs_sid s = sid ->
  other_sessions sid (l1 ++ s :: l2) = l1 ++ l2.
Proof.
  intros Hnd <-. rewrite fmap_app, fmap_cons in Hnd.
  apply list.NoDup_app in Hnd as (_ & Hd & [Hs _]%list.NoDup_cons).
  unfold other_sessions. rewrite list.filter_app, filter_cons_False by (by intros []).
  f_equal; apply other_sessions_absent; [|done].
  intros Hin. apply (Hd _ Hin). left.
Qed.

Lemma handle_addr_nonnull e p R : handle_ok e p R -> cp_addr p <> 0.
Proof.
  intros [He _ Ho]. eapply owns_nonnull; [done..|]. unfold priv_objs.
  apply elem_of_app. left. do 2 (apply elem_of_app; right). left.
Qed.

Lemma priv_ok_sublist p l :
  priv_ok p -> l `sublist_of` cp_fcrypt p -> priv_ok (set_fcrypt l p).
Proof.
  intros [Hs Hn ? ? ?] Hl. constructor; simpl; try done.
  - apply list.Forall_forall. intros x Hx. eapply list.Forall_forall; [exact Hs|].
    by eapply elem_of_sublist.
  - eapply sublist_NoDup; [exact Hn|]. by rewrite Hl.
Qed.

Lemma finish_session_spec e p R sid (Q : Z -> env * crypt_priv -> Prop) :
  handle_ok e p R ->
  (forall e', same_world e e' ->
     handle_ok e' (set_fcrypt (other_sessions sid (cp_fcrypt p)) p) R ->
     Q 0 (e', set_fcrypt (other_sessions sid (cp_fcrypt p)) p)) ->
  wp (crypto_finish_session sid) Q (e, p).
Proof.
  intros Hh HQ. pose proof (handle_addr_nonnull _ _ _ Hh) as Hp0. destruct (Hh) as [He Hp Ho].
  unfold crypto_finish_session. kgo.
  destruct (take_session _ _) as [[s rest]|] eqn:Ht.
  - apply take_session_some in Ht as (l1 & l2 & Hl & -> & Hsid%Z.eqb_eq).
    assert (Ho' : owns e (ses_objs s ++ priv_objs (set_fcrypt (l1 ++ l2) p) ++ R)).
    { eapply owns_perm, Ho. unfold priv_objs. rewrite Hl. simpl.
      rewrite !bind_app. cbn [mbind list_bind]. perm_solve. }
    assert (Hs : ses_ok s).
    { pose proof (priv_sessions _ Hp) as Hf. rewrite Hl in Hf.
      by apply Forall_app in Hf as [_ [? _]%Forall_cons_iff]. }
    assert (Ha : cs_addr s <> 0).
    { eapply owns_nonnull; [done..|]. unfold ses_objs. rewrite !elem_of_app. left.
      do 3 right. left. }
    kgo. eapply destroy_spec; [done|exact Ho'|by destruct Hs|].
    intros e' Hw He' Ho''. kgo.
    rewrite <- (take_other sid l1 s l2), <- Hl in * by (rewrite <- Hl || done; by destruct Hp).
    apply HQ; [done|]. split; [done| |done].
    apply priv_ok_sublist; [done|]. apply sublist_filter.
  - kgo. unfold past_last_entry. kgo.
    assert (Hoth : other_sessions sid (cp_fcrypt p) = cp_fcrypt p).
    { apply other_sessions_absent. intros (s & -> & Hin)%list_elem_of_fmap.
      apply take_session_none in Ht. eapply list.Forall_forall in Ht; [|done]. lia. }
    rewrite Hoth in HQ. replace p with (set_fcrypt (cp_fcrypt p) p) by (by destruct p).
    apply HQ; [done|]. by destruct p.
Qed.
Lemma finish_sessions_spec e p l R (Q : unit -> env * crypt_priv -> Prop) :
  env_ok e -> cp_fcrypt p = l -> Forall ses_ok l -> owns e ((l ≫= ses_objs) ++ R) ->
  (forall e', same_world e e' -> env_ok e' -> owns e' R -> Q tt (e', set_fcrypt [] p)) ->
  wp (finish_sessions l) Q (e, p).
Proof.
  revert e p. induction l as [|s l IH]; intros e p He Hl Hs Ho HQ; cbn [finish_sessions].
  - ksteps. replace p with (set_fcrypt [] p) by (destruct p; simpl in *; by subst). by apply HQ.
  - apply Forall_cons_iff in Hs as [Hs Hsl]. cbn [mbind list_bind] in Ho. rewrite <- app_assoc in Ho.
    kgo. eapply destroy_spec; [done|exact Ho|by destruct Hs|]. intros e1 Hw He1 Ho1. kgo.
    apply IH; [done|done|done|exact Ho1|]. intros. apply HQ; eauto using same_world_trans.
Qed.

(** ** Using a session *)

Lemma session_addr_unique e p R i j s s' :
  handle_ok e p R -> cp_fcrypt p !! i = Some s -> cp_fcrypt p !! j = Some s' ->
  cs_addr s = cs_addr s' -> i = j.
Proof.
  intros [_ _ [Hnd _]] Hi Hj Ha. unfold priv_objs in Hnd. rewrite <- !app_assoc, fmap_app in Hnd.
  apply list.NoDup_app in Hnd as [Hnd _]. revert i j Hi Hj.
  induction (cp_fcrypt p) as [|x l IH]; intros i j Hi Hj; [done|].
  cbn [mbind list_bind] in Hnd. rewrite fmap_app in Hnd.
  apply list.NoDup_app in Hnd as (_ & Hd & Hnd).
  assert (Hin : forall y, cs_addr y ∈ (ses_objs y).*1).
  { intros y. unfold ses_objs. rewrite !fmap_app, !elem_of_app. do 3 right. left. }
  assert (Hout : forall k y, l !! k = Some y -> cs_addr y ∈ (l ≫= ses_objs).*1).
  { intros k y Hk. specialize (Hin y). apply list_elem_of_fmap in Hin as (o & -> & Ho).
    apply list_elem_of_fmap. exists o. split; [done|]. apply list_elem_of_bind.
    exists y. split; [done|]. by eapply list_elem_of_lookup_2. }
  destruct i as [|i], j as [|j]; simpl in *; simplify_eq/=; [done| | |by f_equal; eapply IH].
  - exfalso. apply (Hd (cs_addr s)); [apply Hin|]. rewrite Ha. by eapply Hout.
  - exfalso. apply (Hd (cs_addr s')); [apply Hin|]. rewrite <- Ha. by eapply Hout.
Qed.

(** The handle while session [i] is [s'], locked. *)
Definition with_session (i : nat) s' p : crypt_priv := set_fcrypt (<[i := s']> (cp_fcrypt p)) p.

Lemma upd_session_at (l : list csession) i s f :
  l !! i = Some s -> (forall j s', l !! j = Some s' -> cs_addr s' = cs_addr s -> j = i) ->
  upd_session (cs_addr s) f l = <[i := f s]> l.
Proof.
  intros Hi Hu. apply list_eq. intros j. unfold upd_session. rewrite list_lookup_fmap.
  destruct (decide (i = j)) as [<-|Hne].
  - rewrite Hi, list_lookup_insert_eq by (by eapply lookup_lt_Some). simpl. by rewrite Z.eqb_refl.
  - rewrite list_lookup_insert_ne by done. destruct (l !! j) as [s'|] eqn:Hj; simpl; [|done].
    destruct (Z.eqb_spec (cs_addr s') (cs_addr s)) as [Ha|]; [|done]. by destruct Hne; erewrite (Hu j).
Qed.

Lemma get_session_spec e p R sid (Q : Z -> env * crypt_priv -> Prop) :
  handle_ok e p R ->
  (sid ∉ cs_sid <$> cp_fcrypt p -> Q 0 (e, p)) ->
  (forall i s, cp_fcrypt p !! i = Some s -> cs_sid s = sid -> ses_ok s -> cs_addr s <> 0 ->
     Q (cs_addr s) (e, with_session i (set_cs_locked true s) p)) ->
  wp (crypto_get_session_by_sid sid) Q (e, p).
Proof.
  intros Hh H0' H1. unfold crypto_get_session_by_sid. kgo.
  destruct (list_find _ _) as [[i s]|] eqn:Hf.
  - apply list_find_Some in Hf as (Hi & Hsid & _).
    assert (Hs : ses_ok s).
    { eapply Forall_lookup_1, Hi. by destruct Hh as [_ [] _]. }
    rewrite (ses_unlocked _ Hs). kgo. rewrite (upd_session_at _ i).
    + apply H1; [done..|]. destruct Hh as [He _ Ho]. eapply owns_nonnull; [done..|].
      unfold priv_objs. apply elem_of_app. left. apply elem_of_app. left.
      apply list_elem_of_bind. exists s. split; [|by eapply list_elem_of_lookup_2].
      unfold ses_objs. rewrite !elem_of_app. do 3 right. left.
    + done.
    + intros j s' Hj Ha. by eapply session_addr_unique.
  - kgo. apply H0'. intros (s & -> & Hin)%list_elem_of_fmap.
    eapply list_find_None in Hf. eapply list.Forall_forall in Hf; [|done]. by apply Hf.
Qed.
Lemma on_session_spec {A} e p R i s s1 (m : K csession A) (Q : A -> env * crypt_priv -> Prop) :
  handle_ok e p R -> cp_fcrypt p !! i = Some s -> cs_addr s1 = cs_addr s ->
  (forall e1, wp m (fun r st => Q r (st.1, with_session i st.2 p)) (e1, s1) ->
     wp (on_session (cs_addr s) m) Q (e1, with_session i s1 p)).
Proof.
  intros Hh Hi Ha e1 Hm. unfold on_session. kgo. unfold with_session at 1. cbn [cp_fcrypt set_fcrypt].
  assert (Hlt : (i < length (cp_fcrypt p))%nat) by (by eapply lookup_lt_Some).
  assert (list_find (fun s0 => cs_addr s0 = cs_addr s) (<[i:=s1]> (cp_fcrypt p)) = Some (i, s1)) as ->.
  { apply list_find_Some. split_and!; [by apply list_lookup_insert_eq|done|].
    intros j y Hj Hlt'. rewrite list_lookup_insert_ne in Hj by lia. intros Hy.
    assert (i = j) by (eapply session_addr_unique; eauto). lia. }
  kgo. apply on_local_spec. eapply wp_mono; [exact Hm|]. intros r [e2 s2] HQ. kgo.
  unfold with_session in *. cbn [cp_fcrypt set_fcrypt]. by rewrite list_insert_insert_eq.
Qed.

Lemma put_session_spec e p R i s s2 e1 (Q : unit -> env * crypt_priv -> Prop) :
  handle_ok e p R -> cp_fcrypt p !! i = Some s -> cs_addr s2 = cs_addr s ->
  Q tt (e1, with_session i (set_cs_locked false s2) p) ->
  wp (crypto_put_session (cs_addr s)) Q (e1, with_session i s2 p).
Proof.
  intros Hh Hi Ha HQ. unfold crypto_put_session. kgo. unfold with_session in *. cbn [cp_fcrypt set_fcrypt].
  assert (Hlt : (i < length (cp_fcrypt p))%nat) by (by eapply lookup_lt_Some).
  rewrite <- Ha, (upd_session_at _ i); [by rewrite list_insert_insert_eq|by apply list_lookup_insert_eq|].
  intros j y Hj Hy. destruct (decide (i = j)); [done|]. rewrite list_lookup_insert_ne in Hj by done.
  symmetry. eapply session_addr_unique; [done..|]. congruence.
Qed.

(** Everything the handle owns but for session [i]. *)
Definition others (i : nat) p : list (Z * kobj) :=
  (delete i (cp_fcrypt p) ≫= ses_objs) ++ item_objs (cp_free p ++ cp_todo p ++ cp_done p) ++
  [(cp_addr p, OPriv)].

Lemma priv_objs_split p i s :
  cp_fcrypt p !! i = Some s -> priv_objs p ≡ₚ ses_objs s ++ others i p.
Proof.
  intros Hi. unfold priv_objs, others. rewrite (delete_Permutation _ _ _ Hi) at 1.
  rewrite bind_cons. perm_solve.
Qed.

Lemma delete_insert_list {A} (l : list A) i x : delete i (<[i := x]> l) = delete i l.
Proof. revert i. induction l as [|y l IH]; intros [|i]; csimpl; [done..|]. by rewrite IH. Qed.

Lemma priv_objs_with_session p i s s' :
  cp_fcrypt p !! i = Some s -> priv_objs (with_session i s' p) ≡ₚ ses_objs s' ++ others i p.
Proof.
  intros Hi. assert (Hlt : (i < length (cp_fcrypt p))%nat) by (by eapply lookup_lt_Some).
  rewrite (priv_objs_split _ i s') by (by apply list_lookup_insert_eq).
  unfold others, with_session. simpl. by rewrite delete_insert_list.
Qed.

(** The handle after session [i] was worked on. *)
Lemma handle_with_session e e' p R i s s' :
  handle_ok e p R -> cp_fcrypt p !! i = Some s -> ses_ok s' -> cs_sid s' = cs_sid s ->
  env_ok e' -> owns e' (ses_objs s' ++ others i p ++ R) -> handle_ok e' (with_session i s' p) R.
Proof.
  intros [He [Hs Hn ? ? ?] Ho] Hi Hs' Hsid He' Ho'. split; [done| |].
  - constructor; simpl; try done; [by apply Forall_insert|].
    rewrite list_fmap_insert, Hsid, list_insert_id; [done|]. by rewrite list_lookup_fmap, Hi.
  - rewrite (priv_objs_with_session _ _ _ _ Hi). by rewrite <- app_assoc.
Qed.

Lemma handle_split e p R i s :
  handle_ok e p R -> cp_fcrypt p !! i = Some s -> owns e (ses_objs s ++ others i p ++ R).
Proof. intros [_ _ Ho] Hi. by rewrite (priv_objs_split _ _ _ Hi), <- app_assoc in Ho. Qed.

Lemma with_session_id p i s :
  cp_fcrypt p !! i = Some s -> with_session i s p = p.
Proof. intros Hi. unfold with_session. rewrite list_insert_id by done. by destruct p. Qed.

(** ** The lifecycle of a session *)

Lemma owns_heap e e' l : owns e l -> owns e' l -> e_heap e' = e_heap e.
Proof. by intros [_ ->] [_ ->]. Qed.

Lemma create_session_done e p R sop :
  handle_ok e p R -> e_user e = true -> 0 <= so_keylen sop -> 0 <= so_mackeylen sop ->
  Exists (fun r => u32 r ∉ cs_sid <$> cp_fcrypt p) (e_rng e) ->
  exists r sop' e' p', crypto_create_session sop (e, p) = Done (r, sop') (e', p') /\
    create_result e p R sop r sop' e' p'.
Proof.
  intros Hh Hu Hk Hmk Hrng.
  destruct (proj1 (wp_done _ _ _) (create_session_spec e p R sop
    (fun '(r, sop') '(e', p') => create_result e p R sop r sop' e' p') Hh Hu Hk Hmk Hrng ltac:(done)))
    as ([r sop'] & [e' p'] & ? & ?). eauto 10.
Qed.

Lemma finish_session_done e p R sid :
  handle_ok e p R ->
  exists e', crypto_finish_session sid (e, p) =
      Done 0 (e', set_fcrypt (other_sessions sid (cp_fcrypt p)) p) /\
    same_world e e' /\ handle_ok e' (set_fcrypt (other_sessions sid (cp_fcrypt p)) p) R.
Proof.
  intros Hh.
  destruct (proj1 (wp_done _ _ _) (finish_session_spec e p R sid
    (fun r '(e', p') => r = 0 /\ p' = set_fcrypt (other_sessions sid (cp_fcrypt p)) p /\
                        same_world e e' /\ handle_ok e' p' R) Hh ltac:(done)))
    as (r & [e' p'] & E & -> & -> & ? & ?). eauto.
Qed.

(** C9: creating a session.  On a file that satisfies its invariant,
    [crypto_create_session] returns: 0 with a new session at the head of the
    list, under an identifier no other session has, whose cipher and hash are
    those of the request with the keys read from user memory; or a negative
    error, with the sessions unchanged.  It succeeds whenever the algorithms
    exist and take the keys, the keys are readable and allocations succeed, and
    an error loses no object unless an allocation failed or the key of the AEAD
    cipher was refused. *)
Theorem create_session_correct e p R sop :
  handle_ok e p R -> e_user e = true -> 0 <= so_keylen sop -> 0 <= so_mackeylen sop ->
  Exists (fun r => u32 r ∉ cs_sid <$> cp_fcrypt p) (e_rng e) ->
  exists r sop' e' p',
    crypto_create_session sop (e, p) = Done (r, sop') (e', p') /\
    create_result e p R sop r sop' e' p' /\
    (session_accepts e sop -> e_allocs e = [] -> r = 0).
Proof.
  intros Hh Hu Hk Hmk Hrng.
  destruct (create_session_done e p R sop Hh Hu Hk Hmk Hrng) as (r & sop' & e' & p' & E & Hr).
  exists r, sop', e', p'. split_and!; [done..|]. intros Ha Hal. destruct Hr as [|r e' lost Hr Hwhy]; [done|].
  by destruct Hwhy.
Qed.

(** C15: a session that is created and then finished leaves no trace: the
    session list is the one from before, and the live kernel objects are exactly
    those from before. *)
Theorem session_lifecycle e p R sop :
  handle_ok e p R -> e_user e = true -> 0 <= so_keylen sop -> 0 <= so_mackeylen sop ->
  Exists (fun r => u32 r ∉ cs_sid <$> cp_fcrypt p) (e_rng e) ->
  session_accepts e sop -> e_allocs e = [] ->
  exists sop' e1 p1 e2,
    crypto_create_session sop (e, p) = Done (0, sop') (e1, p1) /\
    crypto_finish_session (so_ses sop') (e1, p1) = Done 0 (e2, p) /\
    length (cp_fcrypt p1) = S (length (cp_fcrypt p)) /\ e_heap e2 = e_heap e /\ e_mem e2 = e_mem e.
Proof.
  intros Hh Hu Hk Hmk Hrng Ha Hal.
  destruct (create_session_done e p R sop Hh Hu Hk Hmk Hrng) as (r & sop' & e1 & p1 & E & Hr).
  destruct Hr as [e1 s rng an st ae hn hm _ _ Hw _ Hsid _ Hh1|r e1 lost _ Hwhy]; [|by destruct Hwhy].
  destruct (finish_session_done _ _ _ (cs_sid s) Hh1) as (e2 & E2 & Hw2 & Hh2).
  assert (Hp : set_fcrypt (other_sessions (cs_sid s) (cp_fcrypt (set_fcrypt (s :: cp_fcrypt p) p)))
                 (set_fcrypt (s :: cp_fcrypt p) p) = p).
  { simpl. unfold other_sessions. rewrite filter_cons_False by (by intros []).
    fold (other_sessions (cs_sid s) (cp_fcrypt p)). rewrite other_sessions_absent by done. by destruct p. }
  rewrite Hp in E2, Hh2. eexists _, _, _, e2. split_and!; [exact E|exact E2|done| |].
  - destruct Hh as [_ _ Ho], Hh2 as [_ _ Ho2]. by eapply owns_heap.
  - rewrite (sw_mem _ _ Hw2). apply (sw_mem _ _ Hw).
Qed.

(** C16: finishing a session.  [crypto_finish_session] always returns 0; exactly
    the session with that identifier, if there is one, leaves the list, what it
    owned is freed, once, and every other session is as before. *)
Theorem finish_session_correct e p R sid :
  handle_ok e p R ->
  exists e',
    let rest := filter (fun s => cs_sid s <> sid) (cp_fcrypt p) in
    crypto_finish_session sid (e, p) = Done 0 (e', set_fcrypt rest p) /\
    e_heap e' = list_to_map (priv_objs (set_fcrypt rest p) ++ R) /\
    same_world e e' /\ handle_ok e' (set_fcrypt rest p) R.
Proof.
  intros Hh. destruct (finish_session_done e p R sid Hh) as (e' & E & Hw & Hh').
  exists e'. split_and!; try done. by destruct Hh' as [_ _ [_ ?]].
Qed.
End FcryptFacts.
