(* ===== verification/Run.v ===== *)
(** * Encryption and hashing

    [main.c] of cryptodev-linux: one encryption, decryption or hash operation
    on a session, through user pages or through a bounce page. *)
From stdpp Require Import base gmap gmultiset list strings numbers.
From S2P Require Import Prelude Kernel KernelFacts Structs CryptoApi Sg Cryptlib Zc Fcrypt.
Open Scope Z_scope.

Definition set_kc_iv (v : bytes) (k : kernel_crypt_op) : kernel_crypt_op :=
  KernelCryptOp (kc_cop k) (kc_ivlen k) v (kc_digestsize k) (kc_hash_output k).
Definition set_kc_digest (size : Z) (v : bytes) (k : kernel_crypt_op) : kernel_crypt_op :=
  KernelCryptOp (kc_cop k) (kc_ivlen k) (kc_iv k) size v.

Section Run.
Context `{CryptoAPI}.

Definition has_hash (s : csession) : bool := negb (hd_init (cs_hdata s) =? 0).
Definition has_cipher (s : csession) : bool := negb (cd_init (cs_cdata s) =? 0).

(** [hash_n_crypt] *)
Definition hash_n_crypt (cop : crypt_op) (src_sg dst_sg : list sg_entry) (len : Z)
    : K csession Z :=
  s ← getx;
  if co_op cop =? COP_ENCRYPT then
    ret ← (if has_hash s then on_hdata (cryptodev_hash_update src_sg len) else mret 0);
    if negb (ret =? 0) then mret ret
    else
      ret ← (if has_cipher s then on_cdata (cryptodev_cipher_encrypt src_sg dst_sg len)
             else mret 0);
      if negb (ret =? 0) then mret ret else mret 0
  else
    ret ← (if has_cipher s then on_cdata (cryptodev_cipher_decrypt src_sg dst_sg len)
           else mret 0);
    if negb (ret =? 0) then mret ret
    else
      ret ← (if has_hash s then on_hdata (cryptodev_hash_update dst_sg len) else mret 0);
      if negb (ret =? 0) then mret ret else mret 0.

(** The loop of [__crypto_run_std]; [data] is the bounce page. *)
Fixpoint run_std_loop (fuel : nat) (cop : crypt_op) (data bufsize nbytes src dst : Z)
    : K csession Z :=
  match fuel with
  | O => crashed Diverges
  | S fuel =>
      if nbytes <=? 0 then mret 0
      else
        let current_len := if bufsize <? nbytes then bufsize else nbytes in
        '(bs, nleft) ← copy_from_user src current_len;
        mode (set_mem (pokes (seqZ data current_len) bs));;
        if negb (nleft =? 0) then mret (- EFAULT)
        else
          let sg := sg_init_one data current_len in
          ret ← hash_n_crypt cop sg sg current_len;
          if negb (ret =? 0) then mret ret
          else
            s ← getx;
            e ← gete;
            nleft ← (if has_cipher s then
                       copy_to_user dst (peeks (e_mem e) (seqZ data current_len))
                     else mret 0);
            if negb (nleft =? 0) then mret (- EFAULT)
            else run_std_loop fuel cop data bufsize (nbytes - current_len)
                   (src + current_len) (dst + current_len)
  end.

(** [__crypto_run_std] *)
Definition __crypto_run_std (cop : crypt_op) : K csession Z :=
  let nbytes := co_len cop in
  data ← kalloc OFreePage;
  if data =? 0 then mret (- ENOMEM)
  else
    let bufsize := if PAGE_SIZE <? nbytes then PAGE_SIZE else nbytes in
    ret ← run_std_loop (Z.to_nat (nbytes / PAGE_SIZE) + 2) cop data bufsize nbytes
            (co_src cop) (co_dst cop);
    kfree data;;
    mret ret.

(** [__crypto_run_zc] *)
Definition __crypto_run_zc (cop : crypt_op) : K csession Z :=
  '(ret, src_sg, dst_sg) ← get_userbuf (co_src cop) (co_len cop) (co_dst cop) (co_len cop);
  if negb (ret =? 0) then __crypto_run_std cop
  else
    ret ← hash_n_crypt cop src_sg dst_sg (co_len cop);
    release_user_pages;;
    mret ret.

(** The four stages of [crypto_run] on the session it has locked. *)

Definition run_reset (cop : crypt_op) (ret : Z) : K csession Z :=
  s ← getx;
  if has_hash s && ((co_flags cop =? 0) || has_flag (co_flags cop) COP_FLAG_RESET)
  then on_hdata cryptodev_hash_reset
  else mret ret.

(** [None]: go on; [Some ret]: [goto out_unlock]. *)
Definition run_set_iv (kcop : kernel_crypt_op) : K csession (option Z) :=
  s ← getx;
  if has_cipher s then
    let blocksize := cd_blocksize (cs_cdata s) in
    if blocksize =? 0 then crashed DivByZero
    else if negb (co_len (kc_cop kcop) mod blocksize =? 0) then mret (Some (- EINVAL))
    else
      on_cdata (cryptodev_cipher_set_iv (kc_iv kcop)
                  (Z.min (cd_ivsize (cs_cdata s)) (kc_ivlen kcop)));;
      mret None
  else mret None.

Definition run_data (cop : crypt_op) (ret : Z) : K csession Z :=
  if negb (co_len cop =? 0) then
    if has_flag (co_flags cop) COP_FLAG_NO_ZC then __crypto_run_std cop else __crypto_run_zc cop
  else mret ret.

Definition run_finish (kcop : kernel_crypt_op) (ret : Z) : K csession (Z * kernel_crypt_op) :=
  let cop := kc_cop kcop in
  s ← getx;
  kcop ← (if has_cipher s then
            iv ← on_cdata (cryptodev_cipher_get_iv (kc_iv kcop)
                             (Z.min (cd_ivsize (cs_cdata s)) (kc_ivlen kcop)));
            mret (set_kc_iv iv kcop)
          else mret kcop);
  if has_hash s &&
     (has_flag (co_flags cop) COP_FLAG_FINAL ||
      (negb (has_flag (co_flags cop) COP_FLAG_UPDATE) || (co_len cop =? 0)))
  then
    '(ret, digest) ← on_hdata cryptodev_hash_final;
    if negb (ret =? 0) then mret (ret, set_kc_digest (kc_digestsize kcop) digest kcop)
    else mret (ret, set_kc_digest (hd_digestsize (cs_hdata s)) digest kcop)
  else mret (ret, kcop).

(** [crypto_run] between taking and releasing the session.  The variable
    [ret] is not initialised. *)
Definition crypto_run_locked (kcop : kernel_crypt_op) : K csession (Z * kernel_crypt_op) :=
  let cop := kc_cop kcop in
  e ← gete;
  s ← getx;
  let resets := has_hash s && ((co_flags cop =? 0) || has_flag (co_flags cop) COP_FLAG_RESET) in
  ret ← run_reset cop (e_junk e);
  if resets && negb (ret =? 0) then mret (ret, kcop)
  else
    o ← run_set_iv kcop;
    match o with
    | Some ret => mret (ret, kcop)
    | None =>
        ret ← run_data cop ret;
        if negb (co_len cop =? 0) && negb (ret =? 0) then mret (ret, kcop)
        else run_finish kcop ret
    end.

(** [crypto_run]: the result, and [*kcop] afterwards. *)
Definition crypto_run (kcop : kernel_crypt_op) : K crypt_priv (Z * kernel_crypt_op) :=
  let cop := kc_cop kcop in
  if negb (co_op cop =? COP_ENCRYPT) && negb (co_op cop =? COP_DECRYPT) then
    mret (- EINVAL, kcop)
  else
    ses ← crypto_get_session_by_sid (co_ses cop);
    if ses =? 0 then mret (- EINVAL, kcop)
    else
      r ← on_session ses (crypto_run_locked kcop);
      crypto_put_session ses;;
      mret r.
End Run.
