(* ===== verification/RunFacts.v ===== *)
(** * What one operation on a session computes

    A specification of [hash_n_crypt] on byte strings, that the bounce-buffer
    path and the zero-copy path both implement it, and that neither leaves
    anything behind. *)
From stdpp Require Import base gmap gmultiset list strings numbers.
From S2P Require Import Prelude Kernel KernelFacts Structs CryptoApi Sg.
From S2P Require Import Cryptlib CryptlibFacts Zc ZcFacts Fcrypt FcryptFacts Run.
Open Scope Z_scope.

Section RunFacts.
Context `{CryptoAPI, !CryptoAPISizes}.
Implicit Types (e : env) (s : csession) (data out : bytes).

(** ** The specification *)

(** The effect of an operation on a session: the chaining value and the state
    of the hash. *)
Definition ses_upd (iv : bytes) (st : hstate) s : csession :=
  set_cs_cdata (set_cd_iv iv (cs_cdata s)) (set_cs_hdata (set_ahash_st st (cs_hdata s)) s).

(** Hashing [data]: the result and the new state. *)
Definition hash_step s (st : hstate) data : Z * hstate :=
  if has_hash s then
    let '(ret, ev, st) := ahash_update (ahash_name (cs_hdata s)) st data in (req_result ret ev, st)
  else (0, st).

(** Encrypting or decrypting [data]: the result, the output and the new
    chaining value. *)
Definition cipher_step (dec : bool) s (iv data : bytes) : Z * bytes * bytes :=
  if has_cipher s then
    let r := cipher_run dec (set_cd_iv iv (cs_cdata s)) data in
    (req_result (cr_ret r) (cr_events r), cr_out r, cr_iv r)
  else (0, [], iv).

(** One operation on [data]: the result, the bytes written to the destination,
    and the new state.  A session without cipher hashes what the destination
    holds, [ddata], when it is asked to decrypt. *)
Definition chunk (dec : bool) s (iv : bytes) (st : hstate) (data ddata : bytes)
    : Z * bytes * bytes * hstate :=
  if dec then
    let '(ret, out, iv) := cipher_step true s iv data in
    if negb (ret =? 0) then (ret, out, iv, st)
    else
      let '(ret, st) := hash_step s st (if has_cipher s then out else ddata) in (ret, out, iv, st)
  else
    let '(ret, st) := hash_step s st data in
    if negb (ret =? 0) then (ret, [], iv, st)
    else
      let '(ret, out, iv) := cipher_step false s iv data in (ret, out, iv, st).

(** ** Properties of the specification *)

Lemma ses_upd_id s : ses_upd (cd_iv (cs_cdata s)) (ahash_st (cs_hdata s)) s = s.
Proof. by destruct s as [? ? [] []]. Qed.

Lemma cipher_step_length dec s iv data ret out iv' :
  cipher_step dec s iv data = (ret, out, iv') ->
  length iv' = length iv /\ (if has_cipher s then length out = length data else out = []).
Proof.
  unfold cipher_step, cipher_run. destruct (has_cipher s); [|by intros [= <- <- <-]].
  destruct (ablkcipher_length dec (tfm_name (cs_cdata s)) (tfm_key (cs_cdata s)) iv data) as [Hl Hiv].
  by intros [= <- <- <-].
Qed.

(** The output is as long as the input, or there is none. *)
Lemma chunk_length dec s iv st data ddata ret out iv' st' :
  chunk dec s iv st data ddata = (ret, out, iv', st') ->
  length iv' = length iv /\
  (if has_cipher s then length out = length data \/ out = [] /\ ret <> 0 else out = []).
Proof.
  unfold chunk. destruct dec.
  - destruct (cipher_step _ _ _ _) as [[r1 o1] iv1] eqn:E1. apply cipher_step_length in E1 as [Hiv Ho].
    destruct (negb _); [|destruct (hash_step _ _ _)]; intros; simplify_eq; destruct (has_cipher s); auto.
  - destruct (hash_step _ _ _) as [r1 st1]. destruct (Z.eqb_spec r1 0); cbn [negb].
    + destruct (cipher_step _ _ _ _) as [[r2 o2] iv2] eqn:E2. apply cipher_step_length in E2 as [Hiv Ho].
      intros; simplify_eq. destruct (has_cipher s); auto.
    + intros; simplify_eq. split; [done|]. destruct (has_cipher s); auto.
Qed.

(** Only a session without cipher looks at the destination. *)
Lemma chunk_ddata dec s iv st data dd dd' :
  dec && negb (has_cipher s) = false -> chunk dec s iv st data dd = chunk dec s iv st data dd'.
Proof. unfold chunk. destruct dec, (has_cipher s); done. Qed.

(** ** Working in pieces *)

(** The cipher of a session has no authentication of its own. *)
Definition plain s : Prop := has_cipher s = true -> cd_aead (cs_cdata s) = 0.

(** Data of a permitted length for the cipher of a session. *)
Definition blocks s (n : Z) : Prop :=
  has_cipher s = true -> (cd_blocksize (cs_cdata s) | n).

Lemma has_cipher_init s : has_cipher s = true -> cd_init (cs_cdata s) <> 0.
Proof. unfold has_cipher. lia. Qed.
Lemma has_hash_init s : has_hash s = true -> hd_init (cs_hdata s) <> 0.
Proof. unfold has_hash. lia. Qed.

Lemma session_cipher s :
  cdata_ok (cs_cdata s) -> plain s -> has_cipher s = true ->
  exists a, ablkcipher (tfm_name (cs_cdata s)) = Some a /\ cd_blocksize (cs_cdata s) = alg_blocksize a.
Proof.
  intros Hok Ha Hc. destruct (cdata_alg _ Hok (has_cipher_init _ Hc)) as (a & Halg & Hb & _).
  rewrite (Ha Hc) in Halg. eauto.
Qed.

Lemma hash_step_app `{!HashLaws} s st d1 d2 st1 st2 :
  hash_step s st d1 = (0, st1) -> hash_step s st1 d2 = (0, st2) ->
  hash_step s st (d1 ++ d2) = (0, st2).
Proof.
  unfold hash_step. destruct (has_hash s); [|congruence].
  destruct (ahash_update _ st d1) as [[r1 ev1] s1] eqn:E1. intros [= Hr1 <-].
  destruct (ahash_update _ s1 d2) as [[r2 ev2] s2] eqn:E2. intros [= Hr2 <-].
  pose proof (ahash_update_completes _ _ _ _ _ _ E1).
  pose proof (ahash_update_completes _ _ _ _ _ _ E2).
  apply req_result_ok in Hr1; [|done]. apply req_result_ok in Hr2; [|done].
  destruct (ahash_chunks _ _ _ _ _ _ _ _ _ _ E1 Hr1 E2 Hr2) as (ret & ev & E & Hok). rewrite E.
  f_equal. apply req_result_ok; [by eapply ahash_update_completes|done].
Qed.

Lemma cipher_step_app `{!CipherLaws} dec s iv d1 d2 o1 o2 iv1 iv2 :
  cdata_ok (cs_cdata s) -> plain s -> blocks s (Z.of_nat (length d1)) ->
  cipher_step dec s iv d1 = (0, o1, iv1) -> cipher_step dec s iv1 d2 = (0, o2, iv2) ->
  cipher_step dec s iv (d1 ++ d2) = (0, o1 ++ o2, iv2).
Proof.
  intros Hok Ha Hb. unfold cipher_step, cipher_run. cbn [cd_iv set_cd_iv tfm_name tfm_key].
  destruct (has_cipher s) eqn:Hc; [|by intros [= <- <-] [= <- <-]].
  destruct (session_cipher _ Hok Ha Hc) as (alg & Halg & Hbs). specialize (Hb Hc). rewrite Hbs in Hb.
  intros [= Hr1 <- <-] [= Hr2 <- <-].
  apply req_result_ok in Hr1; [|apply ablkcipher_completes].
  apply req_result_ok in Hr2; [|apply ablkcipher_completes].
  destruct (ablkcipher_chunks dec _ _ _ _ _ _ Halg Hb Hr1 Hr2) as (Hr & Ho & Hiv). rewrite Ho, Hiv.
  do 2 f_equal. apply req_result_ok; [apply ablkcipher_completes|done].
Qed.

(** Two operations in a row are one operation on the concatenation. *)
Lemma chunk_app `{!CipherLaws, !HashLaws} dec s iv st d1 d2 o1 o2 iv1 st1 iv2 st2 :
  cdata_ok (cs_cdata s) -> plain s -> blocks s (Z.of_nat (length d1)) ->
  chunk dec s iv st d1 d1 = (0, o1, iv1, st1) -> chunk dec s iv1 st1 d2 d2 = (0, o2, iv2, st2) ->
  chunk dec s iv st (d1 ++ d2) (d1 ++ d2) = (0, o1 ++ o2, iv2, st2).
Proof.
  intros Hok Ha Hb. unfold chunk. destruct dec.
  - destruct (cipher_step true s iv d1) as [[r1 p1] j1] eqn:E1.
    destruct (Z.eqb_spec r1 0) as [->|]; cbn [negb]; [|by intros; simplify_eq].
    destruct (hash_step s st _) as [q1 t1] eqn:F1. intros [= -> -> -> ->].
    destruct (cipher_step true s iv1 d2) as [[r2 p2] j2] eqn:E2.
    destruct (Z.eqb_spec r2 0) as [->|]; cbn [negb]; [|by intros; simplify_eq].
    destruct (hash_step s st1 _) as [q2 t2] eqn:F2. intros [= -> -> -> ->].
    rewrite (cipher_step_app _ _ _ _ _ _ _ _ _ Hok Ha Hb E1 E2). cbn [negb Z.eqb].
    assert ((if has_cipher s then o1 ++ o2 else d1 ++ d2) =
            (if has_cipher s then o1 else d1) ++ (if has_cipher s then o2 else d2)) as ->
      by (by destruct (has_cipher s)).
    by rewrite (hash_step_app _ _ _ _ _ _ F1 F2).
  - destruct (hash_step s st d1) as [q1 t1] eqn:F1.
    destruct (Z.eqb_spec q1 0) as [->|]; cbn [negb]; [|by intros; simplify_eq].
    destruct (cipher_step false s iv d1) as [[r1 p1] j1] eqn:E1. intros [= -> -> -> ->].
    destruct (hash_step s st1 d2) as [q2 t2] eqn:F2.
    destruct (Z.eqb_spec q2 0) as [->|]; cbn [negb]; [|by intros; simplify_eq].
    destruct (cipher_step false s iv1 d2) as [[r2 p2] j2] eqn:E2. intros [= -> -> -> ->].
    rewrite (hash_step_app _ _ _ _ _ _ F1 F2). cbn [negb Z.eqb].
    by rewrite (cipher_step_app _ _ _ _ _ _ _ _ _ Hok Ha Hb E1 E2).
Qed.

(** Transforms that do not fail make the operation succeed. *)
Lemma chunk_succeeds `{!CryptoAPISucceeds} dec s iv st data ddata :
  cdata_ok (cs_cdata s) -> hdata_ok (cs_hdata s) -> plain s -> blocks s (Z.of_nat (length data)) ->
  exists out iv' st', chunk dec s iv st data ddata = (0, out, iv', st').
Proof.
  intros Hc Hh Ha Hb.
  assert (Hhs : forall st d, exists st', hash_step s st d = (0, st')).
  { intros st0 d. unfold hash_step. destruct (has_hash s) eqn:Hi; [|eauto].
    destruct (hdata_alg _ Hh (has_hash_init _ Hi)) as (a & Halg & _).
    destruct (ahash_update _ _ _) as [[ret ev] st'] eqn:E. eexists. f_equal.
    apply req_result_ok; [by eapply ahash_update_completes|by eapply ahash_update_ok]. }
  assert (Hcs : exists out iv', cipher_step dec s iv data = (0, out, iv')).
  { unfold cipher_step. destruct (has_cipher s) eqn:Hi; [|eauto].
    destruct (session_cipher _ Hc Ha Hi) as (a & Halg & Hbs). specialize (Hb Hi). rewrite Hbs in Hb.
    eexists _, _. do 2 f_equal. apply req_result_ok; [apply ablkcipher_completes|].
    by apply (ablkcipher_ok dec _ a). }
  destruct Hcs as (out & iv' & Hcs). unfold chunk. destruct dec.
  - rewrite Hcs. cbn [negb Z.eqb]. destruct (Hhs st (if has_cipher s then out else ddata)) as [st' ->]. eauto.
  - destruct (Hhs st data) as [st' ->]. cbn [negb Z.eqb]. rewrite Hcs. eauto.
Qed.
(** ** [hash_n_crypt] implements the specification *)

(** What the code needs of a session: its cipher and hash are live objects. *)
Record runnable e s (l : list (Z * kobj)) : Prop := {
  run_owns : owns e l;
  run_cipher : cdata_objs (cs_cdata s) ⊆ l;
  run_hash : hdata_objs (cs_hdata s) ⊆ l;
  run_plain : plain s
}.

Lemma runnable_upd e s l iv st : runnable e s l -> runnable e (ses_upd iv st s) l.
Proof. by intros []. Qed.
Lemma runnable_heap e e' s l : e_heap e' = e_heap e -> runnable e s l -> runnable e' s l.
Proof. intros Hh []. constructor; try done. unfold owns in *. by rewrite Hh. Qed.

Lemma set_mem_nil e l : set_mem (pokes l []) e = e.
Proof. destruct e. unfold set_mem. simpl. by destruct l. Qed.

(** A list that can hold [len] bytes and is live. *)
Record sg_room e (sg : list sg_entry) (len : Z) : Prop := {
  room_len : 0 <= len <= Z.of_nat (length (sg_addrs sg));
  room_live : sg_live e sg
}.

Lemma run_hash_spec e s sg len l (Q : Z -> env * csession -> Prop) :
  runnable e s l -> sg_room e sg len ->
  (let '(ret, st) := hash_step s (ahash_st (cs_hdata s)) (peeks (e_mem e) (sg_part sg 0 len)) in
   Q ret (e, ses_upd (cd_iv (cs_cdata s)) st s)) ->
  wp (if has_hash s then on_hdata (cryptodev_hash_update sg len) else mret 0) Q (e, s).
Proof.
  intros [] [Hl Hs] HQ. unfold hash_step in HQ. destruct (has_hash s) eqn:Hh.
  - apply on_hdata_spec. eapply hash_update_spec; eauto using has_hash_init.
    destruct (ahash_update _ _ _) as [[ret ev] st]. by destruct s as [? ? [] []].
  - kgo. by rewrite ses_upd_id in HQ.
Qed.

Lemma run_cipher_spec e s dec ssg dsg len l (Q : Z -> env * csession -> Prop) :
  runnable e s l -> sg_room e ssg len -> sg_room e dsg len ->
  (let '(ret, out, iv) := cipher_step dec s (cd_iv (cs_cdata s))
                            (peeks (e_mem e) (sg_part ssg 0 len)) in
   Q ret (set_mem (pokes (sg_part dsg 0 len) out) e, ses_upd iv (ahash_st (cs_hdata s)) s)) ->
  wp (if has_cipher s then on_cdata (cipher_request dec ssg dsg len) else mret 0) Q (e, s).
Proof.
  intros [] [Hl Hs] [Hd Hds] HQ. unfold cipher_step in HQ. destruct (has_cipher s) eqn:Hc.
  - apply on_cdata_spec. eapply cipher_request_spec; eauto using has_cipher_init; [lia|].
    by destruct s as [? ? [] []].
  - kgo. by rewrite ses_upd_id, set_mem_nil in HQ.
Qed.

Lemma return_spec (Q : Z -> env * csession -> Prop) ret st :
  Q ret st -> wp (if negb (ret =? 0) then mret ret else mret 0) Q st.
Proof. destruct (Z.eqb_spec ret 0) as [->|]; done. Qed.

Lemma hash_n_crypt_spec e s cop ssg dsg len l (Q : Z -> env * csession -> Prop) :
  runnable e s l -> NoDup (sg_addrs dsg) -> sg_room e ssg len -> sg_room e dsg len ->
  (let '(ret, out, iv, st) :=
     chunk (negb (co_op cop =? COP_ENCRYPT)) s (cd_iv (cs_cdata s)) (ahash_st (cs_hdata s))
       (peeks (e_mem e) (sg_part ssg 0 len)) (peeks (e_mem e) (sg_part dsg 0 len)) in
   Q ret (set_mem (pokes (sg_part dsg 0 len) out) e, ses_upd iv st s)) ->
  wp (hash_n_crypt cop ssg dsg len) Q (e, s).
Proof.
  intros Hr Hnd Hls Hld HQ. unfold hash_n_crypt, chunk in *. kgo.
  set (data := peeks _ (sg_part ssg 0 len)) in *. set (ddata := peeks _ (sg_part dsg 0 len)) in *.
  destruct (co_op cop =? COP_ENCRYPT); cbn [negb] in HQ; kstep.
  - eapply run_hash_spec; eauto. fold data. destruct (hash_step _ _ data) as [r1 st1].
    destruct (Z.eqb_spec r1 0); cbn [negb] in *; [|kgo; by rewrite set_mem_nil in HQ]. kstep.
    change (has_cipher s) with (has_cipher (ses_upd (cd_iv (cs_cdata s)) st1 s)).
    eapply run_cipher_spec; eauto using runnable_upd. fold data.
    change (cipher_step false (ses_upd ?i ?t s)) with (cipher_step false s). cbn [cd_iv cs_cdata ses_upd set_cs_cdata set_cd_iv].
    destruct (cipher_step _ _ _ _) as [[r2 out] iv]. by apply return_spec.
  - eapply run_cipher_spec; eauto. fold data.
    destruct (cipher_step _ _ _ _) as [[r1 out] iv] eqn:E1. apply cipher_step_length in E1 as [_ Hout].
    destruct (Z.eqb_spec r1 0); cbn [negb] in *; [|by kgo]. kstep.
    change (has_hash s) with (has_hash (ses_upd iv (ahash_st (cs_hdata s)) s)).
    assert (Hback : peeks (pokes (sg_part dsg 0 len) out (e_mem e)) (sg_part dsg 0 len) =
                    if has_cipher s then out else ddata).
    { destruct (has_cipher s); [|by rewrite Hout; destruct (sg_part dsg 0 len)].
      destruct Hls, Hld. apply peeks_pokes_eq.
      - eapply sublist_NoDup; [exact Hnd|]. etrans; [apply sublist_take|apply sublist_drop].
      - unfold data in Hout. by rewrite Hout, length_peeks, !length_sg_part by lia. }
    eapply run_hash_spec; [apply runnable_upd, (runnable_heap e); done|by destruct Hld|].
    cbn [e_mem set_mem]. rewrite Hback.
    change (hash_step (ses_upd ?i ?t s)) with (hash_step s). cbn [ahash_st cs_hdata ses_upd set_cs_cdata set_cs_hdata set_ahash_st].
    destruct (hash_step _ _ _) as [r2 st2]. by apply return_spec.
Qed.
(** ** The bounce buffer *)

(** The session after any number of operations. *)
Definition ran s s' : Prop :=
  exists iv st, length iv = length (cd_iv (cs_cdata s)) /\ s' = ses_upd iv st s.

Lemma ran_refl s : ran s s.
Proof. eexists _, _. split; [|symmetry; apply ses_upd_id]. done. Qed.
Lemma ran_trans s1 s2 s3 : ran s1 s2 -> ran s2 s3 -> ran s1 s3.
Proof. intros (iv & st & Hl & ->) (iv' & st' & Hl' & ->). exists iv', st'. split; [|done]. simpl in *. congruence. Qed.
Lemma ran_upd s iv st : length iv = length (cd_iv (cs_cdata s)) -> ran s (ses_upd iv st s).
Proof. intros. by exists iv, st. Qed.

Lemma ran_ses_ok s s' : ran s s' -> ses_ok s -> ses_ok s'.
Proof. intros (iv & st & Hl & ->) [[] [] [] ?]. constructor; [constructor|constructor|constructor|]; simpl; try done. congruence. Qed.

(** A page of the kernel that the code owns. *)
Record own_page e (data : Z) : Prop := {
  page_heap : is_Some (e_heap e !! data);
  page_kernel : TASK_SIZE <= data;
  page_aligned : data mod PAGE_SIZE = 0
}.

Lemma bounce_addrs (data len : Z) : TASK_SIZE <= data -> sg_addrs (sg_init_one data len) = seqZ data len.
Proof. intros. apply sg_entry_addrs_one. unfold TASK_SIZE, PAGE_SIZE in *. lia. Qed.

Lemma bounce_part (data len : Z) : TASK_SIZE <= data -> 0 <= len -> sg_part (sg_init_one data len) 0 len = seqZ data len.
Proof. intros ? ?. rewrite sg_part_all; rewrite bounce_addrs by done; [done|]. rewrite length_seqZ. lia. Qed.

Lemma bounce_room e (data len : Z) :
  own_page e data -> 0 <= len <= PAGE_SIZE -> sg_room e (sg_init_one data len) len.
Proof.
  intros [Hh Hk Hm] Hl. split.
  - rewrite bounce_addrs by done. rewrite length_seqZ. lia.
  - unfold sg_live. rewrite bounce_addrs by done. apply list.Forall_forall. intros a Ha%elem_of_seqZ.
    unfold page_live. apply orb_true_intro. right. apply bool_decide_eq_true.
    assert (page_of a * PAGE_SIZE = data) as ->; [|done].
    unfold page_of, PAGE_SIZE in *. Z.to_euclidean_division_equations. lia.
Qed.

(** [hash_n_crypt] on the bounce page. *)
Lemma bounce_spec e s cop (data len : Z) l (Q : Z -> env * csession -> Prop) :
  runnable e s l -> own_page e data -> 0 <= len <= PAGE_SIZE ->
  (let bs := peeks (e_mem e) (seqZ data len) in
   let '(ret, out, iv, st) :=
     chunk (negb (co_op cop =? COP_ENCRYPT)) s (cd_iv (cs_cdata s)) (ahash_st (cs_hdata s)) bs bs in
   Q ret (set_mem (pokes (seqZ data len) out) e, ses_upd iv st s)) ->
  wp (hash_n_crypt cop (sg_init_one data len) (sg_init_one data len) len) Q (e, s).
Proof.
  intros Hr Hp Hl HQ. pose proof (bounce_room _ _ _ Hp Hl) as Hroom. destruct Hp as [_ Hk _].
  eapply hash_n_crypt_spec; [done| |done..|].
  - rewrite bounce_addrs by done. apply NoDup_seqZ.
  - by rewrite bounce_part by lia.
Qed.

(** What the loop leaves unchanged, whatever the user's pointers are. *)
Record std_frame e s e' s' : Prop := {
  std_env : same_env e e';
  std_heap : e_heap e' = e_heap e;
  std_ok : env_ok e';
  std_ran : ran s s'
}.

Lemma std_frame_trans e1 s1 e2 s2 e3 s3 :
  std_frame e1 s1 e2 s2 -> std_frame e2 s2 e3 s3 -> std_frame e1 s1 e3 s3.
Proof. intros [] []. constructor; [by etrans|congruence|done|by eapply ran_trans]. Qed.

Lemma std_frame_mem e s f iv st :
  env_ok e -> (forall m, m_pages (f m) = m_pages m) -> length iv = length (cd_iv (cs_cdata s)) ->
  std_frame e s (set_mem f e) (ses_upd iv st s).
Proof. intros. constructor; [by apply same_env_mem|done|by apply env_ok_mem|by apply ran_upd]. Qed.

Lemma std_frame_mem_id e s f :
  env_ok e -> (forall m, m_pages (f m) = m_pages m) -> std_frame e s (set_mem f e) s.
Proof. intros. rewrite <- (ses_upd_id s) at 2. by apply std_frame_mem. Qed.

Lemma own_page_frame e s e' s' (data : Z) : std_frame e s e' s' -> own_page e data -> own_page e' data.
Proof. intros [_ Hh _ _] []. constructor; [by rewrite Hh|done..]. Qed.

Lemma run_std_safe fuel cop (data bufsize n src dst : Z) e s l :
  env_ok e -> runnable e s l -> own_page e data -> e_user e = true ->
  0 < bufsize <= PAGE_SIZE -> n <= Z.of_nat fuel * bufsize ->
  wp (run_std_loop (S fuel) cop data bufsize n src dst)
    (fun ret '(e', s') => std_frame e s e' s') (e, s).
Proof.
  revert n src dst e s. induction fuel as [|fuel IH]; intros n src dst e s He Hr Hp Hu Hb Hn.
  { cbn [run_std_loop]. replace (n <=? 0) with true by lia. kgo. constructor; auto with kernel. apply ran_refl. }
  remember (S fuel) as f eqn:Hf. cbn [run_std_loop].
  destruct (Z.leb_spec n 0); [kgo; constructor; auto using ran_refl with kernel|].
  set (cur := if bufsize <? n then bufsize else n).
  assert (Hcur : 0 < cur <= bufsize /\ cur <= n /\ (cur = bufsize \/ cur = n)) by (unfold cur; case_match; lia).
  kgo. apply copy_from_user_spec; [done|lia|]. intros bs nleft Hbl _ _ _. kgo.
  assert (F1 : std_frame e s (set_mem (pokes (seqZ data cur) bs) e) s)
    by (apply std_frame_mem_id; [done|intros; apply pokes_pages]).
  destruct (negb (nleft =? 0)); [by kgo|]. kgo.
  eapply bounce_spec; [by eapply (runnable_heap e)|by eapply own_page_frame|lia|].
  cbv zeta. destruct (chunk _ _ _ _ _ _) as [[[ret out] iv] st] eqn:E. apply chunk_length in E as [Hiv _].
  assert (F2 : std_frame e s (set_mem (pokes (seqZ data cur) out) (set_mem (pokes (seqZ data cur) bs) e)) (ses_upd iv st s)).
  { eapply std_frame_trans; [exact F1|]. apply std_frame_mem; [by destruct F1|intros; apply pokes_pages|done]. }
  destruct (negb (ret =? 0)); [by kgo|]. kgo.
  assert (Hloop : forall e3, std_frame e s e3 (ses_upd iv st s) ->
    wp (run_std_loop f cop data bufsize (n - cur) (src + cur) (dst + cur))
      (fun _ '(e', s') => std_frame e s e' s') (e3, ses_upd iv st s)).
  { intros e3 F3. subst f. eapply wp_mono; [apply IH|].
    - by destruct F3.
    - apply runnable_upd, (runnable_heap e); [by destruct F3|done].
    - by eapply own_page_frame.
    - destruct F3 as [[] _ _ _]. congruence.
    - lia.
    - nia.
    - intros ret' [e4 s4] F4. by eapply std_frame_trans. }
  destruct (has_cipher _); kgo; [|by apply Hloop].
  apply copy_to_user_spec; [done|]. intros k nl Hk _ _ _ Hwr.
  set (e3 := set_mem (pokes k _) _).
  assert (F3 : std_frame e s e3 (ses_upd iv st s)).
  { eapply std_frame_trans; [exact F2|]. apply std_frame_mem_id; [by destruct F2|intros; apply pokes_pages]. }
  destruct (negb (nl =? 0)); kgo; [done|]. by apply Hloop.
Qed.
(** ** The bounce-buffer path is exact *)

Section Exact.
Context `{!CipherLaws, !HashLaws, !CryptoAPISucceeds}.

(** What the user provides: mapped buffers that are the same or apart. *)
Record user_bufs (m : mem) s (src dst n : Z) : Prop := {
  ub_src : range_readable m src n;
  ub_dst : has_cipher s = true -> range_writable m dst n;
  ub_apart : src = dst \/ src + n <= dst \/ dst + n <= src
}.

Lemma user_bufs_rest m m' s iv st src dst k n :
  0 <= k <= n -> m_pages m' = m_pages m -> user_bufs m s src dst n ->
  user_bufs m' (ses_upd iv st s) (src + k) (dst + k) (n - k).
Proof.
  intros Hk Hp [Hs Hd Ha]. constructor.
  - eapply range_readable_pages; [done|]. by eapply range_readable_split.
  - intros Hc. eapply range_writable_pages; [done|]. eapply range_writable_split; [done|by apply Hd].
  - lia.
Qed.

(** One round of the loop. *)
Lemma run_std_round f cop (data bufsize n src dst : Z) e s l (Q : Z -> env * csession -> Prop) :
  let cur := Z.min bufsize n in
  let d := peeks (e_mem e) (seqZ src cur) in
  env_ok e -> runnable e s l -> own_page e data -> e_user e = true ->
  0 < bufsize <= PAGE_SIZE -> 0 < n -> cdata_ok (cs_cdata s) -> hdata_ok (cs_hdata s) ->
  blocks s cur -> user_bufs (e_mem e) s src dst n ->
  (forall e3 out iv st,
     chunk (negb (co_op cop =? COP_ENCRYPT)) s (cd_iv (cs_cdata s)) (ahash_st (cs_hdata s)) d d =
       (0, out, iv, st) ->
     std_frame e s e3 (ses_upd iv st s) ->
     user_eq (e_mem e3) (pokes (seqZ dst cur) out (e_mem e)) ->
     wp (run_std_loop f cop data bufsize (n - cur) (src + cur) (dst + cur)) Q
       (e3, ses_upd iv st s)) ->
  wp (run_std_loop (S f) cop data bufsize n src dst) Q (e, s).
Proof.
  intros cur d He Hr Hp Hu Hb Hn Hc Hh Hbl [Hsrc Hdst _] HQ. cbn [run_std_loop].
  replace (n <=? 0) with false by lia.
  replace (if bufsize <? n then bufsize else n) with cur by (unfold cur; case_match; lia).
  assert (Hcur : 0 < cur <= bufsize /\ cur <= n) by (unfold cur; lia).
  destruct (range_readable_split _ _ cur n ltac:(lia) Hsrc) as [Hs1 _].
  kgo. apply copy_from_user_spec; [done|lia|]. intros bs nleft Hbs _ Hd0 Hn0.
  rewrite (Hn0 Hs1) in *. rewrite (Hd0 eq_refl) in *. fold d in Hbs |- *. clear Hd0 Hn0. kgo.
  assert (F1 : std_frame e s (set_mem (pokes (seqZ data cur) d) e) s)
    by (apply std_frame_mem_id; [done|intros; apply pokes_pages]).
  pose proof (page_kernel _ _ Hp) as Hk.
  eapply bounce_spec; [by eapply (runnable_heap e)|by eapply own_page_frame|lia|].
  cbv zeta. cbn [e_mem set_mem]. rewrite peeks_pokes_eq by (rewrite ?length_seqZ; auto using NoDup_seqZ).
  assert (Hdl : blocks s (Z.of_nat (length d))) by (rewrite Hbs, Z2Nat.id by lia; done).
  destruct (chunk_succeeds (negb (co_op cop =? COP_ENCRYPT)) s (cd_iv (cs_cdata s))
    (ahash_st (cs_hdata s)) d d Hc Hh (run_plain _ _ _ Hr) Hdl) as (out & iv & st & E).
  rewrite E. specialize (fun e3 => HQ e3 _ _ _ E). apply chunk_length in E as [Hiv Hout]. kgo.
  set (e2 := set_mem _ (set_mem _ e)) in *.
  assert (F2 : std_frame e s e2 (ses_upd iv st s)).
  { eapply std_frame_trans; [exact F1|]. apply std_frame_mem; [by destruct F1|intros; apply pokes_pages|done]. }
  assert (U2 : user_eq (e_mem e2) (e_mem e)) by (unfold e2; simpl; etrans; by apply user_eq_kernel).
  change (has_cipher (ses_upd iv st s)) with (has_cipher s). destruct (has_cipher s) eqn:Hci; kgo.
  - destruct Hout as [Hout|[_ []]]; [|done].
    assert (peeks (e_mem e2) (seqZ data cur) = out) as ->.
    { apply peeks_pokes_eq; [apply NoDup_seqZ|]. rewrite length_seqZ, Hout, Hbs. done. }
    assert (Hol : Z.of_nat (length out) = cur) by lia.
    destruct (range_writable_split _ _ cur n ltac:(lia) (Hdst eq_refl)) as [Hd1 _].
    apply copy_to_user_spec; [by destruct F2 as [[] _ _ _]; simpl in *; congruence|].
    rewrite Hol. intros k nl _ _ Hk0 Hnl _.
    rewrite (Hnl (range_writable_pages _ _ _ _ (se_pages _ _ (std_env _ _ _ _ F2)) Hd1)) in *.
    rewrite (Hk0 eq_refl). kgo. apply HQ.
    + eapply std_frame_trans; [exact F2|]. apply std_frame_mem_id; [by destruct F2|intros; apply pokes_pages].
    + simpl. by apply pokes_user_eq.
  - subst out. apply HQ; [done|]. etrans; [exact U2|]. by destruct (seqZ dst cur).
Qed.

Lemma run_std_exact fuel cop (data bufsize n src dst : Z) e s l :
  let D := peeks (e_mem e) (seqZ src n) in
  env_ok e -> runnable e s l -> own_page e data -> e_user e = true ->
  0 < bufsize <= PAGE_SIZE -> 0 < n <= Z.of_nat fuel * bufsize ->
  cdata_ok (cs_cdata s) -> hdata_ok (cs_hdata s) ->
  blocks s n -> (bufsize < n -> blocks s bufsize) -> user_bufs (e_mem e) s src dst n ->
  wp (run_std_loop (S fuel) cop data bufsize n src dst)
    (fun ret '(e', s') => ret = 0 /\ std_frame e s e' s' /\
       exists out iv st,
         chunk (negb (co_op cop =? COP_ENCRYPT)) s (cd_iv (cs_cdata s)) (ahash_st (cs_hdata s)) D D =
           (0, out, iv, st) /\
         s' = ses_upd iv st s /\ user_eq (e_mem e') (pokes (seqZ dst n) out (e_mem e))) (e, s).
Proof.
  revert n src dst e s. induction fuel as [|fuel IH]; intros n src dst e s D He Hr Hp Hu Hb Hn Hc Hh Hbn Hbb Hub;
    [lia|].
  set (cur := Z.min bufsize n).
  assert (Hbc : blocks s cur) by (unfold cur; destruct (Z.min_spec bufsize n) as [[? ->]|[? ->]]; auto).
  eapply run_std_round with (l := l); try done; [lia|]. fold cur. intros e3 out iv st E F U.
  destruct (decide (n <= bufsize)) as [Hle|Hgt].
  - assert (cur = n) as Hcn by (unfold cur; lia). rewrite Hcn in *. cbn [run_std_loop].
    replace (n - n <=? 0) with true by lia. kgo. split_and!; [done|done|]. eauto 10.
  - assert (cur = bufsize) as Hcb by (unfold cur; lia). rewrite Hcb in *.
    assert (Hpg : m_pages (e_mem e3) = m_pages (e_mem e)) by (by destruct F as [[] _ _ _]).
    destruct (range_readable_bounds _ _ _ (ub_src _ _ _ _ _ Hub)) as [Hs0 Hst].
    assert (Hbn' : blocks s (n - bufsize)).
    { intros Hi. apply Z.divide_sub_r; [by apply Hbn|by apply Hbb; [lia|]]. }
    assert (Hout : has_cipher s = true /\ length out = Z.to_nat bufsize \/
                   has_cipher s = false /\ out = []).
    { apply chunk_length in E as [_ Ho]. rewrite length_peeks, length_seqZ in Ho.
      destruct (has_cipher s); [|by right]. destruct Ho as [->|[_ []]]; [|done]. by left. }
    assert (Hc3 : cdata_ok (cs_cdata (ses_upd iv st s))).
    { apply chunk_length in E as [Hiv _]. destruct Hc. constructor; simpl; try done. congruence. }
    eapply wp_mono; [apply IH|].
    + by destruct F.
    + apply runnable_upd, (runnable_heap e); [by destruct F|done].
    + by eapply own_page_frame.
    + destruct F as [[] _ _ _]. congruence.
    + done.
    + nia.
    + done.
    + by destruct Hh.
    + done.
    + intros ?. exact (Hbb ltac:(lia)).
    + by apply (user_bufs_rest (e_mem e)); [lia|..].
    + intros ret [e4 s4] (-> & F4 & out2 & iv2 & st2 & E2 & -> & U4).
      split_and!; [done|by eapply std_frame_trans|]. exists (out ++ out2), iv2, st2.
      assert (HD : D = peeks (e_mem e) (seqZ src bufsize) ++ peeks (e_mem e3) (seqZ (src + bufsize) (n - bufsize))).
      { unfold D. rewrite (seqZ_split src bufsize n), peeks_app by lia. f_equal.
        rewrite (peeks_user_eq (e_mem e3) (pokes (seqZ dst bufsize) out (e_mem e))) by (lia || done). symmetry. apply peeks_pokes_disj, seqZ_disjoint.
        destruct Hub as [_ _ Hap]. lia. }
      split_and!; [|done|].
      * rewrite HD. change (chunk ?d s) with (chunk d s). eapply chunk_app; [done|by destruct Hr| |exact E|exact E2].
        rewrite length_peeks, length_seqZ. intros Hi. rewrite Z2Nat.id by lia. by apply Hbb; [lia|].
      * etrans; [exact U4|]. etrans; [apply pokes_user_eq, U|].
        rewrite (seqZ_split dst bufsize n) by lia.
        destruct Hout as [[_ Hol]|[Hnc ->]].
        -- rewrite pokes_app by (rewrite length_seqZ; lia). done.
        -- apply chunk_length in E2 as [_ Ho2]. change (has_cipher (ses_upd iv st s)) with (has_cipher s) in Ho2.
           rewrite Hnc in Ho2. subst out2. simpl.
           destruct (seqZ dst bufsize), (seqZ (dst + bufsize) (n - bufsize)); done.
Qed.
(** ** Both paths *)

(** The session after an operation: new chaining value and hash state, and
    perhaps larger arrays. *)
Record after_op s s' (iv : bytes) (st : hstate) : Prop := {
  ao_cdata : cs_cdata s' = set_cd_iv iv (cs_cdata s);
  ao_hdata : cs_hdata s' = set_ahash_st st (cs_hdata s);
  ao_iv : length iv = length (cd_iv (cs_cdata s));
  ao_addr : cs_addr s' = cs_addr s;
  ao_locked : cs_locked s' = cs_locked s;
  ao_sid : cs_sid s' = cs_sid s;
  ao_arrays : arrays_ok s'
}.

(** The result of running a request on a session: out of memory and nothing
    done, or the output of the specification in the user's buffer; in both
    cases no page is still pinned and the session owns what it owned. *)
Inductive data_result e s R (cop : crypt_op) : Z -> env -> csession -> Prop :=
  | data_ok e' s' out iv st :
      let D := peeks (e_mem e) (seqZ (co_src cop) (co_len cop)) in
      chunk (negb (co_op cop =? COP_ENCRYPT)) s (cd_iv (cs_cdata s)) (ahash_st (cs_hdata s)) D D =
        (0, out, iv, st) ->
      after_op s s' iv st ->
      user_eq (e_mem e') (pokes (seqZ (co_dst cop) (co_len cop)) out (e_mem e)) ->
      same_env e e' -> env_ok e' -> owns e' (ses_objs s' ++ R) ->
      data_result e s R cop 0 e' s'
  | data_nomem e' s' :
      e_allocs e <> [] -> same_session s s' -> arrays_ok s' ->
      same_world e e' -> env_ok e' -> owns e' (ses_objs s' ++ R) ->
      data_result e s R cop (- ENOMEM) e' s'.

(** A session ready to be used: as between calls, but locked. *)
Record ready e s R : Prop := {
  rd_env : env_ok e;
  rd_owns : owns e (ses_objs s ++ R);
  rd_cdata : cdata_ok (cs_cdata s);
  rd_hdata : hdata_ok (cs_hdata s);
  rd_arrays : arrays_ok s;
  rd_plain : plain s
}.

Lemma ready_runnable e s R K e' :
  ready e s R -> owns e' (K ++ ses_objs s ++ R) -> runnable e' s (K ++ ses_objs s ++ R).
Proof.
  intros [] Ho. constructor; [done| | |done]; unfold ses_objs; intros x Hx; rewrite !elem_of_app; tauto.
Qed.

Lemma blocks_page s : cdata_ok (cs_cdata s) -> plain s -> blocks s PAGE_SIZE.
Proof.
  intros Hok Ha Hc. destruct (session_cipher _ Hok Ha Hc) as (a & Halg & ->).
  by apply (ablkcipher_sizes _ _ Halg).
Qed.

Lemma after_upd s iv st :
  arrays_ok s -> length iv = length (cd_iv (cs_cdata s)) -> after_op s (ses_upd iv st s) iv st.
Proof. intros [] ?. by constructor. Qed.

(** The bounce-buffer path. *)
Lemma run_std_spec e s R cop (Q : Z -> env * csession -> Prop) :
  ready e s R -> e_user e = true -> 0 < co_len cop -> blocks s (co_len cop) ->
  user_bufs (e_mem e) s (co_src cop) (co_dst cop) (co_len cop) ->
  (forall ret e1 s1, data_result e s R cop ret e1 s1 -> Q ret (e1, s1)) ->
  wp (__crypto_run_std cop) Q (e, s).
Proof.
  intros Hrd Hu Hn Hb Hub HQ. destruct (Hrd) as [He Ho Hc Hh Ha Hp].
  unfold __crypto_run_std. kgo. kalloc_with data e1 Hw1 He1 Ho1; [kgo; by apply HQ, data_nomem|]. kgo.
  set (bufsize := if PAGE_SIZE <? co_len cop then PAGE_SIZE else co_len cop).
  assert (Hbuf : bufsize = Z.min PAGE_SIZE (co_len cop)) by (unfold bufsize; case_match; lia).
  pose proof (sw_mem _ _ Hw1) as Hm.
  replace (Z.to_nat (co_len cop / PAGE_SIZE) + 2)%nat with (S (Z.to_nat (co_len cop / PAGE_SIZE) + 1)) by lia.
  eapply wp_mono.
  - eapply run_std_exact with (l := [(data, OFreePage)] ++ ses_objs s ++ R); try done.
    + by apply (ready_runnable e).
    + constructor; [|done..]. destruct Ho1 as [_ ->]. simpl. by rewrite lookup_insert_eq.
    + by rewrite (sw_user _ _ Hw1).
    + unfold PAGE_SIZE in *. lia.
    + split; [done|]. rewrite Hbuf. unfold PAGE_SIZE. Z.to_euclidean_division_equations. nia.
    + intros ?. replace bufsize with PAGE_SIZE by lia. by apply blocks_page.
    + by rewrite Hm.
  - intros ret [e2 s2] (-> & [Hse Hheap He2 Hran] & out & iv & st & E & -> & U). rewrite Hm in E, U. kgo.
    assert (Ho2 : owns e2 ((data, OFreePage) :: ses_objs s ++ R)) by (unfold owns in *; by rewrite Hheap).
    kfree_one. kgo. apply HQ, data_ok with out iv st; try done.
    + apply after_upd; [done|]. by apply chunk_length in E as [? _].
    + rewrite (sw_mem e2 e'); [|done]. done.
    + etrans; [by apply same_world_env|]. etrans; [exact Hse|]. by apply same_world_env.
Qed.
Lemma chunk_session dec s s' :
  cs_cdata s' = cs_cdata s -> cs_hdata s' = cs_hdata s -> chunk dec s' = chunk dec s.
Proof.
  intros Hc Hh. unfold chunk, cipher_step, hash_step, has_cipher, has_hash. by rewrite Hc, Hh.
Qed.

Lemma after_op_same s s1 s2 iv st :
  same_session s s1 -> after_op s1 s2 iv st -> after_op s s2 iv st.
Proof. intros [? ? Hc Hh ? ?] [? ? ? ? ? ? ?]. constructor; congruence. Qed.

Lemma ses_objs_split s R :
  ses_objs s ++ R ≡ₚ
  array_objs s ++ (cdata_objs (cs_cdata s) ++ hdata_objs (cs_hdata s) ++ [(cs_addr s, OSession)]) ++ R.
Proof. unfold ses_objs. perm_solve. Qed.

Lemma owns_same_session e s s1 R :
  same_session s s1 ->
  owns e (array_objs s1 ++ (cdata_objs (cs_cdata s) ++ hdata_objs (cs_hdata s) ++ [(cs_addr s, OSession)]) ++ R) ->
  owns e (ses_objs s1 ++ R).
Proof. intros [Ha _ Hc Hh _ _] Ho. rewrite ses_objs_split, Ha, Hc, Hh. done. Qed.

Lemma data_result_from e s R cop e1 s1 ret e2 s2 :
  same_world e e1 -> same_session s s1 ->
  data_result e1 s1 R cop ret e2 s2 -> data_result e s R cop ret e2 s2.
Proof.
  intros Hw Hs Hd. destruct Hd as [e2 s2 out iv st D E Haf U Hse He Ho|e2 s2 Hal Hs2 Ha Hw2 He Ho].
  - destruct (Hs) as [? ? Hc Hh ? ?]. unfold D in E. rewrite (chunk_session _ _ _ Hc Hh), Hc, Hh in E.
    rewrite (sw_mem _ _ Hw) in E, U. apply data_ok with out iv st; try done; [by eapply after_op_same|].
    etrans; [by apply same_world_env|done].
  - apply data_nomem; try done; [|by etrans|by etrans].
    intros Hn. by apply Hal, (sw_allocs _ _ Hw).
Qed.

(** What zero copy needs on top: real pointers. *)
Record zc_bufs (m : mem) s cop : Prop := {
  zb_bufs : user_bufs m s (co_src cop) (co_dst cop) (co_len cop);
  zb_dst : range_writable m (co_dst cop) (co_len cop);
  zb_nonnull : co_src cop <> 0 /\ co_dst cop <> 0;
  zb_len : 0 < co_len cop < 2 ^ 32;
  zb_sane : negb (co_op cop =? COP_ENCRYPT) && negb (has_cipher s) = false \/ co_src cop = co_dst cop
}.

(** The part of the zero-copy path after the pages were pinned. *)
Lemma run_zc_pinned e s R cop e1 s1 ssg dsg pg (Q : Z -> env * csession -> Prop) :
  ready e s R -> blocks s (co_len cop) -> zc_bufs (e_mem e) s cop ->
  pinned_bufs e s (co_src cop) (co_len cop) (co_dst cop) (co_len cop)
    ((cdata_objs (cs_cdata s) ++ hdata_objs (cs_hdata s) ++ [(cs_addr s, OSession)]) ++ R)
    e1 s1 ssg dsg pg ->
  (forall ret e2 s2, data_result e s R cop ret e2 s2 -> Q ret (e2, s2)) ->
  wp (ret ← hash_n_crypt cop ssg dsg (co_len cop); release_user_pages;; mret ret) Q (e1, s1).
Proof.
  intros Hrd Hb [Hub Hdst Hnn Hlen Hsane] [Hh He1 Ho1 Ha1 Hs1 Hsrc Hdsta Hsl Hdl Hpg Hused] HQ.
  destruct (Hrd) as [He Ho Hc Hhd Ha Hp]. pose proof (sw_mem _ _ (held_world _ _ _ Hh)) as Hm. simpl in Hm.
  destruct (Hs1) as [? ? Hcd Hhd1 ? ?].
  assert (Hpart : forall sg a, sg_addrs sg = seqZ a (co_len cop) -> sg_part sg 0 (co_len cop) = seqZ a (co_len cop)).
  { intros sg a Hsg. rewrite sg_part_all; rewrite Hsg; [done|]. rewrite length_seqZ. lia. }
  assert (Hroom : forall sg a, sg_addrs sg = seqZ a (co_len cop) -> sg_live e1 sg -> sg_room e1 sg (co_len cop)).
  { intros sg a Hsg Hl. split; [rewrite Hsg, length_seqZ; lia|done]. }
  pose proof (owns_same_session _ _ _ _ Hs1 Ho1) as Ho1'. kgo.
  eapply hash_n_crypt_spec with (l := ses_objs s1 ++ R); [| |by eapply Hroom|by eapply Hroom|].
  { constructor; [done| | |]; [unfold ses_objs; intros x Hx; rewrite !elem_of_app; tauto..|].
    unfold plain, has_cipher in *. by rewrite Hcd. }
  { rewrite Hdsta. apply NoDup_seqZ. }
  rewrite (Hpart _ _ Hsrc), (Hpart _ _ Hdsta), Hm, (chunk_session _ _ _ Hcd Hhd1), Hcd, Hhd1.
  set (D := peeks (e_mem e) (seqZ (co_src cop) (co_len cop))).
  assert (Hdd : chunk (negb (co_op cop =? COP_ENCRYPT)) s (cd_iv (cs_cdata s)) (ahash_st (cs_hdata s)) D
      (peeks (e_mem e) (seqZ (co_dst cop) (co_len cop))) =
    chunk (negb (co_op cop =? COP_ENCRYPT)) s (cd_iv (cs_cdata s)) (ahash_st (cs_hdata s)) D D).
  { destruct Hsane as [Hs|Heq]; [by apply chunk_ddata|]. unfold D. by rewrite Heq. }
  rewrite Hdd.
  assert (HbD : blocks s (Z.of_nat (length D))).
  { unfold D. rewrite length_peeks, length_seqZ, Z2Nat.id by lia. done. }
  destruct (chunk_succeeds (negb (co_op cop =? COP_ENCRYPT)) s (cd_iv (cs_cdata s))
    (ahash_st (cs_hdata s)) D D Hc Hhd Hp HbD) as (out & iv & st & E).
  rewrite E. kgo. eapply (release_held e e1 s1); [done..|].
  intros r e2 Hw2 He2 Hheap. kgo. apply HQ, data_ok with out iv st; try done.
  - apply chunk_length in E as [Hiv _]. destruct Hs1, Ha1. constructor; simpl; try congruence. by constructor.
  - by rewrite (sw_mem _ _ Hw2).
  - etrans; [by apply (same_env_mem e (pokes (seqZ (co_dst cop) (co_len cop)) out)); intros; apply pokes_pages|].
    by apply same_world_env.
  - unfold owns in *. rewrite Hheap. done.
Qed.
Lemma run_zc_spec e s R cop (Q : Z -> env * csession -> Prop) :
  ready e s R -> e_user e = true \/ e_allocs e = [] -> blocks s (co_len cop) -> zc_bufs (e_mem e) s cop ->
  (forall ret e1 s1, data_result e s R cop ret e1 s1 -> Q ret (e1, s1)) ->
  wp (__crypto_run_zc cop) Q (e, s).
Proof.
  intros Hrd Hu Hb Hz HQ. destruct (Hrd) as [He Ho Hc Hh Ha Hp].
  destruct (Hz) as [Hub Hdst [Hs0 Hd0] Hlen _].
  rewrite ses_objs_split in Ho. unfold __crypto_run_zc. kgo.
  assert (Hno : forall e1 s1, no_room e s ((cdata_objs (cs_cdata s) ++ hdata_objs (cs_hdata s) ++
      [(cs_addr s, OSession)]) ++ R) e1 s1 -> wp (__crypto_run_std cop) Q (e1, s1)).
  { intros e1 s1 [Hw1 He1 Ho1 Ha1 Hs1 Hal]. destruct Hu as [Hu|]; [|done]. pose proof (owns_same_session _ _ _ _ Hs1 Ho1) as Ho1'.
    pose proof (sw_mem _ _ Hw1) as Hm. destruct (Hs1) as [? ? Hcd Hhd ? ?].
    assert (Hhc : has_cipher s1 = has_cipher s) by (unfold has_cipher; by rewrite Hcd).
    eapply run_std_spec; [|by rewrite (sw_user _ _ Hw1)|lia|..].
    - constructor; rewrite ?Hcd, ?Hhd; try done. unfold plain. by rewrite Hhc, Hcd.
    - unfold blocks. by rewrite Hhc, Hcd.
    - rewrite Hm. destruct Hub. constructor; rewrite ?Hhc; done.
    - intros ret e2 s2 Hd. apply HQ. by eapply data_result_from. }
  destruct (decide (co_src cop = co_dst cop)) as [Heq|Hne].
  - rewrite Heq. eapply get_userbuf_inplace; try done.
    intros e1 s1 l pg Hpb. kred. eapply run_zc_pinned; try done. by rewrite Heq.
  - eapply get_userbuf_two; try done.
    + by destruct Hub.
    + intros e1 s1 ssg dsg pg Hpb. kred. by eapply run_zc_pinned.
Qed.

(** ** [crypto_run] *)

(** The state an operation starts from: the hash is reset, and the IV of the
    request is copied over the session's. *)
Definition start_st s (cop : crypt_op) : hstate :=
  if has_hash s && ((co_flags cop =? 0) || has_flag (co_flags cop) COP_FLAG_RESET)
  then (ahash_init (ahash_name (cs_hdata s)) (ahash_key (cs_hdata s))).2
  else ahash_st (cs_hdata s).
Definition iv_bytes s kcop : Z := Z.min (Z.min (cd_ivsize (cs_cdata s)) (kc_ivlen kcop)) EALG_MAX_BLOCK_LEN.
Definition start_iv s kcop : bytes :=
  if has_cipher s then memcpy (cd_iv (cs_cdata s)) (kc_iv kcop) (iv_bytes s kcop)
  else cd_iv (cs_cdata s).

(** The request is complete, and the digest is due. *)
Definition finishes s (cop : crypt_op) : bool :=
  has_hash s && (has_flag (co_flags cop) COP_FLAG_FINAL ||
                 (negb (has_flag (co_flags cop) COP_FLAG_UPDATE) || (co_len cop =? 0))).

(** The request afterwards: the new IV, and the digest when it is due. *)
Definition finish_kcop s kcop (iv : bytes) (st : hstate) : kernel_crypt_op :=
  let kcop := if has_cipher s then set_kc_iv (memcpy (kc_iv kcop) iv (iv_bytes s kcop)) kcop else kcop in
  if finishes s (kc_cop kcop) then
    set_kc_digest (hd_digestsize (cs_hdata s)) (ahash_final (ahash_name (cs_hdata s)) st).2 kcop
  else kcop.

(** The buffers of an operation, as its path needs them. *)
Definition op_bufs (m : mem) s (cop : crypt_op) : Prop :=
  0 < co_len cop /\
  if has_flag (co_flags cop) COP_FLAG_NO_ZC
  then user_bufs m s (co_src cop) (co_dst cop) (co_len cop) else zc_bufs m s cop.

(** A request of the calling process, or one that a kernel thread can serve:
    only zero copy works there, since the thread has no user memory. *)
Definition copies e (cop : crypt_op) : Prop :=
  e_user e = true \/ e_allocs e = [] /\ has_flag (co_flags cop) COP_FLAG_NO_ZC = false.

(** The result of [crypto_run] on a session. *)
Inductive run_result e s R kcop : Z -> kernel_crypt_op -> env -> csession -> Prop :=
  | run_ok e' s' out iv st :
      let cop := kc_cop kcop in
      let D := peeks (e_mem e) (seqZ (co_src cop) (co_len cop)) in
      chunk (negb (co_op cop =? COP_ENCRYPT)) s (start_iv s kcop) (start_st s cop) D D =
        (0, out, iv, st) ->
      after_op s s' iv st ->
      user_eq (e_mem e') (pokes (seqZ (co_dst cop) (co_len cop)) out (e_mem e)) ->
      same_env e e' -> env_ok e' -> owns e' (ses_objs s' ++ R) ->
      run_result e s R kcop 0 (finish_kcop s kcop iv st) e' s'
  | run_nomem e' s' iv st :
      e_allocs e <> [] -> after_op s s' iv st ->
      same_world e e' -> env_ok e' -> owns e' (ses_objs s' ++ R) ->
      run_result e s R kcop (- ENOMEM) kcop e' s'.
Lemma ready_upd e s R iv st :
  ready e s R -> length iv = length (cd_iv (cs_cdata s)) -> ready e (ses_upd iv st s) R.
Proof.
  intros [? ? [] [] [] ?] Hl. constructor; try done; constructor; simpl; try done. congruence.
Qed.

Lemma length_start_iv s kcop :
  length (cd_iv (cs_cdata s)) = 16%nat -> length (kc_iv kcop) = 16%nat ->
  length (start_iv s kcop) = 16%nat.
Proof.
  intros Hc Hk. unfold start_iv, memcpy. destruct (has_cipher s); [|done].
  assert (iv_bytes s kcop <= 16) by (unfold iv_bytes, EALG_MAX_BLOCK_LEN; lia).
  rewrite length_app, length_take, length_drop. lia.
Qed.

Lemma run_reset_spec e s R cop ret (Q : Z -> env * csession -> Prop) :
  ready e s R ->
  (forall r, (has_hash s && ((co_flags cop =? 0) || has_flag (co_flags cop) COP_FLAG_RESET) = true -> r = 0) ->
     Q r (e, ses_upd (cd_iv (cs_cdata s)) (start_st s cop) s)) ->
  wp (run_reset cop ret) Q (e, s).
Proof.
  intros [He Ho Hc Hh Ha Hp] HQ. unfold run_reset, start_st in *. kgo.
  destruct (has_hash s) eqn:Hi; cbn [andb] in *; [|kgo; rewrite ses_upd_id in HQ; by apply HQ].
  destruct (_ || _); [|kgo; rewrite ses_upd_id in HQ; by apply HQ].
  apply on_hdata_spec. eapply hash_reset_spec; [exact Ho| |by apply has_hash_init|].
  { unfold ses_objs. intros x Hx. rewrite !elem_of_app. tauto. }
  destruct (hdata_alg _ Hh (has_hash_init _ Hi)) as (a & Halg & _).
  pose proof (ahash_init_ok _ _ (ahash_key (cs_hdata s)) Halg) as H0'.
  destruct (ahash_init _ _) as [r st]. simpl in H0'. subst r.
  specialize (HQ 0 ltac:(done)). by destruct s as [? ? [] []].
Qed.

Lemma run_set_iv_spec e s R kcop (Q : option Z -> env * csession -> Prop) :
  ready e s R -> blocks s (co_len (kc_cop kcop)) ->
  Q None (e, ses_upd (start_iv s kcop) (ahash_st (cs_hdata s)) s) ->
  wp (run_set_iv kcop) Q (e, s).
Proof.
  intros [He Ho Hc Hh Ha Hp] Hb HQ. unfold run_set_iv, start_iv in *. kgo.
  destruct (has_cipher s) eqn:Hi; [|kgo; by rewrite ses_upd_id in HQ].
  destruct (session_cipher _ Hc Hp Hi) as (a & Halg & Hbs). specialize (Hb Hi).
  destruct (ablkcipher_sizes _ _ Halg) as (Hpos & _ & _).
  replace (_ =? 0) with false by lia.
  replace (co_len (kc_cop kcop) mod cd_blocksize (cs_cdata s) =? 0) with true
    by (symmetry; apply Z.eqb_eq, Z.mod_divide; [lia|done]). cbn [negb]. kgo.
  apply on_cdata_spec. unfold cryptodev_cipher_set_iv. kgo.
  unfold iv_bytes in HQ. by destruct s as [? ? [] []].
Qed.

Lemma run_data_spec e s R cop ret (Q : Z -> env * csession -> Prop) :
  ready e s R -> copies e cop -> blocks s (co_len cop) -> op_bufs (e_mem e) s cop ->
  (forall ret e1 s1, data_result e s R cop ret e1 s1 -> Q ret (e1, s1)) ->
  wp (run_data cop ret) Q (e, s).
Proof.
  intros Hrd Hu Hb [Hn Hbufs] HQ. unfold run_data.
  replace (co_len cop =? 0) with false by lia. cbn [negb].
  destruct (has_flag _ _) eqn:Hf.
  - eapply run_std_spec; try done. by destruct Hu as [|[_ ?]]; [|congruence].
  - eapply run_zc_spec; try done. destruct Hu as [|[? _]]; tauto.
Qed.

Lemma run_finish_spec e s s3 R kcop iv st ret (Q : Z * kernel_crypt_op -> env * csession -> Prop) :
  after_op s s3 iv st -> owns e (ses_objs s3 ++ R) -> hdata_ok (cs_hdata s) ->
  (forall r, (finishes s (kc_cop kcop) = true -> r = 0) -> (finishes s (kc_cop kcop) = false -> r = ret) ->
     Q (r, finish_kcop s kcop iv st) (e, s3)) ->
  wp (run_finish kcop ret) Q (e, s3).
Proof.
  intros [Hcd Hhd Hiv _ _ _ _] Ho Hok HQ. unfold run_finish. kgo.
  assert (Hc : has_cipher s3 = has_cipher s) by (unfold has_cipher; by rewrite Hcd).
  assert (Hh : has_hash s3 = has_hash s) by (unfold has_hash; by rewrite Hhd).
  rewrite Hc, Hh, Hcd, Hhd. cbn [cd_ivsize set_cd_iv hd_digestsize set_ahash_st].
  assert (Hfin : forall k, kc_cop k = kc_cop kcop -> 
    finish_kcop s kcop iv st = (if finishes s (kc_cop kcop)
      then set_kc_digest (hd_digestsize (cs_hdata s)) (ahash_final (ahash_name (cs_hdata s)) st).2 k else k) ->
    wp (if has_hash s && (has_flag (co_flags (kc_cop kcop)) COP_FLAG_FINAL ||
          (negb (has_flag (co_flags (kc_cop kcop)) COP_FLAG_UPDATE) || (co_len (kc_cop kcop) =? 0)))
        then '(ret, digest) ← on_hdata cryptodev_hash_final;
             if negb (ret =? 0) then mret (ret, set_kc_digest (kc_digestsize k) digest k)
             else mret (ret, set_kc_digest (hd_digestsize (cs_hdata s)) digest k)
        else mret (ret, k)) Q (e, s3)).
  { intros k Hk Hf. fold (finishes s (kc_cop kcop)).
    destruct (finishes s (kc_cop kcop)) eqn:Hd; [|kgo; rewrite <- Hf; by apply HQ].
    assert (Hi : has_hash s = true) by (unfold finishes in Hd; by destruct (has_hash s)).
    kgo. apply on_hdata_spec. eapply hash_final_spec; [exact Ho| | |by rewrite Hhd; destruct Hok|].
    - unfold ses_objs. intros x Hx. rewrite !elem_of_app. tauto.
    - rewrite Hhd. by apply has_hash_init in Hi.
    - rewrite Hhd in *. cbn [ahash_name ahash_st set_ahash_st hd_digestsize].
      destruct (hdata_alg _ Hok (has_hash_init _ Hi)) as (a & Halg & _).
      destruct (ahash_final _ st) as [[r ev] d] eqn:E. intros _ _.
      assert (req_result r ev = 0) as ->
        by (apply req_result_ok; [by eapply ahash_final_completes|by eapply ahash_final_ok]).
      kgo. replace (set_cs_hdata _ s3) with s3 by (destruct s3; simpl in *; by rewrite <- Hhd).
      cbn [snd] in Hf. rewrite <- Hf. by apply HQ. }
  unfold finish_kcop in Hfin |- *. destruct (has_cipher s); kgo.
  - apply on_cdata_spec. unfold cryptodev_cipher_get_iv. kgo.
    replace (set_cs_cdata (cs_cdata s3) s3) with s3 by (by destruct s3).
    rewrite Hcd. cbn [cd_iv set_cd_iv]. fold (iv_bytes s kcop). by apply Hfin.
  - by apply Hfin.
Qed.
Lemma crypto_run_locked_spec e s R kcop (Q : Z * kernel_crypt_op -> env * csession -> Prop) :
  ready e s R -> copies e (kc_cop kcop) -> blocks s (co_len (kc_cop kcop)) ->
  op_bufs (e_mem e) s (kc_cop kcop) -> length (kc_iv kcop) = 16%nat ->
  (forall ret k e' s', run_result e s R kcop ret k e' s' -> Q (ret, k) (e', s')) ->
  wp (crypto_run_locked kcop) Q (e, s).
Proof.
  intros Hrd Hu Hb Hbufs Hkl HQ. pose proof (cdata_iv _ (rd_cdata _ _ _ Hrd)) as Hcl.
  unfold crypto_run_locked. kgo. eapply run_reset_spec; [exact Hrd|]. intros r Hr.
  set (resets := has_hash s && _) in *.
  assert (resets && negb (r =? 0) = false) as ->.
  { destruct resets; [|done]. by rewrite Hr. }
  kgo. set (s1 := ses_upd _ _ s). assert (Hrd1 : ready e s1 R) by (by apply ready_upd).
  eapply run_set_iv_spec; [exact Hrd1|done|]. kgo.
  set (s2 := ses_upd _ _ s1).
  assert (Hs2 : s2 = ses_upd (start_iv s kcop) (start_st s (kc_cop kcop)) s) by done.
  assert (Hil : length (start_iv s kcop) = length (cd_iv (cs_cdata s)))
    by (rewrite (length_start_iv s kcop), Hcl by done; done).
  assert (Hrd2 : ready e s2 R) by (rewrite Hs2; by apply ready_upd).
  eapply run_data_spec; [exact Hrd2|done|done| |].
  { destruct Hbufs as [Hn Hbufs]. split; [done|]. destruct (has_flag _ _); [by destruct Hbufs|].
    destruct Hbufs as [[]]. by constructor. }
  replace (co_len (kc_cop kcop) =? 0) with false by (destruct Hbufs; lia). cbn [negb andb].
  intros ret e3 s3 Hd. destruct Hd as [e3 s3 out iv st D E Haf U Hse He3 Ho3|e3 s3 Hal Hs3 Ha3 Hw3 He3 Ho3].
  - kgo. assert (Haf' : after_op s s3 iv st).
    { rewrite Hs2 in Haf. destruct Haf as [? ? Hl ? ? ? ?]. constructor; try done.
      etrans; [exact Hl|exact Hil]. }
    eapply run_finish_spec; [exact Haf'|exact Ho3|by destruct Hrd|].
    intros r' Hf1 Hf0. assert (r' = 0) as -> by (destruct (finishes s (kc_cop kcop)); auto).
    apply HQ. by apply run_ok with out.
  - change (negb (- ENOMEM =? 0)) with true. kgo. apply HQ.
    apply run_nomem with (start_iv s kcop) (start_st s (kc_cop kcop)); try done.
    destruct Hs3 as [? ? Hc3 Hh3 ? ?]. constructor; try done.
Qed.

(** The handle when session [i] has run an operation. *)
Lemma after_op_ok s s' iv st :
  ses_ok s -> after_op (set_cs_locked true s) s' iv st -> ses_ok (set_cs_locked false s').
Proof.
  intros [[] [] ? ?] [Hc Hh Hl ? ? ? []]. constructor; simpl; [|rewrite Hh; by constructor|by constructor|done].
  rewrite Hc. constructor; simpl in *; try done. congruence.
Qed.

(** What a request on an open file needs: a session that exists, with a cipher
    that is not an AEAD cipher, and buffers it can use. *)
Record runs e p R kcop i s : Prop := {
  rs_handle : handle_ok e p R;
  rs_copies : copies e (kc_cop kcop);
  rs_op : co_op (kc_cop kcop) = COP_ENCRYPT \/ co_op (kc_cop kcop) = COP_DECRYPT;
  rs_session : cp_fcrypt p !! i = Some s;
  rs_sid : co_ses (kc_cop kcop) = cs_sid s;
  rs_plain : plain s;
  rs_blocks : blocks s (co_len (kc_cop kcop));
  rs_bufs : op_bufs (e_mem e) s (kc_cop kcop);
  rs_iv : length (kc_iv kcop) = 16%nat
}.

Lemma session_sid_unique p i j s s' :
  NoDup (cs_sid <$> cp_fcrypt p) -> cp_fcrypt p !! i = Some s -> cp_fcrypt p !! j = Some s' ->
  cs_sid s = cs_sid s' -> i = j.
Proof.
  intros Hnd Hi Hj Hs. eapply NoDup_lookup; [exact Hnd| |]; rewrite list_lookup_fmap;
    [by rewrite Hi|rewrite Hj; simpl; by rewrite Hs].
Qed.

Lemma crypto_run_spec e p R kcop i s (Q : Z * kernel_crypt_op -> env * crypt_priv -> Prop) :
  runs e p R kcop i s ->
  (forall ret k e' s', run_result e (set_cs_locked true s) (others i p ++ R) kcop ret k e' s' ->
     handle_ok e' (with_session i (set_cs_locked false s') p) R ->
     Q (ret, k) (e', with_session i (set_cs_locked false s') p)) ->
  wp (crypto_run kcop) Q (e, p).
Proof.
  intros [Hh Hu Hop Hi Hsid Hpl Hb Hbufs Hiv] HQ. unfold crypto_run.
  replace (_ && _) with false by (destruct Hop as [->| ->]; done). kgo.
  eapply get_session_spec; [exact Hh| |].
  { intros []. apply list_elem_of_fmap. exists s. split; [done|]. by eapply list_elem_of_lookup_2. }
  intros j s' Hj Hsj Hsok Haddr.
  assert (i = j) as <- by (eapply session_sid_unique; [by destruct Hh as [_ [] _]|done..|congruence]).
  rewrite Hi in Hj. injection Hj as <-. kgo.
  eapply on_session_spec; [exact Hh|exact Hi|done|].
  eapply crypto_run_locked_spec with (R := others i p ++ R); [|done|done| |done|].
  { destruct Hsok as [? ? [] ?], Hh as [? ? ?]. constructor; try done.
    by apply (handle_split e p R i s). }
  { destruct Hbufs as [? Hbufs]. split; [done|]. destruct (has_flag _ _); [by destruct Hbufs|].
    by destruct Hbufs as [[]]. }
  intros ret k e' s2 Hrr. kgo.
  assert (Haf : exists iv st, after_op (set_cs_locked true s) s2 iv st /\ env_ok e' /\
    owns e' (ses_objs s2 ++ others i p ++ R)) by (destruct Hrr; eauto).
  destruct Haf as (iv & st & Haf & He' & Ho').
  eapply put_session_spec; [exact Hh|exact Hi|by destruct Haf|]. kgo.
  apply HQ; [done|]. eapply handle_with_session; [exact Hh|exact Hi|by eapply after_op_ok|by destruct Haf|done|done].
Qed.
(** The successful run, when allocations succeed. *)
Lemma crypto_run_done e p R kcop i s :
  runs e p R kcop i s -> e_allocs e = [] ->
  exists e' s' out iv st,
    crypto_run kcop (e, p) =
      Done (0, finish_kcop s kcop iv st) (e', with_session i (set_cs_locked false s') p) /\
    chunk (negb (co_op (kc_cop kcop) =? COP_ENCRYPT)) s (start_iv s kcop) (start_st s (kc_cop kcop))
      (peeks (e_mem e) (seqZ (co_src (kc_cop kcop)) (co_len (kc_cop kcop))))
      (peeks (e_mem e) (seqZ (co_src (kc_cop kcop)) (co_len (kc_cop kcop)))) = (0, out, iv, st) /\
    after_op (set_cs_locked true s) s' iv st /\
    user_eq (e_mem e') (pokes (seqZ (co_dst (kc_cop kcop)) (co_len (kc_cop kcop))) out (e_mem e)) /\
    same_env e e' /\ handle_ok e' (with_session i (set_cs_locked false s') p) R.
Proof.
  intros Hr Hal.
  assert (Hwp : wp (crypto_run kcop) (fun '(ret, k) '(e', p') =>
    exists s', p' = with_session i (set_cs_locked false s') p /\
       run_result e (set_cs_locked true s) (others i p ++ R) kcop ret k e' s' /\ handle_ok e' p' R) (e, p)).
  { eapply crypto_run_spec; [exact Hr|]. eauto. }
  apply wp_done in Hwp as ([ret k] & [e' p'] & E & s' & -> & Hrr & Hh).
  destruct Hrr as [e' s' out iv st cop D C A U S _ _|]; [|done].
  exists e', s', out, iv, st. by split_and!.
Qed.

(** C7: one CIOCCRYPT operation is correct.  On a file that satisfies its
    invariant, when allocations succeed, [crypto_run] on a session with a cipher
    (and perhaps a hash) returns 0; user memory changes only in the destination,
    which receives exactly the output of one operation on the whole source,
    started from the IV of the request and the reset or running hash; the
    request gets the new IV and, when the hash is complete, the digest; no page
    stays pinned and the invariant holds again. *)
Theorem crypto_run_correct e p R kcop i s :
  runs e p R kcop i s -> e_allocs e = [] ->
  exists e' s' out iv st,
    let cop := kc_cop kcop in
    let D := peeks (e_mem e) (seqZ (co_src cop) (co_len cop)) in
    crypto_run kcop (e, p) = Done (0, finish_kcop s kcop iv st) (e', with_session i s' p) /\
    chunk (negb (co_op cop =? COP_ENCRYPT)) s (start_iv s kcop) (start_st s cop) D D = (0, out, iv, st) /\
    user_eq (e_mem e') (pokes (seqZ (co_dst cop) (co_len cop)) out (e_mem e)) /\
    cs_cdata s' = set_cd_iv iv (cs_cdata s) /\ cs_hdata s' = set_ahash_st st (cs_hdata s) /\
    e_pins e' = e_pins e /\ handle_ok e' (with_session i s' p) R.
Proof.
  intros Hr Hal. destruct (crypto_run_done _ _ _ _ _ _ Hr Hal) as (e' & s' & out & iv & st & E & C & A & U & S & Hh).
  exists e', (set_cs_locked false s'), out, iv, st. split_and!; try done; [by destruct A..|by destruct S].
Qed.

(** ** Decryption inverts encryption *)

Lemma chunk_out dec s iv st D D' out iv' st' :
  chunk dec s iv st D D' = (0, out, iv', st') -> has_cipher s = true ->
  let r := cipher_run dec (set_cd_iv iv (cs_cdata s)) D in
  req_ok (cr_ret r) (cr_events r) /\ out = cr_out r.
Proof.
  intros E Hc r. assert (Hcs : exists iv2, cipher_step dec s iv D = (0, out, iv2)).
  { unfold chunk in E. destruct dec.
    - destruct (cipher_step _ _ _ _) as [[r1 o1] i1]. destruct (Z.eqb_spec r1 0); cbn [negb] in E.
      + destruct (hash_step _ _ _). simplify_eq. eauto.
      + by simplify_eq.
    - destruct (hash_step _ _ _) as [r1 st1]. destruct (Z.eqb_spec r1 0); cbn [negb] in E; [|by simplify_eq].
      destruct (cipher_step _ _ _ _) as [[r2 o1] i1]. simplify_eq. eauto. }
  destruct Hcs as (iv2 & Hcs). unfold cipher_step in Hcs. rewrite Hc in Hcs. fold r in Hcs.
  injection Hcs as Hr Ho _. split; [|done]. apply req_result_ok in Hr; [done|apply ablkcipher_completes].
Qed.

(** The buffers of a request stay usable while requests run. *)
Lemma op_bufs_after m m' s s' cop :
  m_pages m' = m_pages m -> has_cipher s' = has_cipher s -> op_bufs m s cop -> op_bufs m' s' cop.
Proof.
  intros Hp Hc [Hn Hb]. split; [done|].
  assert (Hu : user_bufs m s (co_src cop) (co_dst cop) (co_len cop) ->
               user_bufs m' s' (co_src cop) (co_dst cop) (co_len cop)).
  { intros [Hs Hd ?]. constructor; [by eapply range_readable_pages| |done].
    rewrite Hc. intros Hi. eapply range_writable_pages; [done|by apply Hd]. }
  destruct (has_flag _ _); [by apply Hu|]. destruct Hb as [Hb1 Hd Hnn Hl Hsane].
  constructor; rewrite ?Hc; auto. by eapply range_writable_pages.
Qed.

Lemma take_start_iv s kcop a :
  cdata_ok (cs_cdata s) -> has_cipher s = true -> cd_ivsize (cs_cdata s) = alg_ivsize a ->
  0 <= alg_ivsize a <= 16 -> kc_ivlen kcop = alg_ivsize a -> length (kc_iv kcop) = 16%nat ->
  take (Z.to_nat (alg_ivsize a)) (start_iv s kcop) = take (Z.to_nat (alg_ivsize a)) (kc_iv kcop).
Proof.
  intros Hok Hc Hs Hr Hl Hk. unfold start_iv, iv_bytes, memcpy. rewrite Hc, Hs, Hl.
  unfold EALG_MAX_BLOCK_LEN. replace (Z.min _ _) with (alg_ivsize a) by lia.
  apply take_app_length'. rewrite length_take. lia.
Qed.

Lemma decrypt_inverts s iv iv' D a :
  plain s -> has_cipher s = true -> ablkcipher (tfm_name (cs_cdata s)) = Some a ->
  (alg_blocksize a | Z.of_nat (length D)) ->
  take (Z.to_nat (alg_ivsize a)) iv' = take (Z.to_nat (alg_ivsize a)) iv ->
  let r := cipher_run false (set_cd_iv iv (cs_cdata s)) D in
  req_ok (cr_ret r) (cr_events r) ->
  cr_out (cipher_run true (set_cd_iv iv' (cs_cdata s)) (cr_out r)) = D.
Proof.
  intros Hp Hc Ha Hb Hiv r Hr. unfold cipher_run. cbn [cd_iv set_cd_iv tfm_name tfm_key].
  etrans; [apply (ablkcipher_iv true _ a _ iv' iv); [done|exact Hiv]|].
  apply (ablkcipher_inverse _ a _ iv D Ha Hb Hr).
Qed.

(** What the encrypted buffer holds afterwards. *)
Lemma dst_content m m' s cop out :
  op_bufs m s cop -> has_cipher s = true -> Z.of_nat (length out) = co_len cop ->
  user_eq m' (pokes (seqZ (co_dst cop) (co_len cop)) out m) ->
  peeks m' (seqZ (co_dst cop) (co_len cop)) = out.
Proof.
  intros [Hn Hb] Hc Hl U.
  assert (Hw : range_writable m (co_dst cop) (co_len cop)).
  { destruct (has_flag _ _); [by destruct Hb; auto|by destruct Hb]. }
  destruct (range_writable_bounds _ _ _ Hw).
  rewrite (peeks_user_eq _ _ _ _ ltac:(eassumption) U).
  apply peeks_pokes_eq; [apply NoDup_seqZ|]. rewrite length_seqZ. lia.
Qed.

Lemma copies_after e e' cop : same_env e e' -> copies e cop -> copies e' cop.
Proof. intros [] [|[]]; [left; congruence|right; auto]. Qed.

(** A request stays usable after another one ran on its session. *)
Lemma runs_again e p R k i s e1 s1 iv st :
  runs e p R k i s -> after_op (set_cs_locked true s) s1 iv st -> same_env e e1 ->
  handle_ok e1 (with_session i (set_cs_locked false s1) p) R ->
  runs e1 (with_session i (set_cs_locked false s1) p) R k i (set_cs_locked false s1).
Proof.
  intros [? ? ? Hi Hsid Hpl Hb Hbufs ?] [Hcd _ _ _ _ Hs1 _] S Hh.
  assert (Hlt : (i < length (cp_fcrypt p))%nat) by (by eapply lookup_lt_Some).
  constructor; try done.
  - by eapply copies_after.
  - by apply list_lookup_insert_eq.
  - simpl. by rewrite Hs1.
  - unfold plain, has_cipher in *. simpl. rewrite Hcd. exact Hpl.
  - unfold blocks, has_cipher in *. simpl. rewrite Hcd. exact Hb.
  - eapply op_bufs_after; [by destruct S| |exact Hbufs]. unfold has_cipher. simpl. by rewrite Hcd.
Qed.

(** The cipher of the session of a request. *)
Lemma runs_alg e p R k i s :
  runs e p R k i s -> has_cipher s = true ->
  exists a, ablkcipher (tfm_name (cs_cdata s)) = Some a /\ cdata_ok (cs_cdata s) /\
    (alg_blocksize a | co_len (kc_cop k)) /\ cd_ivsize (cs_cdata s) = alg_ivsize a /\
    0 <= alg_ivsize a <= 16.
Proof.
  intros [[_ [Hf _ _ _ _] _] _ _ Hi _ Hpl Hb _ _] Hc.
  assert (Hok : ses_ok s) by (by eapply Forall_lookup_1, Hi).
  destruct (cdata_alg _ (ses_cdata _ Hok) (has_cipher_init _ Hc)) as (a & Ha & Hbs & Hivs).
  rewrite (Hpl Hc) in Ha. simpl in Ha. exists a. destruct (ablkcipher_sizes _ _ Ha) as (_ & _ & ?).
  split_and!; try done; [by destruct Hok|by rewrite <- Hbs; apply Hb|lia..].
Qed.

(** The output of a request to a session with a cipher. *)
Lemma crypto_run_cipher e p R k i s :
  runs e p R k i s -> has_cipher s = true -> e_allocs e = [] ->
  let D := peeks (e_mem e) (seqZ (co_src (kc_cop k)) (co_len (kc_cop k))) in
  let r := cipher_run (negb (co_op (kc_cop k) =? COP_ENCRYPT)) (set_cd_iv (start_iv s k) (cs_cdata s)) D in
  exists k' e1 s1 iv st,
    crypto_run k (e, p) = Done (0, k') (e1, with_session i (set_cs_locked false s1) p) /\
    after_op (set_cs_locked true s) s1 iv st /\ same_env e e1 /\
    handle_ok e1 (with_session i (set_cs_locked false s1) p) R /\
    req_ok (cr_ret r) (cr_events r) /\
    peeks (e_mem e1) (seqZ (co_dst (kc_cop k)) (co_len (kc_cop k))) = cr_out r.
Proof.
  intros Hr Hc Hal D r.
  destruct (crypto_run_done _ _ _ _ _ _ Hr Hal) as (e1 & s1 & out & iv & st & E & C & A & U & S & Hh).
  exists (finish_kcop s k iv st), e1, s1, iv, st. split_and!; try done.
  - by eapply (chunk_out _ _ _ _ _ _ _ _ _ C).
  - destruct (chunk_out _ _ _ _ _ _ _ _ _ C Hc) as [_ Hout]. fold D r in Hout. rewrite <- Hout.
    destruct (chunk_length _ _ _ _ _ _ _ _ _ _ C) as [_ Hol]. rewrite Hc in Hol.
    destruct Hol as [Hol|[_ []]]; [|done]. rewrite length_peeks, length_seqZ in Hol.
    destruct Hr as [_ _ _ _ _ _ _ Hb _]. eapply dst_content; [exact Hb|done| |exact U].
    destruct Hb. lia.
Qed.

(** C5: decryption inverts encryption.  Encrypting a buffer with a session and
    decrypting the result with the same IV, by either path and with or without
    a hash in the session, returns 0 both times and gives back the original
    bytes. *)
Theorem crypt_roundtrip e p R k1 k2 i s :
  runs e p R k1 i s -> runs e p R k2 i s -> e_allocs e = [] -> has_cipher s = true ->
  co_op (kc_cop k1) = COP_ENCRYPT -> co_op (kc_cop k2) = COP_DECRYPT ->
  co_src (kc_cop k2) = co_dst (kc_cop k1) -> co_len (kc_cop k2) = co_len (kc_cop k1) ->
  kc_iv k2 = kc_iv k1 ->
  kc_ivlen k1 = cd_ivsize (cs_cdata s) -> kc_ivlen k2 = cd_ivsize (cs_cdata s) ->
  exists k1' k2' e1 p1 e2 p2,
    crypto_run k1 (e, p) = Done (0, k1') (e1, p1) /\
    crypto_run k2 (e1, p1) = Done (0, k2') (e2, p2) /\
    peeks (e_mem e2) (seqZ (co_dst (kc_cop k2)) (co_len (kc_cop k2))) =
    peeks (e_mem e) (seqZ (co_src (kc_cop k1)) (co_len (kc_cop k1))).
Proof.
  intros Hr1 Hr2 Hal Hc Hop1 Hop2 Hsrc Hlen Hiv Hl1 Hl2.
  destruct (crypto_run_cipher _ _ _ _ _ _ Hr1 Hc Hal) as (k1' & e1 & s1 & iv & st & E1 & A1 & S1 & Hh1 & Q1 & O1).
  pose proof (runs_again _ _ _ _ _ _ _ _ _ _ Hr2 A1 S1 Hh1) as Hr2'.
  assert (Hcd : cs_cdata (set_cs_locked false s1) = set_cd_iv iv (cs_cdata s)) by (by destruct A1).
  assert (Hc1 : has_cipher (set_cs_locked false s1) = true) by (unfold has_cipher in *; by rewrite Hcd).
  destruct (crypto_run_cipher _ _ _ _ _ _ Hr2' Hc1 (se_allocs _ _ S1 Hal))
    as (k2' & e2 & s2 & iv2 & st2 & E2 & _ & _ & _ & _ & O2).
  eexists _, _, _, _, _, _. split_and!; [exact E1|exact E2|].
  destruct (runs_alg _ _ _ _ _ _ Hr1 Hc) as (a & Ha & Hok & Hbs & Hivs & Hivr).
  destruct (runs_alg _ _ _ _ _ _ Hr2' Hc1) as (_ & _ & Hok1 & _).
  rewrite Hop1 in *. rewrite Hop2 in *. change (negb (COP_ENCRYPT =? COP_ENCRYPT)) with false in *.
  change (negb (COP_DECRYPT =? COP_ENCRYPT)) with true in O2.
  rewrite O2, Hsrc, Hlen, O1, Hcd.
  apply (decrypt_inverts s (start_iv s k1) (start_iv (set_cs_locked false s1) k2) _ a); try done.
  - by destruct Hr1.
  - rewrite length_peeks, length_seqZ. destruct Hr1 as [_ _ _ _ _ _ _ [? _] _]. by rewrite Z2Nat.id by lia.
  - rewrite (take_start_iv s k1 a), (take_start_iv _ k2 a), Hiv; try done; try congruence;
      [by rewrite Hcd|by destruct Hr2|by destruct Hr1].
Qed.
End Exact.
End RunFacts.
