(* ===== verification/Authenc.v ===== *)
(** * Authenticated encryption

    [authenc.c] of cryptodev-linux: the TLS, SRTP and plain AEAD modes of
    CIOCAUTHCRYPT. *)
From stdpp Require Import base gmap gmultiset list strings numbers.
From S2P Require Import Prelude Kernel KernelFacts Structs CryptoApi Sg Cryptlib Zc Fcrypt Run.
Open Scope Z_scope.

(** [struct kernel_crypt_auth_op] *)
Record kernel_crypt_auth_op := KernelCryptAuthOp {
  ka_caop : crypt_auth_op; ka_dst_len : Z; ka_ivlen : Z; ka_iv : bytes }.

Definition set_ka_dst_len (v : Z) (k : kernel_crypt_auth_op) : kernel_crypt_auth_op :=
  KernelCryptAuthOp (ka_caop k) v (ka_ivlen k) (ka_iv k).
Definition set_ka_iv (v : bytes) (k : kernel_crypt_auth_op) : kernel_crypt_auth_op :=
  KernelCryptAuthOp (ka_caop k) (ka_dst_len k) (ka_ivlen k) v.
Definition set_ka_caop (f : crypt_auth_op -> crypt_auth_op) (k : kernel_crypt_auth_op)
    : kernel_crypt_auth_op :=
  KernelCryptAuthOp (f (ka_caop k)) (ka_dst_len k) (ka_ivlen k) (ka_iv k).

Definition set_ca_len (v : Z) (c : crypt_auth_op) : crypt_auth_op :=
  CryptAuthOp (ca_ses c) (ca_op c) (ca_flags c) v (ca_auth_len c) (ca_auth_src c) (ca_src c)
    (ca_dst c) (ca_tag c) (ca_tag_len c) (ca_pad0 c) (ca_iv c) (ca_iv_len c) (ca_pad1 c).
Definition set_ca_tag (v : Z) (c : crypt_auth_op) : crypt_auth_op :=
  CryptAuthOp (ca_ses c) (ca_op c) (ca_flags c) (ca_len c) (ca_auth_len c) (ca_auth_src c)
    (ca_src c) (ca_dst c) v (ca_tag_len c) (ca_pad0 c) (ca_iv c) (ca_iv_len c) (ca_pad1 c).
Definition set_ca_tag_len (v : Z) (c : crypt_auth_op) : crypt_auth_op :=
  CryptAuthOp (ca_ses c) (ca_op c) (ca_flags c) (ca_len c) (ca_auth_len c) (ca_auth_src c)
    (ca_src c) (ca_dst c) (ca_tag c) v (ca_pad0 c) (ca_iv c) (ca_iv_len c) (ca_pad1 c).

Definition MAX_SRTP_AUTH_DATA_DIFF : Z := 256.

Section Authenc.
Context `{CryptoAPI}.

(** ** User buffers *)

(** [get_userbuf_tls]: the result and [*dst_sg]. *)
Definition get_userbuf_tls (kcaop : kernel_crypt_auth_op) : K csession (Z * list sg_entry) :=
  let caop := ka_caop kcaop in
  if ca_dst caop =? 0 then mret (- EINVAL, [])
  else if ka_dst_len kcaop =? 0 then mret (- EINVAL, [])
  else
    let pagecount := s32 (PAGECOUNT (ca_dst caop) (ka_dst_len kcaop)) in
    modx (set_cs_used_pages (u32 pagecount));;
    modx (set_cs_readonly_pages 0);;
    rc ← adjust_sg_array pagecount;
    if negb (rc =? 0) then mret (rc, [])
    else
      rc ← __get_userbuf (ca_dst caop) (u32 (ka_dst_len kcaop)) true (u32 pagecount) 0;
      if negb (rc =? 0) then mret (- EINVAL, [])
      else l ← sg_at 0; mret (0, l).

(** [get_userbuf_srtp]: the result, [*auth_sg] and [*dst_sg]. *)
Definition get_userbuf_srtp (kcaop : kernel_crypt_auth_op)
    : K csession (Z * list sg_entry * list sg_entry) :=
  let caop := ka_caop kcaop in
  if (ca_dst caop =? 0) && (ca_auth_src caop =? 0) then mret (- EINVAL, [], [])
  else if (ka_dst_len kcaop =? 0) || (ca_auth_len caop =? 0) then mret (- EINVAL, [], [])
  else
    let auth_pagecount := s32 (PAGECOUNT (ca_auth_src caop) (ca_auth_len caop)) in
    let diff := s32 (ca_src caop - ca_auth_src caop) in
    if (MAX_SRTP_AUTH_DATA_DIFF <? diff) || (diff <? 0) then mret (- EINVAL, [], [])
    else
      rc ← adjust_sg_array (s32 (auth_pagecount * 2));
      if negb (rc =? 0) then mret (rc, [], [])
      else
        rc ← __get_userbuf (ca_auth_src caop) (ca_auth_len caop) true (u32 auth_pagecount) 0;
        if negb (rc =? 0) then mret (- EINVAL, [], [])
        else
          modx (set_cs_used_pages (u32 auth_pagecount));;
          modx (set_cs_readonly_pages 0);;
          auth_sg ← sg_at 0;
          s ← getx;
          let n := Z.to_nat auth_pagecount in
          let arr := sg_init_table n n (cs_sg s) in
          match sg_copy (length arr) arr 0 n (s32 (ca_auth_len caop)) with
          | None => crashed OutOfBounds
          | Some (_, arr) =>
              match sg_advance arr n diff with
              | None => crashed OutOfBounds
              | Some (arr, o) =>
                  modx (set_cs_sg (cs_sg_at s) arr);;
                  match o with
                  | None => release_user_pages;; mret (- EINVAL, [], [])
                  | Some j => dst_sg ← sg_at j; mret (0, auth_sg, dst_sg)
                  end
              end
          end.

(** ** Copying the request *)

(** [fill_kcaop_from_caop] *)
Definition fill_kcaop_from_caop (kcaop : kernel_crypt_auth_op)
    : K crypt_priv (Z * kernel_crypt_auth_op) :=
  let caop := ka_caop kcaop in
  ses ← crypto_get_session_by_sid (ca_ses caop);
  if ses =? 0 then mret (- EINVAL, kcaop)
  else
    s ← on_session ses getx;
    r ← (if (has_flag (ca_flags caop) COP_FLAG_AEAD_TLS_TYPE ||
             has_flag (ca_flags caop) COP_FLAG_AEAD_SRTP_TYPE)
            && negb (ca_src caop =? ca_dst caop)
         then mret (- EINVAL, kcaop)
         else
           let caop := if ca_tag_len caop =? 0
                       then set_ca_tag_len (u32 (hd_digestsize (cs_hdata s))) caop else caop in
           let ivlen := if ca_iv caop =? 0 then 0 else cd_ivsize (cs_cdata s) in
           let dst_len :=
             if has_flag (ca_flags caop) COP_FLAG_AEAD_TLS_TYPE
             then s32 (ca_len caop + cd_blocksize (cs_cdata s) + ca_tag_len caop)
             else s32 (ca_len caop) in
           let kcaop := KernelCryptAuthOp caop dst_len ivlen (ka_iv kcaop) in
           if negb (ca_iv caop =? 0) then
             if EALG_MAX_BLOCK_LEN <? ivlen then crashed OutOfBounds
             else
               '(iv, nleft) ← copy_from_user (ca_iv caop) ivlen;
               let kcaop := set_ka_iv (memcpy (ka_iv kcaop) iv ivlen) kcaop in
               if negb (nleft =? 0) then mret (- EFAULT, kcaop) else mret (0, kcaop)
           else mret (0, kcaop));
    crypto_put_session ses;;
    mret r.

(** [fill_caop_from_kcaop] *)
Definition fill_caop_from_kcaop (kcaop : kernel_crypt_auth_op)
    : K crypt_priv (Z * kernel_crypt_auth_op) :=
  let kcaop := set_ka_caop (set_ca_len (u32 (ka_dst_len kcaop))) kcaop in
  if negb (ka_ivlen kcaop =? 0) && has_flag (ca_flags (ka_caop kcaop)) COP_FLAG_WRITE_IV then
    nleft ← copy_to_user (ca_iv (ka_caop kcaop)) (take (Z.to_nat (ka_ivlen kcaop)) (ka_iv kcaop));
    if negb (nleft =? 0) then mret (- EFAULT, kcaop) else mret (0, kcaop)
  else mret (0, kcaop).

(** [kcaop_from_user]; the parts of [kcaop] not filled in are junk. *)
Definition kcaop_from_user (arg : Z) : K crypt_priv (Z * kernel_crypt_auth_op) :=
  e ← gete;
  '(b, nleft) ← copy_from_user arg sizeof_crypt_auth_op;
  let kcaop := KernelCryptAuthOp (decode_crypt_auth_op b) (e_junk e) (e_junk e)
                 (replicate (Z.to_nat EALG_MAX_BLOCK_LEN) (e_junk e)) in
  if negb (nleft =? 0) then mret (- EFAULT, kcaop) else fill_kcaop_from_caop kcaop.

(** [kcaop_to_user] *)
Definition kcaop_to_user (kcaop : kernel_crypt_auth_op) (arg : Z) : K crypt_priv Z :=
  '(ret, kcaop) ← fill_caop_from_kcaop kcaop;
  if negb (ret =? 0) then mret ret
  else
    nleft ← copy_to_user arg (encode_crypt_auth_op (ka_caop kcaop));
    if negb (nleft =? 0) then mret (- EFAULT) else mret 0.

(** ** TLS records *)

(** The contents of a buffer of [AALG_MAX_RESULT_LEN] bytes on the stack into
    which a digest was written. *)
Definition hash_buffer (e : env) (digest : bytes) : bytes :=
  digest ++ replicate (Z.to_nat AALG_MAX_RESULT_LEN - length digest) (e_junk e).

(** The first [n] bytes of such a buffer. *)
Definition from_hash_buffer (buf : bytes) (n : Z) : K csession bytes :=
  if AALG_MAX_RESULT_LEN <? n then crashed OutOfBounds
  else mret (take (Z.to_nat n) buf).

Definition copy_tls_hash (dst_sg : list sg_entry) (len : Z) (hash : bytes) (hash_len : Z)
    : K csession unit :=
  h ← from_hash_buffer hash hash_len;
  scatterwalk_write dst_sg len h.

Definition read_tls_hash (dst_sg : list sg_entry) (len hash_len : Z) : K csession bytes :=
  scatterwalk_read dst_sg (len - hash_len) hash_len.

(** [pad_record]; [pad] is an array of [block_size] bytes. *)
Definition pad_record (dst_sg : list sg_entry) (len block_size : Z) : K csession Z :=
  let pad_size := block_size - Z.rem len block_size in
  if block_size <? pad_size then crashed OutOfBounds
  else
    scatterwalk_write dst_sg len (replicate (Z.to_nat pad_size) (u8 (pad_size - 1)));;
    mret pad_size.

(** [verify_tls_record_pad] *)
Definition verify_tls_record_pad (dst_sg : list sg_entry) (len block_size : Z) : K csession Z :=
  b ← scatterwalk_read dst_sg (len - 1) 1;
  let pad_size := default 0 (head b) in
  if len <? pad_size + 1 then mret (- EBADMSG)
  else
    pad ← scatterwalk_read dst_sg (len - pad_size - 1) (pad_size + 1);
    if forallb (Z.eqb pad_size) (take (Z.to_nat pad_size) pad)
    then mret (pad_size + 1) else mret (- EBADMSG).

(** The hash of [auth_len] bytes of [auth_sg] and [len] bytes of [data_sg], as
    the TLS code computes it on both sides. *)
Definition tls_hash (auth_sg : list sg_entry) (auth_len : Z) (data_sg : list sg_entry) (len : Z)
    : K csession (Z * bytes) :=
  ret ← (if 0 <? auth_len then on_hdata (cryptodev_hash_update auth_sg auth_len) else mret 0);
  if negb (ret =? 0) then mret (ret, [])
  else
    ret ← (if 0 <? len then on_hdata (cryptodev_hash_update data_sg len) else mret 0);
    if negb (ret =? 0) then mret (ret, [])
    else on_hdata cryptodev_hash_final.

Definition tls_encrypt (caop : crypt_auth_op) (auth_sg : list sg_entry) (auth_len : Z)
    (dst_sg : list sg_entry) (len : Z) : K csession (Z * Z) :=
  s ← getx;
  '(ret, len) ←
    (if has_hash s then
       '(ret, digest) ← tls_hash auth_sg auth_len dst_sg len;
       if negb (ret =? 0) then mret (ret, len)
       else
         e ← gete;
         copy_tls_hash dst_sg (s32 len) (hash_buffer e digest) (ca_tag_len caop);;
         mret (0, u32 (len + ca_tag_len caop))
     else mret (0, len));
  if negb (ret =? 0) then mret (ret, len)
  else if has_cipher s then
    len ← (if 1 <? cd_blocksize (cs_cdata s) then
             pad_size ← pad_record dst_sg (s32 len) (cd_blocksize (cs_cdata s));
             mret (u32 (len + pad_size))
           else mret len);
    ret ← on_cdata (cryptodev_cipher_encrypt dst_sg dst_sg len);
    mret (ret, len)
  else mret (0, len).

(** The second half of the decryption: removing and checking the tag. *)
Definition tls_check_tag (caop : crypt_auth_op) (auth_sg : list sg_entry) (auth_len : Z)
    (dst_sg : list sg_entry) (len : Z) (fail : bool) : K csession (Z * Z) :=
  let tag_len := ca_tag_len caop in
  if (AALG_MAX_RESULT_LEN <? tag_len) || (len <? tag_len) then mret (- EINVAL, len)
  else
    vhash ← read_tls_hash dst_sg (s32 len) (s32 tag_len);
    let len := len - tag_len in
    '(ret, digest) ← tls_hash auth_sg auth_len dst_sg len;
    if negb (ret =? 0) then mret (ret, len)
    else
      e ← gete;
      if negb (bool_decide (vhash = take (Z.to_nat tag_len) (hash_buffer e digest))) || fail
      then mret (- EBADMSG, len)
      else mret (0, len).

Definition tls_decrypt (caop : crypt_auth_op) (auth_sg : list sg_entry) (auth_len : Z)
    (dst_sg : list sg_entry) (len : Z) : K csession (Z * Z) :=
  s ← getx;
  '(ret, len, fail) ←
    (if has_cipher s then
       ret ← on_cdata (cryptodev_cipher_decrypt dst_sg dst_sg len);
       if negb (ret =? 0) then mret (ret, len, false)
       else if 1 <? cd_blocksize (cs_cdata s) then
         ret ← verify_tls_record_pad dst_sg (s32 len) (cd_blocksize (cs_cdata s));
         if ret <? 0 then mret (0, len, true) else mret (0, u32 (len - ret), false)
       else mret (0, len, false)
     else mret (0, len, false));
  if negb (ret =? 0) then mret (ret, len)
  else if has_hash s then tls_check_tag caop auth_sg auth_len dst_sg len fail
  else mret (0, len).

(** [tls_auth_n_crypt] *)
Definition tls_auth_n_crypt (kcaop : kernel_crypt_auth_op) (auth_sg : list sg_entry)
    (auth_len : Z) (dst_sg : list sg_entry) (len : Z) : K csession (Z * kernel_crypt_auth_op) :=
  let caop := ka_caop kcaop in
  '(ret, len) ← (if ca_op caop =? COP_ENCRYPT
                 then tls_encrypt caop auth_sg auth_len dst_sg len
                 else tls_decrypt caop auth_sg auth_len dst_sg len);
  if negb (ret =? 0) then mret (ret, kcaop)
  else mret (0, set_ka_dst_len (s32 len) kcaop).

(** ** SRTP *)

Definition srtp_encrypt (caop : crypt_auth_op) (auth_sg : list sg_entry) (auth_len : Z)
    (dst_sg : list sg_entry) (len : Z) : K csession Z :=
  s ← getx;
  ret ← (if has_cipher s then on_cdata (cryptodev_cipher_encrypt dst_sg dst_sg len) else mret 0);
  if negb (ret =? 0) then mret ret
  else if has_hash s then
    ret ← (if 0 <? auth_len then on_hdata (cryptodev_hash_update auth_sg auth_len) else mret 0);
    if negb (ret =? 0) then mret ret
    else
      '(ret, digest) ← on_hdata cryptodev_hash_final;
      if negb (ret =? 0) then mret ret
      else
        e ← gete;
        h ← from_hash_buffer (hash_buffer e digest) (ca_tag_len caop);
        nleft ← copy_to_user (ca_tag caop) h;
        if negb (nleft =? 0) then mret (- EFAULT) else mret 0
  else mret 0.

(** The verification of the tag before decryption. *)
Definition srtp_check_tag (caop : crypt_auth_op) (auth_sg : list sg_entry) (auth_len len : Z)
    : K csession Z :=
  let tag_len := ca_tag_len caop in
  if (AALG_MAX_RESULT_LEN <? tag_len) || (len <? tag_len) then mret (- EINVAL)
  else
    '(vhash, nleft) ← copy_from_user (ca_tag caop) tag_len;
    if negb (nleft =? 0) then mret (- EFAULT)
    else
      ret ← on_hdata (cryptodev_hash_update auth_sg auth_len);
      if negb (ret =? 0) then mret ret
      else
        '(ret, digest) ← on_hdata cryptodev_hash_final;
        if negb (ret =? 0) then mret ret
        else
          e ← gete;
          if negb (bool_decide (vhash = take (Z.to_nat tag_len) (hash_buffer e digest)))
          then mret (- EBADMSG) else mret 0.

Definition srtp_decrypt (caop : crypt_auth_op) (auth_sg : list sg_entry) (auth_len : Z)
    (dst_sg : list sg_entry) (len : Z) : K csession Z :=
  s ← getx;
  ret ← (if has_hash s then srtp_check_tag caop auth_sg auth_len len else mret 0);
  if negb (ret =? 0) then mret ret
  else if has_cipher s then on_cdata (cryptodev_cipher_decrypt dst_sg dst_sg len)
  else mret 0.

(** [srtp_auth_n_crypt] *)
Definition srtp_auth_n_crypt (kcaop : kernel_crypt_auth_op) (auth_sg : list sg_entry)
    (auth_len : Z) (dst_sg : list sg_entry) (len : Z) : K csession (Z * kernel_crypt_auth_op) :=
  let caop := ka_caop kcaop in
  ret ← (if ca_op caop =? COP_ENCRYPT
         then srtp_encrypt caop auth_sg auth_len dst_sg len
         else srtp_decrypt caop auth_sg auth_len dst_sg len);
  if negb (ret =? 0) then mret (ret, kcaop)
  else mret (0, set_ka_dst_len (s32 len) kcaop).

(** ** AEAD *)

(** [auth_n_crypt] *)
Definition auth_n_crypt (kcaop : kernel_crypt_auth_op) (auth_sg : list sg_entry) (auth_len : Z)
    (src_sg dst_sg : list sg_entry) (len : Z) : K csession (Z * kernel_crypt_auth_op) :=
  let caop := ka_caop kcaop in
  max_tag_len ← on_cdata cryptodev_cipher_get_tag_size;
  if u32 max_tag_len <? ca_tag_len caop then mret (- EINVAL, kcaop)
  else
    kcaop ← (if negb (ca_tag_len caop =? 0)
             then on_cdata (cryptodev_cipher_set_tag_size (s32 (ca_tag_len caop)));; mret kcaop
             else mret (set_ka_caop (set_ca_tag_len (u32 max_tag_len)) kcaop));
    let caop := ka_caop kcaop in
    on_cdata (cryptodev_cipher_auth auth_sg auth_len);;
    if ca_op caop =? COP_ENCRYPT then
      ret ← on_cdata (cryptodev_cipher_encrypt src_sg dst_sg len);
      if negb (ret =? 0) then mret (ret, kcaop)
      else mret (0, set_ka_dst_len (s32 (len + ca_tag_len caop))
                      (set_ka_caop (set_ca_tag (u64 (ca_dst caop + len))) kcaop))
    else
      ret ← on_cdata (cryptodev_cipher_decrypt src_sg dst_sg len);
      if negb (ret =? 0) then mret (ret, kcaop)
      else mret (0, set_ka_dst_len (s32 (len - ca_tag_len caop))
                      (set_ka_caop (set_ca_tag (u64 (ca_dst caop + len - ca_tag_len caop))) kcaop)).

(** ** Running a request *)

(** The SRTP branch of [__crypto_auth_run_zc]. *)
Definition auth_run_srtp (kcaop : kernel_crypt_auth_op) : K csession (Z * kernel_crypt_auth_op) :=
  let caop := ka_caop kcaop in
  s ← getx;
  if has_cipher s &&
     ((cd_stream (cs_cdata s) =? 0) || negb (cd_aead (cs_cdata s) =? 0))
  then mret (- EINVAL, kcaop)
  else
    '(ret, auth_sg, dst_sg) ← get_userbuf_srtp kcaop;
    if negb (ret =? 0) then mret (ret, kcaop)
    else
      r ← srtp_auth_n_crypt kcaop auth_sg (ca_auth_len caop) dst_sg (ca_len caop);
      release_user_pages;;
      mret r.

(** The TLS and AEAD branch, with the authenticated data in [auth_sg]. *)
Definition auth_run_copied (kcaop : kernel_crypt_auth_op) (auth_sg : list sg_entry)
    : K csession (Z * kernel_crypt_auth_op) :=
  let caop := ka_caop kcaop in
  s ← getx;
  if has_flag (ca_flags caop) COP_FLAG_AEAD_TLS_TYPE && (cd_aead (cs_cdata s) =? 0) then
    '(ret, dst_sg) ← get_userbuf_tls kcaop;
    if negb (ret =? 0) then mret (ret, kcaop)
    else
      r ← tls_auth_n_crypt kcaop auth_sg (ca_auth_len caop) dst_sg (ca_len caop);
      release_user_pages;;
      mret r
  else if negb (has_cipher s) || (cd_stream (cs_cdata s) =? 0) || (cd_aead (cs_cdata s) =? 0) then
    mret (- EINVAL, kcaop)
  else
    tag_size ← on_cdata cryptodev_cipher_get_tag_size;
    let dst_len := if ca_op caop =? COP_ENCRYPT then s32 (ca_len caop + tag_size)
                   else s32 (ca_len caop) in
    '(ret, src_sg, dst_sg) ← get_userbuf (ca_src caop) (ca_len caop) (ca_dst caop) (u32 dst_len);
    if negb (ret =? 0) then mret (ret, kcaop)
    else
      r ← auth_n_crypt kcaop auth_sg (ca_auth_len caop) src_sg dst_sg (ca_len caop);
      release_user_pages;;
      mret r.

(** [__crypto_auth_run_zc] *)
Definition __crypto_auth_run_zc (kcaop : kernel_crypt_auth_op)
    : K csession (Z * kernel_crypt_auth_op) :=
  let caop := ka_caop kcaop in
  if has_flag (ca_flags caop) COP_FLAG_AEAD_SRTP_TYPE then auth_run_srtp kcaop
  else if PAGE_SIZE <? ca_auth_len caop then mret (- EINVAL, kcaop)
  else
    auth_buf ← kalloc OFreePage;
    if auth_buf =? 0 then mret (- ENOMEM, kcaop)
    else
      r ← (if negb (ca_auth_src caop =? 0) && (0 <? ca_auth_len caop) then
             '(bs, nleft) ← copy_from_user (ca_auth_src caop) (ca_auth_len caop);
             mode (set_mem (pokes (seqZ auth_buf (ca_auth_len caop)) bs));;
             if negb (nleft =? 0) then mret (- EFAULT, kcaop)
             else auth_run_copied kcaop (sg_init_one auth_buf (ca_auth_len caop))
           else auth_run_copied kcaop []);
      kfree auth_buf;;
      mret r.

(** [crypto_auth_run] between taking and releasing the session. *)
Definition crypto_auth_run_locked (kcaop : kernel_crypt_auth_op)
    : K csession (Z * kernel_crypt_auth_op) :=
  s ← getx;
  if negb (has_cipher s) then mret (- EINVAL, kcaop)
  else
    ret ← (if has_hash s then on_hdata cryptodev_hash_reset else mret 0);
    if negb (ret =? 0) then mret (ret, kcaop)
    else
      let iv_size := Z.min (cd_ivsize (cs_cdata s)) (ka_ivlen kcaop) in
      on_cdata (cryptodev_cipher_set_iv (ka_iv kcaop) iv_size);;
      '(ret, kcaop) ← __crypto_auth_run_zc kcaop;
      if negb (ret =? 0) then mret (ret, kcaop)
      else
        iv ← on_cdata (cryptodev_cipher_get_iv (ka_iv kcaop) iv_size);
        mret (0, set_ka_iv iv kcaop).

(** [crypto_auth_run] *)
Definition crypto_auth_run (kcaop : kernel_crypt_auth_op)
    : K crypt_priv (Z * kernel_crypt_auth_op) :=
  let caop := ka_caop kcaop in
  if negb (ca_op caop =? COP_ENCRYPT) && negb (ca_op caop =? COP_DECRYPT) then
    mret (- EINVAL, kcaop)
  else
    ses ← crypto_get_session_by_sid (ca_ses caop);
    if ses =? 0 then mret (- EINVAL, kcaop)
    else
      r ← on_session ses (crypto_auth_run_locked kcaop);
      crypto_put_session ses;;
      mret r.
End Authenc.
