(* ===== verification/AuthencFacts.v ===== *)
(** * TLS and SRTP records

    What CIOCAUTHCRYPT does to a record: sealing a TLS record and opening it
    again gives the payload back, and a record whose tag does not match is
    refused, for SRTP before anything is decrypted. *)
From stdpp Require Import base gmap gmultiset list strings numbers.
From S2P Require Import Prelude Kernel KernelFacts Structs CryptoApi Sg.
From S2P Require Import Cryptlib CryptlibFacts Zc ZcFacts Fcrypt FcryptFacts Run RunFacts Authenc.
Open Scope Z_scope.

(** ** Parts of a scatterlist *)

Lemma sg_part_split l a b :
  0 <= a -> 0 <= b -> sg_part l 0 (a + b) = sg_part l 0 a ++ sg_part l a b.
Proof.
  intros Ha Hb. unfold sg_part. rewrite drop_0, Z2Nat.inj_add by done. by rewrite take_take_drop.
Qed.

Lemma sg_part_sublist l a n : sg_part l a n `sublist_of` sg_addrs l.
Proof. etrans; [apply sublist_take|apply sublist_drop]. Qed.

(** Writing into a record. *)
Lemma view_write l off bs m n :
  NoDup (sg_addrs l) -> 0 <= off -> off + Z.of_nat (length bs) <= n ->
  n <= Z.of_nat (length (sg_addrs l)) ->
  let V := peeks m (sg_part l 0 n) in
  peeks (pokes (sg_part l off (Z.of_nat (length bs))) bs m) (sg_part l 0 n) =
  take (Z.to_nat off) V ++ bs ++ drop (Z.to_nat off + length bs) V.
Proof.
  intros Hnd Ho Hn Hl V. unfold V. set (k := Z.of_nat (length bs)) in *.
  assert (Hs : sg_part l 0 n = sg_part l 0 off ++ sg_part l off k ++ sg_part l (off + k) (n - (off + k))).
  { replace n with ((off + k) + (n - (off + k))) at 1 by lia.
    rewrite (sg_part_split l (off + k)), (sg_part_split l off k), <- app_assoc by lia. done. }
  assert (Hd : NoDup (sg_part l 0 n)) by (eapply sublist_NoDup; [exact Hnd|apply sg_part_sublist]).
  assert (H0 : length (sg_part l 0 off) = Z.to_nat off) by (rewrite length_sg_part; lia).
  assert (H1 : length (sg_part l off k) = length bs) by (rewrite length_sg_part; lia).
  rewrite Hs in *. apply list.NoDup_app in Hd as (_ & Hd0 & Hd). apply list.NoDup_app in Hd as (Hd1 & Hd2 & _).
  rewrite !peeks_app, (peeks_pokes_eq (sg_part l off k)), !peeks_pokes_disj by (done || set_solver).
  rewrite take_app_length', drop_app_ge by (rewrite ?length_peeks; lia).
  rewrite drop_app_ge by (rewrite !length_peeks; lia). f_equal. f_equal.
  rewrite !length_peeks, H0, H1. replace (_ - _ - _)%nat with 0%nat by lia. by rewrite drop_0.
Qed.

(** Reading from a record. *)
Lemma view_read l off k m n :
  0 <= off -> 0 <= k -> off + k <= n ->
  peeks m (sg_part l off k) = take (Z.to_nat k) (drop (Z.to_nat off) (peeks m (sg_part l 0 n))).
Proof.
  intros Ho Hk Hn. unfold peeks, sg_part. rewrite drop_0, <- fmap_drop, <- fmap_take. f_equal.
  rewrite !take_drop_commute, take_take. do 2 f_equal. lia.
Qed.

Section Walks.
Context {X : Type}.
Implicit Types (e : env) (x : X).

Lemma scatterwalk_write_spec e x l start bs (Q : unit -> env * X -> Prop) :
  0 <= start < 2 ^ 32 -> start + Z.of_nat (length bs) <= Z.of_nat (length (sg_addrs l)) ->
  sg_live e l -> Q tt (set_mem (pokes (sg_part l start (Z.of_nat (length bs))) bs) e, x) ->
  wp (scatterwalk_write l start bs) Q (e, x).
Proof.
  intros Hs Hn Hl HQ. unfold scatterwalk_write. destruct bs as [|b bs].
  - kgo. by rewrite set_mem_nil in HQ.
  - rewrite u32_small by done. by apply sg_write_spec.
Qed.

Lemma scatterwalk_read_spec e x l start n (Q : bytes -> env * X -> Prop) :
  0 <= start < 2 ^ 32 -> 0 <= n -> start + n <= Z.of_nat (length (sg_addrs l)) -> sg_live e l ->
  Q (peeks (e_mem e) (sg_part l start n)) (e, x) -> wp (scatterwalk_read l start n) Q (e, x).
Proof.
  intros Hs Hn Hle Hl HQ. unfold scatterwalk_read. destruct (Z.eqb_spec n 0) as [->|].
  - kgo. unfold sg_part in HQ. by rewrite take_0 in HQ.
  - rewrite u32_small by done. by apply sg_read_spec.
Qed.
End Walks.

(** ** Padding *)

(** The padding of a record of [n] bytes. *)
Definition pad_bytes (n bs : Z) : bytes :=
  let size := bs - n mod bs in replicate (Z.to_nat size) (size - 1).

Lemma length_pad_bytes n bs :
  0 < bs -> Z.of_nat (length (pad_bytes n bs)) = bs - n mod bs.
Proof. intros Hb. unfold pad_bytes. rewrite length_replicate. pose proof (Z.mod_pos_bound n bs). lia. Qed.

Lemma padded_blocks n bs : 0 < bs -> (bs | n + (bs - n mod bs)).
Proof. intros Hb. exists (n / bs + 1). pose proof (Z.div_mod n bs). lia. Qed.

Section AuthencFacts.
Context `{CryptoAPI, !CryptoAPISizes}.
Implicit Types (e : env) (s : csession).

Lemma pad_record_spec e s l len bs (Q : Z -> env * csession -> Prop) :
  0 <= len -> 0 < bs <= 256 -> len + bs < 2 ^ 31 ->
  len + bs <= Z.of_nat (length (sg_addrs l)) -> sg_live e l ->
  Q (bs - len mod bs)
    (set_mem (pokes (sg_part l len (Z.of_nat (length (pad_bytes len bs)))) (pad_bytes len bs)) e, s) ->
  wp (pad_record l len bs) Q (e, s).
Proof.
  intros Hl Hb Hm Hn Hlive HQ. pose proof (Z.mod_pos_bound len bs ltac:(lia)).
  pose proof (length_pad_bytes len bs ltac:(lia)) as Hlen.
  unfold pad_record. rewrite Z.rem_mod_nonneg by lia. replace (_ <? _) with false by lia.
  replace (replicate _ _) with (pad_bytes len bs).
  2: { unfold pad_bytes, u8. by rewrite (Z.mod_small (_ - _)) by lia. }
  kgo. apply scatterwalk_write_spec; [lia|lia|done|]. by kgo.
Qed.

(** What follows the padding length byte by byte. *)
Lemma verify_pad_spec e s l V n bs (Q : Z -> env * csession -> Prop) :
  let R := V ++ pad_bytes n bs in
  Z.of_nat (length V) = n -> 0 < bs <= 256 -> n + bs < 2 ^ 31 ->
  Z.of_nat (length R) <= Z.of_nat (length (sg_addrs l)) -> sg_live e l ->
  peeks (e_mem e) (sg_part l 0 (Z.of_nat (length R))) = R ->
  Q (bs - n mod bs) (e, s) ->
  wp (verify_tls_record_pad l (Z.of_nat (length R)) bs) Q (e, s).
Proof.
  intros R Hn Hb Hm Hle Hlive HR HQ. pose proof (Z.mod_pos_bound n bs ltac:(lia)).
  pose proof (length_pad_bytes n bs ltac:(lia)) as Hlen.
  assert (HRl : Z.of_nat (length R) = n + (bs - n mod bs)) by (unfold R; rewrite length_app; lia).
  set (size := bs - n mod bs) in *.
  assert (Hpad : pad_bytes n bs = replicate (Z.to_nat size) (size - 1)) by done.
  unfold verify_tls_record_pad. kgo. apply scatterwalk_read_spec; [lia|lia|lia|done|].
  rewrite (view_read _ _ _ _ (Z.of_nat (length R))), HR by lia. kgo.
  assert (Hlast : default 0 (head (take (Z.to_nat 1) (drop (Z.to_nat (Z.of_nat (length R) - 1)) R))) = size - 1).
  { unfold R at 2. rewrite Hpad, drop_app_ge by lia.
    replace (_ - _)%nat with (Z.to_nat size - 1)%nat by (rewrite HRl; lia).
    rewrite drop_replicate. replace (_ - _)%nat with 1%nat by lia. done. }
  rewrite Hlast. replace (_ <? _) with false by lia. kgo.
  apply scatterwalk_read_spec; [lia|lia|lia|done|].
  rewrite (view_read _ _ _ _ (Z.of_nat (length R))), HR by lia. kgo.
  replace (Z.of_nat (length R) - (size - 1) - 1) with n by lia.
  unfold R at 1. rewrite drop_app_length' by lia. rewrite Hpad, take_replicate, take_replicate.
  assert (Hall : forall k, forallb (Z.eqb (size - 1)) (replicate k (size - 1)) = true).
  { induction k; simpl; [done|]. by rewrite Z.eqb_refl. }
  rewrite Hall. kgo. by replace (size - 1 + 1) with size by lia.
Qed.

(** ** The tag *)

Section Exact.
Context `{!CipherLaws, !CryptoAPISucceeds}.

(** The hash of the authenticated data and the payload. *)
Definition tls_mac s (st : hstate) (A D : bytes) : bytes :=
  let st := if (0 <? length A)%nat then (hash_step s st A).2 else st in
  let st := if (0 <? length D)%nat then (hash_step s st D).2 else st in
  (ahash_final (ahash_name (cs_hdata s)) st).2.

Lemma hash_step_ok s st data :
  hdata_ok (cs_hdata s) -> hash_step s st data = (0, (hash_step s st data).2).
Proof.
  intros Hh. unfold hash_step. destruct (has_hash s) eqn:Hi; [|done].
  destruct (hdata_alg _ Hh (has_hash_init _ Hi)) as (a & Halg & _).
  destruct (ahash_update _ _ _) as [[ret ev] st'] eqn:E. f_equal.
  apply req_result_ok; [by eapply ahash_update_completes|by eapply ahash_update_ok].
Qed.

(** An update that is skipped when there is nothing to hash. *)
Lemma hash_some_spec e s sg len l (Q : Z -> env * csession -> Prop) :
  runnable e s l -> hdata_ok (cs_hdata s) -> has_hash s = true -> sg_room e sg len ->
  (let data := peeks (e_mem e) (sg_part sg 0 len) in
   Q 0 (e, ses_upd (cd_iv (cs_cdata s))
             (if (0 <? length data)%nat then (hash_step s (ahash_st (cs_hdata s)) data).2
              else ahash_st (cs_hdata s)) s)) ->
  wp (if 0 <? len then on_hdata (cryptodev_hash_update sg len) else mret 0) Q (e, s).
Proof.
  intros Hr Hok Hh Hroom HQ. cbv zeta in HQ. destruct (Hroom) as [Hlen Hlive].
  rewrite length_peeks, length_sg_part in HQ by lia.
  destruct (Z.ltb_spec 0 len).
  - replace (0 <? Z.to_nat len)%nat with true in HQ by (symmetry; apply Nat.ltb_lt; lia).
    pose proof (run_hash_spec e s sg len l Q Hr Hroom) as Hwp. rewrite Hh in Hwp. apply Hwp.
    by rewrite (hash_step_ok s) by done.
  - replace (0 <? Z.to_nat len)%nat with false in HQ by (symmetry; apply Nat.ltb_ge; lia).
    kgo. by rewrite ses_upd_id in HQ.
Qed.

Lemma tls_hash_spec e s auth auth_len dst len l (Q : Z * bytes -> env * csession -> Prop) :
  runnable e s l -> hdata_ok (cs_hdata s) -> has_hash s = true ->
  sg_room e auth auth_len -> sg_room e dst len ->
  (forall st', let A := peeks (e_mem e) (sg_part auth 0 auth_len) in
     let D := peeks (e_mem e) (sg_part dst 0 len) in
     length (tls_mac s (ahash_st (cs_hdata s)) A D) = Z.to_nat (hd_digestsize (cs_hdata s)) ->
     0 < hd_digestsize (cs_hdata s) <= 64 ->
     Q (0, tls_mac s (ahash_st (cs_hdata s)) A D) (e, ses_upd (cd_iv (cs_cdata s)) st' s)) ->
  wp (tls_hash auth auth_len dst len) Q (e, s).
Proof.
  intros Hr Hok Hh Ha Hd HQ. cbv zeta in HQ. unfold tls_hash. kstep.
  eapply hash_some_spec; [done..|]. set (A := peeks _ (sg_part auth 0 auth_len)) in *. cbv zeta. kgo.
  set (s1 := ses_upd _ _ s).
  eapply (hash_some_spec e s1); [by apply runnable_upd|by destruct Hok|done|done|].
  set (D := peeks _ (sg_part dst 0 len)) in *. cbv zeta. kgo. set (s2 := ses_upd _ _ s1).
  assert (Hmac : tls_mac s (ahash_st (cs_hdata s)) A D =
                 (ahash_final (ahash_name (cs_hdata s2)) (ahash_st (cs_hdata s2))).2) by done.
  specialize (HQ (ahash_st (cs_hdata s2))). rewrite Hmac in HQ.
  apply on_hdata_spec. eapply hash_final_spec; [by destruct Hr| |by apply (has_hash_init s2)|by destruct Hok|].
  { destruct Hr as [_ _ Hsub _]. exact Hsub. }
  destruct (ahash_final _ _) as [[r ev] d] eqn:E. intros Hl Hds.
  destruct (hdata_alg _ Hok (has_hash_init _ Hh)) as (a & Halg & _).
  assert (req_result r ev = 0) as ->
    by (apply req_result_ok; [by eapply ahash_final_completes|by eapply (ahash_final_ok _ a)]).
  cbn [fst snd] in *. replace (set_cs_hdata (cs_hdata s2) s2) with s2 by done. by apply HQ.
Qed.

(** ** TLS *)

(** A session and a record buffer with room for the tag and the padding. *)
Record tls_ready e s l (auth : list sg_entry) auth_len (dst : list sg_entry) len tag_len : Prop := {
  tls_runnable : runnable e s l;
  tls_cdata : cdata_ok (cs_cdata s);
  tls_hdata : hdata_ok (cs_hdata s);
  tls_cipher : has_cipher s = true;
  tls_hash_set : has_hash s = true;
  tls_block : cd_blocksize (cs_cdata s) <= 256;
  tls_auth : sg_room e auth auth_len;
  tls_nodup : NoDup (sg_addrs dst);
  tls_live : sg_live e dst;
  tls_apart : sg_addrs auth ## sg_addrs dst;
  tls_len : 0 <= len /\ 0 <= tag_len <= 64 /\ len + tag_len + 256 < 2 ^ 31;
  tls_room : len + tag_len + cd_blocksize (cs_cdata s) <= Z.of_nat (length (sg_addrs dst))
}.

(** The plaintext of a record: payload, tag, padding. *)
Definition tls_pad s (n : Z) : bytes :=
  if 1 <? cd_blocksize (cs_cdata s) then pad_bytes n (cd_blocksize (cs_cdata s)) else [].
Definition tls_tag e s (A D : bytes) (tag_len : Z) : bytes :=
  take (Z.to_nat tag_len) (hash_buffer e (tls_mac s (ahash_st (cs_hdata s)) A D)).
Definition tls_plain e s (A D : bytes) (tag_len : Z) : bytes :=
  let V := D ++ tls_tag e s A D tag_len in V ++ tls_pad s (Z.of_nat (length V)).

Lemma blocksize_pos s : cdata_ok (cs_cdata s) -> plain s -> has_cipher s = true -> 0 < cd_blocksize (cs_cdata s).
Proof.
  intros Hc Hp Hi. destruct (session_cipher _ Hc Hp Hi) as (a & Ha & ->).
  by destruct (ablkcipher_sizes _ _ Ha).
Qed.

Lemma length_hash_buffer e d : (length d <= 64)%nat -> length (hash_buffer e d) = 64%nat.
Proof. intros. unfold hash_buffer, AALG_MAX_RESULT_LEN. rewrite length_app, length_replicate. lia. Qed.

Lemma length_tls_pad s n :
  cdata_ok (cs_cdata s) -> plain s -> has_cipher s = true ->
  0 <= Z.of_nat (length (tls_pad s n)) <= cd_blocksize (cs_cdata s) /\
  (cd_blocksize (cs_cdata s) | n + Z.of_nat (length (tls_pad s n))).
Proof.
  intros Hc Hp Hi. pose proof (blocksize_pos _ Hc Hp Hi) as Hb. unfold tls_pad.
  destruct (Z.ltb_spec 1 (cd_blocksize (cs_cdata s))); simpl.
  - rewrite length_pad_bytes by done. pose proof (Z.mod_pos_bound n _ Hb).
    split; [lia|by apply padded_blocks].
  - replace (cd_blocksize (cs_cdata s)) with 1 by lia. split; [lia|apply Z.divide_1_l].
Qed.

Lemma runnable_mem e f s l : runnable e s l -> runnable (set_mem f e) s l.
Proof. by apply runnable_heap. Qed.

(** The cipher request at the end of the encryption and at the start of the
    decryption. *)
Lemma tls_cipher_spec e s dec sg len l (Q : Z -> env * csession -> Prop) :
  runnable e s l -> cdata_ok (cs_cdata s) -> has_cipher s = true -> sg_room e sg len ->
  (cd_blocksize (cs_cdata s) | len) ->
  (let data := peeks (e_mem e) (sg_part sg 0 len) in
   let r := cipher_run dec (cs_cdata s) data in
   req_ok (cr_ret r) (cr_events r) -> length (cr_out r) = length data ->
   Q 0 (set_mem (pokes (sg_part sg 0 len) (cr_out r)) e,
        ses_upd (cr_iv r) (ahash_st (cs_hdata s)) s)) ->
  wp (on_cdata (cipher_request dec sg sg len)) Q (e, s).
Proof.
  intros Hr Hc Hi Hroom Hb HQ. cbv zeta in HQ. destruct (Hroom) as [Hlen _].
  pose proof (run_cipher_spec e s dec sg sg len l Q Hr Hroom Hroom) as Hwp. rewrite Hi in Hwp.
  apply Hwp. clear Hwp. unfold cipher_step. rewrite Hi.
  replace (set_cd_iv (cd_iv (cs_cdata s)) (cs_cdata s)) with (cs_cdata s) by (by destruct (cs_cdata s)).
  destruct (session_cipher _ Hc (run_plain _ _ _ Hr) Hi) as (a & Ha & Hbs).
  set (data := peeks _ _) in *. set (r := cipher_run dec (cs_cdata s) data) in *.
  assert (Hok : req_ok (cr_ret r) (cr_events r)).
  { apply (ablkcipher_ok dec _ a); [done|]. unfold data. rewrite length_peeks, length_sg_part by lia.
    rewrite Z2Nat.id, <- Hbs by lia. done. }
  destruct (ablkcipher_length dec (tfm_name (cs_cdata s)) (tfm_key (cs_cdata s)) (cd_iv (cs_cdata s)) data) as [Hl _].
  assert (req_result (cr_ret r) (cr_events r) = 0) as ->
    by (apply req_result_ok; [apply ablkcipher_completes|done]). by apply HQ.
Qed.

Lemma ses_upd_cdata s st : cs_cdata (ses_upd (cd_iv (cs_cdata s)) st s) = cs_cdata s.
Proof. simpl. by destruct (cs_cdata s). Qed.

(** Writing into the record does not touch the authenticated data. *)
Lemma auth_apart (auth dst : list sg_entry) n a k bs m :
  sg_addrs auth ## sg_addrs dst ->
  peeks (pokes (sg_part dst a k) bs m) (sg_part auth 0 n) = peeks m (sg_part auth 0 n).
Proof.
  intros Hd. apply peeks_pokes_disj. intros x Hx Hy. apply (Hd x).
  - eapply elem_of_sublist; [exact Hx|apply sg_part_sublist].
  - eapply elem_of_sublist; [exact Hy|apply sg_part_sublist].
Qed.

(** The lengths of a record. *)
Lemma tls_lengths e s l auth auth_len dst len tag_len A D :
  tls_ready e s l auth auth_len dst len tag_len -> Z.of_nat (length D) = len ->
  (length (tls_mac s (ahash_st (cs_hdata s)) A D) <= 64)%nat ->
  Z.of_nat (length (tls_tag e s A D tag_len)) = tag_len /\
  Z.of_nat (length (tls_plain e s A D tag_len)) =
    len + tag_len + Z.of_nat (length (tls_pad s (len + tag_len))) /\
  0 <= Z.of_nat (length (tls_pad s (len + tag_len))) <= cd_blocksize (cs_cdata s) /\
  (cd_blocksize (cs_cdata s) | Z.of_nat (length (tls_plain e s A D tag_len))).
Proof.
  intros [Hr Hc _ Hi _ _ _ _ _ _ Hl _] HD Hm.
  assert (Ht : Z.of_nat (length (tls_tag e s A D tag_len)) = tag_len).
  { unfold tls_tag. rewrite length_take, length_hash_buffer by done. lia. }
  destruct (length_tls_pad s (len + tag_len) Hc (run_plain _ _ _ Hr) Hi) as [Hp Hdiv].
  assert (Hpl : Z.of_nat (length (tls_plain e s A D tag_len)) =
    len + tag_len + Z.of_nat (length (tls_pad s (len + tag_len)))).
  { assert (HV : Z.of_nat (length (D ++ tls_tag e s A D tag_len)) = len + tag_len)
      by (rewrite length_app; lia).
    unfold tls_plain. rewrite HV, length_app. lia. }
  rewrite Hpl. done.
Qed.

(** The record before encryption. *)
Lemma tls_record_written e s l auth auth_len dst len tag_len m :
  tls_ready e s l auth auth_len dst len tag_len -> m = e_mem e ->
  let A := peeks m (sg_part auth 0 auth_len) in
  let D := peeks m (sg_part dst 0 len) in
  let T := tls_tag e s A D tag_len in
  let pad := tls_pad s (len + tag_len) in
  (length (tls_mac s (ahash_st (cs_hdata s)) A D) <= 64)%nat ->
  peeks (pokes (sg_part dst (len + tag_len) (Z.of_nat (length pad))) pad
          (pokes (sg_part dst len (Z.of_nat (length T))) T m))
    (sg_part dst 0 (Z.of_nat (length (tls_plain e s A D tag_len)))) = tls_plain e s A D tag_len.
Proof.
  intros Hr -> A D T pad Hmac. destruct (Hr) as [Hrun Hc _ Hi _ _ _ Hnd _ _ Hl Hroom].
  pose proof (blocksize_pos _ Hc (run_plain _ _ _ Hrun) Hi).
  assert (HD : Z.of_nat (length D) = len) by (unfold D; rewrite length_peeks, length_sg_part; lia).
  destruct (tls_lengths _ _ _ _ _ _ _ _ A D Hr HD Hmac) as (HT & HP & Hpad & _). fold T pad in HT, HP, Hpad.
  set (P := tls_plain e s A D tag_len) in *. set (n := Z.of_nat (length P)) in *.
  rewrite (view_write dst (len + tag_len) pad _ n) by (lia || done).
  rewrite (view_write dst len T _ n) by (lia || done).
  set (V := peeks (e_mem e) (sg_part dst 0 n)).
  assert (HV : take (Z.to_nat len) V = D).
  { unfold V, D. rewrite (view_read dst 0 len _ n), drop_0 by lia. done. }
  assert (HVl : length V = Z.to_nat n) by (unfold V; rewrite length_peeks, length_sg_part; lia).
  rewrite HV, (app_assoc D T), take_app_length' by (rewrite length_app; lia).
  rewrite drop_ge by (rewrite !length_app, length_drop; lia). rewrite app_nil_r.
  unfold P, tls_plain. f_equal. unfold pad. f_equal. rewrite length_app. fold T. lia.
Qed.

Lemma tls_encrypt_spec e s l caop auth auth_len dst len (Q : Z * Z -> env * csession -> Prop) :
  tls_ready e s l auth auth_len dst len (ca_tag_len caop) ->
  let A := peeks (e_mem e) (sg_part auth 0 auth_len) in
  let D := peeks (e_mem e) (sg_part dst 0 len) in
  let P := tls_plain e s A D (ca_tag_len caop) in
  let r := cipher_run false (cs_cdata s) P in
  (forall f st', req_ok (cr_ret r) (cr_events r) ->
     peeks (f (e_mem e)) (sg_part dst 0 (Z.of_nat (length P))) = cr_out r ->
     peeks (f (e_mem e)) (sg_part auth 0 auth_len) = A ->
     (length (tls_mac s (ahash_st (cs_hdata s)) A D) <= 64)%nat ->
     Q (0, Z.of_nat (length P)) (set_mem f e, ses_upd (cr_iv r) st' s)) ->
  wp (tls_encrypt caop auth auth_len dst len) Q (e, s).
Proof.
  intros Hr A D P r HQ. destruct (Hr) as [Hrun Hc Hh Hi Hhi Hb Ha Hnd Hlive Hap Hl Hroom].
  pose proof (blocksize_pos _ Hc (run_plain _ _ _ Hrun) Hi) as Hpos.
  assert (HD : Z.of_nat (length D) = len) by (unfold D; rewrite length_peeks, length_sg_part; lia).
  unfold tls_encrypt. kgo. rewrite Hhi. kgo.
  eapply tls_hash_spec; [done..|split; [lia|done]|]. intros st'. cbv zeta. fold A D. intros Hml Hds. kgo.
  assert (Hm64 : (length (tls_mac s (ahash_st (cs_hdata s)) A D) <= 64)%nat) by lia.
  destruct (tls_lengths _ _ _ _ _ _ _ _ A D Hr HD Hm64) as (HT & HP & Hpad & Hdiv). fold P in HP, Hdiv.
  unfold copy_tls_hash, from_hash_buffer, AALG_MAX_RESULT_LEN. rewrite (proj2 (Z.ltb_ge _ _)) by lia. kgo.
  fold (tls_tag e s A D (ca_tag_len caop)). set (T := tls_tag _ _ _ _ _) in *. rewrite !s32_small by lia.
  apply scatterwalk_write_spec; [lia|lia|done|]. kgo. rewrite Hi, u32_small by lia. kgo.
  rewrite s32_small by lia.
  set (pad := tls_pad s (len + ca_tag_len caop)) in *.
  assert (Hnext : forall e1, e1 = set_mem (fun m =>
      pokes (sg_part dst (len + ca_tag_len caop) (Z.of_nat (length pad))) pad
        (pokes (sg_part dst len (Z.of_nat (length T))) T m)) e ->
    wp (on_cdata (cryptodev_cipher_encrypt dst dst (Z.of_nat (length P))))
      (fun ret => wp (mret (ret, Z.of_nat (length P))) Q)
      (e1, ses_upd (cd_iv (cs_cdata s)) st' s)).
  { intros e1 ->. eapply (tls_cipher_spec _ _ false); [by apply runnable_upd, runnable_mem|by rewrite ses_upd_cdata|done|split; [lia|done]| |].
    - by rewrite ses_upd_cdata.
    - cbv zeta. rewrite ses_upd_cdata. cbn [e_mem set_mem].
      pose proof (tls_record_written e s l auth auth_len dst len (ca_tag_len caop) _ Hr eq_refl Hm64) as Hrec.
      cbv zeta in Hrec. fold A D T P pad in Hrec. rewrite Hrec. fold r. intros Hok Hol. kgo.
      eapply (HQ (fun m => pokes _ _ (pokes _ _ (pokes _ _ m)))); [done| | |lia].
      + apply peeks_pokes_eq; [eapply sublist_NoDup; [exact Hnd|apply sg_part_sublist]|].
        rewrite length_sg_part by lia. lia.
      + by rewrite !auth_apart. }
  assert (Hpd : pad = tls_pad s (len + ca_tag_len caop)) by done. clearbody pad. unfold tls_pad in Hpd.
  destruct (Z.ltb_spec 1 (cd_blocksize (cs_cdata s))); subst pad.
  - kgo. apply pad_record_spec; [lia..|done|]. kgo. rewrite length_pad_bytes in HP, Hpad by lia.
    rewrite u32_small by lia. replace (len + _ + _) with (Z.of_nat (length P)) by lia. by apply Hnext.
  - kgo. simpl in HP. replace (len + ca_tag_len caop) with (Z.of_nat (length P)) by lia.
    by apply Hnext.
Qed.

(** Checking the tag of a record that holds payload and tag. *)
Lemma tls_check_tag_spec e s l caop auth auth_len dst len (Q : Z * Z -> env * csession -> Prop) :
  let tag_len := ca_tag_len caop in
  let A := peeks (e_mem e) (sg_part auth 0 auth_len) in
  let D := peeks (e_mem e) (sg_part dst 0 len) in
  let T := peeks (e_mem e) (sg_part dst len tag_len) in
  runnable e s l -> hdata_ok (cs_hdata s) -> has_hash s = true -> sg_room e auth auth_len ->
  sg_room e dst (len + tag_len) -> 0 <= len -> 0 <= tag_len <= 64 -> len + tag_len < 2 ^ 31 ->
  (forall st', Q (if bool_decide (T = tls_tag e s A D tag_len) then 0 else - EBADMSG, len)
                 (e, ses_upd (cd_iv (cs_cdata s)) st' s)) ->
  wp (tls_check_tag caop auth auth_len dst (len + tag_len) false) Q (e, s).
Proof.
  intros tag_len A D T Hr Hok Hh Ha [Hd Hlive] Hl Ht Hm HQ. unfold tls_check_tag, AALG_MAX_RESULT_LEN.
  fold tag_len. replace (_ || _) with false by lia. unfold read_tls_hash. rewrite !s32_small by lia.
  replace (len + tag_len - tag_len) with len by lia. kgo.
  apply scatterwalk_read_spec; [lia|lia|lia|done|]. fold T. kgo.
  eapply tls_hash_spec; [done..|split; [lia|done]|]. intros st'. cbv zeta. fold A D. intros Hml Hds. kgo.
  fold (tls_tag e s A D tag_len). specialize (HQ st').
  destruct (bool_decide _); by kgo.
Qed.

Lemma tls_decrypt_spec e s l caop auth auth_len dst len A D (Q : Z * Z -> env * csession -> Prop) :
  let tag_len := ca_tag_len caop in
  let P := tls_plain e s A D tag_len in
  tls_ready e s l auth auth_len dst len tag_len ->
  peeks (e_mem e) (sg_part auth 0 auth_len) = A -> Z.of_nat (length D) = len ->
  (length (tls_mac s (ahash_st (cs_hdata s)) A D) <= 64)%nat ->
  cr_out (cipher_run true (cs_cdata s) (peeks (e_mem e) (sg_part dst 0 (Z.of_nat (length P))))) = P ->
  (forall f iv st', peeks (f (e_mem e)) (sg_part dst 0 len) = D ->
     Q (0, len) (set_mem f e, ses_upd iv st' s)) ->
  wp (tls_decrypt caop auth auth_len dst (Z.of_nat (length P))) Q (e, s).
Proof.
  intros tag_len P Hr HA HD Hm64 HP HQ. destruct (Hr) as [Hrun Hc Hh Hi Hhi Hb Ha Hnd Hlive Hap Hl Hroom].
  pose proof (blocksize_pos _ Hc (run_plain _ _ _ Hrun) Hi) as Hpos.
  destruct (tls_lengths _ _ _ _ _ _ _ _ A D Hr HD Hm64) as (HT & HPl & Hpad & Hdiv). fold P in HPl, Hdiv.
  set (T := tls_tag e s A D tag_len) in *. set (n := Z.of_nat (length P)) in *.
  assert (HVl : Z.of_nat (length (D ++ T)) = len + tag_len) by (rewrite length_app; lia).
  unfold tls_decrypt. kgo. rewrite Hi, Hhi. kgo.
  eapply (tls_cipher_spec _ _ true); [done..|split; [lia|done]|done|]. cbv zeta. rewrite HP. intros Hok Hol. kgo.
  set (f := pokes (sg_part dst 0 n) P). set (iv := cr_iv _).
  assert (Hview : peeks (f (e_mem e)) (sg_part dst 0 n) = P).
  { apply peeks_pokes_eq; [eapply sublist_NoDup; [exact Hnd|apply sg_part_sublist]|].
    rewrite length_sg_part by lia. lia. }
  assert (HPD : P = D ++ T ++ tls_pad s (len + tag_len)).
  { unfold P, tls_plain. fold T. rewrite HVl. by rewrite <- app_assoc. }
  assert (Hdata : peeks (f (e_mem e)) (sg_part dst 0 len) = D).
  { rewrite (view_read dst 0 len _ n), Hview, drop_0, HPD by lia. apply take_app_length'. lia. }
  assert (Htag : peeks (f (e_mem e)) (sg_part dst len tag_len) = T).
  { rewrite (view_read dst len tag_len _ n), Hview, HPD by lia.
    rewrite drop_app_length' by lia. apply take_app_length'. lia. }
  assert (Hauth : peeks (f (e_mem e)) (sg_part auth 0 auth_len) = A) by (rewrite <- HA; by apply auth_apart).
  assert (Hcheck : wp (tls_check_tag caop auth auth_len dst (len + tag_len) false) Q
                     (set_mem f e, ses_upd iv (ahash_st (cs_hdata s)) s)).
  { eapply tls_check_tag_spec; [by apply runnable_upd, runnable_mem|by destruct Hh|done|by destruct Ha|split; [lia|done]|lia|lia|lia|].
    intros st'. cbn [e_mem set_mem]. fold tag_len. rewrite Hdata, Htag, Hauth.
    rewrite bool_decide_eq_true_2 by done. by apply (HQ f iv st'). }
  unfold tls_pad in *. destruct (Z.ltb_spec 1 (cd_blocksize (cs_cdata s))); kgo.
  - rewrite s32_small by lia.
    assert (HPV : P = (D ++ T) ++ pad_bytes (len + tag_len) (cd_blocksize (cs_cdata s)))
      by (by rewrite <- app_assoc).
    rewrite length_pad_bytes in * by lia. unfold n. rewrite HPV.
    eapply verify_pad_spec; [done|lia|lia|by rewrite <- HPV; fold n; lia|done|by rewrite <- HPV|].
    replace (_ <? 0) with false by lia. kgo. rewrite <- HPV. fold n. rewrite u32_small by lia.
    by replace (n - _) with (len + tag_len) by lia.
  - simpl in HPl. by replace n with (len + tag_len) by lia.
Qed.


(** C35: the tag of a TLS record is checked.  Given a decrypted record of payload
    and tag, [tls_check_tag] returns the length of the payload; the result is 0
    exactly when the tag is the hash of the authenticated data followed by the
    payload, and -EBADMSG otherwise; memory is not touched. *)
Theorem tls_check_tag_correct e s l caop auth auth_len dst len :
  let tag_len := ca_tag_len caop in
  let A := peeks (e_mem e) (sg_part auth 0 auth_len) in
  let D := peeks (e_mem e) (sg_part dst 0 len) in
  runnable e s l -> hdata_ok (cs_hdata s) -> has_hash s = true -> sg_room e auth auth_len ->
  sg_room e dst (len + tag_len) -> 0 <= len -> 0 <= tag_len <= 64 -> len + tag_len < 2 ^ 31 ->
  exists ret s',
    tls_check_tag caop auth auth_len dst (len + tag_len) false (e, s) = Done (ret, len) (e, s') /\
    (ret = 0 <-> peeks (e_mem e) (sg_part dst len tag_len) = tls_tag e s A D tag_len) /\
    (ret <> 0 -> ret = - EBADMSG).
Proof.
  intros tag_len A D Hr Hh Hi Ha Hd Hl Ht Hm.
  assert (Hwp : wp (tls_check_tag caop auth auth_len dst (len + tag_len) false)
    (fun '(ret, n) '(e', s') => n = len /\ e' = e /\
       ret = if bool_decide (peeks (e_mem e) (sg_part dst len tag_len) = tls_tag e s A D tag_len)
             then 0 else - EBADMSG) (e, s)).
  { by eapply tls_check_tag_spec. }
  apply wp_done in Hwp as ([ret n] & [e' s'] & E & -> & -> & ->). eexists _, s'. split; [exact E|].
  case_bool_decide; split; unfold EBADMSG; (done || lia).
Qed.

(** ** SRTP *)

(** The tag of an SRTP packet. *)
Definition srtp_tag e s (A : bytes) (tag_len : Z) : bytes :=
  take (Z.to_nat tag_len)
    (hash_buffer e (ahash_final (ahash_name (cs_hdata s)) (hash_step s (ahash_st (cs_hdata s)) A).2).2).

Lemma srtp_check_tag_spec e s l caop auth auth_len len (Q : Z -> env * csession -> Prop) :
  let tag_len := ca_tag_len caop in
  let A := peeks (e_mem e) (sg_part auth 0 auth_len) in
  runnable e s l -> hdata_ok (cs_hdata s) -> has_hash s = true -> sg_room e auth auth_len ->
  e_user e = true -> 0 <= tag_len <= 64 -> tag_len <= len ->
  range_readable (e_mem e) (ca_tag caop) tag_len ->
  (forall st', Q (if bool_decide (peeks (e_mem e) (seqZ (ca_tag caop) tag_len) = srtp_tag e s A tag_len)
                  then 0 else - EBADMSG) (e, ses_upd (cd_iv (cs_cdata s)) st' s)) ->
  wp (srtp_check_tag caop auth auth_len len) Q (e, s).
Proof.
  intros tag_len A Hr Hok Hh Ha Hu Ht Hle Hrd HQ. unfold srtp_check_tag, AALG_MAX_RESULT_LEN.
  fold tag_len. replace (_ || _) with false by lia. kgo.
  apply copy_from_user_spec; [done|lia|]. intros bs nleft _ _ Hbs Hn. rewrite (Hn Hrd), (Hbs (Hn Hrd)). kgo.
  pose proof (run_hash_spec e s auth auth_len l) as Hwp. rewrite Hh in Hwp. eapply Hwp; [done..|]. clear Hwp.
  fold A. rewrite (hash_step_ok s) by done. kgo. set (s1 := ses_upd _ _ s).
  apply on_hdata_spec. eapply hash_final_spec; [by destruct Hr| |by apply (has_hash_init s1)|by destruct Hok|].
  { destruct Hr as [_ _ Hsub _]. exact Hsub. }
  assert (Htag : srtp_tag e s A tag_len = take (Z.to_nat tag_len)
    (hash_buffer e (ahash_final (ahash_name (cs_hdata s1)) (ahash_st (cs_hdata s1))).2)) by done.
  rewrite Htag in HQ. clear Htag.
  destruct (ahash_final _ _) as [[r ev] d] eqn:E. intros Hl Hds.
  destruct (hdata_alg _ Hok (has_hash_init _ Hh)) as (a & Halg & _).
  assert (req_result r ev = 0) as ->
    by (apply req_result_ok; [by eapply ahash_final_completes|by eapply (ahash_final_ok _ a)]).
  kgo. cbn [fst snd] in *. replace (set_cs_hdata (cs_hdata s1) s1) with s1 by done.
  specialize (HQ (hash_step s (ahash_st (cs_hdata s)) A).2). fold s1 in HQ.
  destruct (bool_decide _); by kgo.
Qed.

(** C36: SRTP verifies before it decrypts.  [srtp_decrypt] compares the tag in
    user memory with the hash of the authenticated data; when they differ it
    returns -EBADMSG and memory is exactly as before, and when they are equal it
    returns 0 with the packet decrypted in place. *)
Theorem srtp_verify_first e s l caop auth auth_len dst len :
  let tag_len := ca_tag_len caop in
  let A := peeks (e_mem e) (sg_part auth 0 auth_len) in
  runnable e s l -> cdata_ok (cs_cdata s) -> hdata_ok (cs_hdata s) ->
  has_hash s = true -> has_cipher s = true ->
  sg_room e auth auth_len -> sg_room e dst len -> (cd_blocksize (cs_cdata s) | len) ->
  e_user e = true -> 0 <= tag_len <= 64 -> tag_len <= len ->
  range_readable (e_mem e) (ca_tag caop) tag_len ->
  let good := peeks (e_mem e) (seqZ (ca_tag caop) tag_len) = srtp_tag e s A tag_len in
  exists ret e' s',
    srtp_decrypt caop auth auth_len dst len (e, s) = Done ret (e', s') /\
    (~ good -> ret = - EBADMSG /\ e' = e) /\
    (good -> ret = 0 /\ e_mem e' = pokes (sg_part dst 0 len)
       (cr_out (cipher_run true (cs_cdata s) (peeks (e_mem e) (sg_part dst 0 len)))) (e_mem e)).
Proof.
  intros tag_len A Hr Hc Hh Hhi Hi Ha Hd Hb Hu Ht Hle Hrd good.
  assert (Hwp : wp (srtp_decrypt caop auth auth_len dst len) (fun ret '(e', _) =>
    (~ good -> ret = - EBADMSG /\ e' = e) /\
    (good -> ret = 0 /\ e_mem e' = pokes (sg_part dst 0 len)
       (cr_out (cipher_run true (cs_cdata s) (peeks (e_mem e) (sg_part dst 0 len)))) (e_mem e))) (e, s)).
  { unfold srtp_decrypt. kgo. rewrite Hhi, Hi.
    eapply srtp_check_tag_spec; [done..|]. intros st'. fold tag_len A.
    case_bool_decide as Hg; kgo; [|by split].
    eapply (tls_cipher_spec _ _ true); [by apply runnable_upd|by rewrite ses_upd_cdata|done|done|by rewrite ses_upd_cdata|].
    cbv zeta. rewrite ses_upd_cdata. by intros _ _. }
  apply wp_done in Hwp as (ret & [e' s'] & E & Hw). by exists ret, e', s'.
Qed.
End Exact.
End AuthencFacts.
