(* ===== verification/Ioctl.v ===== *)
(** * The /dev/crypto file

    The rest of [ioctl.c] of cryptodev-linux: the asynchronous job queue, the
    copies of requests, session information and the file operations. *)
From stdpp Require Import base gmap gmultiset list strings numbers.
From S2P Require Import Prelude Kernel KernelFacts Structs CryptoApi Sg Cryptlib Zc Fcrypt Run Authenc.
Open Scope Z_scope.

Definition set_it_kcop (k : kernel_crypt_op) (i : todo_list_item) : todo_list_item :=
  TodoItem (it_addr i) k (it_result i).
Definition set_it_result (r : Z) (i : todo_list_item) : todo_list_item :=
  TodoItem (it_addr i) (it_kcop i) r.

Definition crypt_op_zero : crypt_op := CryptOp 0 0 0 0 [0; 0; 0; 0] 0 0 0 0.
Definition kcop_zero : kernel_crypt_op :=
  KernelCryptOp crypt_op_zero 0 (replicate (Z.to_nat EALG_MAX_BLOCK_LEN) 0) 0 [].

(** The bytes of a C string. *)
Definition cstring (s : string) : bytes :=
  (fun c => Z.of_N (Ascii.N_of_ascii c)) <$> String.list_ascii_of_string s.

(** [snprintf(dst, size, "%s", str)]: what [dst] holds afterwards. *)
Definition snprintf_s (dst : bytes) (size : nat) (str : bytes) : bytes :=
  let out := take (size - 1) str ++ [0] in
  out ++ drop (length out) dst.

Definition strstr (s sub : string) : bool :=
  match String.index 0 sub s with Some _ => true | None => false end.

Section Ioctl.
Context `{CryptoAPI}.

(** ** Asynchronous jobs *)

(** The three steps of [cryptask_routine], which runs in a kernel thread:
    fetch the pending jobs, run each, hand them over as done. *)
Definition cryptask_fetch : K crypt_priv (list todo_list_item) :=
  p ← getx;
  modx (set_queued false);;
  modx (set_todo []);;
  mret (cp_todo p).

Fixpoint cryptask_run (tmp : list todo_list_item) : K crypt_priv (list todo_list_item) :=
  match tmp with
  | [] => mret []
  | item :: tmp' =>
      '(result, kcop) ← crypto_run (it_kcop item);
      rest ← cryptask_run tmp';
      mret (set_it_result result (set_it_kcop kcop item) :: rest)
  end.

Definition cryptask_finish (tmp : list todo_list_item) : K crypt_priv unit :=
  modx (fun p => set_done (cp_done p ++ tmp) p).

(** [cryptask_routine] *)
Definition cryptask_routine : K crypt_priv unit :=
  e ← gete;
  mode (set_user false);;
  tmp ← cryptask_fetch;
  tmp ← cryptask_run tmp;
  cryptask_finish tmp;;
  mode (set_user (e_user e)).

(** [crypto_async_run] *)
Definition crypto_async_run (kcop : kernel_crypt_op) : K crypt_priv Z :=
  p ← getx;
  o ← (match cp_free p with
       | item :: rest => modx (set_free rest);; mret (Some (Some item))
       | [] =>
           if cp_itemcount p <? MAX_COP_RINGSIZE then
             modx (set_itemcount (cp_itemcount p + 1));; mret (Some None)
           else mret None
       end);
  match o with
  | None => mret (- EBUSY)
  | Some o =>
      o ← (match o with
           | Some item => mret (Some item)
           | None =>
               a ← kalloc OItem;
               mret (if a =? 0 then None else Some (TodoItem a kcop_zero 0))
           end);
      match o with
      | None => mret (- EFAULT)
      | Some item =>
          modx (fun p => set_todo (cp_todo p ++ [set_it_kcop kcop item]) p);;
          modx (set_queued true);;
          mret 0
      end
  end.

(** [crypto_async_fetch]: the result, and [*kcop] when a job was done. *)
Definition crypto_async_fetch (kcop : kernel_crypt_op) : K crypt_priv (Z * kernel_crypt_op) :=
  p ← getx;
  match cp_done p with
  | [] => mret (- EBUSY, kcop)
  | item :: rest =>
      modx (set_done rest);;
      modx (fun p => set_free (cp_free p ++ [item]) p);;
      mret (it_result item, it_kcop item)
  end.

(** ** Copying requests *)

Definition set_kc_ivlen (n : Z) (k : kernel_crypt_op) : kernel_crypt_op :=
  KernelCryptOp (kc_cop k) n (kc_iv k) (kc_digestsize k) (kc_hash_output k).

(** [fill_kcop_from_cop] *)
Definition fill_kcop_from_cop (kcop : kernel_crypt_op) : K crypt_priv (Z * kernel_crypt_op) :=
  let cop := kc_cop kcop in
  ses ← crypto_get_session_by_sid (co_ses cop);
  if ses =? 0 then mret (- EINVAL, kcop)
  else
    s ← on_session ses getx;
    let ivlen := if co_iv cop =? 0 then 0 else cd_ivsize (cs_cdata s) in
    let kcop := set_kc_digest 0 (kc_hash_output kcop) (set_kc_ivlen ivlen kcop) in
    crypto_put_session ses;;
    if negb (co_iv cop =? 0) then
      if EALG_MAX_BLOCK_LEN <? ivlen then crashed OutOfBounds
      else
        '(iv, nleft) ← copy_from_user (co_iv cop) ivlen;
        let kcop := set_kc_iv (memcpy (kc_iv kcop) iv ivlen) kcop in
        if negb (nleft =? 0) then mret (- EFAULT, kcop) else mret (0, kcop)
    else mret (0, kcop).

(** [fill_cop_from_kcop] *)
Definition fill_cop_from_kcop (kcop : kernel_crypt_op) : K crypt_priv Z :=
  let cop := kc_cop kcop in
  nleft ← (if negb (kc_digestsize kcop =? 0)
           then copy_to_user (co_mac cop)
                  (take (Z.to_nat (kc_digestsize kcop)) (kc_hash_output kcop))
           else mret 0);
  if negb (nleft =? 0) then mret (- EFAULT)
  else
    nleft ← (if negb (kc_ivlen kcop =? 0) && has_flag (co_flags cop) COP_FLAG_WRITE_IV
             then copy_to_user (co_iv cop) (take (Z.to_nat (kc_ivlen kcop)) (kc_iv kcop))
             else mret 0);
    if negb (nleft =? 0) then mret (- EFAULT) else mret 0.

(** A [kernel_crypt_op] on the stack, of which only [cop] is filled in. *)
Definition stack_kcop (e : env) (cop : crypt_op) : kernel_crypt_op :=
  KernelCryptOp cop (e_junk e) (replicate (Z.to_nat EALG_MAX_BLOCK_LEN) (e_junk e)) (e_junk e)
    (replicate (Z.to_nat AALG_MAX_RESULT_LEN) (e_junk e)).

(** [kcop_from_user] *)
Definition kcop_from_user (arg : Z) : K crypt_priv (Z * kernel_crypt_op) :=
  e ← gete;
  '(b, nleft) ← copy_from_user arg sizeof_crypt_op;
  let kcop := stack_kcop e (decode_crypt_op b) in
  if negb (nleft =? 0) then mret (- EFAULT, kcop) else fill_kcop_from_cop kcop.

(** [kcop_to_user] *)
Definition kcop_to_user (kcop : kernel_crypt_op) (arg : Z) : K crypt_priv Z :=
  ret ← fill_cop_from_kcop kcop;
  if negb (ret =? 0) then mret ret
  else
    nleft ← copy_to_user arg (encode_crypt_op (kc_cop kcop));
    if negb (nleft =? 0) then mret (- EFAULT) else mret 0.

(** ** Session information *)

(** [tfm_info_to_alg_info] of the transform of an algorithm. *)
Definition tfm_info_to_alg_info (dst : alg_info) (name : string) : alg_info :=
  let driver := default "(null)" (alg_driver_name name) in
  AlgInfo (snprintf_s (cra_name dst) (Z.to_nat CRYPTODEV_MAX_ALG_NAME) (cstring name))
    (snprintf_s (cra_driver_name dst) (Z.to_nat CRYPTODEV_MAX_ALG_NAME) (cstring driver)).

(** [is_known_accelerated] *)
Definition is_known_accelerated (name : string) : bool :=
  match alg_driver_name name with
  | None => true
  | Some driver =>
      strstr driver "-talitos" || String.prefix "mv-" driver || strstr driver "geode" ||
      strstr driver "hifn" || strstr driver "-ixp4xx" || strstr driver "-omap" ||
      strstr driver "-picoxcell" || strstr driver "-s5p" || strstr driver "-ppc4xx" ||
      strstr driver "-caam" || strstr driver "-n2"
  end.

(** The two variants of the test of [get_session_info]. *)
Definition driver_only (name : string) : bool :=
  match kern_driver_only with
  | Some flagged => flagged name
  | None => is_known_accelerated name
  end.

(** [get_session_info] *)
Definition get_session_info (siop : session_info_op) : K crypt_priv (Z * session_info_op) :=
  ses ← crypto_get_session_by_sid (si_ses siop);
  if ses =? 0 then mret (- EINVAL, siop)
  else
    s ← on_session ses getx;
    let c := cs_cdata s in
    let h := cs_hdata s in
    let flag (b : bool) flags := if b then Z.lor flags SIOP_FLAG_KERNEL_DRIVER_ONLY else flags in
    let flags := 0 in
    let flags := if has_cipher s then flag (driver_only (tfm_name c)) flags else flags in
    let flags := if has_hash s then flag (driver_only (ahash_name h)) flags else flags in
    let siop :=
      SessionInfoOp (si_ses siop)
        (if has_cipher s then tfm_info_to_alg_info (si_cipher_info siop) (tfm_name c)
         else si_cipher_info siop)
        (if has_hash s then tfm_info_to_alg_info (si_hash_info siop) (ahash_name h)
         else si_hash_info siop)
        (u16 (cs_alignmask s)) (si_pad0 siop) flags in
    crypto_put_session ses;;
    mret (0, siop).

(** ** Cloning the descriptor *)

(** [clonefd] *)
Definition clonefd : K crypt_priv Z :=
  e ← gete;
  match e_fds e with
  | fd :: fds =>
      mode (set_fds fds);;
      (if 0 <=? fd then modx (fun p => set_fcount (cp_fcount p + 1) p) else mret tt);;
      mret fd
  | [] => mret (- EMFILE)
  end.

(** [sys_close] of a clone. *)
Definition sys_close (fd : Z) : K crypt_priv unit :=
  if 0 <=? fd then modx (fun p => set_fcount (cp_fcount p - 1) p) else mret tt.

(** ** Ioctls *)

Definition ioctl_get_fd (arg : Z) : K crypt_priv Z :=
  fd ← clonefd;
  ret ← put_user (u32 fd) arg;
  if negb (ret =? 0) then sys_close fd;; mret ret else mret ret.

Definition ioctl_get_session (arg : Z) : K crypt_priv Z :=
  '(b, nleft) ← copy_from_user arg sizeof_session_op;
  if negb (nleft =? 0) then mret (- EFAULT)
  else
    '(ret, sop) ← crypto_create_session (decode_session_op b);
    if negb (ret =? 0) then mret ret
    else
      nleft ← copy_to_user arg (encode_session_op sop);
      if negb (nleft =? 0) then crypto_finish_session (so_ses sop);; mret (- EFAULT)
      else mret nleft.

Definition ioctl_finish_session (arg : Z) : K crypt_priv Z :=
  '(ses, ret) ← get_user arg;
  if negb (ret =? 0) then mret ret else crypto_finish_session ses.

Definition ioctl_session_info (arg : Z) : K crypt_priv Z :=
  '(b, nleft) ← copy_from_user arg sizeof_session_info_op;
  if negb (nleft =? 0) then mret (- EFAULT)
  else
    '(ret, siop) ← get_session_info (decode_session_info_op b);
    if negb (ret =? 0) then mret ret
    else copy_to_user arg (encode_session_info_op siop).

Definition ioctl_crypt (arg : Z) : K crypt_priv Z :=
  '(ret, kcop) ← kcop_from_user arg;
  if negb (ret =? 0) then mret ret
  else
    '(ret, kcop) ← crypto_run kcop;
    if negb (ret =? 0) then mret ret else kcop_to_user kcop arg.

Definition ioctl_auth_crypt (arg : Z) : K crypt_priv Z :=
  '(ret, kcaop) ← kcaop_from_user arg;
  if negb (ret =? 0) then mret ret
  else
    '(ret, kcaop) ← crypto_auth_run kcaop;
    if negb (ret =? 0) then mret ret else kcaop_to_user kcaop arg.

Definition ioctl_async_crypt (arg : Z) : K crypt_priv Z :=
  '(ret, kcop) ← kcop_from_user arg;
  if negb (ret =? 0) then mret ret else crypto_async_run kcop.

Definition ioctl_async_fetch (arg : Z) : K crypt_priv Z :=
  e ← gete;
  '(ret, kcop) ← crypto_async_fetch (stack_kcop e crypt_op_zero);
  if negb (ret =? 0) then mret ret else kcop_to_user kcop arg.

(** [cryptodev_ioctl] *)
Definition cryptodev_ioctl (cmd arg : Z) : K crypt_priv Z :=
  if cmd =? CIOCASYMFEAT then put_user 0 arg
  else if cmd =? CRIOGET then ioctl_get_fd arg
  else if cmd =? CIOCGSESSION then ioctl_get_session arg
  else if cmd =? CIOCFSESSION then ioctl_finish_session arg
  else if cmd =? CIOCGSESSINFO then ioctl_session_info arg
  else if cmd =? CIOCCRYPT then ioctl_crypt arg
  else if cmd =? CIOCAUTHCRYPT then ioctl_auth_crypt arg
  else if cmd =? CIOCASYNCCRYPT then ioctl_async_crypt arg
  else if cmd =? CIOCASYNCFETCH then ioctl_async_fetch arg
  else mret (- EINVAL).

(** ** 32-bit user space *)

Definition compat_ptr (p : Z) : Z := u32 p.
Definition ptr_to_compat (p : Z) : Z := u32 p.

(** [compat_to_session_op]; the alignment holes of [sop] are not written. *)
Definition compat_to_session_op (e : env) (c : compat_session_op) : session_op :=
  let hole := replicate 4 (e_junk e) in
  SessionOp (cso_cipher c) (cso_mac c) (cso_keylen c) hole (compat_ptr (cso_key c))
    (cso_mackeylen c) hole (compat_ptr (cso_mackey c)) (cso_ses c) hole.

Definition session_op_to_compat (s : session_op) : compat_session_op :=
  CompatSessionOp (so_cipher s) (so_mac s) (so_keylen s) (ptr_to_compat (so_key s))
    (so_mackeylen s) (ptr_to_compat (so_mackey s)) (so_ses s).

Definition compat_to_crypt_op (e : env) (c : compat_crypt_op) : crypt_op :=
  CryptOp (cco_ses c) (cco_op c) (cco_flags c) (cco_len c) (replicate 4 (e_junk e))
    (compat_ptr (cco_src c)) (compat_ptr (cco_dst c)) (compat_ptr (cco_mac c))
    (compat_ptr (cco_iv c)).

Definition crypt_op_to_compat (c : crypt_op) : compat_crypt_op :=
  CompatCryptOp (co_ses c) (co_op c) (co_flags c) (co_len c)
    (ptr_to_compat (co_src c)) (ptr_to_compat (co_dst c)) (ptr_to_compat (co_mac c))
    (ptr_to_compat (co_iv c)).

(** [compat_kcop_from_user] *)
Definition compat_kcop_from_user (arg : Z) : K crypt_priv (Z * kernel_crypt_op) :=
  e ← gete;
  '(b, nleft) ← copy_from_user arg sizeof_compat_crypt_op;
  let kcop := stack_kcop e (compat_to_crypt_op e (decode_compat_crypt_op b)) in
  if negb (nleft =? 0) then mret (- EFAULT, kcop) else fill_kcop_from_cop kcop.

(** [compat_kcop_to_user] *)
Definition compat_kcop_to_user (kcop : kernel_crypt_op) (arg : Z) : K crypt_priv Z :=
  ret ← fill_cop_from_kcop kcop;
  if negb (ret =? 0) then mret ret
  else
    nleft ← copy_to_user arg (encode_compat_crypt_op (crypt_op_to_compat (kc_cop kcop)));
    if negb (nleft =? 0) then mret (- EFAULT) else mret 0.

Definition compat_ioctl_get_session (arg : Z) : K crypt_priv Z :=
  e ← gete;
  '(b, nleft) ← copy_from_user arg sizeof_compat_session_op;
  if negb (nleft =? 0) then mret (- EFAULT)
  else
    '(ret, sop) ← crypto_create_session (compat_to_session_op e (decode_compat_session_op b));
    if negb (ret =? 0) then mret ret
    else
      nleft ← copy_to_user arg (encode_compat_session_op (session_op_to_compat sop));
      if negb (nleft =? 0) then crypto_finish_session (so_ses sop);; mret (- EFAULT)
      else mret nleft.

Definition compat_ioctl_crypt (arg : Z) : K crypt_priv Z :=
  '(ret, kcop) ← compat_kcop_from_user arg;
  if negb (ret =? 0) then mret ret
  else
    '(ret, kcop) ← crypto_run kcop;
    if negb (ret =? 0) then mret ret else compat_kcop_to_user kcop arg.

Definition compat_ioctl_async_crypt (arg : Z) : K crypt_priv Z :=
  '(ret, kcop) ← compat_kcop_from_user arg;
  if negb (ret =? 0) then mret ret else crypto_async_run kcop.

Definition compat_ioctl_async_fetch (arg : Z) : K crypt_priv Z :=
  e ← gete;
  '(ret, kcop) ← crypto_async_fetch (stack_kcop e crypt_op_zero);
  if negb (ret =? 0) then mret ret else compat_kcop_to_user kcop arg.

(** [cryptodev_compat_ioctl] *)
Definition cryptodev_compat_ioctl (cmd arg : Z) : K crypt_priv Z :=
  if (cmd =? CIOCASYMFEAT) || (cmd =? CRIOGET) || (cmd =? CIOCFSESSION) || (cmd =? CIOCGSESSINFO)
  then cryptodev_ioctl cmd arg
  else if cmd =? COMPAT_CIOCGSESSION then compat_ioctl_get_session arg
  else if cmd =? COMPAT_CIOCCRYPT then compat_ioctl_crypt arg
  else if cmd =? COMPAT_CIOCASYNCCRYPT then compat_ioctl_async_crypt arg
  else if cmd =? COMPAT_CIOCASYNCFETCH then compat_ioctl_async_fetch arg
  else mret (- EINVAL).

(** ** The other file operations *)

(** [cryptodev_poll] *)
Definition cryptodev_poll : K crypt_priv Z :=
  p ← getx;
  let ret := match cp_done p with [] => 0 | _ => Z.lor POLLIN POLLRDNORM end in
  let writable :=
    match cp_free p with [] => cp_itemcount p <? MAX_COP_RINGSIZE | _ => true end in
  mret (if writable then Z.lor ret (Z.lor POLLOUT POLLWRNORM) else ret).

(** The loop of [cryptodev_open] that allocates the first items; the result
    is whether all could be allocated. *)
Fixpoint open_items (n : nat) : K crypt_priv bool :=
  match n with
  | O => mret true
  | S n =>
      a ← kalloc OItem;
      if a =? 0 then mret false
      else
        modx (fun p => set_itemcount (cp_itemcount p + 1) p);;
        modx (fun p => set_free (TodoItem a kcop_zero 0 :: cp_free p) p);;
        open_items n
  end.

(** [cryptodev_open]; the object is [filp->private_data]. *)
Definition cryptodev_open : K (option crypt_priv) Z :=
  a ← kalloc OPriv;
  if a =? 0 then mret (- ENOMEM)
  else
    '(ok, pcr) ← on_local (CryptPriv a [] [] [] [] 0 false 1)
                   (open_items (Z.to_nat DEF_COP_RINGSIZE));
    if ok : bool then setx (Some pcr);; mret 0 else mret (- ENOMEM).

Fixpoint free_items (l : list todo_list_item) : K crypt_priv Z :=
  match l with
  | [] => mret 0
  | item :: l' =>
      kfree (it_addr item);;
      n ← free_items l';
      mret (n + 1)
  end.

(** [cryptodev_release]: the number of items freed, and the result. *)
Definition release_priv : K crypt_priv unit :=
  modx (set_queued false);;
  modx (fun p => set_free (cp_free p ++ cp_todo p ++ cp_done p) (set_todo [] (set_done [] p)));;
  p ← getx;
  _ ← free_items (cp_free p);
  modx (set_free []);;
  _ ← crypto_finish_all_sessions;
  kfree (cp_addr p).

Definition cryptodev_release : K (option crypt_priv) Z :=
  o ← getx;
  match o with
  | None => mret 0
  | Some p =>
      _ ← on_local p release_priv;
      setx None;;
      mret 0
  end.

(** The file operations look the handle up in [filp->private_data]. *)
Definition on_file {A} (m : K crypt_priv A) : K (option crypt_priv) A :=
  o ← getx;
  match o with
  | None => crashed BUG
  | Some p => '(a, p') ← on_local p m; setx (Some p');; mret a
  end.
End Ioctl.
