(* ===== verification/FileFacts.v ===== *)
(** * The file and its job queue

    Opening and closing /dev/crypto, and the queue of asynchronous jobs: first
    in, first out, bounded, and drained by the worker. *)
From stdpp Require Import base gmap gmultiset list strings numbers.
From S2P Require Import Prelude Kernel KernelFacts Structs CryptoApi Sg.
From S2P Require Import Cryptlib CryptlibFacts Zc ZcFacts Fcrypt FcryptFacts Run RunFacts Authenc Ioctl.
Open Scope Z_scope.

Section FileFacts.
Context `{CryptoAPI, !CryptoAPISizes}.
Implicit Types (e : env) (s : csession) (p : crypt_priv) (k : kernel_crypt_op).

(** ** Opening and closing *)

Lemma item_objs_cons i l : item_objs (i :: l) = (it_addr i, OItem) :: item_objs l.
Proof. done. Qed.
Lemma item_objs_app l l' : item_objs (l ++ l') = item_objs l ++ item_objs l'.
Proof. apply fmap_app. Qed.

(** The items that exist after [n] more were allocated. *)
Lemma open_items_spec n e p R (Q : bool -> env * crypt_priv -> Prop) :
  env_ok e -> owns e (item_objs (cp_free p) ++ R) ->
  (forall e' l, same_world e e' -> env_ok e' -> owns e' (item_objs l ++ R) ->
     length l = (n + length (cp_free p))%nat ->
     Q true (e', set_free l (set_itemcount (cp_itemcount p + Z.of_nat n) p))) ->
  (forall e' p' lost, same_world e e' -> env_ok e' -> owns e' (lost ++ R) -> e_allocs e <> [] ->
     Q false (e', p')) ->
  wp (open_items n) Q (e, p).
Proof.
  revert e p. induction n as [|n IH]; intros e p He Ho Hok Herr; cbn [open_items].
  { ksteps. specialize (Hok e (cp_free p) ltac:(done) He Ho eq_refl).
    destruct p. simpl in *. by rewrite Z.add_0_r in Hok. }
  kgo. kalloc_as a e1; kgo; [by eapply Herr|].
  apply IH; [done|by simpl| |].
  - intros e' l Hw ? ? Hl. simpl in Hl.
    specialize (Hok e' l ltac:(by etrans) ltac:(done) ltac:(done) ltac:(lia)). destruct p. simpl in *.
    by replace (cp_itemcount + 1 + Z.of_nat n) with (cp_itemcount + Z.of_nat (S n)) by lia.
  - intros e' p' lost Hw ? ? Hal. eapply Herr; [by etrans|done|done|].
    intros Hn. by apply Hal, (sw_allocs _ _ H1).
Qed.

(** A handle as [cryptodev_open] makes it. *)
Record fresh_handle p : Prop := {
  fh_fcrypt : cp_fcrypt p = [];
  fh_free : length (cp_free p) = Z.to_nat DEF_COP_RINGSIZE;
  fh_idle : cp_todo p = [] /\ cp_done p = [] /\ cp_queued p = false;
  fh_count : cp_itemcount p = DEF_COP_RINGSIZE;
  fh_fcount : cp_fcount p = 1
}.

Lemma open_spec e o R (Q : Z -> env * option crypt_priv -> Prop) :
  env_ok e -> owns e R ->
  (forall e' p, same_world e e' -> handle_ok e' p R -> fresh_handle p -> Q 0 (e', Some p)) ->
  (forall e' lost, same_world e e' -> env_ok e' -> owns e' (lost ++ R) -> e_allocs e <> [] ->
     Q (- ENOMEM) (e', o)) ->
  wp cryptodev_open Q (e, o).
Proof.
  intros He Ho Hok Herr. unfold cryptodev_open. kgo.
  kalloc_with a e1 Hw1 He1 Ho1; kgo; [by eapply (Herr _ [])|]. apply on_local_spec.
  eapply open_items_spec with (R := (a, OPriv) :: R); [done|done| |].
  - intros e2 l Hw2 He2 Ho2 Hl. kgo. apply Hok; [by etrans| |by constructor].
    split; [done| |].
    + constructor; simpl; try done; [constructor|by rewrite !app_nil_r, Hl].
    + unfold priv_objs. simpl. rewrite !app_nil_r. eapply owns_perm, Ho2. perm_solve.
  - intros e2 p2 lost Hw2 He2 Ho2 Hal. kgo. eapply (Herr e2 (lost ++ [(a, OPriv)])); [by etrans|done| |].
    + by rewrite <- app_assoc.
    + intros Hn. by apply Hal, (sw_allocs _ _ Hw1).
Qed.

Lemma free_items_spec l e p R (Q : Z -> env * crypt_priv -> Prop) :
  env_ok e -> owns e (item_objs l ++ R) ->
  (forall e', same_world e e' -> env_ok e' -> owns e' R -> Q (Z.of_nat (length l)) (e', p)) ->
  wp (free_items l) Q (e, p).
Proof.
  revert e Q. induction l as [|i l IH]; intros e Q He Ho HQ; cbn [free_items]; [ksteps; by apply HQ|].
  kgo. rewrite item_objs_cons in Ho. cbn [app] in Ho. kfree_one. kgo. apply IH; [done..|]. intros e2 Hw2 He2 Ho2. kgo.
  replace (Z.of_nat (length l) + 1) with (Z.of_nat (length (i :: l))) by (simpl; lia).
  apply HQ; [by etrans|done..].
Qed.

Lemma release_spec e p R (Q : Z -> env * option crypt_priv -> Prop) :
  handle_ok e p R -> (forall e', same_world e e' -> env_ok e' -> owns e' R -> Q 0 (e', None)) ->
  wp cryptodev_release Q (e, Some p).
Proof.
  intros [He [Hs _ _ _ _] Ho] HQ. unfold cryptodev_release. kgo. apply on_local_spec.
  unfold release_priv. kgo. simpl. unfold priv_objs in Ho.
  eapply free_items_spec with (R := (cp_fcrypt p ≫= ses_objs) ++ (cp_addr p, OPriv) :: R); [done| |].
  { eapply owns_perm, Ho. perm_solve. }
  intros e1 Hw1 He1 Ho1. kgo. unfold crypto_finish_all_sessions. kgo.
  eapply finish_sessions_spec; [done|done|done|exact Ho1|].
  intros e2 Hw2 He2 Ho2. kgo. kfree_one. kgo. apply HQ; eauto using same_world_trans.
Qed.

(** C17: opening and closing.  When allocations succeed, [cryptodev_open]
    returns 0 and a file that satisfies its invariant, with no session, an idle
    queue and 16 free items.  [cryptodev_release] of any file that satisfies the
    invariant, whatever sessions and jobs it has by then, frees exactly what the
    file owned. *)
Theorem open_release_balanced e R :
  env_ok e -> owns e R -> e_allocs e = [] ->
  (exists e' p, cryptodev_open (e, None) = Done 0 (e', Some p) /\ handle_ok e' p R /\ fresh_handle p) /\
  (forall e1 p1, handle_ok e1 p1 R -> exists e2,
     cryptodev_release (e1, Some p1) = Done 0 (e2, None) /\ e_heap e2 = e_heap e /\ same_world e1 e2).
Proof.
  intros He Ho Hal. split.
  - assert (Hwp : wp cryptodev_open (fun r '(e', o) => r = 0 /\
      exists p, o = Some p /\ handle_ok e' p R /\ fresh_handle p) (e, None)).
    { eapply open_spec; [done|exact Ho| |done]. intros e' p _ ? ?. split; [done|]. by exists p. }
    apply wp_done in Hwp as (r & [e' o] & E & -> & p & -> & ?). eauto.
  - intros e1 p1 Hh. destruct (proj1 (wp_done _ _ _) (release_spec e1 p1 R
      (fun r '(e', o) => r = 0 /\ o = None /\ same_world e1 e' /\ owns e' R) Hh ltac:(done)))
      as (r & [e2 o] & E & -> & -> & Hw & Ho2).
    exists e2. split_and!; try done. by eapply owns_heap.
Qed.

(** ** Asynchronous jobs *)

(** What a job in the queue is to its submitter. *)
Definition job (i : todo_list_item) : Z * kernel_crypt_op := (it_result i, it_kcop i).

(** Submitting: the job is appended to the pending ones and the worker is
    queued; with 64 items in use the caller is told to come back. *)
Inductive submit_result e p R k : Z -> env -> crypt_priv -> Prop :=
  | submit_ok e' p' :
      same_world e e' -> it_kcop <$> cp_todo p' = (it_kcop <$> cp_todo p) ++ [k] ->
      cp_done p' = cp_done p -> cp_fcrypt p' = cp_fcrypt p -> cp_queued p' = true ->
      handle_ok e' p' R -> submit_result e p R k 0 e' p'
  | submit_busy :
      cp_free p = [] -> cp_itemcount p = MAX_COP_RINGSIZE -> submit_result e p R k (- EBUSY) e p
  | submit_nomem e' p' :
      e_allocs e <> [] -> same_world e e' -> p' = set_itemcount (cp_itemcount p + 1) p ->
      handle_ok e' p' R -> submit_result e p R k (- EFAULT) e' p'.

Lemma priv_objs_queue p p' :
  cp_fcrypt p' = cp_fcrypt p -> cp_addr p' = cp_addr p ->
  priv_objs p' = (cp_fcrypt p ≫= ses_objs) ++ item_objs (cp_free p' ++ cp_todo p' ++ cp_done p') ++
                 [(cp_addr p, OPriv)].
Proof. intros <- <-. done. Qed.

Lemma async_run_spec e p R k (Q : Z -> env * crypt_priv -> Prop) :
  handle_ok e p R -> (forall r e' p', submit_result e p R k r e' p' -> Q r (e', p')) ->
  wp (crypto_async_run k) Q (e, p).
Proof.
  intros Hh HQ. destruct (Hh) as [He [? ? Hit Hcnt Hq] Ho]. unfold crypto_async_run. kgo.
  destruct (cp_free p) as [|i free] eqn:Hf.
  2: { kgo. apply HQ, submit_ok; try done; [simpl; by rewrite fmap_app|].
       split; [done| |].
       - constructor; simpl; try done. rewrite !length_app in *. simpl in *. lia.
       - rewrite (priv_objs_queue p) by done. simpl. eapply owns_perm, Ho.
         unfold priv_objs. rewrite Hf. rewrite !item_objs_app, item_objs_cons. simpl. perm_solve. }
  destruct (Z.ltb_spec (cp_itemcount p) MAX_COP_RINGSIZE).
  2: { kgo. apply HQ, submit_busy; [done|lia]. }
  kgo. kalloc_with a e1 Hw1 He1 Ho1; kgo; apply HQ.
  - apply submit_nomem; try done. split; [done| |done].
    constructor; simpl; try done; rewrite ?Hf in *; simpl in *; lia.
  - apply submit_ok; try done; [simpl; by rewrite fmap_app|]. split; [done| |].
    + constructor; simpl; try done; rewrite ?Hf in *; simpl in *; rewrite ?length_app in *; simpl; lia.
    + rewrite (priv_objs_queue p) by done. simpl. eapply owns_perm, Ho1.
      unfold priv_objs. rewrite Hf. rewrite !item_objs_app. simpl. perm_solve.
Qed.

Lemma async_fetch_spec e p R k (Q : Z * kernel_crypt_op -> env * crypt_priv -> Prop) :
  handle_ok e p R ->
  (cp_done p = [] -> Q (- EBUSY, k) (e, p)) ->
  (forall i rest p', cp_done p = i :: rest -> cp_done p' = rest -> cp_todo p' = cp_todo p ->
     cp_fcrypt p' = cp_fcrypt p -> handle_ok e p' R -> Q (job i) (e, p')) ->
  wp (crypto_async_fetch k) Q (e, p).
Proof.
  intros [He [? ? Hit Hcnt Hq] Ho] Hnone Hsome. unfold crypto_async_fetch. kgo.
  destruct (cp_done p) as [|i rest] eqn:Hd; kgo; [by apply Hnone|].
  apply (Hsome i rest); try done. split; [done| |].
  - constructor; simpl; try done. rewrite !length_app in *. simpl in *. lia.
  - rewrite (priv_objs_queue p) by done. simpl. eapply owns_perm, Ho.
    unfold priv_objs. rewrite Hd, !item_objs_app, item_objs_cons. simpl. perm_solve.
Qed.

(** *** The order of jobs

    The queue as its users see it: jobs are submitted, run in batches by the
    worker, and fetched, interleaved with calls that do not concern it. *)
Inductive async_event := Submitted (k : kernel_crypt_op) | Fetched (r : Z) (k : kernel_crypt_op) | Other.

Inductive async_step : env * crypt_priv -> async_event -> env * crypt_priv -> Prop :=
  | step_submit k st st' :
      crypto_async_run k st = Done 0 st' -> async_step st (Submitted k) st'
  | step_refuse k r st st' :
      crypto_async_run k st = Done r st' -> r <> 0 -> async_step st Other st'
  | step_work st st' :
      cryptask_routine st = Done tt st' -> async_step st Other st'
  | step_fetch k0 r k st st' :
      crypto_async_fetch k0 st = Done (r, k) st' -> cp_done st.2 <> [] -> async_step st (Fetched r k) st'
  | step_no_fetch k0 r k st st' :
      crypto_async_fetch k0 st = Done (r, k) st' -> cp_done st.2 = [] -> async_step st Other st'
  | step_elsewhere e p e' p' :
      cp_free p' = cp_free p -> cp_todo p' = cp_todo p -> cp_done p' = cp_done p ->
      cp_itemcount p' = cp_itemcount p -> cp_queued p' = cp_queued p ->
      async_step (e, p) Other (e', p').

Inductive async_trace (st : env * crypt_priv) : list async_event -> env * crypt_priv -> Prop :=
  | trace_nil : async_trace st [] st
  | trace_snoc evs st' ev st'' :
      async_trace st evs st' -> async_step st' ev st'' -> async_trace st (evs ++ [ev]) st''.

(** The requests submitted and fetched in a trace. *)
Definition submitted (evs : list async_event) : list crypt_op :=
  omap (fun ev => match ev with Submitted k => Some (kc_cop k) | _ => None end) evs.
Definition fetched (evs : list async_event) : list crypt_op :=
  omap (fun ev => match ev with Fetched _ k => Some (kc_cop k) | _ => None end) evs.

Definition item_cops (l : list todo_list_item) : list crypt_op := (fun i => kc_cop (it_kcop i)) <$> l.

(** What concerns the queue. *)
Definition same_queue p p' : Prop :=
  cp_free p' = cp_free p /\ cp_todo p' = cp_todo p /\ cp_done p' = cp_done p /\
  cp_itemcount p' = cp_itemcount p /\ cp_queued p' = cp_queued p.

Lemma run_locked_cop k st : wlp (crypto_run_locked k) (fun r _ => kc_cop r.2 = kc_cop k) st.
Proof.
  unfold crypto_run_locked. do 3 (apply wlp_bind, wlp_any; intros ? ?).
  destruct (_ && _); [by apply wlp_ret|]. apply wlp_bind, wlp_any; intros o st1.
  destruct o; [by apply wlp_ret|]. apply wlp_bind, wlp_any; intros r st2.
  destruct (_ && _); [by apply wlp_ret|]. unfold run_finish.
  apply wlp_bind, wlp_any. intros s3 st3. apply wlp_bind.
  apply (wlp_mono _ (fun k' _ => kc_cop k' = kc_cop k)).
  { destruct (has_cipher s3); [|by apply wlp_ret]. apply wlp_bind, wlp_any. intros. by apply wlp_ret. }
  intros k' st4 Hk. destruct (_ && _); [|by apply wlp_ret].
  apply wlp_bind, wlp_any. intros [r' d] st5. destruct (negb _); by apply wlp_ret.
Qed.

Lemma crypto_run_queue k st :
  wlp (crypto_run k) (fun r st' => kc_cop r.2 = kc_cop k /\ same_queue st.2 st'.2) st.
Proof.
  unfold crypto_run. destruct (_ && _); [by apply wlp_ret|].
  apply wlp_bind, (wlp_mono _ (fun _ st' => same_queue st.2 st'.2)).
  { unfold crypto_get_session_by_sid. apply wlp_bind. intros p st1 [= <- <-].
    destruct (list_find _ _) as [[i s]|]; [|by apply wlp_ret]. destruct (cs_locked s); [done|].
    apply wlp_bind. intros ? ? [= <- <-]. by apply wlp_ret. }
  intros a st1 Hq. destruct (a =? 0); [by apply wlp_ret|]. apply wlp_bind.
  apply (wlp_mono _ (fun r st' => kc_cop r.2 = kc_cop k /\ same_queue st.2 st'.2)).
  { unfold on_session. apply wlp_bind. intros p st2 [= <- <-].
    destruct (list_find _ _) as [[i s]|]; [|done]. apply wlp_bind.
    intros [r s'] st2 E. unfold on_local in E.
    destruct (crypto_run_locked k (st1.1, s)) as [r0 [e2 s2]|] eqn:El; [|done]. simplify_eq.
    apply run_locked_cop in El. apply wlp_bind. intros ? ? [= <- <-]. by apply wlp_ret. }
  intros r st2 [Hk Hq2]. apply wlp_bind. intros ? ? [= <- <-]. by apply wlp_ret.
Qed.

Lemma cryptask_run_queue l st :
  wlp (cryptask_run l) (fun l' st' => item_cops l' = item_cops l /\ same_queue st.2 st'.2) st.
Proof.
  revert st. induction l as [|i l IH]; intros st; cbn [cryptask_run]; [by apply wlp_ret|].
  apply wlp_bind. eapply wlp_mono; [apply crypto_run_queue|]. intros [r k'] st1 [Hk Hq1].
  apply wlp_bind. eapply wlp_mono; [apply IH|]. intros l' st2 [Hl Hq2]. apply wlp_ret.
  split; [|unfold same_queue in *; intuition congruence].
  unfold item_cops in *. csimpl in *. by f_equal.
Qed.

Lemma cryptask_queue st :
  wlp cryptask_routine (fun _ st' =>
    item_cops (cp_done st'.2) = item_cops (cp_done st.2) ++ item_cops (cp_todo st.2) /\
    cp_todo st'.2 = [] /\ cp_free st'.2 = cp_free st.2 /\ cp_itemcount st'.2 = cp_itemcount st.2) st.
Proof.
  unfold cryptask_routine, cryptask_fetch, cryptask_finish. destruct st as [e p].
  apply wlp_bind. intros ? ? [= <- <-]. apply wlp_bind. intros ? ? [= <- <-].
  apply wlp_bind. intros ? ? [= <- <-]. apply wlp_bind.
  eapply wlp_mono; [apply cryptask_run_queue|]. intros l' [e' p'] [Hl (Hf & Ht & Hd & Hc & _)].
  simpl in *. apply wlp_bind. intros ? ? [= <- <-]. intros ? ? [= <- <-]. simpl.
  unfold item_cops in *. rewrite fmap_app, Hd, Hl. by split_and!.
Qed.

(** The bounds of the queue, and that pending jobs wait for the worker. *)
Record queue_ok p : Prop := {
  queue_items : Z.of_nat (length (cp_free p ++ cp_todo p ++ cp_done p)) <= cp_itemcount p;
  queue_count : cp_itemcount p <= MAX_COP_RINGSIZE;
  queue_awake : cp_todo p <> [] -> cp_queued p = true
}.

(** What one step does to the jobs in the queue. *)
Lemma async_run_queue k r st st' :
  crypto_async_run k st = Done r st' -> queue_ok st.2 ->
  queue_ok st'.2 /\ cp_done st'.2 = cp_done st.2 /\
  item_cops (cp_todo st'.2) = item_cops (cp_todo st.2) ++ (if r =? 0 then [kc_cop k] else []).
Proof.
  destruct st as [e p]. intros E [Hl Hc Hq]. revert r st' E.
  change (wlp (crypto_async_run k) (fun r st' => queue_ok st'.2 /\ cp_done st'.2 = cp_done p /\
    item_cops (cp_todo st'.2) = item_cops (cp_todo p) ++ (if r =? 0 then [kc_cop k] else [])) (e, p)).
  unfold crypto_async_run. apply wlp_bind. intros ? ? [= <- <-]. simpl.
  rewrite !length_app in Hl. destruct (cp_free p) as [|i free] eqn:Hf; simpl in *.
  - destruct (Z.ltb_spec (cp_itemcount p) MAX_COP_RINGSIZE).
    + apply wlp_bind. intros ? ? [= <- <-]. apply wlp_bind. intros o [e1 p1] E.
      assert (Hp1 : p1 = set_itemcount (cp_itemcount p + 1) p /\
                    forall i, o = Some i -> it_kcop i = kcop_zero).
      { revert E. unfold kalloc, mbind, M_bind. simpl. destruct (e_allocs e) as [|[] al]; simpl;
          intros [= <- _ <-]; (split; [done|]); intros i Hi; repeat case_match; by simplify_eq. }
      destruct Hp1 as [-> Hk]. destruct o as [i|].
      * do 2 (apply wlp_bind; intros ? ? [= <- <-]). apply wlp_ret. simpl. unfold item_cops.
        rewrite fmap_app. split_and!; try done. constructor; simpl; rewrite ?Hf, ?length_app; simpl; lia || done.
      * apply wlp_ret. simpl. rewrite app_nil_r. split_and!; try done.
        constructor; simpl; rewrite ?Hf, ?length_app; simpl; lia || done.
    + apply wlp_ret. rewrite app_nil_r. split_and!; try done.
      constructor; simpl; rewrite ?Hf, ?length_app; simpl; lia || done.
  - apply wlp_bind. intros ? ? [= <- <-]. apply wlp_bind. intros ? ? [= <- <-].
    do 2 (apply wlp_bind; intros ? ? [= <- <-]). apply wlp_ret. simpl. unfold item_cops.
    rewrite fmap_app. split_and!; try done. constructor; simpl; rewrite ?length_app; simpl; rewrite ?Hf in *; simpl in *; lia || done.
Qed.

Lemma async_fetch_queue k0 r k st st' :
  crypto_async_fetch k0 st = Done (r, k) st' -> queue_ok st.2 ->
  queue_ok st'.2 /\ cp_todo st'.2 = cp_todo st.2 /\
  item_cops (cp_done st.2) =
    (match cp_done st.2 with [] => [] | _ => [kc_cop k] end) ++ item_cops (cp_done st'.2).
Proof.
  destruct st as [e p]. intros E [Hl Hc Hq]. unfold crypto_async_fetch, mbind, M_bind in E. simpl in *.
  destruct (cp_done p) as [|i rest] eqn:Hd; simpl in E; injection E as <- <- <-; simpl; rewrite ?Hd.
  - split_and!; try done. constructor; by rewrite ?Hd.
  - split_and!; try done. constructor; simpl; rewrite ?length_app in *; simpl in *; lia || done.
Qed.

Lemma async_step_inv st ev st' :
  async_step st ev st' -> queue_ok st.2 ->
  queue_ok st'.2 /\
  fetched [ev] ++ item_cops (cp_done st'.2) ++ item_cops (cp_todo st'.2) =
  item_cops (cp_done st.2) ++ item_cops (cp_todo st.2) ++ submitted [ev].
Proof.
  intros [k st1 st2 E|k r st1 st2 E Hr|st1 st2 E|k0 r k st1 st2 E Hd|k0 r k st1 st2 E Hd|e p e' p' Hf Ht Hd Hc Hq] Hok;
    csimpl; rewrite ?app_nil_r.
  - destruct (async_run_queue _ _ _ _ E Hok) as (? & -> & ->). done.
  - destruct (async_run_queue _ _ _ _ E Hok) as (? & -> & ->).
    rewrite (proj2 (Z.eqb_neq _ _) Hr), app_nil_r. done.
  - destruct (cryptask_queue _ _ _ E) as (Hd & Ht & Hf & Hc). rewrite Hd, Ht. csimpl.
    rewrite app_nil_r. split; [|done]. destruct Hok as [Hl ? ?].
    apply (f_equal length) in Hd. unfold item_cops in Hd. rewrite length_app, !length_fmap in Hd.
    constructor; rewrite ?Hc, ?Ht, ?Hf; try done. rewrite !length_app in *. simpl. lia.
  - destruct (async_fetch_queue _ _ _ _ _ E Hok) as (? & -> & ->). split; [done|].
    by destruct (cp_done st1.2).
  - destruct (async_fetch_queue _ _ _ _ _ E Hok) as (? & -> & ->). split; [done|]. by rewrite Hd.
  - simpl in *. rewrite Hd, Ht. split; [|done]. destruct Hok as [Hl Hc' Hq']. simpl in *.
    constructor; rewrite ?Hf, ?Ht, ?Hd, ?Hc, ?Hq; done.
Qed.

(** C18: asynchronous jobs are served in order.  In every interleaving of
    submissions, runs of the worker, fetches and unrelated calls that starts
    with an idle queue, the requests fetched so far, followed by those that are
    done and those still pending, are exactly the requests that were accepted,
    in the order of their submission: none is lost, doubled or overtaken.  The
    queue never holds more than 64 items, and whenever a job is pending the
    worker is scheduled. *)
Theorem async_fifo e p evs e' p' :
  queue_ok p -> cp_todo p = [] -> cp_done p = [] -> async_trace (e, p) evs (e', p') ->
  submitted evs = fetched evs ++ item_cops (cp_done p') ++ item_cops (cp_todo p') /\
  Z.of_nat (length (cp_free p' ++ cp_todo p' ++ cp_done p')) <= MAX_COP_RINGSIZE /\
  (cp_todo p' <> [] -> cp_queued p' = true).
Proof.
  intros Hok Ht Hd Htr.
  assert (Hinv : queue_ok p' /\
    submitted evs = fetched evs ++ item_cops (cp_done p') ++ item_cops (cp_todo p')).
  { change p' with (e', p').2. induction Htr as [|evs st1 ev st2 Htr [Hok1 IH] Hstep]; simpl.
    - by rewrite Ht, Hd.
    - destruct (async_step_inv _ _ _ Hstep Hok1) as [? Heq]. split; [done|].
      unfold submitted, fetched in *. rewrite !omap_app, IH, <- !app_assoc. f_equal. by symmetry. }
  destruct Hinv as [[? ? ?] ->]. split_and!; [done|lia|done].
Qed.

(** ** Running jobs *)

Section Exact.
Context `{!CipherLaws, !HashLaws, !CryptoAPISucceeds}.

(** A request stays usable when something else of the file changes. *)
Lemma runs_frame e p R k i s e' p' R' :
  runs e p R k i s -> handle_ok e' p' R' -> cp_fcrypt p' !! i = Some s -> copies e' (kc_cop k) ->
  m_pages (e_mem e') = m_pages (e_mem e) -> runs e' p' R' k i s.
Proof. intros [] ? ? ? ?. constructor; try done. by eapply op_bufs_after. Qed.

(** A request stays usable after another one ran. *)
Lemma runs_after e p R k i s k2 j s2 e1 s1 iv st :
  runs e p R k2 j s2 -> cp_fcrypt p !! i = Some s -> after_op (set_cs_locked true s) s1 iv st ->
  same_env e e1 -> handle_ok e1 (with_session i (set_cs_locked false s1) p) R ->
  exists s2', runs e1 (with_session i (set_cs_locked false s1) p) R k2 j s2'.
Proof.
  intros Hr2 Hi A S Hh. destruct (decide (i = j)) as [<-|Hne].
  - pose proof (rs_session _ _ _ _ _ _ Hr2) as Hi2. rewrite Hi in Hi2. injection Hi2 as <-.
    eexists. by eapply runs_again.
  - exists s2. eapply runs_frame; [exact Hr2|done| | |by destruct S].
    + simpl. rewrite list_lookup_insert_ne by done. by destruct Hr2.
    + eapply copies_after; [done|]. by destruct Hr2.
Qed.

(** The job an item holds after it ran. *)
Definition served (i i' : todo_list_item) : Prop :=
  it_addr i' = it_addr i /\ it_result i' = 0 /\ kc_cop (it_kcop i') = kc_cop (it_kcop i).

Lemma finish_kcop_cop s k iv st : kc_cop (finish_kcop s k iv st) = kc_cop k.
Proof. unfold finish_kcop. by destruct (has_cipher s), (finishes s _). Qed.

Lemma cryptask_run_spec l e p R (Q : list todo_list_item -> env * crypt_priv -> Prop) :
  handle_ok e p R -> e_allocs e = [] ->
  Forall (fun it => exists i s, runs e p R (it_kcop it) i s) l ->
  (forall l' e' p', Forall2 served l l' -> same_env e e' -> handle_ok e' p' R -> same_queue p p' ->
     cp_addr p' = cp_addr p -> Q l' (e', p')) ->
  wp (cryptask_run l) Q (e, p).
Proof.
  revert e p Q. induction l as [|it l IH]; intros e p Q Hh Hal Hl HQ; cbn [cryptask_run].
  { kgo. by apply HQ. }
  apply Forall_cons_iff in Hl as [(i & s & Hr) Hl].
  destruct (crypto_run_done _ _ _ _ _ _ Hr Hal) as (e1 & s1 & out & iv & st & E & C & A & U & S & Hh1).
  kstep. eapply wp_eq; [exact E|]. kgo. apply IH; [done|by eapply se_allocs| |].
  - eapply Forall_impl; [|exact Hl]. intros it' (j & s2 & Hr2).
    destruct (runs_after _ _ _ (it_kcop it) i s _ _ _ _ _ _ _ Hr2 ltac:(by destruct Hr) A S Hh1). eauto.
  - intros l' e2 p2 Hl' S2 Hh2 Hq Ha. kgo. apply HQ; [|by etrans|done..].
    constructor; [|done]. by split_and!; [| |apply finish_kcop_cop].
Qed.

Lemma served_objs l l' : Forall2 served l l' -> item_objs l' = item_objs l.
Proof.
  induction 1 as [|i i' l l' (Ha & _) _ IH]; [done|]. rewrite !item_objs_cons, IH. by rewrite Ha.
Qed.

(** C19: the worker serves every pending job.  When the pending requests are
    ones a kernel thread can run (zero copy on mapped buffers), the worker
    returns with no job pending, all of them done with result 0 in the order of
    their submission, behind those that were done before; no page stays pinned
    and the invariant of the file holds again. *)
Theorem cryptask_serves_all e p R :
  handle_ok e p R -> e_allocs e = [] ->
  Forall (fun it => exists i s, runs (set_user false e) p R (it_kcop it) i s) (cp_todo p) ->
  exists e' p' l,
    cryptask_routine (e, p) = Done tt (e', p') /\
    cp_todo p' = [] /\ cp_done p' = cp_done p ++ l /\ Forall2 served (cp_todo p) l /\
    e_pins e' = e_pins e /\ e_user e' = e_user e /\ handle_ok e' p' R.
Proof.
  intros Hh Hal Hjobs. destruct (Hh) as [He [Hs Hn Hit Hcnt Hq] Ho].
  set (e0 := set_user false e). set (p0 := set_todo [] (set_queued false p)).
  assert (Hh0 : handle_ok e0 p0 (item_objs (cp_todo p) ++ R)).
  { split; [by destruct He| |].
    - constructor; simpl; try done. rewrite !length_app in *. simpl. lia.
    - rewrite (priv_objs_queue p) by done. simpl. eapply owns_perm, Ho.
      unfold priv_objs. rewrite !item_objs_app. perm_solve. }
  assert (Hwp : wp cryptask_routine (fun _ '(e', p') => exists l,
    cp_todo p' = [] /\ cp_done p' = cp_done p ++ l /\ Forall2 served (cp_todo p) l /\
    e_pins e' = e_pins e /\ e_user e' = e_user e /\ handle_ok e' p' R) (e, p)).
  { unfold cryptask_routine, cryptask_fetch, cryptask_finish. kgo. fold e0 p0.
    eapply cryptask_run_spec; [exact Hh0|done| |].
    - eapply Forall_impl; [|exact Hjobs]. intros it (i & s & Hr). exists i, s.
      eapply runs_frame; [exact Hr|done|by destruct Hr|by destruct Hr|done].
    - intros l' e' p' Hl S [He' [Hs' Hn' Hit' Hcnt' _] Ho'] (Hf & Ht & Hd & Hc & Hqd) Ha. kgo.
      cbn [fst snd]. exists l'. unfold p0 in *. cbn in Hf, Ht, Hd, Hc, Hqd, Ha.
      assert (Hll : length l' = length (cp_todo p)) by (symmetry; by eapply Forall2_length).
      assert (Hpr : priv_ok (set_done (cp_done p' ++ l') p')).
      { constructor; cbn; try done. rewrite Hf, Ht, Hd, Hc. cbn.
        rewrite !length_app in *. lia. }
      assert (Hown : owns e' (priv_objs (set_done (cp_done p' ++ l') p') ++ R)).
      { rewrite (priv_objs_queue p') by done. cbn. eapply owns_perm, Ho'. unfold priv_objs.
        rewrite Ht, !item_objs_app, (served_objs _ _ Hl). perm_solve. }
      cbn. rewrite Ht, Hd. split_and!; try done; [by destruct S|]. rewrite Hd in *.
      split; [by destruct He'|done|exact Hown]. }
  apply wp_done in Hwp as ([] & [e' p'] & E & l & ?). exists e', p', l. by split.
Qed.
End Exact.
End FileFacts.
