(* ===== verification/IoctlFacts.v ===== *)
(** * The ioctls of /dev/crypto

    Every ioctl keeps the invariant of the file, whatever the caller passes;
    and CIOCCRYPT does what a request in user memory asks for, for 64-bit and
    for 32-bit callers alike. *)
From stdpp Require Import base gmap gmultiset list strings numbers.
From S2P Require Import Prelude Kernel KernelFacts Structs CryptoApi Sg.
From S2P Require Import Cryptlib CryptlibFacts Zc ZcFacts Fcrypt FcryptFacts.
From S2P Require Import Run RunFacts Authenc Ioctl FileFacts.
Open Scope Z_scope.

(** A structure read from memory fits its fields. *)
Lemma decode_fits `{LayoutOk T} m a :
  mem_ok m -> fits (decode (peeks m (seqZ a (Z.of_nat sizeof)))).
Proof.
  intros Hm. apply encode_decode; [|by apply peeks_bytes]. rewrite length_peeks, length_seqZ. lia.
Qed.

(** Pointers of a 32-bit process survive the conversion. *)
Lemma compat_crypt_op_back e c :
  compat_crypt_op_fits c -> crypt_op_to_compat (compat_to_crypt_op e c) = c.
Proof.
  destruct c. unfold compat_crypt_op_fits, is_u, crypt_op_to_compat, compat_to_crypt_op, compat_ptr, ptr_to_compat.
  simpl. intros Hf. rewrite !u32_small by (rewrite ?u32_small; lia). done.
Qed.

Section IoctlFacts.
Context `{CryptoAPI, !CryptoAPISizes}.
Implicit Types (e : env) (s : csession) (p : crypt_priv) (k : kernel_crypt_op).

(** The invariant does not depend on the contents of memory. *)
Lemma handle_mem e f p R : handle_ok e p R -> handle_ok (set_mem f e) p R.
Proof. intros [He Hp Ho]. split; [by apply env_ok_mem|done|by apply owns_mem]. Qed.

(** ** Requests *)

(** The request that [fill_kcop_from_cop] makes of a [crypt_op]. *)
Definition request e s k : kernel_crypt_op :=
  let cop := kc_cop k in
  let ivlen := if co_iv cop =? 0 then 0 else cd_ivsize (cs_cdata s) in
  KernelCryptOp cop ivlen
    (memcpy (kc_iv k) (peeks (e_mem e) (seqZ (co_iv cop) ivlen)) ivlen) 0 (kc_hash_output k).

(** Its IV can be read. *)
Definition iv_readable e s (cop : crypt_op) : Prop :=
  co_iv cop <> 0 -> range_readable (e_mem e) (co_iv cop) (cd_ivsize (cs_cdata s)).

Lemma session_ivsize s : ses_ok s -> 0 <= cd_ivsize (cs_cdata s) <= 16.
Proof.
  intros [Hc _ _ _]. destruct (Z.eq_dec (cd_init (cs_cdata s)) 0) as [Hi|Hi].
  - by rewrite (cdata_unset _ Hc Hi).
  - destruct (cdata_alg _ Hc Hi) as (a & Ha & _ & ->).
    destruct (cd_aead (cs_cdata s) =? 0).
    + by destruct (ablkcipher_sizes _ _ Ha) as (_ & _ & ?).
    + by destruct (aead_sizes _ _ Ha) as (_ & ? & _).
Qed.

(** Looking a session up and releasing it again changes nothing. *)
Lemma peek_session_spec {A} e p R sid m0 (f : csession -> K crypt_priv A)
    (Q : A -> env * crypt_priv -> Prop) :
  handle_ok e p R ->
  (sid ∉ cs_sid <$> cp_fcrypt p -> wp m0 Q (e, p)) ->
  (forall i s, cp_fcrypt p !! i = Some s -> cs_sid s = sid -> ses_ok s ->
     wp (f (set_cs_locked true s)) Q (e, p)) ->
  wp (ses ← crypto_get_session_by_sid sid;
      if ses =? 0 then m0
      else s ← on_session ses getx; crypto_put_session ses;; f s) Q (e, p).
Proof.
  intros Hh Hnone Hsome. kgo. eapply get_session_spec; [exact Hh| |].
  { intros Hn. kgo. by apply Hnone. }
  intros i s Hi Hsid Hok Ha. kgo. eapply on_session_spec; [exact Hh|exact Hi|done|].
  eapply wp_eq; [reflexivity|]. cbn [fst snd]. kstep.
  eapply put_session_spec; [exact Hh|exact Hi|done|].
  assert (Hs : set_cs_locked false (set_cs_locked true s) = s).
  { pose proof (ses_unlocked _ Hok). destruct s; simpl in *. by subst. }
  rewrite Hs, (with_session_id _ _ _ Hi). by eapply Hsome.
Qed.

Lemma fill_kcop_spec e p R k (Q : Z * kernel_crypt_op -> env * crypt_priv -> Prop) :
  handle_ok e p R -> e_user e = true ->
  (co_ses (kc_cop k) ∉ cs_sid <$> cp_fcrypt p -> Q (- EINVAL, k) (e, p)) ->
  (forall i s, cp_fcrypt p !! i = Some s -> cs_sid s = co_ses (kc_cop k) -> ses_ok s ->
     Q (0, request e s k) (e, p)) ->
  (forall i s k', cp_fcrypt p !! i = Some s -> cs_sid s = co_ses (kc_cop k) ->
     ~ iv_readable e s (kc_cop k) -> Q (- EFAULT, k') (e, p)) ->
  wp (fill_kcop_from_cop k) Q (e, p).
Proof.
  intros Hh Hu Hnone Hok Hfault. unfold fill_kcop_from_cop. cbv zeta.
  eapply peek_session_spec; [exact Hh|intros Hn; kgo; by apply Hnone|].
  intros i s Hi Hsid Hs. specialize (Hok i s Hi Hsid Hs). specialize (fun k' => Hfault i s k' Hi Hsid).
  pose proof (session_ivsize _ Hs) as Hiv. unfold request, iv_readable in *. cbn [cs_cdata set_cs_locked].
  destruct (Z.eqb_spec (co_iv (kc_cop k)) 0) as [H0'|H0']; cbn [negb]; [by kgo|].
  unfold EALG_MAX_BLOCK_LEN. rewrite (proj2 (Z.ltb_ge _ _)) by lia. kgo.
  apply copy_from_user_spec; [done|lia|]. intros bs nleft Hl Hn Hbs Hrd.
  destruct (Z.eqb_spec nleft 0) as [->|Hne]; kgo; [|apply Hfault; tauto].
  rewrite Hbs by done. exact Hok.
Qed.

(** Sixteen bytes of stack. *)
Lemma length_stack_iv e cop : length (kc_iv (stack_kcop e cop)) = 16%nat.
Proof. done. Qed.

(** [kcop_from_user] and [compat_kcop_from_user] differ in the structure they
    read. *)
Definition read_request (size : Z) (dec : env -> bytes -> crypt_op) (arg : Z)
    : K crypt_priv (Z * kernel_crypt_op) :=
  e ← gete;
  '(b, nleft) ← copy_from_user arg size;
  let kcop := stack_kcop e (dec e b) in
  if negb (nleft =? 0) then mret (- EFAULT, kcop) else fill_kcop_from_cop kcop.

Definition read_error e p size (arg : Z) (cop : crypt_op) : Prop :=
  ~ range_readable (e_mem e) arg size \/ co_ses cop ∉ cs_sid <$> cp_fcrypt p \/
  exists i s, cp_fcrypt p !! i = Some s /\ cs_sid s = co_ses cop /\ ~ iv_readable e s cop.

Lemma read_request_spec e p R size dec arg (Q : Z * kernel_crypt_op -> env * crypt_priv -> Prop) :
  handle_ok e p R -> e_user e = true -> 0 <= size ->
  let cop := dec e (peeks (e_mem e) (seqZ arg size)) in
  (forall i s, cp_fcrypt p !! i = Some s -> cs_sid s = co_ses cop -> ses_ok s ->
     Q (0, request e s (stack_kcop e cop)) (e, p)) ->
  (forall r k', r < 0 -> read_error e p size arg cop -> Q (r, k') (e, p)) ->
  wp (read_request size dec arg) Q (e, p).
Proof.
  intros Hh Hu Hs cop Hok Herr. unfold read_request. kgo.
  apply copy_from_user_spec; [done|lia|]. intros bs nleft Hl Hn Hbs Hrd.
  destruct (Z.eqb_spec nleft 0) as [->|Hne]; kgo; [|apply Herr; [done|left; auto]].
  rewrite Hbs by done. fold cop. eapply fill_kcop_spec; [done|done|..].
  - intros Hno. apply Herr; [done|right; by left].
  - intros i s Hi Hsid Hses. by apply (Hok i s).
  - intros i s k' Hi Hsid Hiv. apply Herr; [done|right; right; eauto].
Qed.

(** What [fill_cop_from_kcop] writes to user memory: the digest, and the IV
    when the caller asked for it. *)
Definition digest_out k : bytes := take (Z.to_nat (kc_digestsize k)) (kc_hash_output k).
Definition iv_out k : bytes := take (Z.to_nat (kc_ivlen k)) (kc_iv k).
Definition writes_iv k : bool :=
  negb (kc_ivlen k =? 0) && has_flag (co_flags (kc_cop k)) COP_FLAG_WRITE_IV.

Definition write_bytes (a : Z) (bs : bytes) (m : mem) : mem :=
  pokes (seqZ a (Z.of_nat (length bs))) bs m.

Definition write_back k (m : mem) : mem :=
  let m := if kc_digestsize k =? 0 then m else write_bytes (co_mac (kc_cop k)) (digest_out k) m in
  if writes_iv k then write_bytes (co_iv (kc_cop k)) (iv_out k) m else m.

Definition out_writable (m : mem) k : Prop :=
  (kc_digestsize k <> 0 -> range_writable m (co_mac (kc_cop k)) (Z.of_nat (length (digest_out k)))) /\
  (writes_iv k = true -> range_writable m (co_iv (kc_cop k)) (Z.of_nat (length (iv_out k)))).

(** A change of the contents of memory. *)
Definition contents (f : mem -> mem) : Prop := forall m, m_pages (f m) = m_pages m.

Lemma pokes_contents l bs : contents (pokes l bs).
Proof. intros m. apply pokes_pages. Qed.

Lemma write_bytes_contents a bs : contents (write_bytes a bs).
Proof. intros m. apply pokes_pages. Qed.

Lemma write_back_contents k : contents (write_back k).
Proof.
  intros m. unfold write_back, write_bytes.
  destruct (kc_digestsize k =? 0), (writes_iv k); by rewrite ?pokes_pages.
Qed.

(** A copy to user memory that may fail halfway. *)
Lemma copy_out_spec {X} e (x : X) a bs (Q : Z -> env * X -> Prop) :
  e_user e = true ->
  Q 0 (set_mem (write_bytes a bs) e, x) ->
  (forall nleft f, 0 < nleft -> contents f ->
     ~ range_writable (e_mem e) a (Z.of_nat (length bs)) -> Q nleft (set_mem f e, x)) ->
  wp (copy_to_user a bs) Q (e, x).
Proof.
  intros Hu Hok Herr. apply copy_to_user_spec; [done|]. intros l nleft _ Hn Hl Hw _.
  destruct (Z.eq_dec nleft 0) as [->|Hne]; [rewrite Hl by done; exact Hok|].
  apply Herr; [lia|apply pokes_contents|auto].
Qed.

Lemma fill_cop_spec e p k (Q : Z -> env * crypt_priv -> Prop) :
  e_user e = true ->
  Q 0 (set_mem (write_back k) e, p) ->
  (forall f, contents f -> ~ out_writable (e_mem e) k -> Q (- EFAULT) (set_mem f e, p)) ->
  wp (fill_cop_from_kcop k) Q (e, p).
Proof.
  intros Hu Hok Herr. unfold fill_cop_from_kcop, out_writable, write_back in *. kgo.
  fold (digest_out k) (iv_out k) (writes_iv k).
  assert (Hiv : forall f, contents f ->
    Q 0 (set_mem (fun m => if writes_iv k then write_bytes (co_iv (kc_cop k)) (iv_out k) (f m) else f m) e, p) ->
    wp (nleft ← (if writes_iv k then copy_to_user (co_iv (kc_cop k)) (iv_out k) else mret 0);
        if negb (nleft =? 0) then mret (- EFAULT) else mret 0) Q (set_mem f e, p)).
  { intros f Hf HQ. destruct (writes_iv k) eqn:Hw; kgo; [|exact HQ].
    apply copy_out_spec; [done|by kgo|]. intros nleft g Hn Hg Hno.
    assert (nleft <> 0) by lia. kgo. apply (Herr (fun m => g (f m))); [intros m; by rewrite Hg, Hf|].
    intros [_ Hr]. apply Hno. eapply range_writable_pages; [apply Hf|by apply Hr]. }
  destruct (Z.eqb_spec (kc_digestsize k) 0) as [H0'|H0']; cbn [negb].
  - apply wp_ret. kred. specialize (Hiv (fun m => m) ltac:(done) Hok).
    by replace (set_mem (fun m => m) e) with e in Hiv by (by destruct e).
  - apply copy_out_spec; [done| |].
    + kred. apply Hiv; [intros m; apply pokes_contents|exact Hok].
    + intros nleft f Hn Hf Hno. assert (nleft <> 0) by lia. kgo. apply Herr; [done|tauto].
Qed.

(** [kcop_to_user] and [compat_kcop_to_user], likewise. *)
Definition write_request (enc : crypt_op -> bytes) k (arg : Z) : K crypt_priv Z :=
  ret ← fill_cop_from_kcop k;
  if negb (ret =? 0) then mret ret
  else
    nleft ← copy_to_user arg (enc (kc_cop k));
    if negb (nleft =? 0) then mret (- EFAULT) else mret 0.

Lemma write_request_spec e p enc k arg (Q : Z -> env * crypt_priv -> Prop) :
  e_user e = true ->
  Q 0 (set_mem (fun m => write_bytes arg (enc (kc_cop k)) (write_back k m)) e, p) ->
  (forall f, contents f ->
     ~ (out_writable (e_mem e) k /\ range_writable (e_mem e) arg (Z.of_nat (length (enc (kc_cop k))))) ->
     Q (- EFAULT) (set_mem f e, p)) ->
  wp (write_request enc k arg) Q (e, p).
Proof.
  intros Hu Hok Herr. unfold write_request. kgo. apply fill_cop_spec; [done| |].
  - kgo. apply copy_out_spec; [done|by kgo|]. intros nleft f Hn Hf Hno. assert (nleft <> 0) by lia. kgo.
    apply (Herr (fun m => f (write_back k m))).
    { intros m. rewrite Hf. apply write_back_contents. }
    intros [_ Hw]. apply Hno. eapply range_writable_pages; [apply write_back_contents|done].
  - intros f Hf Hno. change (negb (- EFAULT =? 0)) with true. kgo. apply Herr; [done|tauto].
Qed.

(** ** Safety *)

(** What an ioctl keeps: the invariant of the file, the mapping of user memory
    and the pins.  Objects are lost only when an allocation failed, or when
    the key of an AEAD cipher was refused. *)
Record kept e R (e' : env) p' (lost : list (Z * kobj)) : Prop := {
  kept_handle : handle_ok e' p' (lost ++ R);
  kept_pins : e_pins e' = e_pins e;
  kept_pages : m_pages (e_mem e') = m_pages (e_mem e);
  kept_lost : lost = [] \/ e_allocs e <> [] \/ exists key, aead_setkey "gcm(aes)" key <> 0
}.

Definition keeps e R (m : K crypt_priv Z) p : Prop :=
  wp m (fun r '(e', p') => exists lost, kept e R e' p' lost) (e, p).

Lemma kept_mem e R e1 p f lost : kept e R e1 p lost -> contents f -> kept e R (set_mem f e1) p lost.
Proof. intros [Hh Hpi Hpa Hl] Hf. constructor; try done; [by apply handle_mem|by rewrite <- Hpa, <- (Hf (e_mem e1))]. Qed.

Lemma kept_same e R e' p' lost :
  same_env e e' -> handle_ok e' p' (lost ++ R) ->
  lost = [] \/ e_allocs e <> [] \/ (exists key, aead_setkey "gcm(aes)" key <> 0) -> kept e R e' p' lost.
Proof. intros [] ? ?. by constructor. Qed.

Lemma kept_refl e R p : handle_ok e p R -> kept e R e p [].
Proof. intros Hh. by apply kept_same; [|done|left]. Qed.

Lemma put_user_keeps e p R v arg : handle_ok e p R -> e_user e = true -> keeps e R (put_user v arg) p.
Proof.
  intros Hh Hu. apply put_user_spec; [done|intros _..]; exists []; [|by apply kept_refl].
  apply kept_mem; [by apply kept_refl|apply pokes_contents].
Qed.

Lemma write_request_keeps e p R enc k arg :
  handle_ok e p R -> e_user e = true -> keeps e R (write_request enc k arg) p.
Proof.
  intros Hh Hu. apply write_request_spec; [done| |]; [|intros f Hf _]; exists [];
    (apply kept_mem; [by apply kept_refl|]); [|done].
  intros m. unfold write_bytes. rewrite pokes_pages. apply write_back_contents.
Qed.

(** CIOCGSESSION and its 32-bit variant differ in the structure they read and
    write. *)
Definition make_session (size : Z) (dec : env -> bytes -> session_op) (enc : session_op -> bytes)
    (arg : Z) : K crypt_priv Z :=
  e ← gete;
  '(b, nleft) ← copy_from_user arg size;
  if negb (nleft =? 0) then mret (- EFAULT)
  else
    '(ret, sop) ← crypto_create_session (dec e b);
    if negb (ret =? 0) then mret ret
    else
      nleft ← copy_to_user arg (enc sop);
      if negb (nleft =? 0) then crypto_finish_session (so_ses sop);; mret (- EFAULT)
      else mret nleft.

Lemma make_session_keeps e p R size dec enc arg :
  handle_ok e p R -> e_user e = true -> mem_ok (e_mem e) ->
  Exists (fun r => u32 r ∉ cs_sid <$> cp_fcrypt p) (e_rng e) ->
  0 <= size ->
  (let sop := dec e (peeks (e_mem e) (seqZ arg size)) in 0 <= so_keylen sop /\ 0 <= so_mackeylen sop) ->
  keeps e R (make_session size dec enc arg) p.
Proof.
  intros Hh Hu Hm Hrng Hsz Hlen. cbv zeta in Hlen. unfold keeps, make_session. kgo.
  apply copy_from_user_spec; [done|done|]. intros bs nleft _ _ Hbs _.
  destruct (Z.eqb_spec nleft 0) as [->|]; kgo; [|exists []; by apply kept_refl].
  rewrite Hbs by done. set (sop := dec e _) in *.
  eapply create_session_spec; [exact Hh|done|tauto|tauto|done|].
  intros r sop' e1 p1 Hr. destruct Hr as [e1 s rng ? ? ? ? ? _ _ Hw _ Hsid _ Hh1|r e1 lost Hr _ Hw Hh1 Hl].
  - kgo. assert (Hu1 : e_user e1 = true) by (by rewrite (sw_user _ _ Hw)).
    assert (Hkept : forall e2 p2, handle_ok e2 p2 R -> same_env e1 e2 -> kept e R e2 p2 []).
    { intros e2 p2 Hh2 S. destruct Hw as [Hwm _ _ _ Hwp _ _], S as [Hsp _ _ _ Hspi _ _].
      constructor; [done|by rewrite Hspi, Hwp|by rewrite Hsp, Hwm|by left]. }
    apply copy_out_spec; [done| |].
    + kgo. exists []. apply Hkept; [by apply handle_mem|apply same_env_mem; intros; apply pokes_pages].
    + intros nleft f Hn Hf _. assert (nleft <> 0) by lia. kgo.
      eapply finish_session_spec; [by apply handle_mem|]. intros e2 Hw2 Hh2. kgo.
      exists []. apply Hkept; [done|]. etrans; [by apply (same_env_mem _ f)|by apply same_world_env].
  - assert (r <> 0) by lia. kgo. exists lost. apply kept_same; [by apply same_world_env|done|].
    destruct Hl as [|[|[_ ?]]]; eauto.
Qed.

Lemma finish_session_keeps e p R arg :
  handle_ok e p R -> e_user e = true -> keeps e R (ioctl_finish_session arg) p.
Proof.
  intros Hh Hu. unfold keeps, ioctl_finish_session. kgo. apply get_user_spec; [done|..]; intros _; kgo.
  - eapply finish_session_spec; [exact Hh|]. intros e1 Hw Hh1. exists [].
    apply kept_same; [by apply same_world_env|done|by left].
  - change (negb (- EFAULT =? 0)) with true. kgo. exists []. by apply kept_refl.
Qed.

Lemma session_info_keeps e p R arg :
  handle_ok e p R -> e_user e = true -> keeps e R (ioctl_session_info arg) p.
Proof.
  intros Hh Hu. unfold keeps, ioctl_session_info. kgo.
  apply copy_from_user_spec; [done|done|]. intros bs nleft _ _ _ _.
  destruct (Z.eqb_spec nleft 0) as [->|]; kgo; [|exists []; by apply kept_refl].
  unfold get_session_info. cbv zeta. eapply peek_session_spec; [exact Hh| |].
  - intros _. kgo. change (negb (- EINVAL =? 0)) with true. kgo. exists []. by apply kept_refl.
  - intros i s _ _ _. kgo. apply copy_out_spec; [done| |]; [|intros nleft f _ Hf _]; exists [];
      (apply kept_mem; [by apply kept_refl|done || apply write_bytes_contents]).
Qed.

Lemma get_fd_keeps e p R arg : handle_ok e p R -> e_user e = true -> keeps e R (ioctl_get_fd arg) p.
Proof.
  intros Hh Hu. unfold keeps, ioctl_get_fd, clonefd. kgo.
  assert (Hcount : forall e1 q n, handle_ok e1 q R -> handle_ok e1 (set_fcount n q) R).
  { intros e1 q n [? [] ?]. split; [done|by constructor|done]. }
  assert (Hput : forall e1 q fd, kept e R e1 q [] -> e_user e1 = true ->
    wp (put_user (u32 fd) arg) (fun ret =>
      wp (if negb (ret =? 0) then sys_close fd;; mret ret else mret ret)
         (fun r '(e', p') => exists lost, kept e R e' p' lost)) (e1, q)).
  { intros e1 q fd Hk1 Hu1. apply put_user_spec; [done|intros _..].
    - kgo. exists []. apply kept_mem; [done|apply pokes_contents].
    - change (negb (- EFAULT =? 0)) with true. unfold sys_close. destruct Hk1 as [Hh1 ? ? ?].
      kgo. destruct (0 <=? fd); kgo; exists []; constructor; try done. by apply Hcount. }
  pose proof (kept_refl e R p Hh) as [Hh0 Hpi Hpa Hl].
  destruct (e_fds e) as [|fd fds]; kgo; [by apply Hput|].
  assert (He : handle_ok (set_fds fds e) p R) by (by destruct Hh as [[] ? ?]).
  destruct (0 <=? fd); kgo; apply Hput; try done; constructor; try done; by apply Hcount.
Qed.

Lemma async_crypt_keeps e p R size dec arg :
  handle_ok e p R -> e_user e = true -> 0 <= size ->
  keeps e R ('(ret, k) ← read_request size dec arg;
             if negb (ret =? 0) then mret ret else crypto_async_run k) p.
Proof.
  intros Hh Hu Hs. unfold keeps. kgo. eapply read_request_spec; [exact Hh|done|done| |].
  - intros i s _ _ _. kgo. eapply async_run_spec; [exact Hh|].
    intros r e1 p1 [e2 p2 Hw _ _ _ _ Hh2|_ _|e2 p2 Hal Hw _ Hh2]; exists [].
    + apply kept_same; [by apply same_world_env|done|by left].
    + by apply kept_refl.
    + apply kept_same; [by apply same_world_env|done|by left].
  - intros r k' Hr _. assert (r <> 0) by lia. kgo. exists []. by apply kept_refl.
Qed.

Lemma async_fetch_keeps e p R k0 enc arg :
  handle_ok e p R -> e_user e = true ->
  keeps e R ('(ret, k) ← crypto_async_fetch k0;
             if negb (ret =? 0) then mret ret else write_request enc k arg) p.
Proof.
  intros Hh Hu. unfold keeps. kgo. eapply async_fetch_spec; [exact Hh| |].
  - intros _. kgo. change (negb (- EBUSY =? 0)) with true. kgo. exists []. by apply kept_refl.
  - intros i rest p' _ _ _ _ Hh'. unfold job. cbv iota beta.
    destruct (Z.eqb_spec (it_result i) 0) as [->|]; kgo; [by apply write_request_keeps|].
    exists []. by apply kept_refl.
Qed.

(** C8: the ioctls are safe.  Whatever number and pointer a 64-bit or a 32-bit
    process passes, every ioctl but the two that process data returns, without a
    crash; the invariant of the file holds again, no page stays pinned, and no
    kernel object is lost unless an allocation failed or the AEAD cipher refused
    a key. *)
Theorem ioctl_safe e p R cmd arg :
  handle_ok e p R -> e_user e = true -> mem_ok (e_mem e) ->
  Exists (fun r => u32 r ∉ cs_sid <$> cp_fcrypt p) (e_rng e) ->
  (cmd <> CIOCCRYPT -> cmd <> CIOCAUTHCRYPT -> exists r e' p' lost,
     cryptodev_ioctl cmd arg (e, p) = Done r (e', p') /\ kept e R e' p' lost) /\
  (cmd <> COMPAT_CIOCCRYPT -> exists r e' p' lost,
     cryptodev_compat_ioctl cmd arg (e, p) = Done r (e', p') /\ kept e R e' p' lost).
Proof.
  intros Hh Hu Hm Hrng.
  assert (Hdone : forall m, keeps e R m p -> exists r e' p' lost,
    m (e, p) = Done r (e', p') /\ kept e R e' p' lost).
  { intros m Hk. apply wp_done in Hk as (r & [e' p'] & E & lost & Hk). eauto 10. }
  assert (Hinv : keeps e R (mret (- EINVAL)) p).
  { unfold keeps. kgo. exists []. by apply kept_refl. }
  assert (Hget : keeps e R (ioctl_get_session arg) p).
  { apply (make_session_keeps _ _ _ sizeof_session_op (fun _ => decode_session_op) encode_session_op); try done.
    destruct (decode_fits (T := session_op) (e_mem e) arg Hm) as (_ & _ & [? _] & _ & _ & [? _] & _). done. }
  assert (Hcget : keeps e R (compat_ioctl_get_session arg) p).
  { apply (make_session_keeps _ _ _ sizeof_compat_session_op
      (fun e b => compat_to_session_op e (decode_compat_session_op b))
      (fun sop => encode_compat_session_op (session_op_to_compat sop))); try done.
    destruct (decode_fits (T := compat_session_op) (e_mem e) arg Hm) as (_ & _ & [? _] & _ & [? _] & _). done. }
  assert (Hnative : cmd <> CIOCCRYPT -> cmd <> CIOCAUTHCRYPT -> keeps e R (cryptodev_ioctl cmd arg) p).
  { intros Hc Ha. unfold cryptodev_ioctl.
    case_match; [by apply put_user_keeps|]. case_match; [by apply get_fd_keeps|].
    case_match; [by apply Hget|]. case_match; [by apply finish_session_keeps|].
    case_match; [by apply session_info_keeps|]. case_match; [lia|]. case_match; [lia|].
    case_match; [by apply (async_crypt_keeps _ _ _ sizeof_crypt_op (fun _ => decode_crypt_op))|].
    case_match; [|done]. by apply (async_fetch_keeps _ _ _ (stack_kcop e crypt_op_zero) encode_crypt_op). }
  split; [by auto|]. intros Hc. apply Hdone. unfold cryptodev_compat_ioctl.
  destruct (_ || _) eqn:Hsame; [apply Hnative; intros ->; by vm_compute in Hsame|].
  case_match; [by apply Hcget|]. case_match; [lia|].
  case_match; [by apply (async_crypt_keeps _ _ _ sizeof_compat_crypt_op
    (fun e b => compat_to_crypt_op e (decode_compat_crypt_op b)))|].
  case_match; [|done].
  by apply (async_fetch_keeps _ _ _ (stack_kcop e crypt_op_zero)
    (fun c => encode_compat_crypt_op (crypt_op_to_compat c))).
Qed.

(** ** CIOCCRYPT *)

Section Exact.
Context `{!CipherLaws, !HashLaws, !CryptoAPISucceeds}.

(** CIOCCRYPT and its 32-bit variant. *)
Definition crypt_request (size : Z) (dec : env -> bytes -> crypt_op) (enc : crypt_op -> bytes)
    (arg : Z) : K crypt_priv Z :=
  '(ret, k) ← read_request size dec arg;
  if negb (ret =? 0) then mret ret
  else
    '(ret, k) ← crypto_run k;
    if negb (ret =? 0) then mret ret else write_request enc k arg.

(** What the caller has to provide: a request the session can run, and memory
    for its results. *)
Record crypt_call e p R (cop : crypt_op) (arg size : Z) i s : Prop := {
  cc_runs : runs e p R (request e s (stack_kcop e cop)) i s;
  cc_user : e_user e = true;
  cc_arg : range_readable (e_mem e) arg size /\ range_writable (e_mem e) arg size;
  cc_iv : iv_readable e s cop;
  cc_mac : finishes s cop = true ->
    range_writable (e_mem e) (co_mac cop) (hd_digestsize (cs_hdata s));
  cc_write_iv : writes_iv (request e s (stack_kcop e cop)) = true ->
    range_writable (e_mem e) (co_iv cop) (cd_ivsize (cs_cdata s))
}.

Lemma memcpy_length dst src n :
  (Z.to_nat n <= length dst)%nat -> (Z.to_nat n <= length src)%nat ->
  length (memcpy dst src n) = length dst.
Proof. intros. unfold memcpy. rewrite length_app, length_take, length_drop. lia. Qed.

Lemma finish_iv_length s k iv st :
  length iv = 16%nat -> length (kc_iv k) = 16%nat ->
  length (kc_iv (finish_kcop s k iv st)) = 16%nat.
Proof.
  intros Hi Hk. unfold finish_kcop.
  assert (iv_bytes s k <= 16) by (unfold iv_bytes, EALG_MAX_BLOCK_LEN; lia).
  assert (length (memcpy (kc_iv k) iv (iv_bytes s k)) = 16%nat) by (rewrite memcpy_length; lia).
  destruct (has_cipher s), (finishes s _); simpl; done.
Qed.

Lemma finish_ivlen s k iv st : kc_ivlen (finish_kcop s k iv st) = kc_ivlen k.
Proof. unfold finish_kcop. by destruct (has_cipher s), (finishes s _). Qed.

Lemma finish_digestsize s k iv st :
  kc_digestsize (finish_kcop s k iv st) =
  if finishes s (kc_cop k) then hd_digestsize (cs_hdata s) else kc_digestsize k.
Proof. unfold finish_kcop. destruct (has_cipher s); simpl; by destruct (finishes s (kc_cop k)). Qed.

Lemma finish_output s k iv st :
  finishes s (kc_cop k) = true ->
  kc_hash_output (finish_kcop s k iv st) = (ahash_final (ahash_name (cs_hdata s)) st).2.
Proof. intros Hf. unfold finish_kcop. destruct (has_cipher s); simpl; by rewrite Hf. Qed.

Lemma digest_out_length s k iv st :
  ses_ok s -> finishes s (kc_cop k) = true ->
  Z.of_nat (length (digest_out (finish_kcop s k iv st))) = hd_digestsize (cs_hdata s).
Proof.
  intros Hs Hf. unfold digest_out. rewrite finish_output, finish_digestsize, Hf by done.
  assert (Hh : has_hash s = true) by (unfold finishes in Hf; by destruct (has_hash s)).
  destruct (hdata_alg _ (ses_hdata _ Hs) (has_hash_init _ Hh)) as (a & Ha & Hda).
  destruct (ahash_final _ st) as [[r ev] d] eqn:E. simpl.
  pose proof (ahash_length _ _ _ _ _ _ Ha E) as Hd. destruct (ahash_sizes _ _ Ha).
  rewrite length_take, Hd. lia.
Qed.

(** The results fit where the caller wants them. *)
Lemma results_writable e p R cop arg size i s iv st m :
  crypt_call e p R cop arg size i s -> ses_ok s -> length iv = 16%nat ->
  m_pages m = m_pages (e_mem e) ->
  out_writable m (finish_kcop s (request e s (stack_kcop e cop)) iv st).
Proof.
  intros [Hr _ _ _ Hmac Hwiv] Hs Hl Hm. set (k := request _ _ _) in *.
  assert (Hki : length (kc_iv k) = 16%nat) by (by destruct Hr).
  pose proof (session_ivsize _ Hs) as Hivs.
  split; rewrite (finish_kcop_cop s k).
  - rewrite finish_digestsize. change (kc_cop k) with cop. intros Hd.
    destruct (finishes s cop) eqn:Hf; [|done]. rewrite digest_out_length by done.
    eapply range_writable_pages; [exact Hm|by apply Hmac].
  - unfold writes_iv, iv_out. rewrite finish_ivlen, finish_kcop_cop, length_take, finish_iv_length by done.
    intros Hw. specialize (Hwiv Hw).
    assert (Hkl : kc_ivlen k = cd_ivsize (cs_cdata s)).
    { unfold k, request in *. simpl in *. by destruct (co_iv cop =? 0). }
    rewrite Hkl. replace (Z.of_nat _) with (cd_ivsize (cs_cdata s)) by lia.
    by eapply range_writable_pages.
Qed.

(** The result of an operation, in user memory. *)
Definition crypt_done e p R cop enc arg i s e' p' : Prop :=
  exists s' out iv st,
    let k := request e s (stack_kcop e cop) in
    let D := peeks (e_mem e) (seqZ (co_src cop) (co_len cop)) in
    p' = with_session i s' p /\
    chunk (negb (co_op cop =? COP_ENCRYPT)) s (start_iv s k) (start_st s cop) D D = (0, out, iv, st) /\
    user_eq (e_mem e')
      (write_bytes arg (enc cop)
        (write_back (finish_kcop s k iv st)
          (pokes (seqZ (co_dst cop) (co_len cop)) out (e_mem e)))) /\
    cs_cdata s' = set_cd_iv iv (cs_cdata s) /\ cs_hdata s' = set_ahash_st st (cs_hdata s) /\
    e_pins e' = e_pins e /\ handle_ok e' p' R.

Global Instance write_back_user_eq k : Proper (user_eq ==> user_eq) (write_back k).
Proof.
  intros m m' Hm. unfold write_back, write_bytes.
  destruct (kc_digestsize k =? 0), (writes_iv k); by repeat apply pokes_user_eq.
Qed.

Lemma crypt_request_done e p R size dec enc arg i s :
  let cop := dec e (peeks (e_mem e) (seqZ arg size)) in
  crypt_call e p R cop arg size i s -> e_allocs e = [] -> 0 <= size ->
  Z.of_nat (length (enc cop)) = size ->
  exists e' p', crypt_request size dec enc arg (e, p) = Done 0 (e', p') /\
    crypt_done e p R cop enc arg i s e' p'.
Proof.
  intros cop Hcc Hal Hsz Henc. destruct (Hcc) as [Hr Hu [Harg Hargw] Hiv _ _].
  destruct (Hr) as [Hh _ _ Hi Hsid _ _ _ _]. set (k := request e s (stack_kcop e cop)) in *.
  change (kc_cop k) with cop in Hsid.
  destruct (crypto_run_done _ _ _ _ _ _ Hr Hal) as (e1 & s1 & out & iv & st & E & C & A & U & S & Hh1).
  assert (Hs : ses_ok s) by (destruct Hh as [_ [Hf _ _ _ _] _]; by eapply Forall_lookup_1, Hi).
  assert (Hl : length iv = 16%nat) by (destruct A as [_ _ -> _ _ _ _]; apply (cdata_iv _ (ses_cdata _ Hs))).
  assert (Hwp : wp (crypt_request size dec enc arg)
    (fun r '(e', p') => r = 0 /\ crypt_done e p R cop enc arg i s e' p') (e, p)).
  { unfold crypt_request. kgo. eapply read_request_spec; [exact Hh|done|done|..]; fold cop.
    2: { intros r k' _ [?|[Hn|(j & s' & Hj & Hsj & Hn)]]; [done| |].
         - destruct Hn. apply list_elem_of_fmap. exists s. split; [done|]. by eapply list_elem_of_lookup_2.
         - assert (j = i) as -> by (eapply session_sid_unique; [by destruct Hh as [_ [] _]|done..|congruence]).
           simplify_eq. by destruct Hn. }
    intros j s' Hj Hsj _. 
    assert (j = i) as -> by (eapply session_sid_unique; [by destruct Hh as [_ [] _]|done..|congruence]).
    simplify_eq. kgo. eapply wp_eq; [exact E|]. kgo.
    assert (Hu1 : e_user e1 = true) by (destruct S; congruence).
    apply write_request_spec; [done| |].
    - rewrite finish_kcop_cop. split; [done|]. exists (set_cs_locked false s1), out, iv, st.
      split_and!; try done; [|by destruct A..|by destruct S|by apply handle_mem].
      apply pokes_user_eq, write_back_user_eq. exact U.
    - intros f _ []. rewrite finish_kcop_cop. change (kc_cop k) with cop. rewrite Henc.
      split; [|eapply range_writable_pages; [by destruct S|done]].
      eapply results_writable; [exact Hcc|done|done|by destruct S]. }
  apply wp_done in Hwp as (r & [e' p'] & Er & -> & Hd). eauto.
Qed.

(** C1: CIOCCRYPT is correct from end to end, for a 64-bit caller.  The request
    is the structure at [arg] with the IV it points to; the call returns 0; of
    user memory exactly the destination (with the output of one operation on the
    whole source), the digest when the hash is complete, the IV when the caller
    asked for it, and the structure itself are written, in this order; the
    session keeps the new chaining value and hash state, no page stays pinned
    and the invariant of the file holds again. *)
Theorem ioctl_crypt_correct e p R arg i s :
  let cop := decode_crypt_op (peeks (e_mem e) (seqZ arg sizeof_crypt_op)) in
  crypt_call e p R cop arg sizeof_crypt_op i s -> mem_ok (e_mem e) -> e_allocs e = [] ->
  exists e' p', cryptodev_ioctl CIOCCRYPT arg (e, p) = Done 0 (e', p') /\
    crypt_done e p R cop encode_crypt_op arg i s e' p'.
Proof.
  intros cop Hcc Hm Hal.
  apply (crypt_request_done e p R sizeof_crypt_op (fun _ => decode_crypt_op) encode_crypt_op arg i s
    Hcc Hal ltac:(done)).
  pose proof (decode_fits (T := crypt_op) (e_mem e) arg Hm) as Hf.
  change (Z.of_nat (length (encode_crypt_op cop)) = sizeof_crypt_op).
  assert (Hl : length (encode_crypt_op cop) = 48%nat) by exact (encode_length (T := crypt_op) cop Hf).
  by rewrite Hl.
Qed.

(** C33: CIOCCRYPT is correct from end to end for a 32-bit caller: the same
    operation as for a 64-bit caller whose request has the pointers of the
    compact structure at [arg], which is written back at the end. *)
Theorem compat_ioctl_crypt_correct e p R arg i s :
  let c := decode_compat_crypt_op (peeks (e_mem e) (seqZ arg sizeof_compat_crypt_op)) in
  let cop := compat_to_crypt_op e c in
  crypt_call e p R cop arg sizeof_compat_crypt_op i s -> mem_ok (e_mem e) -> e_allocs e = [] ->
  exists e' p', cryptodev_compat_ioctl COMPAT_CIOCCRYPT arg (e, p) = Done 0 (e', p') /\
    crypt_done e p R cop (fun _ => encode_compat_crypt_op c) arg i s e' p'.
Proof.
  intros c cop Hcc Hm Hal.
  pose proof (decode_fits (T := compat_crypt_op) (e_mem e) arg Hm) as Hf.
  change (compat_crypt_op_fits c) in Hf.
  assert (Hback : crypt_op_to_compat cop = c) by (by apply compat_crypt_op_back).
  destruct (crypt_request_done e p R sizeof_compat_crypt_op
    (fun e b => compat_to_crypt_op e (decode_compat_crypt_op b))
    (fun c => encode_compat_crypt_op (crypt_op_to_compat c)) arg i s Hcc Hal ltac:(done)) as (e' & p' & E & Hd).
  { change (Z.of_nat (length (encode_compat_crypt_op (crypt_op_to_compat cop))) = sizeof_compat_crypt_op).
    rewrite Hback. assert (Hl : length (encode_compat_crypt_op c) = 28%nat)
      by exact (encode_length (T := compat_crypt_op) c Hf). by rewrite Hl. }
  exists e', p'. split; [exact E|]. unfold crypt_done in *. change (compat_to_crypt_op _ _) with cop in Hd.
  by rewrite Hback in Hd.
Qed.
End Exact.
End IoctlFacts.
