(* ===== verification/Vring.v ===== *)
(** * The virtqueue of QEMU

    The ring code of [qemu-1.2.0/hw/virtio.c] and the vector copies of
    [qemu-1.2.0/iov.c].  The memory of the environment is the physical memory of
    the guest, which the guest may fill as it likes; the object is a
    [struct VirtQueue].  The functions that call [exit] or [abort] end in
    [Exited].

    [cpu_physical_memory_map] belongs to the rest of QEMU: [map_ok] tells
    whether it maps a whole range, and the host address of a range it maps is
    identified with its physical address, so that unmapping has no effect on
    memory. *)
From stdpp Require Import base gmap gmultiset list strings numbers.
From S2P Require Import Prelude Kernel.
Open Scope Z_scope.

Definition VIRTIO_PCI_VRING_ALIGN : Z := 4096.
Definition VIRTQUEUE_MAX_SIZE : Z := 1024.
Definition VRING_DESC_F_NEXT : Z := 1.
Definition VRING_DESC_F_WRITE : Z := 2.
Definition VRING_DESC_F_INDIRECT : Z := 4.
Definition VRING_USED_F_NO_NOTIFY : Z := 1.
Definition VRING_AVAIL_F_NO_INTERRUPT : Z := 1.
Definition VIRTIO_F_NOTIFY_ON_EMPTY : Z := 24.
Definition VIRTIO_RING_F_EVENT_IDX : Z := 29.
Definition sizeof_VRingDesc : Z := 16.

Definition s16 (z : Z) : Z := (z + 2 ^ 15) mod 2 ^ 16 - 2 ^ 15.

(** [features & (1 << bit)] *)
Definition has_feature (features bit : Z) : bool := Z.testbit features bit.

(** [struct VRing] *)
Record vring := VRing { vr_num : Z; vr_desc : Z; vr_avail : Z; vr_used : Z }.

(** [struct VirtQueue], without its callbacks and notifiers. *)
Record virtqueue := VirtQueue {
  vq_vring : vring; vq_pa : Z;
  vq_last_avail_idx : Z; vq_signalled_used : Z; vq_signalled_used_valid : bool;
  vq_notification : bool; vq_inuse : Z; vq_vector : Z }.

Definition set_vq_vring (v : vring) (q : virtqueue) : virtqueue :=
  VirtQueue v (vq_pa q) (vq_last_avail_idx q) (vq_signalled_used q) (vq_signalled_used_valid q)
    (vq_notification q) (vq_inuse q) (vq_vector q).
Definition set_vq_pa (v : Z) (q : virtqueue) : virtqueue :=
  VirtQueue (vq_vring q) v (vq_last_avail_idx q) (vq_signalled_used q) (vq_signalled_used_valid q)
    (vq_notification q) (vq_inuse q) (vq_vector q).
Definition set_vq_last_avail_idx (v : Z) (q : virtqueue) : virtqueue :=
  VirtQueue (vq_vring q) (vq_pa q) v (vq_signalled_used q) (vq_signalled_used_valid q)
    (vq_notification q) (vq_inuse q) (vq_vector q).
Definition set_vq_signalled (v : Z) (valid : bool) (q : virtqueue) : virtqueue :=
  VirtQueue (vq_vring q) (vq_pa q) (vq_last_avail_idx q) v valid
    (vq_notification q) (vq_inuse q) (vq_vector q).
Definition set_vq_notification (v : bool) (q : virtqueue) : virtqueue :=
  VirtQueue (vq_vring q) (vq_pa q) (vq_last_avail_idx q) (vq_signalled_used q)
    (vq_signalled_used_valid q) v (vq_inuse q) (vq_vector q).
Definition set_vq_inuse (v : Z) (q : virtqueue) : virtqueue :=
  VirtQueue (vq_vring q) (vq_pa q) (vq_last_avail_idx q) (vq_signalled_used q)
    (vq_signalled_used_valid q) (vq_notification q) v (vq_vector q).

(** A piece of guest memory: base and length of an [iovec]. *)
Abbreviation iovec := (Z * Z)%type.

(** [struct VirtQueueElement]; the counts are the lengths of the lists. *)
Record virtqueue_element := VQElem {
  el_index : Z; el_in : list iovec; el_out : list iovec }.

(** ** Guest memory *)

Section Phys.
Context {X : Type}.

(** [lduw_phys], [ldl_phys], [ldq_phys] and the stores, little endian. *)
Definition ld_phys (n : nat) (pa : Z) : K X Z :=
  e ← gete; mret (le_val (peeks (e_mem e) (seqZ pa (Z.of_nat n)))).
Definition st_phys (n : nat) (pa v : Z) : K X unit :=
  mode (set_mem (pokes (seqZ pa (Z.of_nat n)) (le_bytes n v))).

Definition vring_desc_addr (desc_pa i : Z) : K X Z := ld_phys 8 (u64 (desc_pa + 16 * i + 0)).
Definition vring_desc_len (desc_pa i : Z) : K X Z := ld_phys 4 (u64 (desc_pa + 16 * i + 8)).
Definition vring_desc_flags (desc_pa i : Z) : K X Z := ld_phys 2 (u64 (desc_pa + 16 * i + 12)).
Definition vring_desc_next (desc_pa i : Z) : K X Z := ld_phys 2 (u64 (desc_pa + 16 * i + 14)).
End Phys.

Definition vring_avail_flags : K virtqueue Z :=
  q ← getx; ld_phys 2 (u64 (vr_avail (vq_vring q) + 0)).
Definition vring_avail_idx : K virtqueue Z :=
  q ← getx; ld_phys 2 (u64 (vr_avail (vq_vring q) + 2)).
Definition vring_avail_ring (i : Z) : K virtqueue Z :=
  q ← getx; ld_phys 2 (u64 (vr_avail (vq_vring q) + (4 + 2 * i))).
Definition vring_used_event : K virtqueue Z :=
  q ← getx; vring_avail_ring (vr_num (vq_vring q)).
Definition vring_used_ring_id (i val : Z) : K virtqueue unit :=
  q ← getx; st_phys 4 (u64 (vr_used (vq_vring q) + (4 + 8 * i))) val.
Definition vring_used_ring_len (i val : Z) : K virtqueue unit :=
  q ← getx; st_phys 4 (u64 (vr_used (vq_vring q) + (8 + 8 * i))) val.
Definition vring_used_idx : K virtqueue Z :=
  q ← getx; ld_phys 2 (u64 (vr_used (vq_vring q) + 2)).
Definition vring_used_idx_set (val : Z) : K virtqueue unit :=
  q ← getx; st_phys 2 (u64 (vr_used (vq_vring q) + 2)) val.
Definition vring_used_flags_set_bit (mask : Z) : K virtqueue unit :=
  q ← getx;
  let pa := u64 (vr_used (vq_vring q) + 0) in
  v ← ld_phys 2 pa; st_phys 2 pa (Z.lor v mask).
Definition vring_used_flags_unset_bit (mask : Z) : K virtqueue unit :=
  q ← getx;
  let pa := u64 (vr_used (vq_vring q) + 0) in
  v ← ld_phys 2 pa; st_phys 2 pa (Z.ldiff v mask).
Definition vring_avail_event (val : Z) : K virtqueue unit :=
  q ← getx;
  if negb (vq_notification q) then mret tt
  else st_phys 2 (u64 (vr_used (vq_vring q) + (4 + 8 * vr_num (vq_vring q)))) val.

(** ** The queue *)

(** [vring_align] *)
Definition vring_align (addr align : Z) : Z := Z.ldiff (u64 (addr + align - 1)) (align - 1).

(** [virtqueue_init] *)
Definition virtqueue_init (q : virtqueue) : virtqueue :=
  let num := vr_num (vq_vring q) in
  let avail := u64 (vq_pa q + num * sizeof_VRingDesc) in
  set_vq_vring (VRing num (vq_pa q) avail
                  (vring_align (u64 (avail + (4 + 2 * num))) VIRTIO_PCI_VRING_ALIGN)) q.

(** [virtio_queue_set_notification]; [features] are [vdev->guest_features],
    here and below. *)
Definition virtio_queue_set_notification (features : Z) (enable : bool) : K virtqueue unit :=
  modx (set_vq_notification enable);;
  if has_feature features VIRTIO_RING_F_EVENT_IDX then
    idx ← vring_avail_idx; vring_avail_event idx
  else if enable then vring_used_flags_unset_bit VRING_USED_F_NO_NOTIFY
  else vring_used_flags_set_bit VRING_USED_F_NO_NOTIFY.

Definition virtio_queue_ready (q : virtqueue) : bool := negb (vr_avail (vq_vring q) =? 0).

Definition virtio_queue_empty : K virtqueue bool :=
  q ← getx;
  idx ← vring_avail_idx;
  mret (idx =? vq_last_avail_idx q).

(** [virtqueue_fill] *)
Definition virtqueue_fill (elem : virtqueue_element) (len idx : Z) : K virtqueue unit :=
  q ← getx;
  used ← vring_used_idx;
  if vr_num (vq_vring q) =? 0 then crashed DivByZero
  else
    let idx := u32 (idx + used) mod vr_num (vq_vring q) in
    vring_used_ring_id idx (el_index elem);;
    vring_used_ring_len idx len.

(** [virtqueue_flush] *)
Definition virtqueue_flush (count : Z) : K virtqueue unit :=
  old ← vring_used_idx;
  let new := u16 (old + count) in
  vring_used_idx_set new;;
  modx (fun q => set_vq_inuse (vq_inuse q - count) q);;
  q ← getx;
  if s16 (new - vq_signalled_used q) <? u16 (new - old)
  then modx (fun q => set_vq_signalled (vq_signalled_used q) false q)
  else mret tt.

Definition virtqueue_push (elem : virtqueue_element) (len : Z) : K virtqueue unit :=
  virtqueue_fill elem len 0;;
  virtqueue_flush 1.

(** [virtqueue_num_heads] *)
Definition virtqueue_num_heads (idx : Z) : K virtqueue Z :=
  avail ← vring_avail_idx;
  q ← getx;
  let num_heads := u16 (avail - idx) in
  if vr_num (vq_vring q) <? num_heads then crashed Exited else mret num_heads.

(** [virtqueue_get_head] *)
Definition virtqueue_get_head (idx : Z) : K virtqueue Z :=
  q ← getx;
  if vr_num (vq_vring q) =? 0 then crashed DivByZero
  else
    head ← vring_avail_ring (idx mod vr_num (vq_vring q));
    if vr_num (vq_vring q) <=? head then crashed Exited else mret head.

(** [virtqueue_next_desc] *)
Definition virtqueue_next_desc (desc_pa i max : Z) : K virtqueue Z :=
  flags ← vring_desc_flags desc_pa i;
  if negb (has_flag flags VRING_DESC_F_NEXT) then mret max
  else
    next ← vring_desc_next desc_pa i;
    if max <=? next then crashed Exited else mret next.

(** The [do] loop of [virtqueue_avail_bytes] over one chain: [None] when the
    requested size was reached, else the number of buffers and the totals. *)
Fixpoint avail_chain (fuel : nat) (desc_pa max i num_bufs in_total out_total in_bytes out_bytes : Z)
    : K virtqueue (option (Z * Z * Z)) :=
  match fuel with
  | O => crashed Diverges
  | S fuel =>
      let num_bufs := num_bufs + 1 in
      if max <? num_bufs then crashed Exited
      else
        flags ← vring_desc_flags desc_pa i;
        len ← vring_desc_len desc_pa i;
        let writes := has_flag flags VRING_DESC_F_WRITE in
        let in_total := if writes && (0 <? in_bytes) then s32 (in_total + len) else in_total in
        let out_total := if negb writes && (0 <? out_bytes) then s32 (out_total + len) else out_total in
        if (writes && (0 <? in_bytes) && (in_bytes <=? in_total)) ||
           (negb writes && (0 <? out_bytes) && (out_bytes <=? out_total))
        then mret None
        else
          i ← virtqueue_next_desc desc_pa i max;
          if i =? max then mret (Some (num_bufs, in_total, out_total))
          else avail_chain fuel desc_pa max i num_bufs in_total out_total in_bytes out_bytes
  end.

(** The outer loop of [virtqueue_avail_bytes]. *)
Fixpoint avail_loop (fuel : nat) (idx total_bufs in_total out_total in_bytes out_bytes : Z)
    : K virtqueue bool :=
  match fuel with
  | O => crashed Diverges
  | S fuel =>
      heads ← virtqueue_num_heads idx;
      if heads =? 0 then mret false
      else
        q ← getx;
        let num := vr_num (vq_vring q) in
        i ← virtqueue_get_head idx;
        let desc_pa := vr_desc (vq_vring q) in
        flags ← vring_desc_flags desc_pa i;
        len ← vring_desc_len desc_pa i;
        let indirect := has_flag flags VRING_DESC_F_INDIRECT in
        if indirect && (negb (len mod sizeof_VRingDesc =? 0) || (num <=? total_bufs))
        then crashed Exited
        else
          table ← (if indirect then vring_desc_addr desc_pa 0 else mret desc_pa);
          let max := if indirect then len / sizeof_VRingDesc else num in
          r ← avail_chain (S (Z.to_nat max)) table max (if indirect then 0 else i)
                (if indirect then 0 else total_bufs) in_total out_total in_bytes out_bytes;
          match r with
          | None => mret true
          | Some (num_bufs, in_total, out_total) =>
              avail_loop fuel (u32 (idx + 1)) (if indirect then total_bufs + 1 else num_bufs)
                in_total out_total in_bytes out_bytes
          end
  end.

(** [virtqueue_avail_bytes] *)
Definition virtqueue_avail_bytes (in_bytes out_bytes : Z) : K virtqueue bool :=
  q ← getx;
  avail_loop (S (Z.to_nat (2 ^ 16))) (vq_last_avail_idx q) 0 0 0 in_bytes out_bytes.

Section Map.
Variable map_ok : Z -> Z -> bool -> bool.

(** [virtqueue_map_sg] *)
Fixpoint virtqueue_map_sg (sg : list iovec) (is_write : bool) : K virtqueue unit :=
  match sg with
  | [] => mret tt
  | (addr, len) :: sg' =>
      if map_ok addr len is_write then virtqueue_map_sg sg' is_write else crashed Exited
  end.

(** The [do] loop of [virtqueue_pop]: the descriptors of the chain at [i]. *)
Fixpoint pop_chain (fuel : nat) (desc_pa max i : Z) (ins outs : list iovec)
    : K virtqueue (list iovec * list iovec) :=
  match fuel with
  | O => crashed Diverges
  | S fuel =>
      flags ← vring_desc_flags desc_pa i;
      let writes := has_flag flags VRING_DESC_F_WRITE in
      if VIRTQUEUE_MAX_SIZE <=? Z.of_nat (length (if writes then ins else outs)) then crashed Exited
      else
        addr ← vring_desc_addr desc_pa i;
        len ← vring_desc_len desc_pa i;
        let ins := if writes then ins ++ [(addr, len)] else ins in
        let outs := if writes then outs else outs ++ [(addr, len)] in
        if max <? Z.of_nat (length ins + length outs) then crashed Exited
        else
          i ← virtqueue_next_desc desc_pa i max;
          if i =? max then mret (ins, outs) else pop_chain fuel desc_pa max i ins outs
  end.

(** [virtqueue_pop]: the element, when there is one. *)
Definition virtqueue_pop (features : Z) : K virtqueue (option virtqueue_element) :=
  q ← getx;
  heads ← virtqueue_num_heads (vq_last_avail_idx q);
  if heads =? 0 then mret None
  else
    head ← virtqueue_get_head (vq_last_avail_idx q);
    modx (set_vq_last_avail_idx (u16 (vq_last_avail_idx q + 1)));;
    (if has_feature features VIRTIO_RING_F_EVENT_IDX
     then idx ← vring_avail_idx; vring_avail_event idx else mret tt);;
    let desc_pa := vr_desc (vq_vring q) in
    flags ← vring_desc_flags desc_pa head;
    len ← vring_desc_len desc_pa head;
    let indirect := has_flag flags VRING_DESC_F_INDIRECT in
    if indirect && negb (len mod sizeof_VRingDesc =? 0) then crashed Exited
    else
      table ← (if indirect then vring_desc_addr desc_pa head else mret desc_pa);
      let max := if indirect then len / sizeof_VRingDesc else vr_num (vq_vring q) in
      '(ins, outs) ← pop_chain (S (Z.to_nat max)) table max (if indirect then 0 else head) [] [];
      virtqueue_map_sg ins true;;
      virtqueue_map_sg outs false;;
      modx (fun q => set_vq_inuse (vq_inuse q + 1) q);;
      mret (Some (VQElem head ins outs)).
End Map.

(** ** Notification of the guest *)

(** [vring_need_event] *)
Definition vring_need_event (event new old : Z) : bool :=
  u16 (new - event - 1) <? u16 (new - old).

(** [vring_notify]: whether the guest wants an interrupt. *)
Definition vring_notify (features : Z) : K virtqueue bool :=
  q ← getx;
  avail ← vring_avail_idx;
  if has_feature features VIRTIO_F_NOTIFY_ON_EMPTY && (vq_inuse q =? 0) &&
     (avail =? vq_last_avail_idx q)
  then mret true
  else if negb (has_feature features VIRTIO_RING_F_EVENT_IDX) then
    flags ← vring_avail_flags;
    mret (negb (has_flag flags VRING_AVAIL_F_NO_INTERRUPT))
  else
    new ← vring_used_idx;
    modx (set_vq_signalled new true);;
    event ← vring_used_event;
    mret (negb (vq_signalled_used_valid q) || vring_need_event event new (vq_signalled_used q)).

(** ** Vectors *)

Section Iov.
Context {X : Type}.

(** [iov_from_buf]: copies [bytes] bytes at [buf] into the vector, from byte
    [offset] of it on; the number of bytes copied. *)
Fixpoint iov_from_buf_loop (iov : list iovec) (offset done buf n : Z) : K X (Z * Z) :=
  match iov with
  | [] => mret (offset, done)
  | (base, len) :: iov' =>
      if (offset =? 0) && negb (done <? n) then mret (offset, done)
      else if offset <? len then
        let cur := Z.min (len - offset) (n - done) in
        mode (set_mem (fun m => pokes (seqZ (base + offset) cur) (peeks m (seqZ (buf + done) cur)) m));;
        iov_from_buf_loop iov' 0 (done + cur) buf n
      else iov_from_buf_loop iov' (offset - len) done buf n
  end.
Definition iov_from_buf (iov : list iovec) (offset buf n : Z) : K X Z :=
  '(offset, done) ← iov_from_buf_loop iov offset 0 buf n;
  if negb (offset =? 0) then crashed BUG else mret done.

(** [iov_to_buf]: the bytes copied out of the vector. *)
Fixpoint iov_to_buf_loop (iov : list iovec) (offset : Z) (buf : bytes) (n : Z) : K X (Z * bytes) :=
  let done := Z.of_nat (length buf) in
  match iov with
  | [] => mret (offset, buf)
  | (base, len) :: iov' =>
      if (offset =? 0) && negb (done <? n) then mret (offset, buf)
      else if offset <? len then
        let cur := Z.min (len - offset) (n - done) in
        e ← gete;
        iov_to_buf_loop iov' 0 (buf ++ peeks (e_mem e) (seqZ (base + offset) cur)) n
      else iov_to_buf_loop iov' (offset - len) buf n
  end.
Definition iov_to_buf (iov : list iovec) (offset n : Z) : K X bytes :=
  '(offset, buf) ← iov_to_buf_loop iov offset [] n;
  if negb (offset =? 0) then crashed BUG else mret buf.
End Iov.

(** [iov_size] *)
Definition iov_size (iov : list iovec) : Z := foldl (fun len v => len + v.2) 0 iov.
