(* ===== verification/VringFacts.v ===== *)
(** * Facts about the virtqueue

    Whatever the guest writes into its memory, the ring code terminates and
    hands out elements within the bounds of its arrays; a well-formed chain of
    descriptors is handed out exactly, and a used element is returned exactly. *)
From stdpp Require Import base gmap gmultiset list strings numbers.
From S2P Require Import Prelude Kernel KernelFacts Vring.
Open Scope Z_scope.

Implicit Types (e : env) (q : virtqueue) (m : mem).

(** ** What the guest's memory says *)

Definition rd (n : nat) m (pa : Z) : Z := le_val (peeks m (seqZ pa (Z.of_nat n))).
Definition desc_addr m t i : Z := rd 8 m (u64 (t + 16 * i + 0)).
Definition desc_len m t i : Z := rd 4 m (u64 (t + 16 * i + 8)).
Definition desc_flags m t i : Z := rd 2 m (u64 (t + 16 * i + 12)).
Definition desc_next m t i : Z := rd 2 m (u64 (t + 16 * i + 14)).
Definition avail_idx m q : Z := rd 2 m (u64 (vr_avail (vq_vring q) + 2)).
Definition avail_ring m q i : Z := rd 2 m (u64 (vr_avail (vq_vring q) + (4 + 2 * i))).
Definition used_idx m q : Z := rd 2 m (u64 (vr_used (vq_vring q) + 2)).

(** The readers, as functions of memory. *)
Lemma desc_addr_spec {X} e (x : X) t i : vring_desc_addr t i (e, x) = Done (desc_addr (e_mem e) t i) (e, x).
Proof. done. Qed.
Lemma desc_len_spec {X} e (x : X) t i : vring_desc_len t i (e, x) = Done (desc_len (e_mem e) t i) (e, x).
Proof. done. Qed.
Lemma desc_flags_spec {X} e (x : X) t i : vring_desc_flags t i (e, x) = Done (desc_flags (e_mem e) t i) (e, x).
Proof. done. Qed.
Lemma desc_next_spec {X} e (x : X) t i : vring_desc_next t i (e, x) = Done (desc_next (e_mem e) t i) (e, x).
Proof. done. Qed.
Lemma avail_idx_spec e q : vring_avail_idx (e, q) = Done (avail_idx (e_mem e) q) (e, q).
Proof. done. Qed.
Lemma avail_ring_spec e q i : vring_avail_ring i (e, q) = Done (avail_ring (e_mem e) q i) (e, q).
Proof. done. Qed.
Lemma used_idx_spec e q : vring_used_idx (e, q) = Done (used_idx (e_mem e) q) (e, q).
Proof. done. Qed.

(** Runs the steps that only read. *)
Ltac vstep :=
  lazymatch goal with
  | |- wpe (mret _) _ _ => apply wpe_ret
  | |- wpe (crashed Exited) _ _ => apply wpe_exit
  | |- wpe (_ ≫= _) _ _ => apply wpe_bind
  | |- wpe getx _ _ => apply wpe_ret
  | |- wpe gete _ _ => apply wpe_ret
  | |- wpe (modx _) _ _ => apply wpe_ret
  | |- wpe (mode _) _ _ => apply wpe_ret
  | |- wpe (vring_desc_addr _ _) _ _ => eapply wpe_eq; [apply desc_addr_spec|]
  | |- wpe (vring_desc_len _ _) _ _ => eapply wpe_eq; [apply desc_len_spec|]
  | |- wpe (vring_desc_flags _ _) _ _ => eapply wpe_eq; [apply desc_flags_spec|]
  | |- wpe (vring_desc_next _ _) _ _ => eapply wpe_eq; [apply desc_next_spec|]
  | |- wpe vring_avail_idx _ _ => eapply wpe_eq; [apply avail_idx_spec|]
  | |- wpe (vring_avail_ring _) _ _ => eapply wpe_eq; [apply avail_ring_spec|]
  | |- wpe vring_used_idx _ _ => eapply wpe_eq; [apply used_idx_spec|]
  end; cbn [fst snd].
Ltac vgo := repeat vstep.

(** ** Termination *)

Lemma next_desc_wpe e q t i max (Q : Z -> env * virtqueue -> Prop) :
  (has_flag (desc_flags (e_mem e) t i) VRING_DESC_F_NEXT = false -> Q max (e, q)) ->
  (has_flag (desc_flags (e_mem e) t i) VRING_DESC_F_NEXT = true -> desc_next (e_mem e) t i < max ->
     Q (desc_next (e_mem e) t i) (e, q)) ->
  wpe (virtqueue_next_desc t i max) Q (e, q).
Proof.
  intros H0 H1. unfold virtqueue_next_desc. vgo. destruct (has_flag _ _); cbn [negb]; vgo; [|by apply H0].
  destruct (Z.leb_spec max (desc_next (e_mem e) t i)); vgo. by apply H1.
Qed.

(** The loop over a chain ends: with the process, or with as many buffers as
    fit. *)
Definition bufs_ok (l : list iovec) : Prop :=
  Z.of_nat (length l) <= VIRTQUEUE_MAX_SIZE /\ Forall (fun v => 0 <= v.2 < 2 ^ 32) l.

Lemma rd_nonneg_bound n m pa : mem_ok m -> 0 <= rd n m pa < 2 ^ (8 * Z.of_nat n).
Proof.
  intros Hm. unfold rd. pose proof (le_val_bound _ (peeks_bytes m (seqZ pa (Z.of_nat n)) Hm)) as Hb.
  by rewrite length_peeks, length_seqZ, Nat2Z.id in Hb.
Qed.

Lemma bufs_ok_snoc m t i l (w : bool) :
  mem_ok m -> bufs_ok l -> (w = true -> Z.of_nat (length l) < VIRTQUEUE_MAX_SIZE) ->
  bufs_ok (if w then l ++ [(desc_addr m t i, desc_len m t i)] else l).
Proof.
  intros Hm [Hl Hf] Hw. destruct w; [|done]. specialize (Hw eq_refl). split; [rewrite length_app; simpl; lia|].
  apply Forall_app. split; [done|]. constructor; [|done]. exact (rd_nonneg_bound 4 m _ Hm).
Qed.

Lemma pop_chain_wpe fuel t max i ins outs e q (Q : list iovec * list iovec -> env * virtqueue -> Prop) :
  let count := Z.of_nat (length ins + length outs) in
  mem_ok (e_mem e) -> count <= max -> max - count < Z.of_nat fuel -> bufs_ok ins -> bufs_ok outs ->
  (forall ins' outs', bufs_ok ins' -> bufs_ok outs' ->
     count < Z.of_nat (length ins' + length outs') <= max -> Q (ins', outs') (e, q)) ->
  wpe (pop_chain fuel t max i ins outs) Q (e, q).
Proof.
  revert i ins outs. induction fuel as [|fuel IH]; intros i ins outs count Hm Hc Hf Hi Ho HQ; [lia|].
  cbn [pop_chain]. vgo. set (w := has_flag _ VRING_DESC_F_WRITE).
  destruct (Z.leb_spec VIRTQUEUE_MAX_SIZE (Z.of_nat (length (if w then ins else outs)))) as [|Hroom]; vgo.
  set (d := (desc_addr _ _ _, desc_len _ _ _)).
  set (ins1 := if w then ins ++ [d] else ins). set (outs1 := if w then outs else outs ++ [d]).
  assert (Hl : Z.of_nat (length ins1 + length outs1) = count + 1)
    by (unfold ins1, outs1, count; destruct w; rewrite ?length_app; simpl; lia).
  assert (Hi1 : bufs_ok ins1) by (apply bufs_ok_snoc; [done..|]; by intros ->).
  assert (Ho1 : bufs_ok outs1).
  { replace outs1 with (if negb w then outs ++ [d] else outs) by (unfold outs1; by destruct w).
    apply bufs_ok_snoc; [done..|]. by intros ->%negb_true_iff. }
  destruct (Z.ltb_spec max (Z.of_nat (length ins1 + length outs1))); vgo.
  assert (Hnext : forall j, wpe (if j =? max then mret (ins1, outs1) else pop_chain fuel t max j ins1 outs1)
    Q (e, q)).
  { intros j. destruct (Z.eqb_spec j max) as [->|Hj]; [vgo; apply HQ; (done || lia)|].
    apply IH; [done|lia|lia|done..|]. intros. apply HQ; (done || lia). }
  apply next_desc_wpe; intros; apply Hnext.
Qed.

Section Pop.
Variable map_ok : Z -> Z -> bool -> bool.

Lemma map_sg_wpe sg w e q (Q : unit -> env * virtqueue -> Prop) :
  (Forall (fun v => map_ok v.1 v.2 w = true) sg -> Q tt (e, q)) ->
  wpe (virtqueue_map_sg map_ok sg w) Q (e, q).
Proof.
  induction sg as [|[a n] sg IH]; intros HQ; simpl; [vgo; by apply HQ|].
  destruct (map_ok a n w) eqn:Hm; vgo. apply IH. intros Hf. apply HQ. by constructor.
Qed.

(** An element within the bounds of the arrays of [struct VirtQueueElement],
    all of it mapped. *)
Record elem_ok q (el : virtqueue_element) : Prop := {
  eo_index : 0 <= el_index el < vr_num (vq_vring q);
  eo_in : bufs_ok (el_in el);
  eo_out : bufs_ok (el_out el);
  eo_some : (0 < length (el_in el) + length (el_out el))%nat;
  eo_mapped : Forall (fun v => map_ok v.1 v.2 true = true) (el_in el) /\
              Forall (fun v => map_ok v.1 v.2 false = true) (el_out el)
}.

(** The queue after an element was taken. *)
Definition popped q : virtqueue :=
  set_vq_inuse (vq_inuse q + 1) (set_vq_last_avail_idx (u16 (vq_last_avail_idx q + 1)) q).

Lemma rd_nonneg n m pa : mem_ok m -> 0 <= rd n m pa.
Proof. intros Hm. by apply le_val_bound, peeks_bytes. Qed.

(** Guest memory after [virtqueue_pop]: with event indices, it tells the guest
    when to kick. *)
Definition pop_event (features : Z) q e : env :=
  if has_feature features VIRTIO_RING_F_EVENT_IDX && vq_notification q then
    set_mem (pokes (seqZ (u64 (vr_used (vq_vring q) + (4 + 8 * vr_num (vq_vring q)))) 2)
               (le_bytes 2 (avail_idx (e_mem e) q))) e
  else e.

Lemma pop_event_spec features q e :
  (if has_feature features VIRTIO_RING_F_EVENT_IDX
   then vring_avail_idx ≫= vring_avail_event else mret tt) (e, q) = Done tt (pop_event features q e, q).
Proof.
  unfold pop_event, vring_avail_event, mbind, M_bind. destruct (has_feature _ _); cbn [andb]; [|done].
  rewrite avail_idx_spec. simpl. by destruct (vq_notification q).
Qed.

Lemma pokes_mem_ok l bs m : mem_ok m -> Forall is_byte bs -> mem_ok (pokes l bs m).
Proof.
  revert bs m. induction l as [|a l IH]; intros [|b bs] m Hm Hb; try done. apply Forall_cons_iff in Hb as [? ?].
  simpl. apply IH; [|done]. intros x. destruct (decide (a = x)) as [->|]; [by rewrite peek_poke_eq|by rewrite peek_poke_ne].
Qed.

Lemma pop_event_ok features q e : mem_ok (e_mem e) -> mem_ok (e_mem (pop_event features q e)).
Proof. intros Hm. unfold pop_event. destruct (_ && _); [|done]. apply pokes_mem_ok; [done|apply le_bytes_byte]. Qed.

(** The table a chain is in, its size, and where it starts. *)
Definition chain_start m q (head : Z) : Z * Z * Z :=
  let t := vr_desc (vq_vring q) in
  if has_flag (desc_flags m t head) VRING_DESC_F_INDIRECT
  then (desc_addr m t head, desc_len m t head / sizeof_VRingDesc, 0)
  else (t, vr_num (vq_vring q), head).

Definition next_head m q : Z := avail_ring m q (vq_last_avail_idx q mod vr_num (vq_vring q)).

Lemma pop_wpe features e q (Q : option virtqueue_element -> env * virtqueue -> Prop) :
  mem_ok (e_mem e) -> 0 < vr_num (vq_vring q) ->
  (u16 (avail_idx (e_mem e) q - vq_last_avail_idx q) = 0 -> Q None (e, q)) ->
  (forall el, elem_ok q el -> el_index el = next_head (e_mem e) q ->
     0 < u16 (avail_idx (e_mem e) q - vq_last_avail_idx q) <= vr_num (vq_vring q) ->
     Q (Some el) (pop_event features q e, popped q)) ->
  wpe (virtqueue_pop map_ok features) Q (e, q).
Proof.
  intros Hm Hn Hnone Hsome. unfold virtqueue_pop, virtqueue_num_heads, virtqueue_get_head. vgo.
  destruct (Z.ltb_spec (vr_num (vq_vring q)) (u16 (avail_idx (e_mem e) q - vq_last_avail_idx q))) as [|Hmany]; vgo.
  pose proof (Z.mod_pos_bound (avail_idx (e_mem e) q - vq_last_avail_idx q) (2 ^ 16) eq_refl) as Hu. fold (u16 (avail_idx (e_mem e) q - vq_last_avail_idx q)) in Hu.
  destruct (Z.eqb_spec (u16 (avail_idx (e_mem e) q - vq_last_avail_idx q)) 0) as [H0|H0]; vgo; [by apply Hnone|].
  rewrite (proj2 (Z.eqb_neq _ _)) by lia. vgo. fold (next_head (e_mem e) q). set (head := next_head _ _) in *.
  assert (Hh0 : 0 <= head) by (by apply rd_nonneg).
  destruct (Z.leb_spec (vr_num (vq_vring q)) head); vgo.
  set (q1 := set_vq_last_avail_idx _ q).
  eapply wpe_eq; [apply (pop_event_spec features q1)|]. change (pop_event features q1 e) with (pop_event features q e).
  set (e1 := pop_event features q e) in *. assert (Hm1 : mem_ok (e_mem e1)) by (by apply pop_event_ok). vgo.
  set (ind := has_flag _ VRING_DESC_F_INDIRECT).
  assert (Hchain : forall t max i, 0 <= max ->
    wpe ('(ins, outs) ← pop_chain (S (Z.to_nat max)) t max i [] [];
         virtqueue_map_sg map_ok ins true;; virtqueue_map_sg map_ok outs false;;
         modx (fun q => set_vq_inuse (vq_inuse q + 1) q);; mret (Some (VQElem head ins outs))) Q (e1, q1)).
  { intros t max i Hmax. vgo. apply pop_chain_wpe; [done|cbn [length]; lia|cbn [length]; lia|done..|]. intros ins outs Hi Ho Hc. simpl in Hc. vgo.
    apply map_sg_wpe. intros Hmi. vgo. apply map_sg_wpe. intros Hmo. vgo.
    apply (Hsome (VQElem head ins outs)); [|done|lia]. constructor; simpl; (done || lia). }
  destruct ind; cbn [andb]; [|do 2 vstep; apply Hchain; lia].
  destruct (negb _); [vgo|]. do 2 vstep. apply Hchain. apply Z.div_pos; [by apply rd_nonneg|done].
Qed.

(** C6: the ring code of the host stands up to any guest.  Whatever the guest
    put into its memory, [virtqueue_pop] ends, in one of three ways: the process
    exits with a message, there was nothing to take and nothing changed, or it
    returns an element whose index is one of the queue, with at least one buffer
    and at most 1024 of either direction, all of them mapped; then the queue has
    moved on by exactly one entry, and guest memory is unchanged but for the
    event index. *)
Theorem pop_safe features e q :
  mem_ok (e_mem e) -> 0 < vr_num (vq_vring q) ->
  virtqueue_pop map_ok features (e, q) = Crash Exited \/
  virtqueue_pop map_ok features (e, q) = Done None (e, q) /\
    u16 (avail_idx (e_mem e) q - vq_last_avail_idx q) = 0 \/
  exists el, virtqueue_pop map_ok features (e, q) = Done (Some el) (pop_event features q e, popped q) /\
    elem_ok q el /\ el_index el = next_head (e_mem e) q.
Proof.
  intros Hm Hn.
  assert (Hw : wpe (virtqueue_pop map_ok features) (fun o '(e', q') =>
    o = None /\ e' = e /\ q' = q /\ u16 (avail_idx (e_mem e) q - vq_last_avail_idx q) = 0 \/
    exists el, o = Some el /\ e' = pop_event features q e /\ q' = popped q /\
      elem_ok q el /\ el_index el = next_head (e_mem e) q) (e, q)).
  { apply pop_wpe; [done..| |]; eauto 10. }
  apply wpe_cases in Hw as [?|(o & [e' q'] & E & [(-> & -> & -> & ?)|(el & -> & -> & -> & ?)])]; eauto 6.
Qed.

(** ** Exactness *)

(** The chain of descriptors from [i] on: direction, address and length. *)
Inductive chain m (t max : Z) : Z -> list (bool * iovec) -> Prop :=
  | chain_last i :
      has_flag (desc_flags m t i) VRING_DESC_F_NEXT = false ->
      chain m t max i [(has_flag (desc_flags m t i) VRING_DESC_F_WRITE, (desc_addr m t i, desc_len m t i))]
  | chain_next i l :
      has_flag (desc_flags m t i) VRING_DESC_F_NEXT = true -> 0 <= desc_next m t i < max ->
      chain m t max (desc_next m t i) l ->
      chain m t max i
        ((has_flag (desc_flags m t i) VRING_DESC_F_WRITE, (desc_addr m t i, desc_len m t i)) :: l).

(** The buffers of a chain the device writes, and those it reads. *)
Definition chain_ins (l : list (bool * iovec)) : list iovec := (filter (fun d => d.1 = true) l).*2.
Definition chain_outs (l : list (bool * iovec)) : list iovec := (filter (fun d => d.1 = false) l).*2.

Lemma chain_split l : (length (chain_ins l) + length (chain_outs l) = length l)%nat.
Proof.
  unfold chain_ins, chain_outs. rewrite !length_fmap.
  induction l as [|[[] d] l IH]; [done| |]; rewrite ?filter_cons; simpl; lia.
Qed.

Lemma next_desc_chain e q t max i d l :
  chain (e_mem e) t max i (d :: l) ->
  d = (has_flag (desc_flags (e_mem e) t i) VRING_DESC_F_WRITE, (desc_addr (e_mem e) t i, desc_len (e_mem e) t i)) /\
  match l with
  | [] => virtqueue_next_desc t i max (e, q) = Done max (e, q)
  | _ => exists j, virtqueue_next_desc t i max (e, q) = Done j (e, q) /\ j <> max /\
                   chain (e_mem e) t max j l
  end.
Proof.
  intros Hc. inversion Hc as [i' Hf|i' l' Hf Hn Hl]; subst; split; try done.
  - unfold virtqueue_next_desc, mbind, M_bind. rewrite desc_flags_spec. by rewrite Hf.
  - destruct l as [|d' l]; [by inversion Hl|]. exists (desc_next (e_mem e) t i).
    split_and!; [|lia|done]. unfold virtqueue_next_desc, mbind, M_bind.
    rewrite desc_flags_spec, Hf. cbn [negb]. rewrite desc_next_spec. by replace (_ <=? _) with false by lia.
Qed.

Lemma pop_chain_exact fuel t max i ins outs l e q :
  chain (e_mem e) t max i l -> (length l <= fuel)%nat ->
  Z.of_nat (length ins + length outs + length l) <= max ->
  Z.of_nat (length ins + length (chain_ins l)) <= VIRTQUEUE_MAX_SIZE ->
  Z.of_nat (length outs + length (chain_outs l)) <= VIRTQUEUE_MAX_SIZE ->
  pop_chain fuel t max i ins outs (e, q) = Done (ins ++ chain_ins l, outs ++ chain_outs l) (e, q).
Proof.
  revert i ins outs l. induction fuel as [|fuel IH]; intros i ins outs l Hc Hf Hmax Hi Ho.
  { inversion Hc; subst; simpl in Hf; lia. }
  destruct l as [|d l]; [by inversion Hc|]. destruct (next_desc_chain e q t max i d l Hc) as [-> Hnext].
  cbn [pop_chain]. unfold mbind at 1, M_bind at 1. rewrite desc_flags_spec.
  set (w := has_flag _ VRING_DESC_F_WRITE) in *. set (v := (desc_addr _ _ _, desc_len _ _ _)) in *.
  assert (Hins : chain_ins ((w, v) :: l) = (if w then [v] else []) ++ chain_ins l)
    by (unfold chain_ins; rewrite filter_cons; by destruct w).
  assert (Houts : chain_outs ((w, v) :: l) = (if w then [] else [v]) ++ chain_outs l)
    by (unfold chain_outs; rewrite filter_cons; by destruct w).
  rewrite Hins, Houts in *. rewrite length_app in Hi, Ho.
  replace (_ <=? _) with false by (destruct w; simpl in *; lia).
  unfold mbind at 1, M_bind at 1. rewrite desc_addr_spec. unfold mbind at 1, M_bind at 1. rewrite desc_len_spec.
  fold v. set (ins1 := if w then ins ++ [v] else ins). set (outs1 := if w then outs else outs ++ [v]).
  assert (Hl1 : (length ins1 + length outs1 = S (length ins + length outs))%nat)
    by (unfold ins1, outs1; destruct w; rewrite length_app; simpl; lia).
  cbn [length] in Hmax. rewrite (proj2 (Z.ltb_ge max (Z.of_nat (length ins1 + length outs1)))) by lia. unfold mbind at 1, M_bind at 1.
  assert (H1 : ins1 ++ chain_ins l = ins ++ (if w then [v] else []) ++ chain_ins l)
    by (unfold ins1; destruct w; by rewrite <- ?app_assoc).
  assert (H2 : outs1 ++ chain_outs l = outs ++ (if w then [] else [v]) ++ chain_outs l)
    by (unfold outs1; destruct w; by rewrite <- ?app_assoc).
  destruct l as [|d l].
  - rewrite Hnext, Z.eqb_refl. rewrite <- H1, <- H2. by rewrite !app_nil_r.
  - destruct Hnext as (j & -> & Hj & Hcj). rewrite (proj2 (Z.eqb_neq _ _) Hj), <- H1, <- H2.
    apply IH; [done|simpl in *; lia| | |]; unfold ins1, outs1 in *; destruct w; rewrite ?length_app in *; simpl in *; lia.
Qed.

(** The guest offers the chain [l] in the next entry of the available ring. *)
Record offered features e q (l : list (bool * iovec)) : Prop := {
  of_heads : 0 < u16 (avail_idx (e_mem e) q - vq_last_avail_idx q) <= vr_num (vq_vring q);
  of_head : 0 <= next_head (e_mem e) q < vr_num (vq_vring q);
  of_table :
    let m := e_mem (pop_event features q e) in
    has_flag (desc_flags m (vr_desc (vq_vring q)) (next_head (e_mem e) q)) VRING_DESC_F_INDIRECT = true ->
    desc_len m (vr_desc (vq_vring q)) (next_head (e_mem e) q) mod sizeof_VRingDesc = 0;
  of_chain :
    let m := e_mem (pop_event features q e) in
    let '(t, max, i) := chain_start m q (next_head (e_mem e) q) in
    chain m t max i l /\ Z.of_nat (length l) <= max;
  of_small : Z.of_nat (length (chain_ins l)) <= VIRTQUEUE_MAX_SIZE /\
             Z.of_nat (length (chain_outs l)) <= VIRTQUEUE_MAX_SIZE;
  of_mapped : Forall (fun v => map_ok v.1 v.2 true = true) (chain_ins l) /\
              Forall (fun v => map_ok v.1 v.2 false = true) (chain_outs l)
}.

Lemma map_sg_ok sg w s :
  Forall (fun v => map_ok v.1 v.2 w = true) sg -> virtqueue_map_sg map_ok sg w s = Done tt s.
Proof. induction 1 as [|[a n] sg Hm _ IH]; simpl in *; [done|]. by rewrite Hm. Qed.

Lemma pop_offered features e q l :
  offered features e q l ->
  virtqueue_pop map_ok features (e, q) =
    Done (Some (VQElem (next_head (e_mem e) q) (chain_ins l) (chain_outs l)))
      (pop_event features q e, popped q).
Proof.
  intros [Hh Hhd Ht Hc [Hi Ho] [Hmi Hmo]]. unfold virtqueue_pop, virtqueue_num_heads, virtqueue_get_head.
  set (head := next_head _ _) in *. set (e1 := pop_event features q e) in *.
  unfold mbind at 1, M_bind at 1. cbn [getx snd].
  erewrite bind_done; [|unfold mbind, M_bind; rewrite avail_idx_spec; cbn [getx snd];
    by rewrite (proj2 (Z.ltb_ge _ _)) by lia].
  rewrite (proj2 (Z.eqb_neq _ _)) by lia.
  erewrite bind_done; [|unfold mbind, M_bind; cbn [getx snd]; rewrite (proj2 (Z.eqb_neq _ _)) by lia;
    rewrite avail_ring_spec; fold (next_head (e_mem e) q); fold head; by rewrite (proj2 (Z.leb_gt _ _)) by lia].
  erewrite bind_done; [|reflexivity]. cbn [fst snd]. set (q1 := set_vq_last_avail_idx _ q).
  erewrite bind_done; [|apply (pop_event_spec features q1)]. change (pop_event features q1 e) with e1.
  erewrite bind_done; [|apply desc_flags_spec]. erewrite bind_done; [|apply desc_len_spec].
  assert (Hrest : forall t max i, chain (e_mem e1) t max i l -> Z.of_nat (length l) <= max ->
    ('(ins, outs) ← pop_chain (S (Z.to_nat max)) t max i [] [];
     virtqueue_map_sg map_ok ins true;; virtqueue_map_sg map_ok outs false;;
     modx (fun q => set_vq_inuse (vq_inuse q + 1) q);; mret (Some (VQElem head ins outs))) (e1, q1) =
    Done (Some (VQElem head (chain_ins l) (chain_outs l))) (e1, popped q)).
  { intros t max i Hch Hmax.
    etrans; [eapply bind_done, (pop_chain_exact _ _ _ _ [] [] l); cbn [length]; (done || lia)|]. cbn [app].
    etrans; [by eapply bind_done, map_sg_ok|]. by etrans; [by eapply bind_done, map_sg_ok|]. }
  cbv zeta in Ht. unfold chain_start in Hc.
  change (vr_desc (vq_vring q1)) with (vr_desc (vq_vring q)).
  change (vr_num (vq_vring q1)) with (vr_num (vq_vring q)).
  destruct (has_flag _ VRING_DESC_F_INDIRECT); cbn [andb].
  - rewrite (Ht eq_refl). change (negb (0 =? 0)) with false. cbv iota.
    etrans; [eapply bind_done, desc_addr_spec|].
    destruct Hc. by apply Hrest.
  - etrans; [by eapply bind_done|]. destruct Hc. by apply Hrest.
Qed.

(** C37: a chain the guest offers is taken exactly.  When the next entry of the
    available ring names a well-formed chain of descriptors, in the ring's table
    or in an indirect one, [virtqueue_pop] returns an element with that index
    whose buffers are those of the chain, in the order of the chain, the ones the
    device may write and the ones it may read apart. *)
Theorem pop_exact features e q l :
  offered features e q l ->
  virtqueue_pop map_ok features (e, q) =
    Done (Some (VQElem (next_head (e_mem e) q) (chain_ins l) (chain_outs l)))
      (pop_event features q e, popped q).
Proof. apply pop_offered. Qed.
End Pop.

(** ** Returning an element *)

(** The entries of the used ring. *)
Definition used_id m q i : Z := rd 4 m (u64 (vr_used (vq_vring q) + (4 + 8 * i))).
Definition used_len m q i : Z := rd 4 m (u64 (vr_used (vq_vring q) + (8 + 8 * i))).

(** The used ring lies in the address space. *)
Definition used_placed q : Prop :=
  0 < vr_num (vq_vring q) /\ 0 <= vr_used (vq_vring q) /\
  vr_used (vq_vring q) + 4 + 8 * vr_num (vq_vring q) <= 2 ^ 64.

Lemma rd_pokes_eq n pa v m : rd n (pokes (seqZ pa (Z.of_nat n)) (le_bytes n v) m) pa = v mod 2 ^ (8 * Z.of_nat n).
Proof.
  unfold rd. rewrite peeks_pokes_eq, le_val_le_bytes; [done|apply NoDup_seqZ|].
  rewrite length_le_bytes, length_seqZ. lia.
Qed.

Lemma rd_pokes_ne n k pa pb bs m :
  pa + Z.of_nat n <= pb \/ pb + Z.of_nat k <= pa ->
  rd n (pokes (seqZ pb (Z.of_nat k)) bs m) pa = rd n m pa.
Proof. intros H. unfold rd. rewrite peeks_pokes_disj; [done|]. intros x ?%elem_of_seqZ ?%elem_of_seqZ. lia. Qed.

(** The queue after [virtqueue_flush] of one element, with [old] in the used
    ring before. *)
Definition pushed (old : Z) q : virtqueue :=
  let q1 := set_vq_inuse (vq_inuse q - 1) q in
  if s16 (u16 (old + 1) - vq_signalled_used q) <? u16 (u16 (old + 1) - old)
  then set_vq_signalled (vq_signalled_used q) false q1 else q1.

(** Guest memory after [virtqueue_push]. *)
Definition push_mem (idx len : Z) q m : mem :=
  let used := vr_used (vq_vring q) in
  let slot := used_idx m q mod vr_num (vq_vring q) in
  pokes (seqZ (u64 (used + 2)) 2) (le_bytes 2 (u16 (used_idx m q + 1)))
    (pokes (seqZ (u64 (used + (8 + 8 * slot))) 4) (le_bytes 4 len)
       (pokes (seqZ (u64 (used + (4 + 8 * slot))) 4) (le_bytes 4 idx) m)).

Lemma used_idx_bound m q : mem_ok m -> 0 <= used_idx m q < 2 ^ 16.
Proof. exact (rd_nonneg_bound 2 m _). Qed.

Lemma used_slot m q : used_placed q ->
  let slot := used_idx m q mod vr_num (vq_vring q) in
  let used := vr_used (vq_vring q) in
  0 <= slot < vr_num (vq_vring q) /\
  u64 (used + 2) = used + 2 /\
  u64 (used + (4 + 8 * slot)) = used + (4 + 8 * slot) /\ u64 (used + (8 + 8 * slot)) = used + (8 + 8 * slot).
Proof.
  intros (Hn & H0 & H1). cbv zeta.
  pose proof (Z.mod_pos_bound (used_idx m q) (vr_num (vq_vring q)) Hn) as Hs.
  set (slot := used_idx m q mod _) in *.
  unfold u64. rewrite !(Z.mod_small _ (2 ^ 64)) by lia. done.
Qed.

Lemma push_spec elem len e q : 0 <= used_idx (e_mem e) q < 2 ^ 16 -> used_placed q ->
  virtqueue_push elem len (e, q) =
    Done tt (set_mem (push_mem (el_index elem) len q) e, pushed (used_idx (e_mem e) q) q).
Proof.
  intros Hu Hq. destruct (used_slot (e_mem e) q Hq) as (Hs & Hi & Ha & Hb). cbv zeta in *.
  set (slot := used_idx _ q mod _) in *.
  set (e1 := set_mem (pokes (seqZ (u64 (vr_used (vq_vring q) + (8 + 8 * slot))) 4) (le_bytes 4 len))
    (set_mem (pokes (seqZ (u64 (vr_used (vq_vring q) + (4 + 8 * slot))) 4) (le_bytes 4 (el_index elem))) e)).
  assert (Hf : virtqueue_fill elem len 0 (e, q) = Done tt (e1, q)).
  { unfold virtqueue_fill, mbind, M_bind. cbn [getx snd]. rewrite used_idx_spec.
    rewrite (proj2 (Z.eqb_neq _ _)) by (destruct Hq; lia).
    by rewrite Z.add_0_l, (u32_small (used_idx _ _)) by lia. }
  assert (He1 : used_idx (e_mem e1) q = used_idx (e_mem e) q).
  { unfold used_idx, e1. cbn [e_mem set_mem]. rewrite Hi, Ha, Hb.
    by rewrite !(rd_pokes_ne 2 4) by lia. }
  unfold virtqueue_push. etrans; [eapply bind_done, Hf|]. unfold virtqueue_flush, pushed.
  etrans; [eapply bind_done, used_idx_spec|]. rewrite He1. do 2 (etrans; [eapply bind_done; reflexivity|]).
  cbn [fst snd]. unfold mbind, M_bind. cbn [getx snd].
  by destruct (s16 _ <? _).
Qed.

(** The entry that [virtqueue_push] fills. *)
Lemma push_mem_entry idx len q m :
  used_placed q -> 0 <= idx < 2 ^ 32 -> 0 <= len < 2 ^ 32 ->
  let slot := used_idx m q mod vr_num (vq_vring q) in
  used_id (push_mem idx len q m) q slot = idx /\ used_len (push_mem idx len q m) q slot = len /\
  used_idx (push_mem idx len q m) q = u16 (used_idx m q + 1).
Proof.
  intros Hq Hx Hl slot. destruct (used_slot m q Hq) as (Hs & Hi & Ha & Hb). cbv zeta in *. fold slot in Hs, Ha, Hb.
  unfold push_mem, used_id, used_len. fold slot. rewrite Hi, Ha, Hb. split_and!.
  - rewrite (rd_pokes_ne 4 2), (rd_pokes_ne 4 4), (rd_pokes_eq 4) by lia. by apply Z.mod_small.
  - rewrite (rd_pokes_ne 4 2), (rd_pokes_eq 4) by lia. by apply Z.mod_small.
  - unfold used_idx at 1. rewrite Hi, (rd_pokes_eq 2). unfold u16. by rewrite Zmod_mod.
Qed.

(** C38: a used element is returned exactly.  [virtqueue_push] writes the index of
    the element and the number of bytes written into the next entry of the used
    ring and then advances the ring's index by one, modulo 2^16; it changes no
    other byte of the guest's memory, and the number of elements in use drops by
    one. *)
Theorem push_exact elem len e q :
  mem_ok (e_mem e) -> used_placed q -> 0 <= el_index elem < 2 ^ 32 -> 0 <= len < 2 ^ 32 ->
  let slot := used_idx (e_mem e) q mod vr_num (vq_vring q) in
  exists m' q', virtqueue_push elem len (e, q) = Done tt (set_mem (fun _ => m') e, q') /\
    used_id m' q slot = el_index elem /\ used_len m' q slot = len /\
    used_idx m' q = u16 (used_idx (e_mem e) q + 1) /\
    (forall a, peek m' a <> peek (e_mem e) a ->
       vr_used (vq_vring q) + 2 <= a < vr_used (vq_vring q) + 4 \/
       vr_used (vq_vring q) + 4 + 8 * slot <= a < vr_used (vq_vring q) + 12 + 8 * slot) /\
    vq_vring q' = vq_vring q /\ vq_last_avail_idx q' = vq_last_avail_idx q /\ vq_inuse q' = vq_inuse q - 1.
Proof.
  intros Hm Hq Hx Hl slot. destruct (used_slot (e_mem e) q Hq) as (Hs & Hi & Ha & Hb). cbv zeta in *. fold slot in Hs, Ha, Hb.
  eexists (push_mem (el_index elem) len q (e_mem e)), _. split; [by rewrite push_spec by (done || by apply used_idx_bound)|].
  destruct (push_mem_entry (el_index elem) len q (e_mem e) Hq Hx Hl) as (E1 & E2 & E3).
  split; [exact E1|]. split; [exact E2|]. split; [exact E3|].
  unfold push_mem. fold slot. rewrite Hi, Ha, Hb. repeat split.
  - intros a Hne. destruct (decide (vr_used (vq_vring q) + 2 <= a < vr_used (vq_vring q) + 4)); [by left|right].
    apply dec_stable. intros Hout. apply Hne.
    by rewrite !peek_pokes_notin by (rewrite elem_of_seqZ; lia).
  - unfold pushed. by destruct (s16 _ <? _).
  - unfold pushed. by destruct (s16 _ <? _).
  - unfold pushed. by destruct (s16 _ <? _).
Qed.

(** ** Notification *)

(** The test of the event index is right at every wrap of the 16-bit indices:
    after moving the used index from [old] to [new] the guest is interrupted
    exactly when the entry it asked to be told about, [event], is one of the
    entries just used. *)
Theorem need_event_correct event new old :
  0 <= event < 2 ^ 16 ->
  vring_need_event event new old = true <->
  exists k, 0 <= k < u16 (new - old) /\ event = u16 (old + k).
Proof.
  intros He. unfold vring_need_event, u16. change (2 ^ 16) with 65536 in *. rewrite Z.ltb_lt. split.
  - intros H. exists ((new - old) mod 65536 - 1 - (new - event - 1) mod 65536).
    Z.to_euclidean_division_equations; lia.
  - intros (k & Hk & ->). Z.to_euclidean_division_equations; lia.
Qed.

(** ** Is there room? *)

Lemma avail_chain_wpe fuel t max i n it ot ib ob e q (Q : option (Z * Z * Z) -> env * virtqueue -> Prop) :
  0 <= n -> max - n < Z.of_nat fuel -> (0 < fuel)%nat ->
  (forall r, default True ((fun r => 0 <= r.1.1) <$> r) -> Q r (e, q)) ->
  wpe (avail_chain fuel t max i n it ot ib ob) Q (e, q).
Proof.
  intros Hn Hf H0 HQ. revert i n it ot Hn Hf H0.
  induction fuel as [|fuel IH]; intros i n it ot Hn Hf H0; [lia|].
  cbn [avail_chain]. destruct (Z.ltb_spec max (n + 1)); vgo. destruct (_ || _); vgo; [by apply HQ|].
  apply next_desc_wpe; intros; destruct (_ =? max); vgo; (apply IH; lia) || (apply HQ; simpl; lia).
Qed.

(** The number of entries left falls by one with each round. *)
Lemma heads_next idx avail :
  u16 (avail - idx) <> 0 -> u16 (avail - u32 (idx + 1)) = u16 (avail - idx) - 1.
Proof.
  unfold u16, u32. change (2 ^ 16) with 65536. change (2 ^ 32) with (65536 * 65536). intros H.
  Z.to_euclidean_division_equations; lia.
Qed.

Lemma avail_loop_wpe fuel idx tot it ot ib ob e q :
  mem_ok (e_mem e) -> 0 < vr_num (vq_vring q) -> 0 <= tot ->
  u16 (avail_idx (e_mem e) q - idx) < Z.of_nat fuel ->
  wpe (avail_loop fuel idx tot it ot ib ob) (fun _ s' => s' = (e, q)) (e, q).
Proof.
  intros Hm Hv. revert idx tot it ot. induction fuel as [|fuel IH]; intros idx tot it ot Ht Hf.
  { unfold u16 in Hf. pose proof (Z.mod_pos_bound (avail_idx (e_mem e) q - idx) (2 ^ 16)). lia. }
  cbn [avail_loop]. unfold virtqueue_num_heads, virtqueue_get_head. vgo.
  destruct (_ <? _); vgo. destruct (Z.eqb_spec (u16 (avail_idx (e_mem e) q - idx)) 0) as [|Hh]; vgo; [done|].
  rewrite (proj2 (Z.eqb_neq _ _)) by lia. vgo. destruct (_ <=? _); vgo.
  set (len := desc_len _ _ _). assert (0 <= len) by (by apply rd_nonneg).
  assert (0 <= len / sizeof_VRingDesc) by (by apply Z.div_pos).
  destruct (has_flag _ VRING_DESC_F_INDIRECT); cbn [andb]; [destruct (_ || _)|]; vgo;
    (apply avail_chain_wpe; [lia..|]);
    intros [[[nb it'] ot']|] Hr; vgo; try done; simpl in Hr;
    (apply IH; [lia|rewrite heads_next by done; lia]).
Qed.

(** C39: [virtqueue_avail_bytes] ends on every content of the guest's memory, a
    cyclic chain included, and changes nothing: it answers, or the process exits
    with a message. *)
Theorem avail_bytes_safe ib ob e q :
  mem_ok (e_mem e) -> 0 < vr_num (vq_vring q) ->
  (exists b, virtqueue_avail_bytes ib ob (e, q) = Done b (e, q)) \/
  virtqueue_avail_bytes ib ob (e, q) = Crash Exited.
Proof.
  intros Hm Hv.
  assert (H : wpe (virtqueue_avail_bytes ib ob) (fun _ s' => s' = (e, q)) (e, q)).
  { unfold virtqueue_avail_bytes. vgo. apply avail_loop_wpe; [done..|].
    unfold u16. pose proof (Z.mod_pos_bound (avail_idx (e_mem e) q - vq_last_avail_idx q) (2 ^ 16)). lia. }
  apply wpe_cases in H as [H|(b & s' & Hb & ->)]; [by right|left; by exists b].
Qed.

(** ** Vectors *)

(** The bytes of guest memory a vector covers, in order, and [k] of them from
    the byte [off] on. *)
Definition iov_addrs (iov : list iovec) : list Z := concat ((fun v => seqZ v.1 v.2) <$> iov).
Definition iov_part (iov : list iovec) (off k : Z) : list Z :=
  take (Z.to_nat k) (drop (Z.to_nat off) (iov_addrs iov)).
Definition iov_ok (iov : list iovec) : Prop := Forall (fun v => 0 <= v.2) iov.

Lemma iov_size_cons v iov : iov_size (v :: iov) = v.2 + iov_size iov.
Proof.
  unfold iov_size. cbn [foldl]. rewrite Z.add_0_l. generalize v.2.
  assert (H : forall a b, foldl (fun len (v : iovec) => len + v.2) (a + b) iov =
                     a + foldl (fun len (v : iovec) => len + v.2) b iov).
  { induction iov as [|w iov IH]; intros a b; simpl; [done|]. by rewrite <- Z.add_assoc, IH. }
  intros n. by rewrite <- H, Z.add_0_r.
Qed.

Lemma length_iov_addrs iov : iov_ok iov -> Z.of_nat (length (iov_addrs iov)) = iov_size iov.
Proof.
  induction 1 as [|v iov Hv _ IH]; [done|]. unfold iov_addrs in *. rewrite iov_size_cons. cbn [fmap list_fmap concat].
  rewrite length_app, length_seqZ. lia.
Qed.

Lemma iov_part_here b len iov off k :
  0 <= off <= len -> 0 <= k ->
  iov_part ((b, len) :: iov) off k =
    seqZ (b + off) (Z.min (len - off) k) ++ iov_part iov 0 (k - Z.min (len - off) k).
Proof.
  intros Ho Hk. unfold iov_part, iov_addrs. cbn [fmap list_fmap concat fst snd]. rewrite Z2Nat.inj_0, drop_0.
  rewrite drop_app_le by (rewrite length_seqZ; lia).
  rewrite (seqZ_split b off len), drop_app_length' by (rewrite ?length_seqZ; lia).
  destruct (Z.le_ge_cases k (len - off)) as [H|H].
  - rewrite Z.min_r, take_app_le by (rewrite ?length_seqZ; lia). rewrite (seqZ_split (b + off) k) by lia.
    rewrite take_app_length' by (rewrite length_seqZ; lia). by rewrite Z.sub_diag, app_nil_r.
  - rewrite Z.min_l, take_app_ge by (rewrite ?length_seqZ; lia). do 2 f_equal. rewrite length_seqZ. lia.
Qed.

Lemma iov_part_skip b len iov off k :
  0 <= len <= off -> iov_part ((b, len) :: iov) off k = iov_part iov (off - len) k.
Proof.
  intros H. unfold iov_part, iov_addrs. cbn [fmap list_fmap concat fst snd].
  rewrite drop_app_ge by (rewrite length_seqZ; lia). do 2 f_equal. rewrite length_seqZ. lia.
Qed.

Lemma iov_part_sub iov off k : iov_part iov off k ⊆ iov_addrs iov.
Proof.
  unfold iov_part. intros a Ha.
  rewrite <- (take_drop (Z.to_nat off) (iov_addrs iov)), <- (take_drop (Z.to_nat k) (drop _ _)). set_solver.
Qed.

Lemma iov_part_nodup iov off k : NoDup (iov_addrs iov) -> NoDup (iov_part iov off k).
Proof.
  intros Hnd. unfold iov_part.
  rewrite <- (take_drop (Z.to_nat off) (iov_addrs iov)), <- (take_drop (Z.to_nat k) (drop _ _)) in Hnd.
  by apply list.NoDup_app in Hnd as (_ & _ & (? & _)%list.NoDup_app).
Qed.

(** How many bytes of [n] fit into the vector from [off] on. *)
Definition iov_room (iov : list iovec) (off n : Z) : Z := Z.min n (iov_size iov - off).

Section Copies.
Context {X : Type}.
Implicit Types (x : X).

Lemma from_buf_loop_spec iov off dn buf n e x :
  iov_ok iov -> 0 <= off <= iov_size iov -> 0 <= dn <= n -> seqZ buf n ## iov_addrs iov ->
  let k := iov_room iov off (n - dn) in
  iov_from_buf_loop iov off dn buf n (e, x) =
    Done (0, dn + k)
      (set_mem (fun m => pokes (iov_part iov off k) (peeks m (seqZ (buf + dn) k)) m) e, x).
Proof.
  intros Hok. revert off dn e. induction Hok as [|[b len] iov Hlen Hok IH]; intros off dn e Ho Hd Hdis k.
  { unfold iov_size in Ho. simpl in *. replace off with 0 by lia. unfold k, iov_room, iov_size. simpl.
    replace (Z.min _ _) with 0 by lia. rewrite Z.add_0_r. by destruct e. }
  cbn [snd] in Hlen. rewrite iov_size_cons in Ho. cbn [snd] in Ho. cbn [iov_from_buf_loop].
  unfold k, iov_room in *. rewrite iov_size_cons. cbn [snd]. clear k.
  assert (Hs : 0 <= iov_size iov) by (rewrite <- (length_iov_addrs _ Hok); lia).
  assert (Hdis1 : seqZ buf n ## seqZ b len /\ seqZ buf n ## iov_addrs iov)
    by (unfold iov_addrs in Hdis; cbn in Hdis; set_solver). destruct Hdis1 as [Hdb Hdi].
  destruct ((off =? 0) && negb (dn <? n)) eqn:Hstop.
  { apply andb_true_iff in Hstop as [->%Z.eqb_eq Hn%negb_true_iff%Z.ltb_ge].
    replace (Z.min _ _) with 0 by lia. rewrite Z.add_0_r. by destruct e. }
  set (k := Z.min (n - dn) _). destruct (Z.ltb_spec off len) as [Hin|Hin].
  - set (cur := Z.min (len - off) (n - dn)). etrans; [eapply bind_done; reflexivity|]. cbn [fst snd].
    rewrite IH by (done || lia). rewrite iov_part_here by lia.
    replace (Z.min (len - off) k) with cur by lia.
    replace (Z.min (n - (dn + cur)) (iov_size iov - 0)) with (k - cur) by lia.
    replace (dn + cur + (k - cur)) with (dn + k) by lia. do 2 f_equal. unfold set_mem. cbn. f_equal.
    rewrite peeks_pokes_disj.
    2: { intros x0 H1%elem_of_seqZ H2%elem_of_seqZ. apply (Hdb x0); apply elem_of_seqZ; lia. }
    rewrite (seqZ_split (buf + dn) cur k), peeks_app, pokes_app by (rewrite ?length_peeks, ?length_seqZ; lia).
    by rewrite Z.add_assoc.
  - rewrite IH by (done || lia). rewrite iov_part_skip by lia.
    by replace (Z.min (n - dn) (iov_size iov - (off - len))) with k by lia.
Qed.

Lemma to_buf_loop_spec iov off buf n e x :
  iov_ok iov -> 0 <= off <= iov_size iov -> Z.of_nat (length buf) <= n ->
  iov_to_buf_loop iov off buf n (e, x) =
    Done (0, buf ++ peeks (e_mem e) (iov_part iov off (iov_room iov off (n - Z.of_nat (length buf))))) (e, x).
Proof.
  intros Hok. revert off buf. induction Hok as [|[b len] iov Hlen Hok IH]; intros off buf Ho Hd.
  { unfold iov_size in Ho. simpl in *. replace off with 0 by lia. unfold iov_part, iov_addrs. simpl.
    rewrite take_nil. cbn. by rewrite app_nil_r. }
  cbn [snd] in Hlen. rewrite iov_size_cons in Ho. cbn [snd] in Ho. cbn [iov_to_buf_loop].
  unfold iov_room in *. rewrite iov_size_cons. cbn [snd].
  assert (Hs : 0 <= iov_size iov) by (rewrite <- (length_iov_addrs _ Hok); lia).
  set (dn := Z.of_nat (length buf)) in *.
  destruct ((off =? 0) && negb (dn <? n)) eqn:Hstop.
  { apply andb_true_iff in Hstop as [->%Z.eqb_eq Hn%negb_true_iff%Z.ltb_ge].
    replace (Z.min _ _) with 0 by lia. cbn. by rewrite app_nil_r. }
  set (k := Z.min (n - dn) _). destruct (Z.ltb_spec off len) as [Hin|Hin].
  - set (cur := Z.min (len - off) (n - dn)). etrans; [eapply bind_done; reflexivity|]. cbn [fst snd].
    rewrite IH by (rewrite ?length_app, ?length_peeks, ?length_seqZ; lia).
    rewrite iov_part_here by lia. replace (Z.min (len - off) k) with cur by lia.
    rewrite peeks_app, app_assoc. unfold iov_room. rewrite length_app, length_peeks, length_seqZ.
    replace (Z.min _ (iov_size iov - 0)) with (k - cur) by lia. done.
  - rewrite IH by lia. fold dn. rewrite iov_part_skip by lia.
    by replace (Z.min (n - dn) (iov_size iov - (off - len))) with k by lia.
Qed.

(** Whatever the buffers, also when they overlap each other or the source. *)
Lemma from_buf_any iov dn buf n e x :
  iov_ok iov -> mem_ok (e_mem e) -> 0 <= dn <= n ->
  exists k m', iov_from_buf_loop iov 0 dn buf n (e, x) = Done (0, dn + k) (set_mem (fun _ => m') e, x) /\
    0 <= k <= n - dn /\ mem_ok m' /\ (k = 0 -> m' = e_mem e) /\
    (forall a, a ∉ iov_addrs iov -> peek m' a = peek (e_mem e) a).
Proof.
  intros Hok. revert dn e. induction Hok as [|[b len] iov Hlen Hok IH]; intros dn e Hm Hd.
  { exists 0, (e_mem e). rewrite Z.add_0_r. split_and!; try done; [by destruct e|lia]. }
  cbn [snd] in Hlen. cbn [iov_from_buf_loop]. destruct ((0 =? 0) && negb (dn <? n)).
  { exists 0, (e_mem e). rewrite Z.add_0_r. split_and!; try done; [by destruct e|lia]. }
  destruct (Z.ltb_spec 0 len) as [Hpos|Hpos].
  - rewrite !Z.sub_0_r, Z.add_0_r. set (cur := Z.min len (n - dn)).
    set (e1 := set_mem (fun m => pokes (seqZ b cur) (peeks m (seqZ (buf + dn) cur)) m) e).
    destruct (IH (dn + cur) e1) as (k & m' & E & Hk & Hm' & Hz & Hout).
    { apply pokes_mem_ok; [done|by apply peeks_bytes]. } { lia. }
    exists (cur + k), m'. split_and!; try done; [|lia|lia| |].
    + etrans; [eapply bind_done; reflexivity|]. cbn [fst snd]. fold e1. rewrite E.
      by replace (dn + cur + k) with (dn + (cur + k)) by lia.
    + intros Hck. assert (cur = 0 /\ k = 0) as [Hc0 ->] by lia. rewrite (Hz eq_refl). unfold e1. by rewrite Hc0.
    + intros a Ha. unfold iov_addrs in Ha. cbn in Ha. apply not_elem_of_app in Ha as [Ha1 Ha2].
      rewrite (Hout a Ha2). unfold e1. cbn [e_mem set_mem]. apply peek_pokes_notin.
      rewrite elem_of_seqZ in *. lia.
  - replace (0 - len) with 0 by lia. destruct (IH dn e Hm Hd) as (k & m' & ? & ? & ? & ? & Hout).
    exists k, m'. split_and!; try done; [lia|lia|].
    intros a Ha. apply Hout. unfold iov_addrs in *. cbn in Ha. set_solver.
Qed.

(** Copying into a vector of guest buffers and copying out of it agree.
    From any offset within the vector, [iov_from_buf] copies as many bytes of a
    buffer outside the vector as fit, touches no byte outside the vector, and
    [iov_to_buf] at the same offset then reads back exactly the bytes copied. *)
Theorem iov_roundtrip iov off buf n e x :
  iov_ok iov -> NoDup (iov_addrs iov) -> 0 <= off <= iov_size iov -> 0 <= n -> seqZ buf n ## iov_addrs iov ->
  let k := iov_room iov off n in
  exists m', iov_from_buf iov off buf n (e, x) = Done k (set_mem (fun _ => m') e, x) /\
    (forall a, a ∉ iov_addrs iov -> peek m' a = peek (e_mem e) a) /\
    iov_to_buf iov off n (set_mem (fun _ => m') e, x) =
      Done (peeks (e_mem e) (seqZ buf k)) (set_mem (fun _ => m') e, x).
Proof.
  intros Hok Hnd Ho Hn Hdis k. pose proof (length_iov_addrs _ Hok) as Hl.
  eexists (pokes (iov_part iov off k) (peeks (e_mem e) (seqZ buf k)) (e_mem e)). split; [|split].
  - unfold iov_from_buf. etrans; [eapply bind_done, from_buf_loop_spec; (done || lia)|].
    rewrite Z.sub_0_r, Z.add_0_r. fold k. by destruct e.
  - intros a Ha. apply peek_pokes_notin. intros Hin. by eapply Ha, iov_part_sub.
  - unfold iov_to_buf. etrans; [eapply bind_done, to_buf_loop_spec; [done..|simpl; lia]|].
    cbn [length]. rewrite Z.sub_0_r. fold k. cbn [e_mem set_mem app].
    rewrite peeks_pokes_eq; [done|by apply iov_part_nodup|].
    rewrite length_peeks, length_seqZ. unfold iov_part, k, iov_room. rewrite length_take, length_drop. lia.
Qed.
End Copies.
