(* ===== verification/RingFacts.v ===== *)
(** * Who writes where in a virtqueue

    The guest owns the descriptors and the available ring, the device owns the
    used ring.  As long as the two lie apart, what the device writes does not
    change what it reads, so the entries that the guest offers can be taken one
    after the other. *)
From stdpp Require Import base gmap gmultiset list strings numbers.
From S2P Require Import Prelude Kernel KernelFacts Vring VringFacts.
Open Scope Z_scope.

Implicit Types (e : env) (q : virtqueue) (m : mem).

(** ** Zones of memory *)

Definition zone (a n x : Z) : Prop := a <= x < a + n.

Global Instance zone_dec a n x : Decision (zone a n x).
Proof. unfold zone. apply _. Defined.

(** The memories [m] and [m'] have the same bytes in [P]. *)
Definition agree (P : Z -> Prop) m m' : Prop := forall x, P x -> peek m' x = peek m x.

Lemma agree_refl P m : agree P m m.
Proof. done. Qed.
Lemma agree_trans P m1 m2 m3 : agree P m1 m2 -> agree P m2 m3 -> agree P m1 m3.
Proof. intros H1 H2 x Hx. by rewrite H2, H1. Qed.
Lemma agree_sub (P P' : Z -> Prop) m m' : (forall x, P' x -> P x) -> agree P m m' -> agree P' m m'.
Proof. intros Hs Ha x Hx. by apply Ha, Hs. Qed.
Lemma agree_pokes (P : Z -> Prop) m l bs : (forall x, P x -> x ∉ l) -> agree P m (pokes l bs m).
Proof. intros Hd x Hx. by apply peek_pokes_notin, Hd. Qed.
Lemma peeks_agree P m m' l : agree P m m' -> (forall x, x ∈ l -> P x) -> peeks m' l = peeks m l.
Proof. intros Ha Hl. apply list_fmap_ext. intros i x Hx%list_elem_of_lookup_2. by apply Ha, Hl. Qed.

Lemma rd_agree P n m m' pa :
  agree P m m' -> (forall x, zone pa (Z.of_nat n) x -> P x) -> rd n m' pa = rd n m pa.
Proof.
  intros Ha Hs. unfold rd. rewrite (peeks_agree P m m'); [done..|]. intros x Hx%elem_of_seqZ. apply Hs. done.
Qed.

Lemma u64_small z : 0 <= z < 2 ^ 64 -> u64 z = z.
Proof. intros. by apply Z.mod_small. Qed.

(** ** The parts of a ring *)

Record ring_placed q : Prop := {
  rp_num : 0 < vr_num (vq_vring q) <= 2 ^ 15;
  rp_desc : 0 <= vr_desc (vq_vring q) /\ vr_desc (vq_vring q) + 16 * vr_num (vq_vring q) <= 2 ^ 64;
  rp_avail : 0 <= vr_avail (vq_vring q) /\ vr_avail (vq_vring q) + 6 + 2 * vr_num (vq_vring q) <= 2 ^ 64;
  rp_used : 0 <= vr_used (vq_vring q) /\ vr_used (vq_vring q) + 6 + 8 * vr_num (vq_vring q) <= 2 ^ 64
}.

Definition desc_zone q : Z -> Prop := zone (vr_desc (vq_vring q)) (16 * vr_num (vq_vring q)).
Definition avail_zone q : Z -> Prop := zone (vr_avail (vq_vring q)) (6 + 2 * vr_num (vq_vring q)).
Definition driver_zone q (x : Z) : Prop := desc_zone q x \/ avail_zone q x.
Definition device_zone q : Z -> Prop := zone (vr_used (vq_vring q)) (6 + 8 * vr_num (vq_vring q)).

Global Instance device_zone_dec q x : Decision (device_zone q x).
Proof. unfold device_zone. apply _. Defined.

(** The device does not write where it reads. *)
Record ring_ok q : Prop := {
  ro_placed : ring_placed q;
  ro_apart : forall x, driver_zone q x -> ~ device_zone q x
}.

Lemma placed_used q : ring_placed q -> used_placed q.
Proof. intros []. split; lia. Qed.

(** Only the ring itself matters for this. *)
Lemma ring_ok_vring q q' : vq_vring q' = vq_vring q -> ring_ok q -> ring_ok q'.
Proof.
  intros E [[] Ha]. split; [split; by rewrite E|].
  unfold driver_zone, desc_zone, avail_zone, device_zone in *. by rewrite E.
Qed.

Section Reads.
Context q m m' (Hp : ring_placed q) (Ha : agree (driver_zone q) m m').

Lemma avail_idx_agree : avail_idx m' q = avail_idx m q.
Proof.
  destruct Hp. unfold avail_idx. rewrite u64_small by lia. eapply rd_agree; [exact Ha|].
  intros x Hx. right. unfold zone, avail_zone in *. unfold zone. lia.
Qed.

Lemma avail_ring_agree i : 0 <= i <= vr_num (vq_vring q) -> avail_ring m' q i = avail_ring m q i.
Proof.
  intros Hi. destruct Hp. unfold avail_ring. rewrite u64_small by lia. eapply rd_agree; [exact Ha|].
  intros x Hx. right. unfold zone, avail_zone in *. unfold zone. lia.
Qed.

Lemma next_head_agree : next_head m' q = next_head m q.
Proof.
  unfold next_head. apply avail_ring_agree. destruct Hp. 
  pose proof (Z.mod_pos_bound (vq_last_avail_idx q) (vr_num (vq_vring q))). lia.
Qed.
End Reads.

(** ** What the device writes *)

(** The entries the guest has offered and the device has not taken. *)
Definition heads m q : Z := u16 (avail_idx m q - vq_last_avail_idx q).

Definition outside (P : Z -> Prop) (x : Z) : Prop := ~ P x.

Lemma pop_event_agree features q e :
  ring_placed q -> agree (outside (device_zone q)) (e_mem e) (e_mem (pop_event features q e)).
Proof.
  intros []. unfold pop_event. destruct (_ && _); [|done]. apply agree_pokes. intros x Hx Hin.
  apply elem_of_seqZ in Hin. rewrite u64_small in Hin by lia. apply Hx. unfold device_zone, zone. lia.
Qed.

(** As a change of memory. *)
Definition pop_change features q e (m : mem) : mem :=
  if has_feature features VIRTIO_RING_F_EVENT_IDX && vq_notification q then
    pokes (seqZ (u64 (vr_used (vq_vring q) + (4 + 8 * vr_num (vq_vring q)))) 2)
      (le_bytes 2 (avail_idx (e_mem e) q)) m
  else m.
Lemma pop_event_change features q e : pop_event features q e = set_mem (pop_change features q e) e.
Proof. unfold pop_event, pop_change. destruct (_ && _); [done|by destruct e]. Qed.

Lemma push_agree idx len q m :
  ring_placed q -> agree (outside (device_zone q)) m (push_mem idx len q m).
Proof.
  intros Hp. destruct (used_slot m q (placed_used q Hp)) as (Hs & Hi & Ha & Hb). cbv zeta in *.
  unfold push_mem. rewrite Hi, Ha, Hb. unfold outside, device_zone, zone.
  eapply agree_trans; [|eapply agree_trans]; apply agree_pokes; intros x Hx Hin%elem_of_seqZ; apply Hx; lia.
Qed.

Lemma push_mem_ok idx len q m : mem_ok m -> mem_ok (push_mem idx len q m).
Proof. intros. unfold push_mem. repeat apply pokes_mem_ok; (done || apply le_bytes_byte). Qed.

(** What the driver offers is out of reach of the device. *)
Lemma agree_driver q m m' : ring_ok q -> agree (outside (device_zone q)) m m' -> agree (driver_zone q) m m'.
Proof. intros []. by apply agree_sub. Qed.

Lemma pushed_vring old q : vq_vring (pushed old q) = vq_vring q.
Proof. unfold pushed. by destruct (_ <? _). Qed.
Lemma pushed_last old q : vq_last_avail_idx (pushed old q) = vq_last_avail_idx q.
Proof. unfold pushed. by destruct (_ <? _). Qed.
Lemma pushed_inuse old q : vq_inuse (pushed old q) = vq_inuse q - 1.
Proof. unfold pushed. by destruct (_ <? _). Qed.

(** Taking an entry leaves one less. *)
Lemma heads_popped m q : 0 < heads m q -> heads m (popped q) = heads m q - 1.
Proof.
  unfold heads. change (avail_idx m (popped q)) with (avail_idx m q).
  change (vq_last_avail_idx (popped q)) with (u16 (vq_last_avail_idx q + 1)). unfold u16.
  Z.to_euclidean_division_equations; lia.
Qed.

Lemma heads_bound m q : 0 <= heads m q < 2 ^ 16.
Proof. by apply Z.mod_pos_bound. Qed.

Lemma heads_agree m m' q : ring_placed q -> agree (driver_zone q) m m' -> heads m' q = heads m q.
Proof. intros Hp Ha. unfold heads. by rewrite (avail_idx_agree q m m'). Qed.

Lemma heads_vring m q q' :
  vq_vring q' = vq_vring q -> vq_last_avail_idx q' = vq_last_avail_idx q -> heads m q' = heads m q.
Proof. intros E1 E2. unfold heads, avail_idx. by rewrite E1, E2. Qed.

(** ** Chains in memory that stays *)

Lemma has_desc_agree P m m' t max i :
  agree P m m' -> (forall x, zone t (16 * max) x -> P x) -> 0 <= t -> t + 16 * max <= 2 ^ 64 -> 0 <= i < max ->
  desc_addr m' t i = desc_addr m t i /\ desc_len m' t i = desc_len m t i /\
  desc_flags m' t i = desc_flags m t i /\ desc_next m' t i = desc_next m t i.
Proof.
  intros Ha Hs H0 H1 Hi. unfold desc_addr, desc_len, desc_flags, desc_next. rewrite !u64_small by lia.
  split_and!; apply (rd_agree P); try done; intros x Hx; apply Hs; unfold zone in *; lia.
Qed.

Lemma chain_agree P m m' t max i l :
  agree P m m' -> (forall x, zone t (16 * max) x -> P x) -> 0 <= t -> t + 16 * max <= 2 ^ 64 ->
  0 <= i < max -> chain m t max i l -> chain m' t max i l.
Proof.
  intros Ha Hs H0 H1 Hi Hc. induction Hc as [i Hf|i l Hf Hn Hc IH];
    destruct (has_desc_agree P m m' t max i) as (E1 & E2 & E3 & E4); try done;
    rewrite <- E1, <- E2, <- E3.
  - apply chain_last. by rewrite E3.
  - apply chain_next; rewrite ?E3, ?E4; [done..|]. by apply IH.
Qed.

(** The zone of the table that holds the chain at [head]. *)
Definition table_zone m q head : Z -> Prop := let '(t, max, _) := chain_start m q head in zone t (16 * max).

(** The guest offers the chain [l] in the next entry of the available ring, in
    memory that only it writes. *)
Section Offers.
Variable map_ok : Z -> Z -> bool -> bool.

Record offers m q (l : list (bool * iovec)) : Prop := {
  fr_head : 0 <= next_head m q < vr_num (vq_vring q);
  fr_table :
    has_flag (desc_flags m (vr_desc (vq_vring q)) (next_head m q)) VRING_DESC_F_INDIRECT = true ->
    desc_len m (vr_desc (vq_vring q)) (next_head m q) mod sizeof_VRingDesc = 0;
  fr_chain : let '(t, max, i) := chain_start m q (next_head m q) in
    0 <= t /\ t + 16 * max <= 2 ^ 64 /\ 0 <= i < max /\ chain m t max i l /\ Z.of_nat (length l) <= max;
  fr_apart : forall x, table_zone m q (next_head m q) x -> ~ device_zone q x;
  fr_small : Z.of_nat (length (chain_ins l)) <= VIRTQUEUE_MAX_SIZE /\
             Z.of_nat (length (chain_outs l)) <= VIRTQUEUE_MAX_SIZE;
  fr_mapped : Forall (fun v => map_ok v.1 v.2 true = true) (chain_ins l) /\
              Forall (fun v => map_ok v.1 v.2 false = true) (chain_outs l)
}.

(** The bytes that make up the offer. *)
Definition offer_zone m q (x : Z) : Prop := driver_zone q x \/ table_zone m q (next_head m q) x.

Lemma chain_start_agree m m' q head :
  ring_placed q -> agree (driver_zone q) m m' -> 0 <= head < vr_num (vq_vring q) ->
  chain_start m' q head = chain_start m q head.
Proof.
  intros Hp Ha Hh. destruct (has_desc_agree (driver_zone q) m m' (vr_desc (vq_vring q)) (vr_num (vq_vring q)) head)
    as (E1 & E2 & E3 & _); [done|by left|apply Hp|apply Hp|done|].
  unfold chain_start. by rewrite E1, E2, E3.
Qed.

Lemma offers_agree m m' q l :
  ring_placed q -> agree (offer_zone m q) m m' -> offers m q l -> offers m' q l.
Proof.
  intros Hp Ha [Hh Ht Hc Hz Hsm Hmap].
  assert (Hd : agree (driver_zone q) m m') by (eapply agree_sub; [|exact Ha]; by left).
  assert (En := next_head_agree q m m' Hp Hd).
  assert (Es := chain_start_agree m m' q _ Hp Hd Hh).
  destruct (has_desc_agree (driver_zone q) m m' (vr_desc (vq_vring q)) (vr_num (vq_vring q)) (next_head m q))
    as (E1 & E2 & E3 & _); [done|by left|apply Hp|apply Hp|done|].
  split; rewrite ?En; try done; unfold table_zone in *; rewrite ?E2, ?E3, ?Es; try done.
  destruct (chain_start m q (next_head m q)) as [[t max] i] eqn:E. destruct Hc as (? & ? & ? & Hc & ?).
  split_and!; try done; [lia|lia|]. eapply (chain_agree (offer_zone m q)); try done. intros x Hx. right. unfold table_zone. by rewrite E.
Qed.

(** The next entry is taken exactly. *)
Lemma pop_offers features e q l :
  ring_ok q -> 0 < heads (e_mem e) q <= vr_num (vq_vring q) -> offers (e_mem e) q l ->
  virtqueue_pop map_ok features (e, q) =
    Done (Some (VQElem (next_head (e_mem e) q) (chain_ins l) (chain_outs l)))
      (pop_event features q e, popped q).
Proof.
  intros [Hp Hap] Hh Ho. apply pop_offered.
  assert (Ha : agree (offer_zone (e_mem e) q) (e_mem e) (e_mem (pop_event features q e))).
  { eapply agree_sub; [|by apply pop_event_agree]. intros x [Hx|Hx]; [by apply Hap|by apply (fr_apart _ _ _ Ho)]. }
  assert (Ho' := offers_agree _ _ _ _ Hp Ha Ho).
  assert (En : next_head (e_mem (pop_event features q e)) q = next_head (e_mem e) q).
  { apply next_head_agree; [done|]. eapply agree_sub; [|exact Ha]. by left. }
  destruct Ho' as [H1 H2 H3 H4 H5 H6]. rewrite En in *. split; try done.
  cbv zeta. destruct (chain_start _ _ _) as [[t max] i]. tauto.
Qed.

(** Only the ring and the position in it matter. *)
Lemma offers_ring m q q' l :
  vq_vring q' = vq_vring q -> vq_last_avail_idx q' = vq_last_avail_idx q -> offers m q l -> offers m q' l.
Proof.
  intros E1 E2 [Hh Ht Hc Hz Hsm Hmap].
  assert (En : next_head m q' = next_head m q) by (unfold next_head, avail_ring; by rewrite E1, E2).
  assert (Ec : forall h, chain_start m q' h = chain_start m q h) by (intros h; unfold chain_start; by rewrite E1).
  split; rewrite ?En, ?E1; try done; unfold table_zone in *; rewrite ?Ec; try done.
  intros x Hx. unfold device_zone. rewrite E1. by apply Hz.
Qed.

Lemma pop_none features e q :
  0 <= vr_num (vq_vring q) -> heads (e_mem e) q = 0 -> virtqueue_pop map_ok features (e, q) = Done None (e, q).
Proof.
  intros Hn Hh. unfold virtqueue_pop, virtqueue_num_heads, mbind, M_bind. cbn [getx snd]. rewrite avail_idx_spec.
  cbn [fst snd]. fold (heads (e_mem e) q). rewrite Hh. by rewrite (proj2 (Z.ltb_ge _ _)) by lia.
Qed.

(** The chains offered in the next entries. *)
Fixpoint offers_all m q (ls : list (list (bool * iovec))) : Prop :=
  match ls with
  | [] => True
  | l :: ls' => offers m q l /\ offers_all m (popped q) ls'
  end.
Fixpoint tables_zone m q (ls : list (list (bool * iovec))) (x : Z) : Prop :=
  match ls with
  | [] => False
  | _ :: ls' => table_zone m q (next_head m q) x \/ tables_zone m (popped q) ls' x
  end.

Definition at_same q q' : Prop :=
  vq_vring q' = vq_vring q /\ vq_last_avail_idx q' = vq_last_avail_idx q.

Lemma at_same_popped q q' : at_same q q' -> at_same (popped q) (popped q').
Proof. intros [E1 E2]. split; [done|]. cbn. by rewrite E2. Qed.

Lemma offers_all_ring m q q' ls : at_same q q' -> offers_all m q ls -> offers_all m q' ls.
Proof.
  revert q q'. induction ls as [|l ls IH]; [done|]. intros q q' Hs [Ho Hos].
  split; [by eapply offers_ring; [apply Hs..|]|]. eapply IH; [|exact Hos]. by apply at_same_popped.
Qed.

Lemma tables_zone_ring m q q' ls x : at_same q q' -> tables_zone m q' ls x -> tables_zone m q ls x.
Proof.
  revert q q'. induction ls as [|l ls IH]; [done|]. intros q q' [E1 E2] [Ht|Hts]; [left|right].
  - revert Ht. unfold table_zone, chain_start, next_head, avail_ring. by rewrite E1, E2.
  - eapply IH; [|exact Hts]. by apply at_same_popped.
Qed.

Lemma table_zone_agree m m' q l x :
  ring_placed q -> agree (driver_zone q) m m' -> offers m q l ->
  table_zone m' q (next_head m' q) x -> table_zone m q (next_head m q) x.
Proof.
  intros Hp Ha Ho. unfold table_zone. rewrite (next_head_agree q m m'), (chain_start_agree m m') by (done || apply Ho).
  done.
Qed.

Lemma offers_all_agree m m' q ls :
  ring_placed q -> agree (driver_zone q) m m' -> agree (tables_zone m q ls) m m' ->
  offers_all m q ls -> offers_all m' q ls /\ (forall x, tables_zone m' q ls x -> tables_zone m q ls x).
Proof.
  revert q. induction ls as [|l ls IH]; [done|]. intros q Hp Hd Ht [Ho Hos].
  destruct (IH (popped q)) as [IH1 IH2]; [by destruct Hp|done| |done|].
  { eapply agree_sub; [|exact Ht]. by right. }
  split; [split; [|done]|].
  - apply (offers_agree m); [done| |done]. intros x [Hx|Hx]; [by apply Hd|]. apply Ht. by left.
  - intros x [Hx|Hx]; [left; by eapply table_zone_agree|right; by apply IH2].
Qed.
End Offers.
