(* ===== verification/VirtioDev.v ===== *)
(** * Virtio devices of QEMU

    The device half of [qemu-1.2.0/hw/virtio.c]: status, interrupts, features,
    the configuration space, the table of queues and reset; saving and loading is
    in [Migrate.v].  A device of its own (such as the serial bus) embeds the
    common state, which the class [VirtioState] reaches, and provides the
    callbacks of [struct VirtIODevice], the class [VirtioCallbacks]. *)
From stdpp Require Import base gmap gmultiset list strings numbers.
From S2P Require Import Prelude Kernel Vring.
Open Scope Z_scope.

Definition VIRTIO_PCI_QUEUE_MAX : Z := 64.
Definition VIRTIO_NO_VECTOR : Z := 65535.
Definition VIRTIO_CONFIG_S_DRIVER_OK : Z := 4.

(** [struct VirtIODevice].  [vd_config] is the buffer [config], of which
    [config_len] bytes are in use; [vd_handlers] holds the [handle_output]
    callbacks of the queues, and [vd_irqs] the vectors handed to the binding's
    [notify] so far. *)
Record vdev (Hd : Type) := VDev {
  vd_status : Z; vd_isr : Z; vd_queue_sel : Z; vd_guest_features : Z;
  vd_config_len : Z; vd_config : bytes; vd_config_vector : Z;
  vd_vq : list virtqueue; vd_handlers : list (option Hd);
  vd_vm_running : bool; vd_irqs : list Z }.
Arguments VDev {Hd}.
Arguments vd_status {Hd}.
Arguments vd_isr {Hd}.
Arguments vd_queue_sel {Hd}.
Arguments vd_guest_features {Hd}.
Arguments vd_config_len {Hd}.
Arguments vd_config {Hd}.
Arguments vd_config_vector {Hd}.
Arguments vd_vq {Hd}.
Arguments vd_handlers {Hd}.
Arguments vd_vm_running {Hd}.
Arguments vd_irqs {Hd}.

Section Setters.
Context {Hd : Type}.
Implicit Types d : vdev Hd.

Definition set_vd_status (v : Z) d : vdev Hd :=
  VDev v (vd_isr d) (vd_queue_sel d) (vd_guest_features d) (vd_config_len d) (vd_config d)
    (vd_config_vector d) (vd_vq d) (vd_handlers d) (vd_vm_running d) (vd_irqs d).
Definition set_vd_isr (v : Z) d : vdev Hd :=
  VDev (vd_status d) v (vd_queue_sel d) (vd_guest_features d) (vd_config_len d) (vd_config d)
    (vd_config_vector d) (vd_vq d) (vd_handlers d) (vd_vm_running d) (vd_irqs d).
Definition set_vd_queue_sel (v : Z) d : vdev Hd :=
  VDev (vd_status d) (vd_isr d) v (vd_guest_features d) (vd_config_len d) (vd_config d)
    (vd_config_vector d) (vd_vq d) (vd_handlers d) (vd_vm_running d) (vd_irqs d).
Definition set_vd_guest_features (v : Z) d : vdev Hd :=
  VDev (vd_status d) (vd_isr d) (vd_queue_sel d) v (vd_config_len d) (vd_config d)
    (vd_config_vector d) (vd_vq d) (vd_handlers d) (vd_vm_running d) (vd_irqs d).
Definition set_vd_config (len : Z) (v : bytes) d : vdev Hd :=
  VDev (vd_status d) (vd_isr d) (vd_queue_sel d) (vd_guest_features d) len v
    (vd_config_vector d) (vd_vq d) (vd_handlers d) (vd_vm_running d) (vd_irqs d).
Definition set_vd_config_vector (v : Z) d : vdev Hd :=
  VDev (vd_status d) (vd_isr d) (vd_queue_sel d) (vd_guest_features d) (vd_config_len d) (vd_config d)
    v (vd_vq d) (vd_handlers d) (vd_vm_running d) (vd_irqs d).
Definition set_vd_vq (v : list virtqueue) d : vdev Hd :=
  VDev (vd_status d) (vd_isr d) (vd_queue_sel d) (vd_guest_features d) (vd_config_len d) (vd_config d)
    (vd_config_vector d) v (vd_handlers d) (vd_vm_running d) (vd_irqs d).
Definition set_vd_handlers (v : list (option Hd)) d : vdev Hd :=
  VDev (vd_status d) (vd_isr d) (vd_queue_sel d) (vd_guest_features d) (vd_config_len d) (vd_config d)
    (vd_config_vector d) (vd_vq d) v (vd_vm_running d) (vd_irqs d).
Definition set_vd_vm_running (v : bool) d : vdev Hd :=
  VDev (vd_status d) (vd_isr d) (vd_queue_sel d) (vd_guest_features d) (vd_config_len d) (vd_config d)
    (vd_config_vector d) (vd_vq d) (vd_handlers d) v (vd_irqs d).
Definition add_vd_irq (v : Z) d : vdev Hd :=
  VDev (vd_status d) (vd_isr d) (vd_queue_sel d) (vd_guest_features d) (vd_config_len d) (vd_config d)
    (vd_config_vector d) (vd_vq d) (vd_handlers d) (vd_vm_running d) (vd_irqs d ++ [v]).
End Setters.

Definition set_vq_vector (v : Z) (q : virtqueue) : virtqueue :=
  VirtQueue (vq_vring q) (vq_pa q) (vq_last_avail_idx q) (vq_signalled_used q) (vq_signalled_used_valid q)
    (vq_notification q) (vq_inuse q) v.

(** The state of a device that embeds a [struct VirtIODevice]. *)
Class VirtioState (Hd X : Type) := {
  get_vdev : X -> vdev Hd;
  put_vdev : vdev Hd -> X -> X;
  get_put_vdev : forall d x, get_vdev (put_vdev d x) = d;
  put_put_vdev : forall d d' x, put_vdev d (put_vdev d' x) = put_vdev d x;
  put_get_vdev : forall x, put_vdev (get_vdev x) x = x
}.

Section Device.
Context {Hd X : Type} `{!VirtioState Hd X}.

Definition vdev_of : K X (vdev Hd) := x ← getx; mret (get_vdev x).
Definition mod_vdev (f : vdev Hd -> vdev Hd) : K X unit :=
  modx (fun x => put_vdev (f (get_vdev x)) x).

(** [&vdev->vq[n]] *)
Definition vq_at (n : nat) : K X virtqueue :=
  d ← vdev_of;
  match vd_vq d !! n with Some q => mret q | None => crashed OutOfBounds end.
Definition mod_vq (n : nat) (f : virtqueue -> virtqueue) : K X unit :=
  _ ← vq_at n;
  mod_vdev (fun d => set_vd_vq (alter f n (vd_vq d)) d).

(** Runs the ring code on the queue [n]. *)
Definition on_vq {A} (n : nat) (m : K virtqueue A) : K X A :=
  q ← vq_at n;
  '(a, q) ← on_local q m;
  mod_vdev (fun d => set_vd_vq (<[n := q]> (vd_vq d)) d);;
  mret a.

(** ** Interrupts *)

(** [virtio_notify_vector], with a binding that has [notify]. *)
Definition virtio_notify_vector (vector : Z) : K X unit := mod_vdev (add_vd_irq vector).

Definition virtio_update_irq : K X unit := virtio_notify_vector VIRTIO_NO_VECTOR.

Definition raise_isr (bits : Z) : K X unit :=
  mod_vdev (fun d => set_vd_isr (Z.lor (vd_isr d) bits) d).

(** [virtio_irq] *)
Definition virtio_irq (n : nat) : K X unit :=
  q ← vq_at n;
  raise_isr 1;;
  virtio_notify_vector (vq_vector q).

(** [virtio_notify] *)
Definition virtio_notify (n : nat) : K X unit :=
  d ← vdev_of;
  wanted ← on_vq n (vring_notify (vd_guest_features d));
  if negb wanted then mret tt
  else
    q ← vq_at n;
    raise_isr 1;;
    virtio_notify_vector (vq_vector q).

(** [virtio_notify_config] *)
Definition virtio_notify_config : K X unit :=
  d ← vdev_of;
  if negb (has_flag (vd_status d) VIRTIO_CONFIG_S_DRIVER_OK) then mret tt
  else
    raise_isr 3;;
    virtio_notify_vector (vd_config_vector d).

(** ** The table of queues *)

Definition virtio_queue_set_addr (n : nat) (addr : Z) : K X unit :=
  mod_vq n (set_vq_pa addr);;
  mod_vq n virtqueue_init.
Definition virtio_queue_get_addr (n : nat) : K X Z := q ← vq_at n; mret (vq_pa q).
Definition virtio_queue_get_num (n : nat) : K X Z := q ← vq_at n; mret (vr_num (vq_vring q)).
Definition virtio_queue_vector (n : nat) : K X Z :=
  if Z.of_nat n <? VIRTIO_PCI_QUEUE_MAX then q ← vq_at n; mret (vq_vector q)
  else mret VIRTIO_NO_VECTOR.
Definition virtio_queue_set_vector (n : nat) (vector : Z) : K X unit :=
  if Z.of_nat n <? VIRTIO_PCI_QUEUE_MAX then mod_vq n (set_vq_vector vector) else mret tt.
Definition virtio_queue_get_last_avail_idx (n : nat) : K X Z := q ← vq_at n; mret (vq_last_avail_idx q).
Definition virtio_queue_set_last_avail_idx (n : nat) (idx : Z) : K X unit :=
  mod_vq n (set_vq_last_avail_idx idx).

(** The first queue that is not in use, of at most [VIRTIO_PCI_QUEUE_MAX]. *)
Fixpoint free_queue (l : list virtqueue) : nat :=
  match l with
  | [] => O
  | q :: l' => if vr_num (vq_vring q) =? 0 then O else S (free_queue l')
  end.

(** [virtio_add_queue]: the number of the new queue. *)
Definition virtio_add_queue (queue_size : Z) (handle_output : Hd) : K X nat :=
  d ← vdev_of;
  let i := free_queue (vd_vq d) in
  if (Z.of_nat i =? VIRTIO_PCI_QUEUE_MAX) || (VIRTQUEUE_MAX_SIZE <? queue_size) then crashed Exited
  else
    mod_vq i (fun q => set_vq_vring (VRing queue_size (vr_desc (vq_vring q)) (vr_avail (vq_vring q))
                                       (vr_used (vq_vring q))) q);;
    mod_vdev (fun d => set_vd_handlers (<[i := Some handle_output]> (vd_handlers d)) d);;
    mret i.
End Device.

(** [virtio_common_init]: the device as allocated. *)
Definition virtqueue_zero : virtqueue := VirtQueue (VRing 0 0 0 0) 0 0 0 false false 0 VIRTIO_NO_VECTOR.
Definition virtio_common_init {Hd} (config_size : Z) (running : bool) : vdev Hd :=
  VDev 0 0 0 0 config_size (replicate (Z.to_nat config_size) 0) VIRTIO_NO_VECTOR
    (replicate (Z.to_nat VIRTIO_PCI_QUEUE_MAX) virtqueue_zero)
    (replicate (Z.to_nat VIRTIO_PCI_QUEUE_MAX) None) running [].

(** ** Callbacks *)

(** The callbacks of [struct VirtIODevice], and [binding->get_features] and
    [binding->vmstate_change]; [cb_get_config] gives what is copied into the
    buffer, and an absent callback is [None]. *)
Class VirtioCallbacks (Hd X : Type) `{!VirtioState Hd X} := {
  cb_handle_output : Hd -> nat -> K X unit;
  cb_get_config : K X bytes;
  cb_set_config : option (bytes -> K X unit);
  cb_set_features : option (Z -> K X unit);
  cb_set_status : option (Z -> K X unit);
  cb_reset : option (K X unit);
  binding_get_features : K X Z;
  binding_vmstate_change : option (bool -> K X unit)
}.

Section Callbacks.
Context {Hd X : Type} `{!VirtioState Hd X, !VirtioCallbacks Hd X}.

(** [if (vdev->f) vdev->f(...)] *)
Definition call_if {A} (f : option (A -> K X unit)) (a : A) : K X unit :=
  match f with Some g => g a | None => mret tt end.

(** [virtio_queue_notify_vq] and [virtio_queue_notify]: the guest kicks the
    queue [n]. *)
Definition virtio_queue_notify (n : nat) : K X unit :=
  q ← vq_at n;
  if vr_desc (vq_vring q) =? 0 then mret tt
  else
    d ← vdev_of;
    match vd_handlers d !! n with
    | Some (Some h) => cb_handle_output h n
    | _ => crashed NullDeref
    end.

(** [virtio_set_status] *)
Definition virtio_set_status (val : Z) : K X unit :=
  call_if cb_set_status val;;
  mod_vdev (set_vd_status val).

(** What [virtio_reset] leaves of a queue; [inuse] keeps its value. *)
Definition reset_queue (q : virtqueue) : virtqueue :=
  VirtQueue (VRing (vr_num (vq_vring q)) 0 0 0) 0 0 0 false true (vq_inuse q) VIRTIO_NO_VECTOR.

(** [virtio_reset] *)
Definition virtio_reset : K X unit :=
  virtio_set_status 0;;
  match cb_reset with Some f => f | None => mret tt end;;
  mod_vdev (fun d => set_vd_config_vector VIRTIO_NO_VECTOR
    (set_vd_isr 0 (set_vd_status 0 (set_vd_queue_sel 0 (set_vd_guest_features 0 d)))));;
  virtio_notify_vector VIRTIO_NO_VECTOR;;
  mod_vdev (fun d => set_vd_vq (reset_queue <$> vd_vq d) d).

(** [virtio_set_features] *)
Definition virtio_set_features (val : Z) : K X Z :=
  supported ← binding_get_features;
  let bad := negb (Z.ldiff val supported =? 0) in
  let val := Z.land val supported in
  call_if cb_set_features val;;
  mod_vdev (set_vd_guest_features val);;
  mret (if bad then -1 else 0).

(** [virtio_vmstate_change] *)
Definition virtio_vmstate_change (running : bool) : K X unit :=
  d ← vdev_of;
  let backend_run := running && has_flag (vd_status d) VIRTIO_CONFIG_S_DRIVER_OK in
  mod_vdev (set_vd_vm_running running);;
  (if backend_run then virtio_set_status (vd_status d) else mret tt);;
  call_if binding_vmstate_change backend_run;;
  if negb backend_run then d ← vdev_of; virtio_set_status (vd_status d) else mret tt.

(** ** The configuration space *)

(** [vdev->get_config(vdev, vdev->config)] *)
Definition get_config_now : K X unit :=
  bs ← cb_get_config;
  d ← vdev_of;
  if (length (vd_config d) <? length bs)%nat then crashed OutOfBounds
  else mod_vdev (set_vd_config (vd_config_len d) (bs ++ drop (length bs) (vd_config d))).

(** [virtio_config_readb], [virtio_config_readw] and [virtio_config_readl],
    for [n] bytes. *)
Definition virtio_config_read (n : nat) (addr : Z) : K X Z :=
  get_config_now;;
  d ← vdev_of;
  if u64 (vd_config_len d - Z.of_nat n) <? addr then mret (u32 (-1))
  else if Z.of_nat (length (vd_config d)) <? addr + Z.of_nat n then crashed OutOfBounds
  else mret (le_val (take n (drop (Z.to_nat addr) (vd_config d)))).

(** [virtio_config_writeb], [virtio_config_writew] and [virtio_config_writel],
    for [n] bytes. *)
Definition virtio_config_write (n : nat) (addr data : Z) : K X unit :=
  d ← vdev_of;
  if u64 (vd_config_len d - Z.of_nat n) <? addr then mret tt
  else if Z.of_nat (length (vd_config d)) <? addr + Z.of_nat n then crashed OutOfBounds
  else
    mod_vdev (set_vd_config (vd_config_len d)
      (take (Z.to_nat addr) (vd_config d) ++ le_bytes n data ++ drop (Z.to_nat addr + n) (vd_config d)));;
    d ← vdev_of;
    call_if cb_set_config (vd_config d).

End Callbacks.
