(* ===== verification/VirtioDevFacts.v ===== *)
(** * Facts about virtio devices

    How the ring code runs on a queue of a device, what an interrupt changes,
    where a queue lies once the guest has placed it, and what the device answers
    to the guest's accesses to features and configuration. *)
From stdpp Require Import base gmap gmultiset list strings numbers.
From S2P Require Import Prelude Kernel KernelFacts Vring VringFacts RingFacts VirtioDev.
Open Scope Z_scope.

Implicit Types (e : env) (q : virtqueue).

Lemma alter_insert_lookup {A} (f : A -> A) i (l : list A) a : l !! i = Some a -> alter f i l = <[i := f a]> l.
Proof. revert i. induction l as [|b l IH]; intros [|i] E; simplify_eq/=; [done|]. f_equal. by apply IH. Qed.

(** ** The layout of a ring *)

Lemma vring_align_spec a : 0 <= a -> a + 4095 < 2 ^ 64 ->
  vring_align a VIRTIO_PCI_VRING_ALIGN mod 4096 = 0 /\ a <= vring_align a VIRTIO_PCI_VRING_ALIGN < a + 4096.
Proof.
  intros H0 H1. unfold vring_align, VIRTIO_PCI_VRING_ALIGN. rewrite u64_small by lia.
  change (4096 - 1) with (Z.ones 12). rewrite Z.ldiff_ones_r, Z.shiftl_mul_pow2, Z.shiftr_div_pow2 by lia.
  change (2 ^ 12) with 4096. rewrite Z_mod_mult. Z.to_euclidean_division_equations; lia.
Qed.

Lemma init_layout addr q :
  0 < vr_num (vq_vring q) <= VIRTQUEUE_MAX_SIZE -> vr_num (vq_vring q) mod 4 = 0 ->
  0 < addr -> addr mod VIRTIO_PCI_VRING_ALIGN = 0 -> addr + 2 ^ 15 <= 2 ^ 64 ->
  let num := vr_num (vq_vring q) in
  let r := vq_vring (virtqueue_init (set_vq_pa addr q)) in
  vr_avail r = addr + 16 * num /\ vr_avail r + 6 + 2 * num <= vr_used r /\
  vr_used r <= addr + 18 * num + 4 + 4096 /\ vr_used r mod VIRTIO_PCI_VRING_ALIGN = 0.
Proof.
  intros Hn H4 H0 Hal Htop num r. fold num in Hn, H4. unfold VIRTQUEUE_MAX_SIZE in Hn.
  assert (Ea : vr_avail r = addr + 16 * num).
  { subst r. cbn -[u64]. unfold sizeof_VRingDesc. fold num. rewrite u64_small; lia. }
  assert (Eu : vr_used r = vring_align (addr + 18 * num + 4) VIRTIO_PCI_VRING_ALIGN).
  { change (vr_used r) with (vring_align (u64 (vr_avail r + (4 + 2 * num))) VIRTIO_PCI_VRING_ALIGN).
    rewrite Ea, u64_small by lia. f_equal. lia. }
  destruct (vring_align_spec (addr + 18 * num + 4)) as [Hm Hb]; [lia..|]. rewrite <- Eu in Hm, Hb.
  unfold VIRTIO_PCI_VRING_ALIGN in *. split_and!; [done| |lia|done].
  rewrite Ea. Z.to_euclidean_division_equations; lia.
Qed.

Section Queues.
Context {Hd X : Type} `{!VirtioState Hd X}.
Implicit Types (x : X) (d : vdev Hd).

(** The device with the queue [n] replaced. *)
Definition upd_vq (n : nat) q x : X := put_vdev (set_vd_vq (<[n := q]> (vd_vq (get_vdev x))) (get_vdev x)) x.
Definition vq_is (n : nat) x q : Prop := vd_vq (get_vdev x) !! n = Some q.

Lemma vq_at_spec n e x q : vq_is n x q -> vq_at n (e, x) = Done q (e, x).
Proof. intros Hq. unfold vq_at, vdev_of, mbind, M_bind. cbn [getx snd mret M_ret]. by rewrite Hq. Qed.

Lemma on_vq_wpe {A} n (m : K virtqueue A) (Q : A -> env * X -> Prop) e x q :
  vq_is n x q -> wpe m (fun a s => Q a (s.1, upd_vq n s.2 x)) (e, q) -> wpe (on_vq n m) Q (e, x).
Proof.
  intros Hq Hm. unfold on_vq. apply wpe_bind. eapply wpe_eq; [by apply vq_at_spec|]. apply wpe_bind.
  unfold wpe, on_local. cbn [fst snd]. unfold wpe in Hm. by destruct (m (e, q)) as [a [e' q']|].
Qed.

Lemma on_vq_done {A} n (m : K virtqueue A) e x q a e' q' :
  vq_is n x q -> m (e, q) = Done a (e', q') -> on_vq n m (e, x) = Done a (e', upd_vq n q' x).
Proof.
  intros Hq Hm. unfold on_vq. etrans; [by eapply bind_done, vq_at_spec|].
  unfold mbind, M_bind, on_local. cbn [fst snd]. by rewrite Hm.
Qed.

Lemma upd_vq_is n q x q0 : vq_is n x q0 -> vq_is n (upd_vq n q x) q.
Proof.
  intros Hq%lookup_lt_Some. unfold vq_is, upd_vq. rewrite get_put_vdev.
  cbn [vd_vq set_vd_vq]. by rewrite list_lookup_insert_eq.
Qed.
Lemma upd_vq_ne n k q x q0 : n <> k -> vq_is k x q0 -> vq_is k (upd_vq n q x) q0.
Proof. intros. unfold vq_is, upd_vq. rewrite get_put_vdev. cbn [vd_vq set_vd_vq]. by rewrite list_lookup_insert_ne. Qed.
Lemma upd_vq_twice n q q' x : upd_vq n q (upd_vq n q' x) = upd_vq n q x.
Proof.
  unfold upd_vq. rewrite get_put_vdev, put_put_vdev. cbn [vd_vq set_vd_vq]. by rewrite list_insert_insert_eq.
Qed.
Lemma upd_vq_same n q x : vq_is n x q -> upd_vq n q x = x.
Proof.
  intros Hq. unfold upd_vq. rewrite list_insert_id by done. etrans; [|apply put_get_vdev]. f_equal.
  by destruct (get_vdev x).
Qed.
Lemma upd_vq_features n q x : vd_guest_features (get_vdev (upd_vq n q x)) = vd_guest_features (get_vdev x).
Proof. unfold upd_vq. by rewrite get_put_vdev. Qed.

(** ** Interrupts *)

(** What telling the guest changes of a queue. *)
Definition same_ring q q' : Prop :=
  vq_vring q' = vq_vring q /\ vq_pa q' = vq_pa q /\ vq_last_avail_idx q' = vq_last_avail_idx q /\
  vq_notification q' = vq_notification q /\ vq_inuse q' = vq_inuse q /\ vq_vector q' = vq_vector q.

Lemma vring_notify_spec features e q :
  exists wanted q', vring_notify features (e, q) = Done wanted (e, q') /\ same_ring q q'.
Proof.
  unfold vring_notify, mbind, M_bind. cbn [getx snd mret M_ret]. rewrite avail_idx_spec.
  destruct (_ && _ && _); [by eexists _, _|]. destruct (negb _); [by eexists _, _|].
  rewrite used_idx_spec. by eexists _, _.
Qed.

(** The device after [virtio_notify], with the interrupt if it was wanted. *)
Definition notified (n : nat) (wanted : bool) q d : vdev Hd :=
  let d1 := set_vd_vq (<[n := q]> (vd_vq d)) d in
  if wanted then add_vd_irq (vq_vector q) (set_vd_isr (Z.lor (vd_isr d) 1) d1) else d1.

Lemma notify_spec n e x q :
  vq_is n x q ->
  exists wanted q', same_ring q q' /\
    virtio_notify n (e, x) = Done tt (e, put_vdev (notified n wanted q' (get_vdev x)) x).
Proof.
  intros Hq. destruct (vring_notify_spec (vd_guest_features (get_vdev x)) e q) as (w & q' & E & Hs).
  exists w, q'. split; [done|]. unfold virtio_notify. etrans; [by eapply bind_done|].
  etrans; [by eapply bind_done, on_vq_done|]. destruct w; cbn [negb]; [|done].
  etrans; [by eapply bind_done, vq_at_spec, upd_vq_is|].
  unfold mbind, M_bind, raise_isr, virtio_notify_vector, mod_vdev, modx, notified, upd_vq. cbn [fst snd].
  by rewrite !get_put_vdev, !put_put_vdev.
Qed.

(** ** What running a queue touches *)

Definition set_irqs (isr : Z) (irqs : list Z) d : vdev Hd :=
  VDev (vd_status d) isr (vd_queue_sel d) (vd_guest_features d) (vd_config_len d) (vd_config d)
    (vd_config_vector d) (vd_vq d) (vd_handlers d) (vd_vm_running d) irqs.

(** Of [x], only the queue [n] and the interrupts have changed in [x']. *)
Definition touched (n : nat) x x' q : Prop :=
  exists isr irqs, x' = put_vdev (set_irqs isr irqs (set_vd_vq (<[n := q]> (vd_vq (get_vdev x))) (get_vdev x))) x.

Lemma touched_refl n x q : vq_is n x q -> touched n x x q.
Proof.
  intros Hq. exists (vd_isr (get_vdev x)), (vd_irqs (get_vdev x)). rewrite list_insert_id by done.
  rewrite <- (put_get_vdev x) at 1. f_equal. by destruct (get_vdev x).
Qed.
Lemma touched_is n x x' q q0 : vq_is n x q0 -> touched n x x' q -> vq_is n x' q.
Proof.
  intros Hq%lookup_lt_Some (isr & irqs & ->). unfold vq_is. rewrite get_put_vdev. cbn. by rewrite list_lookup_insert_eq.
Qed.
Lemma touched_ne n k x x' q : n <> k -> touched n x x' q -> vd_vq (get_vdev x') !! k = vd_vq (get_vdev x) !! k.
Proof. intros Hk (isr & irqs & ->). rewrite get_put_vdev. cbn. by rewrite list_lookup_insert_ne. Qed.
Lemma touched_upd n x x' q q' : touched n x x' q -> touched n x (upd_vq n q' x') q'.
Proof.
  intros (isr & irqs & ->). exists isr, irqs. unfold upd_vq. rewrite get_put_vdev, put_put_vdev.
  cbn [vd_vq set_vd_vq set_irqs]. by rewrite list_insert_insert_eq.
Qed.
Lemma touched_features n x x' q :
  touched n x x' q -> vd_guest_features (get_vdev x') = vd_guest_features (get_vdev x).
Proof. intros (isr & irqs & ->). by rewrite get_put_vdev. Qed.
Lemma touched_notify n e x x' q q0 :
  vq_is n x q0 -> touched n x x' q ->
  exists x2 q2, virtio_notify n (e, x') = Done tt (e, x2) /\ touched n x x2 q2 /\ same_ring q q2.
Proof.
  intros Hq Ht. destruct (notify_spec n e x' q) as (w & q' & Hs & E); [by eapply touched_is|].
  eexists _, q'. split; [exact E|]. split; [|done]. destruct Ht as (isr & irqs & ->).
  rewrite get_put_vdev, put_put_vdev. unfold notified. cbn. rewrite list_insert_insert_eq.
  destruct w; [by eexists _, _|]. by exists isr, irqs.
Qed.

(** ** Placing a queue *)

Lemma mod_vq_spec n f e x q : vq_is n x q -> mod_vq n f (e, x) = Done tt (e, upd_vq n (f q) x).
Proof.
  intros Hq. unfold mod_vq. etrans; [by eapply bind_done, vq_at_spec|].
  unfold mod_vdev, modx, upd_vq. cbn [fst snd]. unfold vq_is in Hq.
  by rewrite (alter_insert_lookup f n (vd_vq (get_vdev x)) q).
Qed.

(** C31: [virtio_queue_set_addr] puts the three parts of the ring at the given page:
    they lie in the address space, one behind the other, and the used ring,
    which the device writes, starts on a page of its own behind the parts that
    the driver writes, so that neither overwrites what the other owns. *)
Theorem set_addr_placed n addr e x q :
  vq_is n x q -> 0 < vr_num (vq_vring q) <= VIRTQUEUE_MAX_SIZE -> vr_num (vq_vring q) mod 4 = 0 ->
  0 < addr -> addr mod VIRTIO_PCI_VRING_ALIGN = 0 -> addr + 2 ^ 15 <= 2 ^ 64 ->
  exists q', virtio_queue_set_addr n addr (e, x) = Done tt (e, upd_vq n q' x) /\
    ring_ok q' /\ vr_num (vq_vring q') = vr_num (vq_vring q) /\ vq_pa q' = addr /\
    vr_desc (vq_vring q') = addr /\ virtio_queue_ready q' = true /\
    vr_used (vq_vring q') mod VIRTIO_PCI_VRING_ALIGN = 0 /\
    (forall a, driver_zone q' a \/ device_zone q' a -> addr <= a < addr + 2 ^ 15) /\
    vq_last_avail_idx q' = vq_last_avail_idx q /\ vq_inuse q' = vq_inuse q.
Proof.
  intros Hq Hn H4 H0 Hal Htop. set (q1 := virtqueue_init (set_vq_pa addr q)).
  exists q1. split.
  { unfold virtio_queue_set_addr. etrans; [by eapply bind_done, mod_vq_spec|].
    etrans; [by eapply mod_vq_spec, upd_vq_is|]. by rewrite upd_vq_twice. }
  destruct (init_layout addr q Hn H4 H0 Hal Htop) as (Ea & Eu & Hu & Hum). fold q1 in Ea, Eu, Hu, Hum.
  assert (Ed : vr_desc (vq_vring q1) = addr) by done.
  assert (En : vr_num (vq_vring q1) = vr_num (vq_vring q)) by done.
  unfold VIRTQUEUE_MAX_SIZE in Hn. split_and!; try done.
  - split; [split; rewrite ?En, ?Ed; lia|]. unfold driver_zone, desc_zone, avail_zone, device_zone, zone. lia.
  - unfold virtio_queue_ready. rewrite (proj2 (Z.eqb_neq _ _)) by lia. done.
  - intros a. unfold driver_zone, desc_zone, avail_zone, device_zone, zone. lia.
Qed.
End Queues.
