(* ===== verification/Bus.v ===== *)
(** * The serial bus of QEMU

    [sgerag_virtio_crypto/qemu/virtio-serial-bus.c]: the virtio device that
    carries ports, its control channel, and the data path between the queues of
    a port and the device behind it.  A port is named by its address; the
    callbacks of [VirtIOSerialPortClass] are the class [PortClass], and [B] is
    the state the devices behind the ports have of their own. *)
From stdpp Require Import base gmap gmultiset list strings numbers.
From S2P Require Import Prelude Kernel Vring VirtioDev.
Open Scope Z_scope.

Definition VIRTIO_CONSOLE_F_MULTIPORT : Z := 1.
Definition VIRTIO_CONSOLE_BAD_ID : Z := 2 ^ 32 - 1.
Definition VIRTIO_CONSOLE_DEVICE_READY : Z := 0.
Definition VIRTIO_CONSOLE_PORT_ADD : Z := 1.
Definition VIRTIO_CONSOLE_PORT_REMOVE : Z := 2.
Definition VIRTIO_CONSOLE_PORT_READY : Z := 3.
Definition VIRTIO_CONSOLE_CONSOLE_PORT : Z := 4.
Definition VIRTIO_CONSOLE_PORT_OPEN : Z := 6.
Definition VIRTIO_CONSOLE_PORT_NAME : Z := 7.

(** [struct virtio_console_control] *)
Record virtio_console_control := Cpkt { cp_id : Z; cp_event : Z; cp_value : Z }.
Definition sizeof_cpkt : Z := 8.
Definition encode_cpkt (c : virtio_console_control) : bytes :=
  le_bytes 4 (cp_id c) ++ le_bytes 2 (cp_event c) ++ le_bytes 2 (cp_value c).
Definition decode_cpkt (b : bytes) : virtio_console_control :=
  Cpkt (le_val (take 4 b)) (le_val (take 2 (drop 4 b))) (le_val (take 2 (drop 6 b))).

(** The [handle_output] callbacks of the queues. *)
Inductive queue_handler := HandleInput | HandleOutput | ControlIn | ControlOut.

(** [struct VirtIOSerialPort] with the [VirtConsole] around it: [sp_is_console]
    belongs to its class, [sp_chr] tells whether it has a character device,
    [sp_bh] whether its bottom half is scheduled. *)
Record sport := SPort {
  sp_addr : Z; sp_ivq : nat; sp_ovq : nat; sp_name : option bytes; sp_id : Z;
  sp_elem : virtqueue_element; sp_iov_idx : nat; sp_iov_offset : Z; sp_bh : bool;
  sp_guest_connected : bool; sp_host_connected : bool; sp_throttled : bool;
  sp_cr_info : Z; sp_is_console : bool; sp_chr : bool }.

Definition set_sp_queues (i o : nat) (p : sport) : sport :=
  SPort (sp_addr p) i o (sp_name p) (sp_id p) (sp_elem p) (sp_iov_idx p) (sp_iov_offset p) (sp_bh p)
    (sp_guest_connected p) (sp_host_connected p) (sp_throttled p) (sp_cr_info p) (sp_is_console p) (sp_chr p).
Definition set_sp_id (v : Z) (p : sport) : sport :=
  SPort (sp_addr p) (sp_ivq p) (sp_ovq p) (sp_name p) v (sp_elem p) (sp_iov_idx p) (sp_iov_offset p) (sp_bh p)
    (sp_guest_connected p) (sp_host_connected p) (sp_throttled p) (sp_cr_info p) (sp_is_console p) (sp_chr p).
Definition set_sp_elem (v : virtqueue_element) (p : sport) : sport :=
  SPort (sp_addr p) (sp_ivq p) (sp_ovq p) (sp_name p) (sp_id p) v (sp_iov_idx p) (sp_iov_offset p) (sp_bh p)
    (sp_guest_connected p) (sp_host_connected p) (sp_throttled p) (sp_cr_info p) (sp_is_console p) (sp_chr p).
Definition set_sp_iov (i : nat) (o : Z) (p : sport) : sport :=
  SPort (sp_addr p) (sp_ivq p) (sp_ovq p) (sp_name p) (sp_id p) (sp_elem p) i o (sp_bh p)
    (sp_guest_connected p) (sp_host_connected p) (sp_throttled p) (sp_cr_info p) (sp_is_console p) (sp_chr p).
Definition set_sp_bh (v : bool) (p : sport) : sport :=
  SPort (sp_addr p) (sp_ivq p) (sp_ovq p) (sp_name p) (sp_id p) (sp_elem p) (sp_iov_idx p) (sp_iov_offset p) v
    (sp_guest_connected p) (sp_host_connected p) (sp_throttled p) (sp_cr_info p) (sp_is_console p) (sp_chr p).
Definition set_sp_guest_connected (v : bool) (p : sport) : sport :=
  SPort (sp_addr p) (sp_ivq p) (sp_ovq p) (sp_name p) (sp_id p) (sp_elem p) (sp_iov_idx p) (sp_iov_offset p) (sp_bh p)
    v (sp_host_connected p) (sp_throttled p) (sp_cr_info p) (sp_is_console p) (sp_chr p).
Definition set_sp_host_connected (v : bool) (p : sport) : sport :=
  SPort (sp_addr p) (sp_ivq p) (sp_ovq p) (sp_name p) (sp_id p) (sp_elem p) (sp_iov_idx p) (sp_iov_offset p) (sp_bh p)
    (sp_guest_connected p) v (sp_throttled p) (sp_cr_info p) (sp_is_console p) (sp_chr p).
Definition set_sp_throttled (v : bool) (p : sport) : sport :=
  SPort (sp_addr p) (sp_ivq p) (sp_ovq p) (sp_name p) (sp_id p) (sp_elem p) (sp_iov_idx p) (sp_iov_offset p) (sp_bh p)
    (sp_guest_connected p) (sp_host_connected p) v (sp_cr_info p) (sp_is_console p) (sp_chr p).
Definition set_sp_cr_info (v : Z) (p : sport) : sport :=
  SPort (sp_addr p) (sp_ivq p) (sp_ovq p) (sp_name p) (sp_id p) (sp_elem p) (sp_iov_idx p) (sp_iov_offset p) (sp_bh p)
    (sp_guest_connected p) (sp_host_connected p) (sp_throttled p) v (sp_is_console p) (sp_chr p).

(** [port->elem.out_num = 0] *)
Definition clear_out (p : sport) : sport :=
  set_sp_elem (VQElem (el_index (sp_elem p)) (el_in (sp_elem p)) []) p.

(** [struct virtio_console_config] *)
Record console_config := CConfig { cf_cols : Z; cf_rows : Z; cf_max_nr_ports : Z }.
Definition encode_config (c : console_config) : bytes :=
  le_bytes 2 (cf_cols c) ++ le_bytes 2 (cf_rows c) ++ le_bytes 4 (cf_max_nr_ports c).

(** [struct VirtIOSerial]; queues are named by their number. *)
Record vser (B : Type) := VSer {
  vs_vdev : vdev queue_handler;
  vs_c_ivq : nat; vs_c_ovq : nat; vs_ivqs : list nat; vs_ovqs : list nat;
  vs_max_nr_ports : Z; vs_ports : list sport; vs_ports_map : list Z;
  vs_config : console_config; vs_host : B }.
Arguments VSer {B}.
Arguments vs_vdev {B}.
Arguments vs_c_ivq {B}.
Arguments vs_c_ovq {B}.
Arguments vs_ivqs {B}.
Arguments vs_ovqs {B}.
Arguments vs_max_nr_ports {B}.
Arguments vs_ports {B}.
Arguments vs_ports_map {B}.
Arguments vs_config {B}.
Arguments vs_host {B}.

Section Bus.
Context {B : Type}.
Implicit Types v : vser B.

Definition set_vs_vdev (d : vdev queue_handler) v : vser B :=
  VSer d (vs_c_ivq v) (vs_c_ovq v) (vs_ivqs v) (vs_ovqs v) (vs_max_nr_ports v) (vs_ports v)
    (vs_ports_map v) (vs_config v) (vs_host v).
Definition set_vs_queues (ci co : nat) (i o : list nat) v : vser B :=
  VSer (vs_vdev v) ci co i o (vs_max_nr_ports v) (vs_ports v) (vs_ports_map v) (vs_config v) (vs_host v).
Definition set_vs_ports (l : list sport) v : vser B :=
  VSer (vs_vdev v) (vs_c_ivq v) (vs_c_ovq v) (vs_ivqs v) (vs_ovqs v) (vs_max_nr_ports v) l
    (vs_ports_map v) (vs_config v) (vs_host v).
Definition set_vs_ports_map (l : list Z) v : vser B :=
  VSer (vs_vdev v) (vs_c_ivq v) (vs_c_ovq v) (vs_ivqs v) (vs_ovqs v) (vs_max_nr_ports v) (vs_ports v)
    l (vs_config v) (vs_host v).
Definition set_vs_host (h : B) v : vser B :=
  VSer (vs_vdev v) (vs_c_ivq v) (vs_c_ovq v) (vs_ivqs v) (vs_ovqs v) (vs_max_nr_ports v) (vs_ports v)
    (vs_ports_map v) (vs_config v) h.

Global Instance vser_virtio : VirtioState queue_handler (vser B).
Proof.
  refine {| get_vdev := vs_vdev; put_vdev := set_vs_vdev |}; [done|done|by intros []].
Defined.

(** Runs code of the devices behind the ports on their state. *)
Definition on_host {A} (m : K B A) : K (vser B) A :=
  v ← getx;
  '(a, h) ← on_local (vs_host v) m;
  modx (set_vs_host h);;
  mret a.

(** ** Ports *)

(** Access through a pointer to a port. *)
Definition find_port (a : Z) (l : list sport) : option sport := find (fun p => sp_addr p =? a) l.
Definition port_at (a : Z) : K (vser B) sport :=
  v ← getx;
  match find_port a (vs_ports v) with Some p => mret p | None => crashed UseAfterFree end.
Definition upd_port (a : Z) (f : sport -> sport) (l : list sport) : list sport :=
  (fun p => if sp_addr p =? a then f p else p) <$> l.
Definition mod_port (a : Z) (f : sport -> sport) : K (vser B) unit :=
  _ ← port_at a;
  modx (fun v => set_vs_ports (upd_port a f (vs_ports v)) v).

(** [find_port_by_id] *)
Definition find_port_by_id (id : Z) (l : list sport) : option sport :=
  if id =? VIRTIO_CONSOLE_BAD_ID then None else find (fun p => sp_id p =? id) l.

(** [find_port_by_vq] *)
Definition find_port_by_vq (vq : nat) (l : list sport) : option sport :=
  find (fun p => bool_decide (sp_ivq p = vq) || bool_decide (sp_ovq p = vq)) l.

(** [use_multiport] *)
Definition use_multiport v : bool :=
  has_feature (vd_guest_features (vs_vdev v)) VIRTIO_CONSOLE_F_MULTIPORT.

(** ** To the guest *)

Section Map.
Variable map_ok : Z -> Z -> bool -> bool.

(** [virtqueue_pop] and [virtqueue_push] on the queue [vq]. *)
Definition vq_pop (vq : nat) : K (vser B) (option virtqueue_element) :=
  d ← vdev_of;
  on_vq vq (virtqueue_pop map_ok (vd_guest_features d)).
Definition vq_push (vq : nat) (elem : virtqueue_element) (len : Z) : K (vser B) unit :=
  on_vq vq (virtqueue_push elem len).

(** A round of the loop of [write_to_port], which has written [offset] of the
    [size] bytes at [buf]. *)
Definition write_round (vq : nat) (buf size offset : Z) : K (vser B) (Z + Z) :=
  if negb (offset <? size) then mret (inr offset)
  else
    o ← vq_pop vq;
    match o with
    | None => mret (inr offset)
    | Some elem =>
        len ← iov_from_buf (el_in elem) 0 (buf + offset) (size - offset);
        vq_push vq elem len;;
        mret (inl (offset + len))
    end.

(** [write_to_port] *)
Definition write_to_port (a buf size : Z) : K (vser B) Z :=
  p ← port_at a;
  q ← vq_at (sp_ivq p);
  if negb (virtio_queue_ready q) then mret 0
  else
    offset ← while_loop (write_round (sp_ivq p) buf size) 0;
    virtio_notify (sp_ivq p);;
    mret offset.

(** [discard_vq_data] *)
Definition discard_round (vq : nat) (_ : unit) : K (vser B) (unit + unit) :=
  o ← vq_pop vq;
  match o with
  | None => mret (inr tt)
  | Some elem => vq_push vq elem 0;; mret (inl tt)
  end.
Definition discard_vq_data (vq : nat) : K (vser B) unit :=
  q ← vq_at vq;
  if negb (virtio_queue_ready q) then mret tt
  else
    while_loop (discard_round vq) tt;;
    virtio_notify vq.

(** [send_control_msg] of the port [id]: the packet goes to the first buffer of
    the next element, whose size is not looked at. *)
Definition send_control_msg (id : Z) (buf : bytes) : K (vser B) Z :=
  v ← getx;
  let vq := vs_c_ivq v in
  q ← vq_at vq;
  if negb (virtio_queue_ready q) then mret 0
  else
    o ← vq_pop vq;
    match o with
    | None => mret 0
    | Some elem =>
        let len := Z.of_nat (length buf) in
        match el_in elem with
        | (base, room) :: _ =>
            if room <? len then crashed OutOfBounds
            else
              mode (set_mem (pokes (seqZ base len) (le_bytes 4 id ++ drop 4 buf)));;
              vq_push vq elem len;;
              virtio_notify vq;;
              mret len
        | [] => crashed OutOfBounds
        end
    end.

(** [send_control_event] *)
Definition send_control_event (id event value : Z) : K (vser B) Z :=
  e ← gete;
  send_control_msg id (encode_cpkt (Cpkt (e_junk e) event value)).

(** [virtio_serial_open], [virtio_serial_close] and [virtio_serial_write] *)
Definition virtio_serial_open (a : Z) : K (vser B) Z :=
  p ← port_at a;
  if sp_host_connected p then mret 0
  else
    mod_port a (set_sp_host_connected true);;
    send_control_event (sp_id p) VIRTIO_CONSOLE_PORT_OPEN 1;;
    mret 0.

Definition virtio_serial_close (a : Z) : K (vser B) Z :=
  mod_port a (set_sp_host_connected false);;
  mod_port a (set_sp_throttled false);;
  p ← port_at a;
  discard_vq_data (sp_ovq p);;
  send_control_event (sp_id p) VIRTIO_CONSOLE_PORT_OPEN 0;;
  mret 0.

Definition virtio_serial_write (a buf size : Z) : K (vser B) Z :=
  if a =? 0 then mret 0
  else
    p ← port_at a;
    if negb (sp_host_connected p) || negb (sp_guest_connected p) then mret 0
    else write_to_port a buf size.

(** [virtio_serial_guest_ready]: how much the guest can receive. *)
Definition virtio_serial_guest_ready (a : Z) : K (vser B) Z :=
  p ← port_at a;
  v ← getx;
  q ← vq_at (sp_ivq p);
  if negb (virtio_queue_ready q) || negb (has_flag (vd_status (vs_vdev v)) VIRTIO_CONFIG_S_DRIVER_OK)
  then mret 0
  else
    empty ← on_vq (sp_ivq p) virtio_queue_empty;
    if empty : bool then mret 0
    else if use_multiport v && negb (sp_guest_connected p) then mret 0
    else
      big ← on_vq (sp_ivq p) (virtqueue_avail_bytes 4096 0);
      if big : bool then mret 4096
      else
        some ← on_vq (sp_ivq p) (virtqueue_avail_bytes 1 0);
        mret (if some : bool then 1 else 0).

(** [virtio_serial_throttle_port] *)
Definition virtio_serial_throttle_port (a : Z) (throttle : bool) : K (vser B) unit :=
  if a =? 0 then mret tt
  else
    mod_port a (set_sp_throttled throttle);;
    if throttle then mret tt else mod_port a (set_sp_bh true).

(** ** Port numbers *)

(** [ffs] of a 32-bit word: one more than the lowest bit that is set, or 0. *)
Definition ffs (w : Z) : Z :=
  match find (fun i => Z.testbit w i) (seqZ 0 32) with Some i => i + 1 | None => 0 end.

(** [find_free_port_id], from the word [i] of the map on. *)
Fixpoint free_id_from (map : list Z) (i : Z) : Z :=
  match map with
  | [] => VIRTIO_CONSOLE_BAD_ID
  | w :: map' =>
      let bit := ffs (Z.ldiff (2 ^ 32 - 1) w) in
      if negb (bit =? 0) then u32 (bit - 1 + i * 32) else free_id_from map' (i + 1)
  end.
Definition find_free_port_id v : Z :=
  free_id_from (take (Z.to_nat ((cf_max_nr_ports (vs_config v) + 31) / 32)) (vs_ports_map v)) 0.

(** The update of the word of the map that holds the bit of a port. *)
Definition mod_ports_map (port_id : Z) (f : Z -> Z) : K (vser B) unit :=
  v ← getx;
  let i := Z.to_nat (port_id / 32) in
  if (i <? length (vs_ports_map v))%nat
  then modx (set_vs_ports_map (alter f i (vs_ports_map v)))
  else crashed OutOfBounds.

(** [mark_port_added] *)
Definition mark_port_added (port_id : Z) : K (vser B) unit :=
  mod_ports_map port_id (fun w => Z.setbit w (port_id mod 32)).

(** [add_port]: the port is in the list already. *)
Definition add_port (port_id : Z) : K (vser B) unit :=
  mark_port_added port_id;;
  v ← getx;
  match find_port_by_id port_id (vs_ports v) with
  | Some p => send_control_event (sp_id p) VIRTIO_CONSOLE_PORT_ADD 1;; mret tt
  | None => crashed NullDeref
  end.

(** [remove_port] *)
Definition remove_port (port_id : Z) : K (vser B) unit :=
  mod_ports_map port_id (fun w => Z.clearbit w (port_id mod 32));;
  v ← getx;
  match find_port_by_id port_id (vs_ports v) with
  | Some p =>
      discard_vq_data (sp_ovq p);;
      send_control_event (sp_id p) VIRTIO_CONSOLE_PORT_REMOVE 1;;
      mret tt
  | None => crashed NullDeref
  end.
End Map.
End Bus.

(** ** From the guest *)

(** The callbacks of [VirtIOSerialPortClass]. *)
Class PortClass (B : Type) := {
  port_init : sport -> K (vser B) Z;
  port_exit : option (Z -> K (vser B) unit);
  port_guest_open : option (Z -> K (vser B) unit);
  port_guest_close : option (Z -> K (vser B) unit);
  port_guest_ready : option (Z -> K (vser B) unit);
  port_have_data : Z -> Z -> Z -> K (vser B) Z
}.

Section Dispatch.
Context {B : Type} `{!PortClass B}.
Variable map_ok : Z -> Z -> bool -> bool.
Implicit Types v : vser B.

Definition call_port (f : option (Z -> K (vser B) unit)) (a : Z) : K (vser B) unit :=
  match f with Some g => g a | None => mret tt end.

(** The [for] loop of [do_flush_queued_data], from the buffer [i] of the
    element on, of which [sgs] are left. *)
Fixpoint flush_elem (a : Z) (i : nat) (sgs : list iovec) : K (vser B) unit :=
  match sgs with
  | [] => mret tt
  | (base, len) :: sgs' =>
      p ← port_at a;
      let buf_size := u64 (len - sp_iov_offset p) in
      ret ← port_have_data a (base + sp_iov_offset p) buf_size;
      if (ret <? 0) && negb (ret =? - EAGAIN) then crashed Exited
      else if (ret =? - EAGAIN) || (0 <=? ret) && (ret <? buf_size) then
        p ← port_at a;
        mod_port a (set_sp_iov i (if 0 <? ret then u64 (sp_iov_offset p + ret) else sp_iov_offset p))
      else
        mod_port a (fun p => set_sp_iov (sp_iov_idx p) 0 p);;
        flush_elem a (S i) sgs'
  end.

(** A round of the [while] loop of [do_flush_queued_data]. *)
Definition flush_round (a : Z) (vq : nat) (_ : unit) : K (vser B) (unit + unit) :=
  p ← port_at a;
  if sp_throttled p then mret (inr tt)
  else
    more ← (match el_out (sp_elem p) with
            | [] =>
                o ← vq_pop map_ok vq;
                match o with
                | None => mret false
                | Some elem =>
                    mod_port a (fun p => set_sp_iov 0 0 (set_sp_elem elem p));;
                    mret true
                end
            | _ => mret true
            end);
    if negb more then mret (inr tt)
    else
      p ← port_at a;
      flush_elem a (sp_iov_idx p) (drop (sp_iov_idx p) (el_out (sp_elem p)));;
      p ← port_at a;
      if sp_throttled p then mret (inr tt)
      else
        vq_push vq (sp_elem p) 0;;
        mod_port a clear_out;;
        mret (inl tt).

(** [do_flush_queued_data] *)
Definition do_flush_queued_data (a : Z) (vq : nat) : K (vser B) unit :=
  q ← vq_at vq;
  if negb (virtio_queue_ready q) then crashed BUG
  else
    while_loop (flush_round a vq) tt;;
    virtio_notify vq.

(** [flush_queued_data], also as the bottom half of the port. *)
Definition flush_queued_data (a : Z) : K (vser B) unit :=
  p ← port_at a;
  q ← vq_at (sp_ovq p);
  if negb (virtio_queue_ready q) then mret tt
  else do_flush_queued_data a (sp_ovq p).
Definition flush_queued_data_bh (a : Z) : K (vser B) unit :=
  mod_port a (set_sp_bh false);;
  flush_queued_data a.

(** ** The control channel *)

(** The messages to a port that says it is ready. *)
Definition port_ready (p : sport) : K (vser B) unit :=
  (if sp_is_console p
   then send_control_event map_ok (sp_id p) VIRTIO_CONSOLE_CONSOLE_PORT 1;; mret tt else mret tt);;
  match sp_name p with
  | Some name =>
      e ← gete;
      send_control_msg map_ok (sp_id p)
        (encode_cpkt (Cpkt (e_junk e) VIRTIO_CONSOLE_PORT_NAME 1) ++ name ++ [0]);;
      mret tt
  | None => mret tt
  end;;
  (if sp_host_connected p
   then send_control_event map_ok (sp_id p) VIRTIO_CONSOLE_PORT_OPEN 1;; mret tt else mret tt);;
  call_port port_guest_ready (sp_addr p).

(** The messages about all ports. *)
Fixpoint announce_ports (l : list sport) : K (vser B) unit :=
  match l with
  | [] => mret tt
  | p :: l' => send_control_event map_ok (sp_id p) VIRTIO_CONSOLE_PORT_ADD 1;; announce_ports l'
  end.

(** [handle_control_message] *)
Definition handle_control_message (buf : bytes) : K (vser B) unit :=
  if Z.of_nat (length buf) <? sizeof_cpkt then mret tt
  else
    let cpkt := decode_cpkt buf in
    v ← getx;
    if cp_event cpkt =? VIRTIO_CONSOLE_DEVICE_READY then
      if cp_value cpkt =? 0 then mret tt else announce_ports (vs_ports v)
    else
      match find_port_by_id (cp_id cpkt) (vs_ports v) with
      | None => mret tt
      | Some p =>
          if cp_event cpkt =? VIRTIO_CONSOLE_PORT_READY then
            if cp_value cpkt =? 0 then mret tt else port_ready p
          else if cp_event cpkt =? VIRTIO_CONSOLE_PORT_OPEN then
            mod_port (sp_addr p) (set_sp_guest_connected (negb (cp_value cpkt =? 0)));;
            if negb (cp_value cpkt =? 0) then call_port port_guest_open (sp_addr p)
            else call_port port_guest_close (sp_addr p)
          else mret tt
      end.

(** [control_out] *)
Definition control_round (vq : nat) (_ : unit) : K (vser B) (unit + unit) :=
  o ← vq_pop map_ok vq;
  match o with
  | None => mret (inr tt)
  | Some elem =>
      buf ← iov_to_buf (el_out elem) 0 (iov_size (el_out elem));
      handle_control_message buf;;
      vq_push vq elem 0;;
      mret (inl tt)
  end.
Definition control_out (vq : nat) : K (vser B) unit :=
  while_loop (control_round vq) tt;;
  virtio_notify vq.

(** [handle_output]: the guest wrote something to some port. *)
Definition handle_output (vq : nat) : K (vser B) unit :=
  v ← getx;
  match find_port_by_vq vq (vs_ports v) with
  | None => discard_vq_data map_ok vq
  | Some p =>
      if negb (sp_host_connected p) then discard_vq_data map_ok vq
      else do_flush_queued_data (sp_addr p) vq
  end.

(** ** Features, configuration, status and reset *)

Definition get_features (features : Z) : K (vser B) Z :=
  v ← getx;
  mret (if 1 <? vs_max_nr_ports v then Z.setbit features VIRTIO_CONSOLE_F_MULTIPORT else features).

Definition get_config : K (vser B) bytes := v ← getx; mret (encode_config (vs_config v)).

(** [guest_reset] *)
Fixpoint reset_ports (l : list Z) : K (vser B) unit :=
  match l with
  | [] => mret tt
  | a :: l' =>
      p ← port_at a;
      (if sp_guest_connected p then
         mod_port a (set_sp_guest_connected false);; call_port port_guest_close a
       else mret tt);;
      reset_ports l'
  end.
Definition guest_reset : K (vser B) unit := v ← getx; reset_ports (sp_addr <$> vs_ports v).

(** [set_status] *)
Definition set_status (status : Z) : K (vser B) unit :=
  v ← getx;
  match find_port_by_id 0 (vs_ports v) with
  | Some p =>
      if negb (use_multiport v) && has_flag status VIRTIO_CONFIG_S_DRIVER_OK
      then mod_port (sp_addr p) (set_sp_guest_connected true) else mret tt
  | None => mret tt
  end;;
  if negb (has_flag status VIRTIO_CONFIG_S_DRIVER_OK) then guest_reset else mret tt.

(** [virtser_port_qdev_init]: a port is plugged in. *)
Definition virtser_port_qdev_init (port : sport) : K (vser B) Z :=
  v ← getx;
  let port := set_sp_bh false port in
  let plugging_port0 := sp_is_console port && bool_decide (find_port_by_id 0 (vs_ports v) = None) in
  if bool_decide (is_Some (find_port_by_id (sp_id port) (vs_ports v))) then mret (-1)
  else
    let id :=
      if sp_id port =? VIRTIO_CONSOLE_BAD_ID
      then if plugging_port0 then 0 else find_free_port_id v else sp_id port in
    if id =? VIRTIO_CONSOLE_BAD_ID then mret (-1)
    else if cf_max_nr_ports (vs_config v) <=? id then mret (-1)
    else
      ret ← port_init (set_sp_id id port);
      if negb (ret =? 0) then mret ret
      else
        v ← getx;
        match vs_ivqs v !! Z.to_nat id, vs_ovqs v !! Z.to_nat id with
        | Some ivq, Some ovq =>
            modx (set_vs_ports (vs_ports v ++ [set_sp_queues ivq ovq (clear_out (set_sp_id id port))]));;
            add_port map_ok id;;
            virtio_notify_config;;
            mret ret
        | _, _ => crashed OutOfBounds
        end.

(** [virtser_port_qdev_exit]: a port is unplugged. *)
Definition virtser_port_qdev_exit (a : Z) : K (vser B) Z :=
  p ← port_at a;
  remove_port map_ok (sp_id p);;
  modx (fun v => set_vs_ports (filter (fun p => sp_addr p <> a) (vs_ports v)) v);;
  call_port port_exit a;;
  mret 0.

(** ** Setting up the device *)

(** The queues of the ports from [i] on, [n] of them. *)
Fixpoint add_port_queues (n : nat) : K (vser B) unit :=
  match n with
  | O => mret tt
  | S n =>
      ivq ← virtio_add_queue 128 HandleInput;
      ovq ← virtio_add_queue 128 HandleOutput;
      modx (fun v => set_vs_queues (vs_c_ivq v) (vs_c_ovq v) (vs_ivqs v ++ [ivq]) (vs_ovqs v ++ [ovq]) v);;
      add_port_queues n
  end.

Definition serial_setup : K (vser B) unit :=
  v ← getx;
  ivq ← virtio_add_queue 128 HandleInput;
  ovq ← virtio_add_queue 128 HandleOutput;
  c_ivq ← virtio_add_queue 32 ControlIn;
  c_ovq ← virtio_add_queue 32 ControlOut;
  modx (set_vs_queues c_ivq c_ovq [ivq] [ovq]);;
  add_port_queues (Z.to_nat (vs_max_nr_ports v - 1));;
  mark_port_added 0.

(** [virtio_serial_init]: the device, unless the number of ports is refused. *)
Definition virtio_serial_init {Y} (max_virtserial_ports : Z) (running : bool) (host : B)
    : K Y (option (vser B)) :=
  if max_virtserial_ports =? 0 then mret None
  else if VIRTIO_PCI_QUEUE_MAX / 2 - 1 <? max_virtserial_ports then mret None
  else
    '(_, v) ← on_local
      (VSer (virtio_common_init 8 running) 0 0 [] [] max_virtserial_ports []
         (replicate (Z.to_nat ((max_virtserial_ports + 31) / 32)) 0)
         (CConfig 0 0 max_virtserial_ports) host) serial_setup;
    mret (Some v).

(** The device as a virtio device; [host_features] are those of the binding. *)
Definition serial_callbacks (host_features : Z) (vmstate_change : option (bool -> K (vser B) unit))
    : VirtioCallbacks queue_handler (vser B) := {|
  cb_handle_output h vq :=
    match h with
    | HandleInput | ControlIn => mret tt
    | HandleOutput => handle_output vq
    | ControlOut => control_out vq
    end;
  cb_get_config := get_config;
  cb_set_config := Some (fun _ => mret tt);
  cb_set_features := None;
  cb_set_status := Some set_status;
  cb_reset := Some guest_reset;
  binding_get_features := mret host_features;
  binding_vmstate_change := vmstate_change
|}.
End Dispatch.
