(* ===== verification/BusFacts.v ===== *)
(** * Facts about the serial bus

    The data path between a port and its queues stands up to any guest, delivers
    exactly, and the ports keep their numbers and queues apart. *)
From stdpp Require Import base gmap gmultiset list strings numbers.
From S2P Require Import Prelude Kernel KernelFacts Vring VringFacts RingFacts VirtioDev VirtioDevFacts Bus.
Open Scope Z_scope.

(** Control messages are read as they were written. *)
Lemma cpkt_roundtrip id event value :
  0 <= id < 2 ^ 32 -> 0 <= event < 2 ^ 16 -> 0 <= value < 2 ^ 16 ->
  decode_cpkt (encode_cpkt (Cpkt id event value)) = Cpkt id event value.
Proof.
  intros Hi He Hv. unfold decode_cpkt, encode_cpkt. cbn [cp_id cp_event cp_value].
  assert (L4 : length (le_bytes 4 id) = 4%nat) by apply length_le_bytes.
  assert (L2 : forall z, length (le_bytes 2 z) = 2%nat) by (intros z; apply length_le_bytes).
  replace 6%nat with (4 + 2)%nat by done. rewrite <- (drop_drop _ 2 4).
  rewrite (take_app_length' _ _ 4), !(drop_app_length' _ _ 4), (take_app_length' _ _ 2), (drop_app_length' _ _ 2)
    by (by rewrite ?L4, ?L2). rewrite take_ge by (by rewrite L2).
  rewrite !le_val_le_bytes. f_equal; by apply Z.mod_small.
Qed.

Section Queue.
Context {B : Type}.
Variable map_ok : Z -> Z -> bool -> bool.
Implicit Types (v : vser B) (e : env) (q : virtqueue).

Lemma vq_pop_wpe n e v q (Q : option virtqueue_element -> env * vser B -> Prop) :
  mem_ok (e_mem e) -> vq_is n v q -> 0 < vr_num (vq_vring q) ->
  (heads (e_mem e) q = 0 -> Q None (e, v)) ->
  (forall el, elem_ok map_ok q el -> el_index el = next_head (e_mem e) q ->
     0 < heads (e_mem e) q <= vr_num (vq_vring q) ->
     Q (Some el) (pop_event (vd_guest_features (vs_vdev v)) q e, upd_vq n (popped q) v)) ->
  wpe (vq_pop map_ok n) Q (e, v).
Proof.
  intros Hm Hq Hn H0 H1. unfold vq_pop. apply wpe_bind. eapply wpe_eq; [reflexivity|].
  eapply on_vq_wpe; [exact Hq|]. apply pop_wpe; [done..| |exact H1].
  intros Hz. cbn [fst snd]. rewrite upd_vq_same by done. by apply H0.
Qed.

Lemma vq_push_spec n e v q el len :
  0 <= used_idx (e_mem e) q < 2 ^ 16 -> vq_is n v q -> used_placed q ->
  vq_push n el len (e, v) =
    Done tt (set_mem (push_mem (el_index el) len q) e, upd_vq n (pushed (used_idx (e_mem e) q) q) v).
Proof. intros. unfold vq_push. eapply on_vq_done; [done|]. by apply push_spec. Qed.

(** ** Entries taken and returned *)

(** The ring [q0] in [e0] after [k] of its entries were taken and returned. *)
Record ring_served (e0 : env) q0 (k : Z) (e : env) q : Prop := {
  se_mem : mem_ok (e_mem e);
  se_vring : vq_vring q = vq_vring q0;
  se_used : used_idx (e_mem e) q = u16 (used_idx (e_mem e0) q0 + k);
  se_inuse : vq_inuse q = vq_inuse q0
}.

Lemma served_refl e q : mem_ok (e_mem e) -> ring_served e q 0 e q.
Proof.
  intros Hm. split; try done. rewrite Z.add_0_r. unfold u16. rewrite Z.mod_small; [done|].
  exact (rd_nonneg_bound 2 _ _ Hm).
Qed.

Lemma push_used_idx idx len q m :
  used_placed q -> used_idx (push_mem idx len q m) q = u16 (used_idx m q + 1).
Proof.
  intros Hq. destruct (used_slot m q Hq) as (_ & Hi & _). cbv zeta in Hi.
  unfold push_mem, used_idx at 1. rewrite Hi, (rd_pokes_eq 2). unfold u16. by rewrite Zmod_mod.
Qed.

Lemma pop_event_used_idx features q e :
  ring_placed q -> used_idx (e_mem (pop_event features q e)) q = used_idx (e_mem e) q.
Proof.
  intros []. unfold pop_event. destruct (_ && _); [|done]. unfold used_idx. cbn [e_mem set_mem].
  rewrite !u64_small by lia. by rewrite (rd_pokes_ne 2 2) by lia.
Qed.

(** Returning an entry that was taken, with [e1] the environment in between. *)
Lemma served_step e0 q0 k e q e1 idx len :
  ring_placed q -> ring_served e0 q0 k e q -> mem_ok (e_mem e1) -> used_idx (e_mem e1) q = used_idx (e_mem e) q ->
  ring_served e0 q0 (k + 1) (set_mem (push_mem idx len (popped q)) e1)
    (pushed (used_idx (e_mem e1) (popped q)) (popped q)).
Proof.
  intros Hp [Hm Hv Hu Hi] Hm1 Hu1. split.
  - by apply push_mem_ok.
  - rewrite pushed_vring. exact Hv.
  - unfold used_idx at 1. rewrite pushed_vring.
    change (used_idx (push_mem idx len (popped q) (e_mem e1)) (popped q) = u16 (used_idx (e_mem e0) q0 + (k + 1))).
    rewrite push_used_idx by exact (placed_used q Hp). change (used_idx (e_mem e1) (popped q)) with (used_idx (e_mem e1) q).
    rewrite Hu1, Hu. unfold u16. rewrite Zplus_mod_idemp_l. f_equal. lia.
  - rewrite pushed_inuse. change (vq_inuse (popped q)) with (vq_inuse q + 1). lia.
Qed.

Lemma ring_ok_popped q : ring_ok q -> ring_ok (popped q).
Proof. by apply ring_ok_vring. Qed.

(** Taking and returning an entry without writing its buffers. *)
Lemma pop_push_outside features idx len q e :
  ring_placed q ->
  agree (outside (device_zone q)) (e_mem e) (push_mem idx len (popped q) (e_mem (pop_event features q e))).
Proof.
  intros Hp. eapply agree_trans; [by apply pop_event_agree|].
  apply (push_agree idx len (popped q)). by destruct Hp.
Qed.

Lemma pop_push_heads features idx len q e old :
  ring_ok q -> 0 < heads (e_mem e) q ->
  heads (push_mem idx len (popped q) (e_mem (pop_event features q e))) (pushed old (popped q)) =
    heads (e_mem e) q - 1.
Proof.
  intros Hr Hh. rewrite (heads_vring _ (popped q)) by (rewrite ?pushed_vring, ?pushed_last; done).
  rewrite (heads_agree (e_mem e)), heads_popped; [done..|by destruct (ring_ok_popped q Hr)|].
  apply (agree_driver (popped q)); [by apply ring_ok_popped|]. exact (pop_push_outside features idx len q e (ro_placed _ Hr)).
Qed.

(** ** Throwing entries away *)

(** The queue [vq] of [v] after its ring was served, with [k] entries left. *)
Definition drained vq e v q (k : Z) (e' : env) v' : Prop :=
  exists q', touched vq v v' q' /\ ring_served e q (heads (e_mem e) q - k) e' q' /\
    heads (e_mem e') q' = k /\ agree (outside (device_zone q)) (e_mem e) (e_mem e').

Lemma drained_start vq e v q : mem_ok (e_mem e) -> vq_is vq v q -> drained vq e v q (heads (e_mem e) q) e v.
Proof.
  intros Hm Hq. exists q. split_and!; [by apply touched_refl| |done|done]. rewrite Z.sub_diag. by apply served_refl.
Qed.

Lemma device_zone_vring q q' x : vq_vring q' = vq_vring q -> device_zone q' x <-> device_zone q x.
Proof. intros E. unfold device_zone. by rewrite E. Qed.

(** One entry taken and returned. *)
Lemma drained_round vq e v q k e1 v1 (Q : unit + unit -> env * vser B -> Prop) :
  vq_is vq v q -> ring_ok q -> drained vq e v q k e1 v1 ->
  (k = 0 -> Q (inr tt) (e1, v1)) ->
  (forall e2 v2, 0 < k -> drained vq e v q (k - 1) e2 v2 -> Q (inl tt) (e2, v2)) ->
  wpe (discard_round map_ok vq tt) Q (e1, v1).
Proof.
  intros Hq Hr (q1 & Ht & Hs & Hh & Ha) H0 H1. assert (Hm := se_mem _ _ _ _ _ Hs). assert (Hv := se_vring _ _ _ _ _ Hs).
  assert (Hr1 : ring_ok q1) by (by eapply ring_ok_vring). assert (Hq1 : vq_is vq v1 q1) by (by eapply touched_is).
  unfold discard_round. apply wpe_bind. eapply vq_pop_wpe; [done|exact Hq1|apply Hr1|intros; vgo; apply H0; lia|].
  intros el Hel Hidx Hpos. rewrite Hh in Hpos. apply wpe_bind. set (f := vd_guest_features _).
  eapply wpe_eq; [eapply vq_push_spec; [by apply used_idx_bound, pop_event_ok|by eapply upd_vq_is|exact (placed_used _ (ro_placed _ Hr1))]|].
  apply wpe_ret, H1; [lia|]. rewrite upd_vq_twice. eexists. split; [by eapply touched_upd|]. split_and!.
  - replace (heads (e_mem e) q - (k - 1)) with (heads (e_mem e) q - k + 1) by lia.
    apply served_step with e1; [apply Hr1|done|by apply pop_event_ok|apply pop_event_used_idx, Hr1].
  - cbn [e_mem set_mem]. rewrite pop_push_heads by (done || lia). by rewrite Hh.
  - eapply agree_trans; [exact Ha|]. cbn [e_mem set_mem]. eapply agree_sub; [|by apply pop_push_outside, Hr1].
    intros x. unfold outside. by rewrite (device_zone_vring q q1).
Qed.

(** [discard_vq_data] empties the queue whatever the guest has put there. *)
Lemma discard_wpe vq e v q :
  mem_ok (e_mem e) -> vq_is vq v q -> ring_ok q -> virtio_queue_ready q = true ->
  wpe (discard_vq_data map_ok vq) (fun _ '(e', v') => drained vq e v q 0 e' v') (e, v).
Proof.
  intros Hm Hq Hr Hready.
  unfold discard_vq_data. apply wpe_bind. eapply wpe_eq; [by apply vq_at_spec|]. rewrite Hready. apply wpe_bind.
  eapply (wpe_while _ (fun z _ '(e', v') => 0 <= z /\ drained vq e v q z e' v')).
  - intros z [] [e1 v1] [Hz Hd]. eapply drained_round; [done..| |].
    + intros ->. destruct Hd as (q1 & Ht & Hs & Hh & Ha).
      destruct (touched_notify vq e1 v v1 q1 q Hq Ht) as (v2 & q2 & E & Ht2 & Hv2 & _ & Hl2 & _ & Hi2 & _).
      eapply wpe_eq; [exact E|]. exists q2. destruct Hs as [? Hv ? ?].
      split_and!; [done| |by rewrite <- Hh; apply heads_vring|done].
      split; [done|congruence|unfold used_idx in *; congruence|congruence].
    + intros e2 v2 Hpos Hd2. exists (z - 1). split; [lia|]. split; [lia|done].
  - split; [apply heads_bound|by apply drained_start].
  - pose proof (heads_bound (e_mem e) q). unfold LOOP_BOUND. lia.
Qed.

(** C24: throwing away what the guest sent to a port that nobody reads ends,
    whatever the guest put into its memory: the process exits with a message, or
    every entry the guest had offered is returned to it, the queue is empty, the
    number of elements in use is unchanged and no byte outside the used ring was
    written. *)
Theorem discard_drains vq e v q :
  mem_ok (e_mem e) -> vq_is vq v q -> ring_ok q -> virtio_queue_ready q = true ->
  discard_vq_data map_ok vq (e, v) = Crash Exited \/
  exists e' v' q', discard_vq_data map_ok vq (e, v) = Done tt (e', v') /\
    touched vq v v' q' /\ ring_served e q (heads (e_mem e) q) e' q' /\ heads (e_mem e') q' = 0 /\
    agree (outside (device_zone q)) (e_mem e) (e_mem e').
Proof.
  intros Hm Hq Hr Hready.
  apply (discard_wpe vq e v q Hm Hq Hr), wpe_cases in Hready as [?|([] & [e' v'] & E & q' & ? & Hs & ? & ?)]; [by left|right].
  rewrite Z.sub_0_r in Hs. eauto 10.
Qed.

(** ** Writing to the guest *)

(** Memory that the guest may have the device write. *)
Definition may_write (x : Z) : Prop := exists b n, map_ok b n true = true /\ zone b n x.
Definition unreached q (x : Z) : Prop := ~ device_zone q x /\ ~ may_write x.

(** [off] bytes have gone to the queue [vq] of [v]. *)
Record sent vq e v q (off : Z) (e' : env) v' q' : Prop := {
  sn_touched : touched vq v v' q';
  sn_vring : vq_vring q' = vq_vring q;
  sn_mem : mem_ok (e_mem e');
  sn_kept : agree (unreached q) (e_mem e) (e_mem e')
}.

Lemma iov_addrs_writable l x :
  Forall (fun d => map_ok d.1 d.2 true = true) l -> x ∈ iov_addrs l -> may_write x.
Proof.
  unfold iov_addrs. induction 1 as [|[b n] l Hb _ IH]; [by intros []%not_elem_of_nil|].
  cbn. intros [Hx%elem_of_seqZ|?]%elem_of_app; [by exists b, n|by apply IH].
Qed.

(** Filling the element that was just taken, with any buffers, and returning
    it. *)
Lemma sent_elem vq e v q off e1 v1 q1 el buf n (Q : Z + Z -> env * vser B -> Prop) :
  vq_is vq v q -> ring_ok q -> sent vq e v q off e1 v1 q1 -> 0 < heads (e_mem e1) q1 -> 0 <= n ->
  elem_ok map_ok q1 el ->
  (forall k e2 v2 q2, 0 <= k <= n -> sent vq e v q (off + k) e2 v2 q2 ->
     (k = 0 -> heads (e_mem e2) q2 = heads (e_mem e1) q1 - 1) -> Q (inl (off + k)) (e2, v2)) ->
  wpe (len ← iov_from_buf (el_in el) 0 buf n; vq_push vq el len;; mret (inl (off + len))) Q
    (pop_event (vd_guest_features (vs_vdev v1)) q1 e1, upd_vq vq (popped q1) v1).
Proof.
  intros Hq Hr [Ht Hv Hm Hk] Hh Hn Hel HQ. set (f := vd_guest_features _).
  assert (Hr1 : ring_ok q1) by (by eapply ring_ok_vring). set (e2 := pop_event f q1 e1).
  assert (Hm2 : mem_ok (e_mem e2)) by (by apply pop_event_ok).
  assert (Hok : iov_ok (el_in el)) by (eapply list.Forall_impl; [exact (proj2 (eo_in _ _ _ Hel))|intros; cbn in *; lia]).
  destruct (from_buf_any (el_in el) 0 buf n e2 (upd_vq vq (popped q1) v1) Hok Hm2)
    as (k & m3 & E & Hkn & Hm3 & Hz & Hout); [lia|]. change (0 + k) with k in E.
  apply wpe_bind. eapply wpe_eq; [unfold iov_from_buf; etrans; [eapply bind_done, E|reflexivity]|].
  apply wpe_bind. eapply wpe_eq; [eapply vq_push_spec;
    [by apply used_idx_bound|by eapply upd_vq_is, touched_is|exact (placed_used _ (ro_placed _ Hr1))]|].
  apply wpe_ret. rewrite upd_vq_twice. eapply HQ; [lia|split|].
  - by eapply touched_upd.
  - rewrite pushed_vring. exact Hv.
  - by apply push_mem_ok.
  - assert (Hz1 : forall x, unreached q x -> outside (device_zone q1) x)
      by (intros x [Hx _]; unfold outside; by rewrite (device_zone_vring q)).
    eapply agree_trans; [exact Hk|]. eapply agree_trans; [eapply agree_sub, pop_event_agree, Hr1; exact Hz1|].
    eapply (agree_trans _ _ m3).
    + intros x [_ Hx]. apply Hout. intros Hin. apply Hx. by eapply iov_addrs_writable; [apply Hel|].
    + eapply agree_sub; [exact Hz1|]. by apply (push_agree _ _ (popped q1)), ring_ok_popped.
  - intros ->. cbn [e_mem set_mem]. rewrite (Hz eq_refl). unfold e2. by rewrite pop_push_heads.
Qed.

Lemma sent_round vq e v q size buf off e1 v1 q1 (Q : Z + Z -> env * vser B -> Prop) :
  vq_is vq v q -> ring_ok q -> sent vq e v q off e1 v1 q1 -> 0 <= off <= size ->
  (off = size \/ heads (e_mem e1) q1 = 0 -> Q (inr off) (e1, v1)) ->
  (forall k e2 v2 q2, 0 <= k <= size - off -> 0 < heads (e_mem e1) q1 -> sent vq e v q (off + k) e2 v2 q2 ->
     (k = 0 -> heads (e_mem e2) q2 = heads (e_mem e1) q1 - 1) -> Q (inl (off + k)) (e2, v2)) ->
  wpe (write_round map_ok vq buf size off) Q (e1, v1).
Proof.
  intros Hq Hr Hs Hoff H0 H1. unfold write_round.
  destruct (Z.ltb_spec off size) as [Hlt|Hge]; cbn [negb]; [|apply wpe_ret, H0; lia].
  assert (Hr1 : ring_ok q1) by (eapply ring_ok_vring; [by destruct Hs|done]).
  apply wpe_bind. eapply vq_pop_wpe; [by destruct Hs|eapply touched_is; [exact Hq|by destruct Hs]|apply Hr1|intros; apply wpe_ret, H0; by right|].
  intros el Hel _ Hpos. eapply sent_elem; [done..|apply Hpos|lia|done|].
  intros. eapply H1; (done || lia).
Qed.

Lemma port_at_spec a e v p : find_port a (vs_ports v) = Some p -> port_at a (e, v) = Done p (e, v).
Proof. intros Hp. unfold port_at, mbind, M_bind. cbn [getx snd]. by rewrite Hp. Qed.

Lemma mod_port_done a f e v p : find_port a (vs_ports v) = Some p ->
  mod_port a f (e, v) = Done tt (e, set_vs_ports (upd_port a f (vs_ports v)) v).
Proof. intros Hp. unfold mod_port. by etrans; [by eapply bind_done, port_at_spec|]. Qed.

Lemma sent_start vq e v q : mem_ok (e_mem e) -> vq_is vq v q -> sent vq e v q 0 e v q.
Proof. intros. split; try done. by apply touched_refl. Qed.

(** The measure of the loop: a round either writes, or uses up an entry. *)
Lemma write_loop_wpe vq e v q size buf :
  mem_ok (e_mem e) -> vq_is vq v q -> ring_ok q -> 0 <= size < 2 ^ 62 ->
  wpe (while_loop (write_round map_ok vq buf size) 0) (fun n '(e', v') => 0 <= n <= size /\
    exists q', sent vq e v q n e' v' q' /\ (n = size \/ heads (e_mem e') q' = 0)) (e, v).
Proof.
  intros Hm Hq Hr Hsz.
  eapply (wpe_while _ (fun z off '(e', v') => 0 <= off <= size /\ exists q', sent vq e v q off e' v' q' /\
    z = (size - off) * 2 ^ 16 + heads (e_mem e') q')).
  - intros z off [e1 v1] (Hoff & q1 & Hs & ->). eapply sent_round; [done..| |].
    + intros Hend. split; [done|]. by exists q1.
    + intros k e2 v2 q2 Hk Hpos Hs2 Hk0. eexists. split; [|split; [lia|by exists q2]].
      pose proof (heads_bound (e_mem e1) q1). pose proof (heads_bound (e_mem e2) q2).
      destruct (decide (k = 0)) as [->|]; [rewrite (Hk0 eq_refl); lia|lia].
  - split; [lia|]. exists q. split; [by apply sent_start|]. done.
  - pose proof (heads_bound (e_mem e) q). unfold LOOP_BOUND. lia.
Qed.

(** C23: Writing to a port ends and stays within bounds, whatever the guest put
    into its memory: the process exits with a message, or all bytes or as many as
    the guest had room for are written, and no memory is touched but the used
    ring and memory that the guest may have the device write. *)
Theorem write_to_port_safe a buf size e v p q :
  mem_ok (e_mem e) -> find_port a (vs_ports v) = Some p -> vq_is (sp_ivq p) v q ->
  virtio_queue_ready q = true -> ring_ok q -> 0 <= size < 2 ^ 62 ->
  write_to_port map_ok a buf size (e, v) = Crash Exited \/
  exists n e' v' q', write_to_port map_ok a buf size (e, v) = Done n (e', v') /\ 0 <= n <= size /\
    (n = size \/ heads (e_mem e') q' = 0) /\ touched (sp_ivq p) v v' q' /\ vq_vring q' = vq_vring q /\
    mem_ok (e_mem e') /\ agree (unreached q) (e_mem e) (e_mem e').
Proof.
  intros Hm Hp Hq Hready Hr Hsz.
  assert (Hw : wpe (write_to_port map_ok a buf size) (fun n '(e', v') => exists q', 0 <= n <= size /\
    (n = size \/ heads (e_mem e') q' = 0) /\ sent (sp_ivq p) e v q n e' v' q') (e, v)).
  { unfold write_to_port. apply wpe_bind. eapply wpe_eq; [by apply port_at_spec|].
    apply wpe_bind. eapply wpe_eq; [by apply vq_at_spec|]. rewrite Hready. apply wpe_bind.
    eapply wpe_mono; [by apply write_loop_wpe|]. intros n [e1 v1] (Hn & q1 & [Ht Hv Hm1 Hk] & Hend).
    destruct (touched_notify _ e1 v v1 q1 q Hq Ht) as (v2 & q2 & E & Ht2 & Hv2 & _ & Hl2 & _).
    apply wpe_bind. eapply wpe_eq; [exact E|]. apply wpe_ret. exists q2. split; [done|].
    rewrite (heads_vring _ q1) by done. split; [done|]. split; [done|congruence|done..]. }
  apply wpe_cases in Hw as [?|(n & [e' v'] & E & q' & ? & ? & [])]; [by left|right]. eauto 12.
Qed.

(** ** Delivery *)

(** Memory after an entry with the buffers [ins] was filled with [k] bytes at
    [buf] and returned. *)
Definition filled features q e (ins : list iovec) (buf k : Z) : mem :=
  push_mem (next_head (e_mem e) q) k (popped q)
    (pokes (iov_part ins 0 k) (peeks (e_mem e) (seqZ buf k)) (e_mem (pop_event features q e))).

(** What the driver offers to be filled, apart from the ring and from the
    source of the data. *)
Record fillable q (ins : list iovec) (buf n : Z) : Prop := {
  fi_ok : iov_ok ins;
  fi_nodup : NoDup (iov_addrs ins);
  fi_used : forall x, x ∈ iov_addrs ins -> ~ device_zone q x;
  fi_src : seqZ buf n ## iov_addrs ins;
  fi_src_used : forall x, zone buf n x -> ~ device_zone q x
}.

Lemma write_round_exact vq e v q l buf size off :
  let ins := chain_ins l in
  let k := iov_room ins 0 (size - off) in
  let f := vd_guest_features (vs_vdev v) in
  vq_is vq v q -> ring_ok q -> 0 < heads (e_mem e) q <= vr_num (vq_vring q) -> offers map_ok (e_mem e) q l ->
  0 <= used_idx (e_mem e) q < 2 ^ 16 -> fillable q ins (buf + off) (size - off) -> off < size ->
  exists old, write_round map_ok vq buf size off (e, v) =
    Done (inl (off + k)) (set_mem (fun _ => filled f q e ins (buf + off) k) e,
                          upd_vq vq (pushed old (popped q)) v).
Proof.
  intros ins k f Hq Hr Hh Ho Hu [Hok Hnd Hfu Hsrc Hsu] Hoff. set (e1 := pop_event f q e).
  assert (Hsz : 0 <= iov_size ins) by (rewrite <- (length_iov_addrs _ Hok); lia).
  assert (Hpk : peeks (e_mem e1) (seqZ (buf + off) k) = peeks (e_mem e) (seqZ (buf + off) k)).
  { eapply peeks_agree; [apply pop_event_agree, Hr|]. intros x Hx%elem_of_seqZ. apply Hsu. unfold k, iov_room, zone in *. lia. }
  assert (E1 : vq_pop map_ok vq (e, v) =
    Done (Some (VQElem (next_head (e_mem e) q) ins (chain_outs l))) (e1, upd_vq vq (popped q) v)).
  { unfold vq_pop. etrans; [by eapply bind_done|]. eapply on_vq_done; [done|]. by apply pop_offers. }
  set (m2 := pokes (iov_part ins 0 k) (peeks (e_mem e) (seqZ (buf + off) k)) (e_mem e1)).
  assert (E2 : forall x : vser B, iov_from_buf ins 0 (buf + off) (size - off) (e1, x) = Done k (set_mem (fun _ => m2) e1, x)).
  { intros x. unfold iov_from_buf. etrans; [eapply bind_done, from_buf_loop_spec; (done || lia)|].
    rewrite Z.sub_0_r, !Z.add_0_r. fold k. unfold m2. by rewrite <- Hpk. }
  eexists. unfold write_round. rewrite (proj2 (Z.ltb_lt _ _)) by done. cbn [negb].
  etrans; [eapply bind_done, E1|]. cbn [el_in]. etrans; [eapply bind_done, E2|].
  etrans; [eapply bind_done, vq_push_spec; [|by eapply upd_vq_is|exact (placed_used _ (ro_placed _ Hr))]|].
  - replace (used_idx _ (popped q)) with (used_idx (e_mem e) q); [done|]. cbn [e_mem set_mem].
    rewrite <- (pop_event_used_idx f q e (ro_placed _ Hr)). fold e1. symmetry.
    apply (rd_agree (device_zone q)); [|intros x; rewrite u64_small by (destruct (ro_placed _ Hr); lia);
      unfold device_zone, zone; destruct (ro_placed _ Hr); lia].
    apply agree_pokes. intros x Hx Hin. by eapply Hfu, Hx; eapply iov_part_sub.
  - rewrite upd_vq_twice. cbn [el_index]. unfold filled. fold e1 m2. 
    replace (set_mem (fun _ => push_mem _ _ _ _) e) with (set_mem (push_mem (next_head (e_mem e) q) k (popped q)) (set_mem (fun _ => m2) e1)); [reflexivity|].
    unfold e1, pop_event. by destruct (_ && _).
Qed.

Lemma filled_kept f q e ins buf k :
  ring_placed q -> agree (fun x => ~ device_zone q x /\ x ∉ iov_addrs ins) (e_mem e) (filled f q e ins buf k).
Proof.
  intros Hp. unfold filled. eapply agree_trans; [eapply agree_sub, pop_event_agree, Hp; by intros x []|].
  eapply agree_trans; [apply agree_pokes; intros x [_ Hx] Hin; by eapply Hx, iov_part_sub|].
  eapply agree_sub; [|by apply (push_agree _ _ (popped q)); destruct Hp]. by intros x [].
Qed.

Lemma filled_data f q e ins buf k n :
  ring_placed q -> fillable q ins buf n -> 0 <= k <= iov_size ins ->
  peeks (filled f q e ins buf k) (iov_part ins 0 k) = peeks (e_mem e) (seqZ buf k).
Proof.
  intros Hp [Hok Hnd Hfu _ _] Hk. unfold filled.
  etrans; [eapply peeks_agree; [by apply (push_agree _ _ (popped q)); destruct Hp|]|].
  { intros x Hx. apply Hfu. by eapply iov_part_sub. }
  apply peeks_pokes_eq; [by apply iov_part_nodup|]. rewrite length_peeks, length_seqZ. unfold iov_part.
  rewrite length_take, length_drop. pose proof (length_iov_addrs _ Hok). lia.
Qed.

(** The used ring afterwards. *)
Lemma filled_used_idx f q e ins buf k n :
  ring_placed q -> fillable q ins buf n ->
  used_idx (filled f q e ins buf k) q = u16 (used_idx (e_mem e) q + 1).
Proof.
  intros Hp Hf. unfold filled. change (used_idx ?m q) with (used_idx m (popped q)) at 1.
  rewrite push_used_idx by exact (placed_used _ Hp). do 2 f_equal.
  rewrite <- (pop_event_used_idx f q e Hp). apply (rd_agree (device_zone q)).
  - apply agree_pokes. intros x Hx Hin. by eapply fi_used, Hx; [|eapply iov_part_sub].
  - intros x. rewrite u64_small by (destruct Hp; lia). unfold device_zone, zone. destruct Hp. lia.
Qed.

Lemma iov_addrs_app l1 l2 : iov_addrs (l1 ++ l2) = iov_addrs l1 ++ iov_addrs l2.
Proof. unfold iov_addrs. by rewrite fmap_app, concat_app. Qed.
Lemma iov_size_app l1 l2 : iov_size (l1 ++ l2) = iov_size l1 + iov_size l2.
Proof. induction l1 as [|d l1 IH]; [done|]. cbn [app]. rewrite !iov_size_cons, IH. lia. Qed.

Lemma iov_part_app l1 l2 k k2 :
  iov_ok l1 -> 0 <= k <= iov_size l1 -> 0 <= k2 -> k2 = 0 \/ k = iov_size l1 ->
  iov_part (l1 ++ l2) 0 (k + k2) = iov_part l1 0 k ++ iov_part l2 0 k2.
Proof.
  intros Hok Hk Hk2 Hfull. unfold iov_part. rewrite iov_addrs_app, !drop_0.
  pose proof (length_iov_addrs _ Hok) as Hl. destruct Hfull as [->|Hks].
  - rewrite Z.add_0_r, take_app_le by lia. cbn. by rewrite app_nil_r.
  - rewrite take_app_ge, (take_ge (iov_addrs l1)) by lia. do 2 f_equal. lia.
Qed.

(** The buffers of several entries, one after the other. *)
Definition room (ls : list (list (bool * iovec))) : list iovec := concat (chain_ins <$> ls).

Lemma fillable_app q l ls buf n k :
  fillable q (l ++ ls) buf n -> 0 <= k <= n -> fillable q l buf n /\ fillable q ls (buf + k) (n - k).
Proof.
  intros [Hok Hnd Hu Hs Hsu] Hk. apply Forall_app in Hok as [Hok1 Hok2]. rewrite iov_addrs_app in *.
  apply list.NoDup_app in Hnd as (Hnd1 & _ & Hnd2).
  split; split; try done.
  - intros x Hx. apply Hu. set_solver.
  - intros x H1 H2. apply (Hs x); [done|set_solver].
  - intros x Hx. apply Hu. set_solver.
  - intros x H1%elem_of_seqZ H2. apply (Hs x); [apply elem_of_seqZ; lia|set_solver].
  - intros x Hx. apply Hsu. unfold zone in *. lia.
Qed.

(** What the loop of [write_to_port] has done when it ends. *)
Record delivered vq e v q ls (buf k : Z) (e' : env) v' q' (r : nat) : Prop := {
  dl_touched : touched vq v v' q';
  dl_vring : vq_vring q' = vq_vring q;
  dl_data : peeks (e_mem e') (iov_part (room ls) 0 k) = peeks (e_mem e) (seqZ buf k);
  dl_kept : agree (fun x => ~ device_zone q x /\ x ∉ iov_addrs (room ls)) (e_mem e) (e_mem e');
  dl_rounds : (r <= length ls)%nat;
  dl_heads : heads (e_mem e') q' = heads (e_mem e) q - Z.of_nat r;
  dl_used : used_idx (e_mem e') q' = u16 (used_idx (e_mem e) q + Z.of_nat r);
  dl_inuse : vq_inuse q' = vq_inuse q
}.

(** The offer of the driver: the chains [ls], in memory apart from the buffers
    to be filled. *)
Record offering q ls e (buf n : Z) : Prop := {
  og_ring : ring_ok q;
  og_heads : heads (e_mem e) q = Z.of_nat (length ls) /\ heads (e_mem e) q <= vr_num (vq_vring q);
  og_offers : offers_all map_ok (e_mem e) q ls;
  og_used : 0 <= used_idx (e_mem e) q < 2 ^ 16;
  og_fill : fillable q (room ls) buf n;
  og_apart : forall x, x ∈ iov_addrs (room ls) -> ~ driver_zone q x /\ ~ tables_zone (e_mem e) q ls x;
  og_tables : forall x, tables_zone (e_mem e) q ls x -> ~ device_zone q x
}.

Lemma delivered_none vq e v q ls buf : vq_is vq v q -> 0 <= used_idx (e_mem e) q < 2 ^ 16 ->
  delivered vq e v q ls buf 0 e v q 0.
Proof.
  intros Hq Hu. split; try done; [by apply touched_refl|lia|lia|].
  rewrite Z.add_0_r. unfold u16. by rewrite Z.mod_small.
Qed.

(** The offer after its first entry was filled. *)
Lemma offering_next f q l ls e buf n k old :
  offering q (l :: ls) e buf n -> 0 <= k <= n ->
  offering (pushed old (popped q)) ls (set_mem (fun _ => filled f q e (chain_ins l) buf k) e) (buf + k) (n - k).
Proof.
  intros [Hr [Hh Hnum] [Ho Hos] Hu Hf Hap Htab] Hk. set (q1 := pushed old (popped q)). set (m1 := filled _ _ _ _ _ _).
  assert (Hs : at_same (popped q) q1) by (split; [apply pushed_vring|apply pushed_last]).
  assert (Hv : vq_vring q1 = vq_vring q) by exact (pushed_vring old (popped q)). assert (Hp := ro_placed _ Hr).
  change (room (l :: ls)) with (chain_ins l ++ room ls) in *.
  destruct (fillable_app _ _ _ _ _ k Hf Hk) as [Hf1 Hf2].
  assert (Hin : forall x, x ∈ iov_addrs (chain_ins l) -> ~ driver_zone q x /\ ~ tables_zone (e_mem e) q (l :: ls) x).
  { intros x Hx. apply Hap. rewrite iov_addrs_app. set_solver. }
  assert (Hkept := filled_kept f q e (chain_ins l) buf k Hp). fold m1 in Hkept.
  assert (Hd : agree (driver_zone q) (e_mem e) m1).
  { eapply agree_sub; [|exact Hkept]. intros x Hx. split; [by apply Hr|]. intros Hi. by destruct (Hin x Hi). }
  destruct (offers_all_agree map_ok (e_mem e) m1 (popped q) ls) as [Hos1 Htz]; [by destruct Hp|done| |done|].
  { eapply agree_sub; [|exact Hkept]. intros x Hx. split; [apply Htab; by right|]. intros Hi. destruct (Hin x Hi) as [_ []]. by right. }
  assert (Htq : forall x, tables_zone m1 q1 ls x -> tables_zone (e_mem e) q (l :: ls) x).
  { intros x Hx. right. apply Htz. by eapply tables_zone_ring. }
  assert (Hhd : heads m1 q1 = heads (e_mem e) q - 1).
  { rewrite (heads_vring _ (popped q)) by apply Hs. rewrite heads_popped; [by rewrite (heads_agree (e_mem e) m1)|].
    rewrite (heads_agree (e_mem e) m1) by done. rewrite Hh. cbn. lia. }
  split.
  - by eapply ring_ok_vring.
  - cbn [e_mem set_mem]. rewrite Hhd, Hv. cbn [length] in Hh. lia.
  - by eapply offers_all_ring.
  - cbn [e_mem set_mem]. replace (used_idx m1 q1) with (used_idx m1 q) by (unfold used_idx; by rewrite Hv).
    unfold m1. rewrite (filled_used_idx f q e _ _ _ n) by done. by apply Z.mod_pos_bound.
  - destruct Hf2 as [? ? H3 ? H5]. split; try done; intros x Hx; rewrite (device_zone_vring q q1) by done; auto.
  - intros x Hx. destruct (Hap x) as [H1 H2]; [rewrite iov_addrs_app; set_solver|].
    split; [|intros Ht; by apply H2, Htq]. unfold driver_zone, desc_zone, avail_zone. by rewrite Hv.
  - intros x Hx. rewrite (device_zone_vring q q1) by done. by apply Htab, Htq.
Qed.

Lemma delivered_next vq e v q l ls buf n k k2 f old e' v' q' r :
  offering q (l :: ls) e buf n -> k + k2 <= n -> 0 <= k <= iov_size (chain_ins l) -> 0 <= k2 ->
  (k2 = 0 \/ k = iov_size (chain_ins l)) -> vq_is vq v q ->
  let e1 := set_mem (fun _ => filled f q e (chain_ins l) buf k) e in
  let q1 := pushed old (popped q) in
  delivered vq e1 (upd_vq vq q1 v) q1 ls (buf + k) k2 e' v' q' r ->
  delivered vq e v q (l :: ls) buf (k + k2) e' v' q' (S r).
Proof.
  intros Hof Hn Hk Hk2 Hfull Hq e1 q1 [Ht Hv Hd Hkp Hrd Hh Hu Hi].
  destruct (Hof) as [Hr [Hh0 _] _ _ Hf _ _]. assert (Hp := ro_placed _ Hr). assert (Hvq : vq_vring q1 = vq_vring q) by exact (pushed_vring old (popped q)).
  change (room (l :: ls)) with (chain_ins l ++ room ls) in *.
  destruct (fillable_app _ _ _ _ _ k Hf) as [Hf1 Hf2]; [lia|].
  destruct (offering_next f q l ls e buf n k old Hof) as [_ [Hh1 _] _ _ _ _ _]; [lia|]. fold e1 q1 in Hh1.
  split.
  - destruct Ht as (isr & irqs & ->). exists isr, irqs. unfold upd_vq. rewrite get_put_vdev, put_put_vdev. cbn. by rewrite list_insert_insert_eq.
  - by rewrite Hv.
  - change (room (l :: ls)) with (chain_ins l ++ room ls).
    rewrite iov_part_app, (seqZ_split buf k), !peeks_app by (done || lia || apply Hf1). rewrite Z.add_simpl_l.
    f_equal.
    + rewrite <- (filled_data f q e _ _ _ n Hp Hf1 Hk). eapply peeks_agree; [exact Hkp|].
      intros x Hx%iov_part_sub. split; [rewrite (device_zone_vring q q1) by done; by apply Hf1|].
      intros Hx2. destruct Hf as [_ Hnd _ _ _]. rewrite iov_addrs_app in Hnd. apply list.NoDup_app in Hnd as (_ & Hnd & _).
      by apply (Hnd x).
    + rewrite Hd. eapply peeks_agree; [by apply filled_kept|]. intros x Hx%elem_of_seqZ.
      split; [apply (fi_src_used _ _ _ _ Hf); unfold zone; lia|]. intros Hx2. apply (fi_src _ _ _ _ Hf1 x); [apply elem_of_seqZ; lia|done].
  - change (room (l :: ls)) with (chain_ins l ++ room ls). intros x [H1 H2]. rewrite iov_addrs_app in H2. rewrite Hkp.
    + apply (filled_kept f q e (chain_ins l) buf k Hp). split; [done|set_solver].
    + split; [by rewrite (device_zone_vring q q1)|set_solver].
  - cbn. lia.
  - rewrite Hh, Hh1, Hh0. cbn. lia.
  - rewrite Hu. cbn [e_mem set_mem e1]. replace (used_idx _ q1) with (used_idx (filled f q e (chain_ins l) buf k) q) by (unfold used_idx; by rewrite Hvq).
    rewrite (filled_used_idx f q e _ _ _ n) by done. unfold u16. rewrite Zplus_mod_idemp_l. f_equal. lia.
  - rewrite Hi. unfold q1. rewrite pushed_inuse. cbn. lia.
Qed.

Lemma offering_first q l ls e buf n : offering q (l :: ls) e buf n ->
  offers map_ok (e_mem e) q l /\ 0 < heads (e_mem e) q <= vr_num (vq_vring q) /\
  (0 <= n -> fillable q (chain_ins l) buf n).
Proof.
  intros [_ [Hh Hn] [Ho _] _ Hf _ _]. split_and!; [done|rewrite Hh; cbn; lia|lia|].
  intros H0. by apply (fillable_app q (chain_ins l) (room ls) buf n 0 Hf).
Qed.

Lemma write_loop_exact vq buf size ls e v q off :
  vq_is vq v q -> offering q ls e (buf + off) (size - off) -> 0 <= off <= size ->
  let k := iov_room (room ls) 0 (size - off) in
  exists n e' v' q' r, loops (write_round map_ok vq buf size) n off (e, v) (off + k) (e', v') /\
    (n <= length ls)%nat /\ delivered vq e v q ls (buf + off) k e' v' q' r.
Proof.
  revert e v q off. induction ls as [|l ls IH]; intros e v q off Hq Hof Hoff k; subst k; unfold iov_room.
  { exists 0%nat, e, v, q, 0%nat. replace (Z.min _ _) with 0 by (unfold iov_size; cbn; lia). rewrite Z.add_0_r.
    destruct (Hof) as [Hr [Hh _] _ Hu _ _ _]. split_and!; [|done|by apply delivered_none].
    apply loops_end. unfold write_round. destruct (negb _); [done|]. etrans; [eapply bind_done|].
    - unfold vq_pop. etrans; [by eapply bind_done|]. eapply on_vq_done; [done|]. by apply pop_none; [destruct (ro_placed _ Hr); lia|].
    - cbv beta iota. by rewrite upd_vq_same. }
  change (room (l :: ls)) with (chain_ins l ++ room ls). rewrite iov_size_app, Z.sub_0_r.
  destruct (offering_first _ _ _ _ _ _ Hof) as (Ho & Hh & Hf). specialize (Hf ltac:(lia)).
  assert (Hs1 : 0 <= iov_size (chain_ins l)) by (rewrite <- (length_iov_addrs _ (fi_ok _ _ _ _ Hf)); lia).
  assert (Hs2 : 0 <= iov_size (room ls)).
  { destruct Hof as [_ _ _ _ [Hok _ _ _ _] _ _]. apply Forall_app in Hok as [_ Hok]. rewrite <- (length_iov_addrs (room ls) Hok). lia. }
  destruct (decide (off = size)) as [->|Hne].
  { exists 0%nat, e, v, q, 0%nat. rewrite Z.sub_diag, Z.min_l, Z.add_0_r by lia.
    split_and!; [|lia|apply delivered_none; [done|by destruct Hof]].
    apply loops_end. unfold write_round. by rewrite Z.ltb_irrefl. }
  set (f := vd_guest_features (vs_vdev v)). set (k1 := iov_room (chain_ins l) 0 (size - off)).
  destruct (write_round_exact vq e v q l buf size off) as [old E]; try done; [by destruct Hof|by destruct Hof|lia|].
  cbv zeta in E. fold k1 f in E. assert (Hk1 : 0 <= k1 <= size - off) by (unfold k1, iov_room; lia).
  assert (Hof1 := offering_next f q l ls e _ _ k1 old Hof Hk1).
  destruct (IH (set_mem (fun _ => filled f q e (chain_ins l) (buf + off) k1) e)
    (upd_vq vq (pushed old (popped q)) v) (pushed old (popped q)) (off + k1)) as (n & e' & v' & q' & r & Hl & Hn & Hd);
    [by eapply upd_vq_is| |lia|].
  { replace (buf + (off + k1)) with (buf + off + k1) by lia. replace (size - (off + k1)) with (size - off - k1) by lia. exact Hof1. }
  set (k2 := iov_room (room ls) 0 (size - (off + k1))) in *.
  assert (Hk2 : 0 <= k2 /\ k1 + k2 <= size - off /\ k1 + k2 = Z.min (size - off) (iov_size (chain_ins l) + iov_size (room ls)) /\
    (k2 = 0 \/ k1 = iov_size (chain_ins l)) /\ k1 <= iov_size (chain_ins l)) by (unfold k2, k1, iov_room; lia).
  destruct Hk2 as (Hk2 & Hk3 & Hk4 & Hk5 & Hk6). rewrite <- Hk4. exists (S n), e', v', q', (S r). split_and!; [|cbn; lia|].
  - rewrite Z.add_assoc. eapply loops_next; [exact E|exact Hl].
  - replace (buf + (off + k1)) with (buf + off + k1) in Hd by lia. eapply delivered_next; [exact Hof|lia|lia|lia|done|done|exact Hd].
Qed.

(** A write that fits into the next entry. *)
Lemma serial_write_one a buf size e v p q l :
  let ins := chain_ins l in
  let f := vd_guest_features (vs_vdev v) in
  a <> 0 -> find_port a (vs_ports v) = Some p -> sp_host_connected p = true -> sp_guest_connected p = true ->
  vq_is (sp_ivq p) v q -> virtio_queue_ready q = true -> ring_ok q ->
  0 < heads (e_mem e) q <= vr_num (vq_vring q) -> offers map_ok (e_mem e) q l ->
  0 <= used_idx (e_mem e) q < 2 ^ 16 -> fillable q ins buf size -> 0 < size <= iov_size ins ->
  exists v' q', virtio_serial_write map_ok a buf size (e, v) =
      Done size (set_mem (fun _ => filled f q e ins buf size) e, v') /\
    touched (sp_ivq p) v v' q' /\ at_same (popped q) q' /\ vq_inuse q' = vq_inuse q.
Proof.
  intros ins f Ha Hp Hhc Hgc Hq Hready Hr Hh Ho Hu Hf Hsz.
  destruct (write_round_exact (sp_ivq p) e v q l buf size 0) as [old E]; try done; [by rewrite Z.add_0_r, Z.sub_0_r|lia|].
  cbv zeta in E. rewrite Z.sub_0_r, Z.add_0_r in E. fold ins f in E.
  replace (iov_room ins 0 size) with size in E by (unfold iov_room; lia). change (0 + size) with size in E.
  set (q1 := pushed old (popped q)) in *.
  set (e1 := set_mem (fun _ => filled f q e ins buf size) e) in *.
  assert (Ht : touched (sp_ivq p) v (upd_vq (sp_ivq p) q1 v) q1) by (by eapply touched_upd, touched_refl).
  destruct (touched_notify _ e1 v _ q1 q Hq Ht) as (v2 & q2 & E2 & Ht2 & Hv2 & _ & Hl2 & _ & Hi2 & _).
  exists v2, q2. split_and!; [|done|split|].
  - unfold virtio_serial_write. rewrite (proj2 (Z.eqb_neq _ _)) by done. etrans; [by eapply bind_done, port_at_spec|].
    rewrite Hhc, Hgc. cbn [negb orb]. unfold write_to_port. etrans; [by eapply bind_done, port_at_spec|].
    etrans; [by eapply bind_done, vq_at_spec|]. rewrite Hready. cbn [negb].
    etrans; [eapply bind_done, (while_loops _ 1); [eapply loops_next; [exact E|apply loops_end]|done]|].
    { unfold write_round. by rewrite Z.ltb_irrefl. }
    by etrans; [eapply bind_done, E2|].
  - rewrite Hv2. apply pushed_vring.
  - rewrite Hl2. apply pushed_last.
  - rewrite Hi2. unfold q1. rewrite pushed_inuse. cbn. lia.
Qed.

(** The used ring after a fill. *)
Lemma filled_entry f q e ins buf k n :
  ring_placed q -> fillable q ins buf n -> 0 <= next_head (e_mem e) q < 2 ^ 32 -> 0 <= k < 2 ^ 32 ->
  let slot := used_idx (e_mem e) q mod vr_num (vq_vring q) in
  used_id (filled f q e ins buf k) q slot = next_head (e_mem e) q /\
  used_len (filled f q e ins buf k) q slot = k.
Proof.
  intros Hp Hf Hh Hk slot. unfold filled. set (m2 := pokes _ _ _).
  assert (E : used_idx m2 (popped q) = used_idx (e_mem e) q).
  { rewrite <- (pop_event_used_idx f q e Hp). apply (rd_agree (device_zone q)).
    - apply agree_pokes. intros x Hx Hin. by eapply fi_used, Hx; [|eapply iov_part_sub].
    - intros x. rewrite u64_small by (destruct Hp; lia). unfold device_zone, zone. destruct Hp. lia. }
  destruct (push_mem_entry (next_head (e_mem e) q) k (popped q) m2 (placed_used _ Hp) Hh Hk) as (E1 & E2 & _).
  rewrite E in E1, E2. split; [exact E1|exact E2].
Qed.

(** C22: Writing to a port delivers exactly.  Into the buffers of the entries that
    the guest offers, one after the other, go the first bytes of the data, in
    order and as many as there is room for; every entry used is returned, and
    all other memory but the used ring is as it was. *)
Theorem write_to_port_exact a buf size e v p q ls :
  find_port a (vs_ports v) = Some p -> vq_is (sp_ivq p) v q -> virtio_queue_ready q = true ->
  offering q ls e buf size -> 0 <= size ->
  let k := iov_room (room ls) 0 size in
  exists e' v' q' r, write_to_port map_ok a buf size (e, v) = Done k (e', v') /\
    delivered (sp_ivq p) e v q ls buf k e' v' q' r.
Proof.
  intros Hp Hq Hready Hof Hsz k.
  destruct (write_loop_exact (sp_ivq p) buf size ls e v q 0) as (n & e1 & v1 & q1 & r & Hl & Hn & Hd); [done| |lia|].
  { by rewrite Z.add_0_r, Z.sub_0_r. }
  rewrite Z.add_0_r, Z.sub_0_r in Hd. rewrite Z.sub_0_r in Hl. fold k in Hd. change (0 + _) with k in Hl. destruct Hd as [Ht Hv Hdt Hkp Hrd Hh Hu Hi].
  destruct (touched_notify _ e1 v v1 q1 q Hq Ht) as (v2 & q2 & E & Ht2 & Hv2 & _ & Hl2 & _ & Hi2 & _).
  exists e1, v2, q2, r. split.
  - unfold write_to_port. etrans; [by eapply bind_done, port_at_spec|]. etrans; [by eapply bind_done, vq_at_spec|].
    rewrite Hready. cbn [negb]. etrans; [eapply bind_done, while_loops; [exact Hl|]|].
    { destruct Hof as [Hr [Hh0 Hnum] _ _ _ _ _]. destruct (ro_placed _ Hr). unfold LOOP_BOUND. lia. }
    by etrans; [eapply bind_done, E|].
  - split; try done; [congruence|by rewrite (heads_vring _ q1)|unfold used_idx in *; by rewrite Hv2|congruence].
Qed.
End Queue.
