(* ===== verification/PortFacts.v ===== *)
(** * Plugging and unplugging ports

    The ports of a bus have numbers of their own, in range, marked in the map of
    the bus, and the queues that belong to their numbers, from the moment the
    device is set up on. *)
From stdpp Require Import base gmap gmultiset list strings numbers.
From S2P Require Import Prelude Kernel KernelFacts Vring VringFacts RingFacts VirtioDev VirtioDevFacts Bus BusFacts.
Open Scope Z_scope.

(** Ports are told apart by their addresses. *)
Lemma find_port_in l p : NoDup (sp_addr <$> l) -> p ∈ l -> find_port (sp_addr p) l = Some p.
Proof.
  induction l as [|q l IH]; intros Hnd Hin; [by apply not_elem_of_nil in Hin|]. cbn in *.
  apply list.NoDup_cons in Hnd as [Hn Hnd]. apply elem_of_cons in Hin as [->|Hin]; [by rewrite Z.eqb_refl|].
  destruct (Z.eqb_spec (sp_addr q) (sp_addr p)) as [E|E]; [|by apply IH].
  destruct Hn. rewrite E. by apply list_elem_of_fmap_2.
Qed.

(** ** The map of port numbers *)

(** The bit of port [id]. *)
Definition marked (map : list Z) (id : Z) : Prop :=
  exists w, map !! Z.to_nat (id / 32) = Some w /\ Z.testbit w (id mod 32) = true.
Definition words_ok (map : list Z) : Prop := Forall (fun w => 0 <= w < 2 ^ 32) map.

(** [ffs] finds the lowest bit that is set. *)
Lemma ffs_spec w :
  (ffs w = 0 /\ forall i, 0 <= i < 32 -> Z.testbit w i = false) \/
  (1 <= ffs w <= 32 /\ Z.testbit w (ffs w - 1) = true /\ forall i, 0 <= i < ffs w - 1 -> Z.testbit w i = false).
Proof.
  unfold ffs.
  assert (H : forall n lo, 0 <= n -> match find (fun i => Z.testbit w i) (seqZ lo n) with
    | Some i => lo <= i < lo + n /\ Z.testbit w i = true /\ forall j, lo <= j < i -> Z.testbit w j = false
    | None => forall j, lo <= j < lo + n -> Z.testbit w j = false end).
  { intros n lo Hn. revert lo. pattern n. apply natlike_ind; [intros lo j Hj; lia| |done]. clear n Hn.
    intros n Hn IH lo. rewrite seqZ_cons by lia. cbn. rewrite Z.pred_succ. destruct (Z.testbit w lo) eqn:E.
    - split; [lia|]. split; [done|lia].
    - specialize (IH (Z.succ lo)). destruct (find _ _) as [i|].
      + destruct IH as (? & ? & IH). split; [lia|]. split; [done|]. intros j Hj.
        destruct (decide (j = lo)) as [->|]; [done|apply IH; lia].
      + intros j Hj. destruct (decide (j = lo)) as [->|]; [done|apply IH; lia]. }
  specialize (H 32 0 ltac:(lia)). destruct (find _ _) as [i|].
  - destruct H as (Hi & Ht & Hl). right. replace (i + 1 - 1) with i by lia. split; [lia|]. split; [done|].
    intros j Hj. apply Hl. lia.
  - left. split; [done|]. intros i Hi. apply H. lia.
Qed.

Lemma free_bit w i : 0 <= i < 32 -> Z.testbit (Z.ldiff (2 ^ 32 - 1) w) i = negb (Z.testbit w i).
Proof.
  intros Hi. change (2 ^ 32 - 1) with (Z.ones 32). rewrite Z.ldiff_spec, Z.ones_spec_low by lia. done.
Qed.

(** [find_free_port_id] finds the lowest number whose bit is clear, if the map
    has one. *)
Lemma free_id_spec map i :
  0 <= i -> (i + Z.of_nat (length map)) * 32 < 2 ^ 32 ->
  let id := free_id_from map i in
  (id = VIRTIO_CONSOLE_BAD_ID /\ forall j, 0 <= j < 32 * Z.of_nat (length map) -> marked map j) \/
  (32 * i <= id < 32 * (i + Z.of_nat (length map)) /\ ~ marked map (id - 32 * i) /\
   forall j, 0 <= j < id - 32 * i -> marked map j).
Proof.
  revert i. induction map as [|w map IH]; intros i Hi Hb; cbn [free_id_from].
  { left. split; [done|]. intros j Hj. cbn in Hj. lia. }
  cbn [length] in *. pose proof (ffs_spec (Z.ldiff (2 ^ 32 - 1) w)) as Hf.
  assert (Hlow : forall j, 0 <= j < 32 -> marked (w :: map) j <-> Z.testbit w j = true).
  { intros j Hj. unfold marked. rewrite Z.div_small, Z.mod_small by lia. cbn. split; [intros (? & [= <-] & ?); done|eauto]. }
  assert (Hhigh : forall j, 32 <= j -> marked (w :: map) j <-> marked map (j - 32)).
  { intros j Hj. unfold marked. replace (j / 32) with (Z.succ ((j - 32) / 32)) by (Z.to_euclidean_division_equations; lia).
    replace (j mod 32) with ((j - 32) mod 32) by (Z.to_euclidean_division_equations; lia).
    rewrite Z2Nat.inj_succ by (apply Z.div_pos; lia). done. }
  assert (Hset : forall j, 0 <= j < 32 -> Z.testbit (Z.ldiff (2 ^ 32 - 1) w) j = false -> Z.testbit w j = true).
  { intros j Hj. rewrite free_bit by done. by intros ->%negb_false_iff. }
  set (b := ffs _) in *. destruct Hf as [[Hb0 Hf]|(Hr & Ht & Hl)].
  - rewrite Hb0. cbn [negb Z.eqb].
    assert (Hall : forall j, 0 <= j < 32 -> marked (w :: map) j) by (intros j Hj; apply Hlow; auto).
    destruct (IH (i + 1)) as [[Hbad Hm]|(Hr & Hn & Hm)]; [lia..| |].
    + left. split; [done|]. intros j Hj. destruct (decide (j < 32)); [apply Hall; lia|]. apply Hhigh; [lia|]. apply Hm. lia.
    + right. split; [lia|]. set (id := free_id_from map (i + 1)) in *. rewrite Hhigh by lia.
      replace (id - 32 * i - 32) with (id - 32 * (i + 1)) by lia. split; [done|].
      intros j Hj. destruct (decide (j < 32)); [apply Hall; lia|]. apply Hhigh; [lia|]. apply Hm. lia.
  - rewrite (proj2 (Z.eqb_neq _ _)) by lia. cbn [negb]. rewrite u32_small by lia. right. split; [lia|].
    replace (b - 1 + i * 32 - 32 * i) with (b - 1) by lia. split.
    + rewrite Hlow by lia. rewrite free_bit in Ht by lia. by apply negb_true_iff in Ht as ->.
    + intros j Hj. apply Hlow; [lia|]. apply Hset; [lia|]. by apply Hl.
Qed.

Section Ports.
Context {B : Type} `{!PortClass B}.
Variable map_ok : Z -> Z -> bool -> bool.
Implicit Types (v : vser B) (e : env) (p : sport).

(** ** A port in the middle of the list *)

Lemma port_at_mid v d p l :
  vs_ports v = d ++ p :: l -> NoDup (sp_addr <$> d ++ p :: l) -> find_port (sp_addr p) (vs_ports v) = Some p.
Proof. intros E Hnd. rewrite E. apply find_port_in; [done|]. apply elem_of_app. right. by left. Qed.

Lemma upd_port_mid f d p l :
  NoDup (sp_addr <$> d ++ p :: l) -> upd_port (sp_addr p) f (d ++ p :: l) = d ++ f p :: l.
Proof.
  intros Hnd. rewrite fmap_app in Hnd. apply list.NoDup_app in Hnd as (_ & Hd & Hnd). cbn in Hnd.
  apply list.NoDup_cons in Hnd as [Hn _].
  assert (Hsame : forall k, sp_addr p ∉ (sp_addr <$> k) -> upd_port (sp_addr p) f k = k).
  { intros k Hk. unfold upd_port. rewrite <- (list_fmap_id k) at 2. apply list_fmap_ext. intros i q Hq. cbn.
    rewrite (proj2 (Z.eqb_neq _ _)); [done|]. intros E. apply Hk. rewrite <- E. apply list_elem_of_fmap_2. by eapply list_elem_of_lookup_2. }
  unfold upd_port in *. rewrite fmap_app. cbn. rewrite Z.eqb_refl, !Hsame; [done|done|].
  intros Hin. apply (Hd _ Hin). by left.
Qed.

(** ** Control messages *)

(** The process may exit, or write past the end of a control buffer of the
    guest that is too small for the message: [send_control_msg] does not look. *)
Definition tolerated (c : crash) : Prop := c = Exited \/ c = OutOfBounds.

(** A queue as the guest placed it. *)
Definition queue_ok v n : Prop := exists q, vq_is n v q /\ (virtio_queue_ready q = true -> ring_ok q).

Definition only_queue n v v' : Prop := exists q q', vq_is n v q /\ touched n v v' q' /\ vq_vring q' = vq_vring q.

Lemma send_event_wpc id ev val e v :
  mem_ok (e_mem e) -> queue_ok v (vs_c_ivq v) ->
  wpc tolerated (send_control_event map_ok id ev val)
    (fun _ '(e', v') => mem_ok (e_mem e') /\ only_queue (vs_c_ivq v) v v') (e, v).
Proof.
  intros Hm (q & Hq & Hr). assert (Hex : tolerated Exited) by (by left).
  assert (Hsame : mem_ok (e_mem e) /\ only_queue (vs_c_ivq v) v v) by (split; [done|]; exists q, q; split_and!; [done|by apply touched_refl|done]).
  unfold send_control_event, send_control_msg. apply wpc_bind. eapply wpc_eq; [reflexivity|]. apply wpc_bind.
  eapply wpc_eq; [reflexivity|]. cbn [snd]. apply wpc_bind. eapply wpc_eq; [by apply vq_at_spec|].
  destruct (virtio_queue_ready q); cbn [negb]; [|by eapply wpc_eq]. specialize (Hr eq_refl).
  apply wpc_bind, wpe_tolerated; [done|]. eapply vq_pop_wpe; [done|done|apply Hr|intros _; by eapply wpc_eq|].
  intros el Hel _ Hh. destruct (el_in el) as [|[b room] ?]; [by right|]. destruct (_ <? _); [by right|].
  apply wpc_bind. eapply wpc_eq; [reflexivity|]. cbn [fst snd]. apply wpc_bind.
  set (e1 := set_mem _ (pop_event _ _ _)). assert (Hm1 : mem_ok (e_mem e1)).
  { apply pokes_mem_ok; [by apply pop_event_ok|]. apply Forall_app. split; [apply le_bytes_byte|].
    apply Forall_drop. unfold encode_cpkt. rewrite !Forall_app. split_and!; apply le_bytes_byte. }
  eapply wpc_eq; [eapply vq_push_spec; [by apply used_idx_bound|by eapply upd_vq_is|exact (placed_used _ (ro_placed _ Hr))]|].
  apply wpc_bind. rewrite upd_vq_twice. set (q1 := pushed _ _). set (e2 := set_mem _ e1).
  assert (Ht : touched (vs_c_ivq v) v (upd_vq (vs_c_ivq v) q1 v) q1) by (by eapply touched_upd, touched_refl).
  destruct (touched_notify _ e2 v _ q1 q Hq Ht) as (v2 & q2 & E & Ht2 & Hv2 & _).
  eapply wpc_eq; [exact E|]. eapply wpc_eq; [reflexivity|]. split; [by apply push_mem_ok|].
  exists q, q2. split_and!; [done|done|]. rewrite Hv2. exact (pushed_vring _ (popped q)).
Qed.

(** ** The invariant *)

Definition max_ports v : Z := cf_max_nr_ports (vs_config v).

Record bus_ok v : Prop := {
  bo_max : 0 < max_ports v < 2 ^ 31;
  bo_words : length (vs_ports_map v) = Z.to_nat ((max_ports v + 31) / 32);
  bo_queues : length (vs_ivqs v) = Z.to_nat (max_ports v) /\ length (vs_ovqs v) = Z.to_nat (max_ports v);
  bo_control : vs_c_ivq v ∉ vs_ovqs v;
  bo_addrs : NoDup (sp_addr <$> vs_ports v);
  bo_ids : NoDup (sp_id <$> vs_ports v);
  bo_ports : Forall (fun p => 0 <= sp_id p < max_ports v /\ marked (vs_ports_map v) (sp_id p) /\
    vs_ivqs v !! Z.to_nat (sp_id p) = Some (sp_ivq p) /\
    vs_ovqs v !! Z.to_nat (sp_id p) = Some (sp_ovq p)) (vs_ports v)
}.

(** It does not depend on the virtio device underneath. *)
Lemma bus_ok_vdev v d : bus_ok v -> bus_ok (set_vs_vdev d v).
Proof. by intros []. Qed.
Lemma only_queue_bus n v v' : only_queue n v v' -> exists d, v' = set_vs_vdev d v.
Proof. intros (q & q' & _ & (isr & irqs & ->) & _). eauto. Qed.

Lemma find_id_none id l : 0 <= id < VIRTIO_CONSOLE_BAD_ID -> find_port_by_id id l = None -> id ∉ sp_id <$> l.
Proof.
  intros Hi Hf Hin. unfold find_port_by_id in Hf. rewrite (proj2 (Z.eqb_neq _ _)) in Hf by lia.
  apply list_elem_of_fmap in Hin as (p & -> & Hp). apply list_elem_of_In in Hp.
  apply (find_none _ _ Hf) in Hp. by rewrite Z.eqb_refl in Hp.
Qed.

Lemma find_id_some id l p : NoDup (sp_id <$> l) -> p ∈ l -> sp_id p = id -> id <> VIRTIO_CONSOLE_BAD_ID ->
  find_port_by_id id l = Some p.
Proof.
  intros Hnd Hin Hid Hb. unfold find_port_by_id. rewrite (proj2 (Z.eqb_neq _ _)) by done.
  induction l as [|q l IH]; [by apply not_elem_of_nil in Hin|]. cbn in *.
  apply list.NoDup_cons in Hnd as [Hn Hnd]. apply elem_of_cons in Hin as [->|Hin]; [by rewrite Hid, Z.eqb_refl|].
  destruct (Z.eqb_spec (sp_id q) id) as [E|E]; [|by apply IH].
  destruct Hn. rewrite E, <- Hid. by apply list_elem_of_fmap_2.
Qed.

(** Setting and clearing bits of the map. *)
Lemma word_index id n : 0 <= id < n -> (Z.to_nat (id / 32) < Z.to_nat ((n + 31) / 32))%nat.
Proof. intros. Z.to_euclidean_division_equations; lia. Qed.

Lemma marked_other map id id' f :
  0 <= id -> 0 <= id' -> id <> id' ->
  (forall w i, i <> id mod 32 -> 0 <= i -> Z.testbit (f w) i = Z.testbit w i) ->
  marked map id' -> marked (alter f (Z.to_nat (id / 32)) map) id'.
Proof.
  intros H0 H1 Hne Hf (w & Hw & Ht). unfold marked. destruct (decide (id / 32 = id' / 32)) as [E|E].
  - rewrite E, list_lookup_alter_eq, Hw. exists (f w). split; [done|]. rewrite Hf; [done| |by apply Z.mod_pos_bound].
    Z.to_euclidean_division_equations; lia.
  - exists w. split; [|done]. rewrite list_lookup_alter_ne; [done|].
    intros E'. apply E. apply Z2Nat.inj in E'; [done|by apply Z.div_pos..].
Qed.

Lemma marked_set map id n :
  0 <= id < n -> length map = Z.to_nat ((n + 31) / 32) ->
  marked (alter (fun w => Z.setbit w (id mod 32)) (Z.to_nat (id / 32)) map) id.
Proof.
  intros Hi Hl. pose proof (word_index id n Hi). destruct (lookup_lt_is_Some_2 map (Z.to_nat (id / 32))) as [w Hw]; [lia|].
  exists (Z.setbit w (id mod 32)). rewrite list_lookup_alter_eq, Hw. split; [done|].
  apply Z.setbit_eq. by apply Z.mod_pos_bound.
Qed.

(** ** Plugging *)

(** The number that a new port gets. *)
Definition plug_id v (port : sport) : Z :=
  if sp_id port =? VIRTIO_CONSOLE_BAD_ID
  then if sp_is_console port && bool_decide (find_port_by_id 0 (vs_ports v) = None) then 0 else find_free_port_id v
  else sp_id port.

Lemma plug_id_fresh v port :
  bus_ok v -> 0 <= sp_id port < 2 ^ 32 -> find_port_by_id (sp_id port) (vs_ports v) = None ->
  let id := plug_id v port in
  id <> VIRTIO_CONSOLE_BAD_ID -> id < max_ports v -> 0 <= id /\ id ∉ sp_id <$> vs_ports v.
Proof.
  intros Hok Hi Hnone id Hbad Hmax. unfold id, plug_id in *. unfold VIRTIO_CONSOLE_BAD_ID in *.
  destruct (Z.eqb_spec (sp_id port) (2 ^ 32 - 1)) as [E|E].
  2: { split; [lia|]. apply find_id_none; [unfold VIRTIO_CONSOLE_BAD_ID; lia|done]. }
  destruct (sp_is_console port && _) eqn:Hc.
  { apply andb_true_iff in Hc as [_ Hc%bool_decide_eq_true]. split; [lia|]. by apply find_id_none. }
  destruct Hok as [Hm Hw _ _ _ _ Hp]. unfold find_free_port_id in *. fold (max_ports v) in *.
  rewrite take_ge in * by lia. destruct (free_id_spec (vs_ports_map v) 0) as [[Hb _]|(Hr & Hn & _)];
    [lia|rewrite Hw, Z2Nat.id by (apply Z.div_pos; lia); Z.to_euclidean_division_equations; lia|done|].
  rewrite Z.mul_0_r, Z.sub_0_r in Hn. split; [lia|]. intros (p & Hpid & Hin)%list_elem_of_fmap.
  apply Hn. rewrite Hpid. rewrite list.Forall_forall in Hp. by apply Hp.
Qed.

(** The bus with the port on it. *)
Definition plugged v (p : sport) : vser B :=
  set_vs_ports_map (alter (fun w => Z.setbit w (sp_id p mod 32)) (Z.to_nat (sp_id p / 32)) (vs_ports_map v))
    (set_vs_ports (vs_ports v ++ [p]) v).

Lemma plugged_ok v p :
  bus_ok v -> 0 <= sp_id p < max_ports v -> sp_id p ∉ sp_id <$> vs_ports v -> sp_addr p ∉ sp_addr <$> vs_ports v ->
  vs_ivqs v !! Z.to_nat (sp_id p) = Some (sp_ivq p) -> vs_ovqs v !! Z.to_nat (sp_id p) = Some (sp_ovq p) ->
  bus_ok (plugged v p).
Proof.
  intros [Hm Hw Hq Hc Ha Hids Hp] Hid Hn Hna Hiq Hoq. split; try done; cbn [plugged vs_ports vs_ports_map vs_config vs_ivqs vs_ovqs set_vs_ports set_vs_ports_map].
  - by rewrite length_alter.
  - rewrite fmap_app. apply list.NoDup_app. split_and!; [done| |apply list.NoDup_singleton].
    by intros x Hx ->%list_elem_of_singleton.
  - rewrite fmap_app. apply list.NoDup_app. split_and!; [done| |apply list.NoDup_singleton].
    by intros x Hx ->%list_elem_of_singleton.
  - apply Forall_app. split; [|constructor; [|done]; split_and!; [apply Hid|apply Hid|by eapply marked_set|done|done]].
    rewrite list.Forall_forall in Hp |- *. intros p' Hin. destruct (Hp p' Hin) as (Hr & Hmk & ?). split; [done|]. split; [|done].
    apply marked_other; [lia|lia| | |done].
    + intros E. apply Hn. rewrite E. by apply list_elem_of_fmap_2.
    + intros w i Hi H0. apply Z.setbit_neq; [by apply Z.mod_pos_bound|done].
Qed.

Lemma notify_config_done e v : exists d, virtio_notify_config (e, v) = Done tt (e, set_vs_vdev d v).
Proof.
  assert (Ed : vdev_of (e, v) = Done (vs_vdev v) (e, v)) by done.
  unfold virtio_notify_config. destruct (negb (has_flag (vd_status (vs_vdev v)) VIRTIO_CONFIG_S_DRIVER_OK)) eqn:E.
  - exists (vs_vdev v). etrans; [eapply bind_done, Ed|]. rewrite E. by destruct v.
  - eexists. etrans; [eapply bind_done, Ed|]. rewrite E. reflexivity.
Qed.

(** The end of [virtser_port_qdev_init]. *)
Lemma plug_tail e v p :
  bus_ok v -> mem_ok (e_mem e) -> queue_ok v (vs_c_ivq v) ->
  0 <= sp_id p < max_ports v -> sp_id p ∉ sp_id <$> vs_ports v ->
  wpc tolerated (modx (set_vs_ports (vs_ports v ++ [p]));; add_port map_ok (sp_id p);; virtio_notify_config;; mret 0)
    (fun r '(e', v') => r = 0 /\ exists d, v' = set_vs_vdev d (plugged v p)) (e, v).
Proof.
  intros Hok Hm Hcq Hid Hn. apply wpc_bind. eapply wpc_eq; [reflexivity|]. apply wpc_bind. unfold add_port. apply wpc_bind.
  eapply (wpc_eq _ _ _ _ tt (e, plugged v p)).
  { unfold mark_port_added, mod_ports_map, mbind, M_bind. cbn [getx snd fst vs_ports_map set_vs_ports].
    rewrite (bo_words _ Hok). pose proof (word_index _ _ Hid). by rewrite (proj2 (Nat.ltb_lt _ _)). }
  apply wpc_bind. eapply wpc_eq; [reflexivity|]. cbn [snd].
  rewrite (find_id_some (sp_id p) _ p).
  - apply wpc_bind. eapply wpc_mono; [apply (send_event_wpc _ _ _ e (plugged v p)); done|].
    intros _ [e1 v1] [_ [d ->]%only_queue_bus]. eapply wpc_eq; [reflexivity|].
    destruct (notify_config_done e1 (set_vs_vdev d (plugged v p))) as [d' E].
    apply wpc_bind. eapply wpc_eq; [exact E|]. eapply wpc_eq; [reflexivity|]. split; [done|]. by exists d'.
  - cbn. rewrite fmap_app. apply list.NoDup_app. split_and!; [by destruct Hok| |apply list.NoDup_singleton].
    by intros x Hx ->%list_elem_of_singleton.
  - cbn. apply elem_of_app. right. by left.
  - done.
  - destruct Hok. unfold VIRTIO_CONSOLE_BAD_ID. lia.
Qed.

Hypothesis init_pure : forall p e v, exists r, port_init p (e, v) = Done r (e, v).

(** There is no number for the port. *)
Definition refused v (port : sport) : Prop :=
  is_Some (find_port_by_id (sp_id port) (vs_ports v)) \/ plug_id v port = VIRTIO_CONSOLE_BAD_ID \/
  max_ports v <= plug_id v port.

(** C28: A port is plugged in.  The bus refuses it, with nothing changed, exactly
    when its number is taken, no number is left, the number is too high or its
    own initialisation fails.  Otherwise the port joins the bus under a number
    that no other port has, and the ports still have numbers of their own in
    range, marked in the map of the bus, and the queues that belong to their
    numbers.  The process may exit, or find a control buffer of the guest too
    small for the message about the port. *)
Theorem plug_port e v port :
  bus_ok v -> mem_ok (e_mem e) -> queue_ok v (vs_c_ivq v) -> 0 <= sp_id port < 2 ^ 32 ->
  sp_addr port ∉ sp_addr <$> vs_ports v ->
  (exists c, virtser_port_qdev_init map_ok port (e, v) = Crash c /\ tolerated c) \/
  exists r e' v', virtser_port_qdev_init map_ok port (e, v) = Done r (e', v') /\ bus_ok v' /\
    (r <> 0 /\ e' = e /\ v' = v /\
       (refused v port \/ port_init (set_sp_id (plug_id v port) (set_sp_bh false port)) (e, v) = Done r (e, v)) \/
     r = 0 /\ ~ refused v port /\ exists p', vs_ports v' = vs_ports v ++ [p'] /\ sp_addr p' = sp_addr port /\
       sp_id p' = plug_id v port /\ sp_id p' ∉ sp_id <$> vs_ports v).
Proof.
  intros Hok Hm Hcq Hi Hna. set (Q := fun (r : Z) '(e', v') => bus_ok v' /\
    (r <> 0 /\ e' = e /\ v' = v /\
       (refused v port \/ port_init (set_sp_id (plug_id v port) (set_sp_bh false port)) (e, v) = Done r (e, v)) \/
     r = 0 /\ ~ refused v port /\ exists p', vs_ports v' = vs_ports v ++ [p'] /\ sp_addr p' = sp_addr port /\
       sp_id p' = plug_id v port /\ sp_id p' ∉ sp_id <$> vs_ports v)).
  assert (Hfail : forall r, r <> 0 -> refused v port \/
      port_init (set_sp_id (plug_id v port) (set_sp_bh false port)) (e, v) = Done r (e, v) -> wpc tolerated (mret r) Q (e, v))
    by (intros r Hr Hw; eapply wpc_eq; [reflexivity|]; split; eauto).
  assert (Hw : wpc tolerated (virtser_port_qdev_init map_ok port) Q (e, v)).
  { unfold virtser_port_qdev_init. apply wpc_bind. eapply wpc_eq; [reflexivity|]. cbn [snd].
    change (sp_id (set_sp_bh false port)) with (sp_id port). change (sp_is_console (set_sp_bh false port)) with (sp_is_console port).
    case_bool_decide as Hnone; [apply Hfail; [done|by left; left]|]. apply eq_None_not_Some in Hnone.
    fold (plug_id v port). set (id := plug_id v port) in *.
    destruct (Z.eqb_spec id VIRTIO_CONSOLE_BAD_ID) as [|Hbad]; [apply Hfail; [done|by left; right; left]|].
    fold (max_ports v). destruct (Z.leb_spec (max_ports v) id) as [|Hmax]; [apply Hfail; [done|by left; right; right]|].
    destruct (plug_id_fresh v port Hok Hi Hnone Hbad Hmax) as [H0 Hfresh]. fold id in H0, Hfresh.
    destruct (init_pure (set_sp_id id (set_sp_bh false port)) e v) as [r Er]. apply wpc_bind. eapply wpc_eq; [exact Er|].
    destruct (Z.eqb_spec r 0) as [->|Hr]; cbn [negb]; [|by apply Hfail; [|right]].
    apply wpc_bind. eapply wpc_eq; [reflexivity|]. cbn [snd].
    destruct (bo_queues _ Hok) as [Hli Hlo].
    destruct (lookup_lt_is_Some_2 (vs_ivqs v) (Z.to_nat id)) as [ivq Ei]; [lia|].
    destruct (lookup_lt_is_Some_2 (vs_ovqs v) (Z.to_nat id)) as [ovq Eo]; [lia|]. rewrite Ei, Eo.
    set (p' := set_sp_queues ivq ovq (clear_out (set_sp_id id (set_sp_bh false port)))).
    eapply wpc_mono; [apply (plug_tail e v p'); done|]. intros r [e' v'] (-> & d & ->).
    split; [by apply bus_ok_vdev, plugged_ok|]. right. split; [done|]. split; [|by exists p'].
    intros [[? E]|[?|?]]; [by rewrite Hnone in E|done|unfold id in *; lia]. }
  apply wpc_cases in Hw as [?|(r & [e' v'] & E & ?)]; [by left|right]. eauto 6.
Qed.

(** ** Unplugging *)

Definition unplugged v (p : sport) : vser B :=
  set_vs_ports (filter (fun p' => sp_addr p' <> sp_addr p) (vs_ports v))
    (set_vs_ports_map (alter (fun w => Z.clearbit w (sp_id p mod 32)) (Z.to_nat (sp_id p / 32)) (vs_ports_map v)) v).

Lemma NoDup_fmap_filter {A C} (f : A -> C) (P : A -> Prop) `{!forall x, Decision (P x)} l :
  NoDup (f <$> l) -> NoDup (f <$> filter P l).
Proof.
  induction l as [|a l IH]; [done|]. rewrite filter_cons, fmap_cons. intros [Hn Hnd]%list.NoDup_cons.
  destruct (decide (P a)); [|by apply IH]. rewrite fmap_cons. apply list.NoDup_cons. split; [|by apply IH].
  intros (b & E & [_ Hb]%list_elem_of_filter)%list_elem_of_fmap. apply Hn. rewrite E. by apply list_elem_of_fmap_2.
Qed.

(** Ports are told apart by number and by address. *)
Lemma ports_differ (l : list sport) p p' :
  NoDup (sp_id <$> l) -> p ∈ l -> p' ∈ l -> sp_addr p' <> sp_addr p -> sp_id p <> sp_id p'.
Proof.
  intros Hnd Hp Hp' Hne E. apply Hne. f_equal.
  apply list_elem_of_lookup in Hp as [i Hi], Hp' as [j Hj].
  assert (i = j) as -> by (eapply NoDup_lookup; [exact Hnd|rewrite list_lookup_fmap, Hi; done|rewrite list_lookup_fmap, Hj; cbn; by rewrite E]).
  congruence.
Qed.

Lemma unplugged_ok v p : bus_ok v -> p ∈ vs_ports v -> bus_ok (unplugged v p).
Proof.
  intros [Hm Hw Hq Hc Ha Hids Hp] Hin. rewrite list.Forall_forall in Hp. destruct (Hp p Hin) as (Hr & _).
  split; try done; cbn [unplugged vs_ports vs_ports_map vs_config vs_ivqs vs_ovqs set_vs_ports set_vs_ports_map].
  - by rewrite length_alter.
  - by apply NoDup_fmap_filter.
  - by apply NoDup_fmap_filter.
  - apply list.Forall_forall. intros p' [Hne Hin']%list_elem_of_filter.
    destruct (Hp p' Hin') as (Hr' & Hmk & ?). split; [done|]. split; [|done].
    apply marked_other; [lia|lia|by eapply ports_differ| |done].
    intros w i Hi H0. apply Z.clearbit_neq. lia.
Qed.

Lemma discard_wpc e v n :
  mem_ok (e_mem e) -> queue_ok v n ->
  wpc tolerated (discard_vq_data map_ok n) (fun _ '(e', v') => mem_ok (e_mem e') /\ only_queue n v v') (e, v).
Proof.
  intros Hm (q & Hq & Hr). destruct (virtio_queue_ready q) eqn:Hready.
  - apply wpe_tolerated; [by left|]. eapply wpe_mono; [apply discard_wpe; try done; by apply Hr|].
    intros [] [e' v'] (q' & Ht & [] & _). split; [done|]. by exists q, q'.
  - unfold discard_vq_data. apply wpc_bind. eapply wpc_eq; [by apply vq_at_spec|]. rewrite Hready.
    eapply wpc_eq; [reflexivity|]. split; [done|]. exists q, q. split_and!; [done|by apply touched_refl|done].
Qed.

Lemma queue_ok_other n k v v' : only_queue n v v' -> n <> k -> queue_ok v k -> queue_ok v' k.
Proof.
  intros (q & q' & _ & Ht & _) Hne (q0 & Hq0 & Hr). exists q0. split; [|done]. unfold vq_is. by rewrite (touched_ne n k v v' q').
Qed.

Lemma remove_port_wpc e v p :
  bus_ok v -> mem_ok (e_mem e) -> p ∈ vs_ports v -> 0 <= sp_id p < max_ports v ->
  queue_ok v (vs_c_ivq v) -> queue_ok v (sp_ovq p) -> sp_ovq p <> vs_c_ivq v ->
  let f w := Z.clearbit w (sp_id p mod 32) in
  wpc tolerated (remove_port map_ok (sp_id p)) (fun _ '(e', v') => exists d,
    v' = set_vs_vdev d (set_vs_ports_map (alter f (Z.to_nat (sp_id p / 32)) (vs_ports_map v)) v)) (e, v).
Proof.
  intros Hok Hm Hin Hr Hcq Hoq Hne f. set (v1 := set_vs_ports_map _ v). unfold remove_port. apply wpc_bind.
  eapply (wpc_eq _ _ _ _ tt (e, v1)).
  { unfold mod_ports_map, mbind, M_bind. cbn [getx snd fst].
    rewrite (bo_words _ Hok). pose proof (word_index _ _ Hr). by rewrite (proj2 (Nat.ltb_lt _ _)). }
  apply wpc_bind. eapply wpc_eq; [reflexivity|]. cbn [snd].
  rewrite (find_id_some (sp_id p) _ p); [|by destruct Hok|done|done|destruct Hok; unfold VIRTIO_CONSOLE_BAD_ID; lia].
  apply wpc_bind. eapply wpc_mono; [by apply (discard_wpc e v1)|]. intros _ [e2 v2] [Hm2 Ho2].
  destruct (only_queue_bus _ _ _ Ho2) as [d2 ->].
  apply wpc_bind. eapply wpc_mono; [apply (send_event_wpc _ _ _ e2 (set_vs_vdev d2 v1)); [done|by eapply (queue_ok_other (sp_ovq p))]|].
  intros _ [e3 v3] [_ [d3 ->]%only_queue_bus]. eapply wpc_eq; [reflexivity|]. by exists d3.
Qed.

Hypothesis no_exit : port_exit = None.

(** C29: A port is unplugged.  It leaves the bus, its number is free again, the
    other ports stay, and the ports still have numbers of their own, marked in
    the map of the bus, and the queues that belong to their numbers.  The process
    may exit, or find a control buffer of the guest too small for the message
    about the port. *)
Theorem unplug_port e v p :
  bus_ok v -> mem_ok (e_mem e) -> p ∈ vs_ports v -> queue_ok v (vs_c_ivq v) -> queue_ok v (sp_ovq p) ->
  (exists c, virtser_port_qdev_exit map_ok (sp_addr p) (e, v) = Crash c /\ tolerated c) \/
  exists e' v', virtser_port_qdev_exit map_ok (sp_addr p) (e, v) = Done 0 (e', v') /\ bus_ok v' /\
    vs_ports v' = filter (fun p' => sp_addr p' <> sp_addr p) (vs_ports v) /\
    ~ marked (vs_ports_map v') (sp_id p).
Proof.
  intros Hok Hm Hin Hcq Hoq. assert (Hr : 0 <= sp_id p < max_ports v /\ vs_ovqs v !! Z.to_nat (sp_id p) = Some (sp_ovq p)).
  { destruct Hok as [_ _ _ _ _ _ Hp]. rewrite list.Forall_forall in Hp. destruct (Hp p Hin) as (? & _ & _ & ?). done. }
  destruct Hr as [Hr Hovq].
  assert (Hne : sp_ovq p <> vs_c_ivq v).
  { intros E. apply (bo_control _ Hok). rewrite <- E. by eapply list_elem_of_lookup_2. }
  set (v1 := set_vs_ports_map (alter (fun w => Z.clearbit w (sp_id p mod 32)) (Z.to_nat (sp_id p / 32)) (vs_ports_map v)) v).
  assert (Hw : wpc tolerated (virtser_port_qdev_exit map_ok (sp_addr p))
    (fun r '(e', v') => r = 0 /\ exists d, v' = set_vs_vdev d (unplugged v p)) (e, v)).
  { unfold virtser_port_qdev_exit. apply wpc_bind. eapply wpc_eq; [apply port_at_spec, find_port_in; [by destruct Hok|done]|].
    apply wpc_bind. eapply wpc_mono; [by apply (remove_port_wpc e v p)|].
    intros _ [e1 v2] [d ->]. apply wpc_bind. eapply wpc_eq; [reflexivity|]. rewrite no_exit. apply wpc_bind.
    eapply wpc_eq; [reflexivity|]. eapply wpc_eq; [reflexivity|]. split; [done|]. by exists d. }
  apply wpc_cases in Hw as [?|(r & [e' v'] & E & -> & d & ->)]; [by left|right].
  exists e', (set_vs_vdev d (unplugged v p)). split; [done|]. split; [by apply bus_ok_vdev, unplugged_ok|]. split; [done|].
  intros (w & Hw & Ht). cbn in Hw. rewrite list_lookup_alter_eq in Hw. destruct (vs_ports_map v !! _); [|done].
  injection Hw as <-. by rewrite Z.clearbit_eq in Ht.
Qed.
End Ports.

(** ** Setting up *)

(** The first queue of the port [i], as the driver of the guest expects it. *)
Definition port_ivq (i : nat) : nat := if decide (i = 0)%nat then 0 else 2 * i + 2.

Section Setup.
Context {B : Type}.
Implicit Types v : vser B.

(** The queue [n] has [size] entries and the handler [h]. *)
Definition queue_is v (n : nat) (size : Z) (h : queue_handler) : Prop :=
  vd_handlers (vs_vdev v) !! n = Some (Some h) /\
  ((fun q => vr_num (vq_vring q)) <$> vd_vq (vs_vdev v) !! n) = Some size.

Global Instance queue_handler_eq_dec : EqDecision queue_handler.
Proof. solve_decision. Defined.
Global Instance queue_is_dec v n size h : Decision (queue_is v n size h).
Proof. unfold queue_is. apply _. Defined.

(** What the device looks like when it is set up for [n] ports. *)
Definition setup_ok (n : nat) v : Prop :=
  vs_c_ivq v = 2%nat /\ vs_c_ovq v = 3%nat /\ vs_ports_map v = [1] /\
  vs_ivqs v = (port_ivq <$> seq 0 n) /\ vs_ovqs v = ((fun i => S (port_ivq i)) <$> seq 0 n) /\
  queue_is v 2 32 ControlIn /\ queue_is v 3 32 ControlOut /\
  Forall (fun i => queue_is v (port_ivq i) 128 HandleInput /\ queue_is v (S (port_ivq i)) 128 HandleOutput) (seq 0 n).
Global Instance setup_ok_dec n v : Decision (setup_ok n v).
Proof. unfold setup_ok. apply _. Defined.

Lemma setup_all {Y} e (y : Y) running (host : B) :
  Forall (fun n : nat => exists v, virtio_serial_init (Z.of_nat n) running host (e, y) = Done (Some v) (e, y) /\
    vs_ports v = [] /\ cf_max_nr_ports (vs_config v) = Z.of_nat n /\ vs_host v = host /\ setup_ok n v) (seq 1 31).
Proof.
  cbn [seq]. repeat constructor; (eexists; split; [vm_compute; reflexivity|]; split_and!; [reflexivity..|];
    apply (bool_decide_eq_true_1 (setup_ok _ _)); vm_compute; reflexivity).
Qed.

(** C30: The device is set up.  The number of ports is refused when it is zero or
    when there are not queues for it, that is above 31; otherwise the device has
    a queue pair of 128 entries with the data handlers for every port, a pair of
    32 entries with the control handlers, number 0 reserved, no port yet, and the
    bus is well formed. *)
Theorem serial_init_correct {Y} e (y : Y) running (host : B) n :
  0 <= n ->
  (n = 0 \/ 31 < n -> virtio_serial_init n running host (e, y) = Done None (e, y)) /\
  (1 <= n <= 31 -> exists v, virtio_serial_init n running host (e, y) = Done (Some v) (e, y) /\
     vs_ports v = [] /\ max_ports v = n /\ vs_host v = host /\ setup_ok (Z.to_nat n) v /\ bus_ok v).
Proof.
  intros H0. split.
  - intros Hn. unfold virtio_serial_init. destruct (Z.eqb_spec n 0); [done|].
    change (VIRTIO_PCI_QUEUE_MAX / 2 - 1) with 31. by rewrite (proj2 (Z.ltb_lt _ _)) by lia.
  - intros Hn. pose proof (setup_all e y running host) as Ha. rewrite list.Forall_forall in Ha.
    destruct (Ha (Z.to_nat n)) as (v & E & Hp & Hmax & Hh & Hok); [apply elem_of_seq; lia|].
    rewrite Z2Nat.id in E, Hmax by lia. exists v. split_and!; try done. unfold max_ports.
    destruct Hok as (Hci & _ & Hmap & Hi & Ho & _). unfold max_ports in *. split; unfold max_ports; rewrite ?Hmax, ?Hp, ?Hmap, ?Hi, ?Ho, ?Hci; try done.
    + lia.
    + replace ((n + 31) / 32) with 1 by (Z.to_euclidean_division_equations; lia). done.
    + by rewrite !length_fmap, !length_seq.
    + intros (i & Hi2 & _)%list_elem_of_fmap. unfold port_ivq in Hi2. destruct (decide (i = 0)%nat); lia.
    + constructor.
    + constructor.
Qed.
End Setup.

(** ** The configuration space *)

Section Config.
Context {B : Type} `{!PortClass B}.
Variables (map_ok : Z -> Z -> bool -> bool) (host_features : Z) (vmstate : option (bool -> K (vser B) unit)).
Local Instance callbacks : VirtioCallbacks queue_handler (vser B) := serial_callbacks map_ok host_features vmstate.
Implicit Types v : vser B.

Lemma length_config c : length (encode_config c) = 8%nat.
Proof. unfold encode_config. by rewrite !length_app, !length_le_bytes. Qed.

(** What the guest reads of the configuration. *)
Definition config_at v (n : nat) (addr : Z) : Z :=
  if addr + Z.of_nat n <=? 8 then le_val (take n (drop (Z.to_nat addr) (encode_config (vs_config v)))) else 2 ^ 32 - 1.

Lemma config_fields v :
  0 <= cf_cols (vs_config v) < 2 ^ 16 -> 0 <= cf_rows (vs_config v) < 2 ^ 16 -> 0 <= max_ports v < 2 ^ 32 ->
  config_at v 2 0 = cf_cols (vs_config v) /\ config_at v 2 2 = cf_rows (vs_config v) /\ config_at v 4 4 = max_ports v.
Proof.
  intros Hc Hr Hm. unfold config_at, encode_config, max_ports in *. destruct (vs_config v) as [c r m]. cbn [cf_cols cf_rows cf_max_nr_ports] in *.
  assert (L : forall n z, length (le_bytes n z) = n) by (intros; apply length_le_bytes).
  change (Z.to_nat 0) with 0%nat. change (Z.to_nat 2) with 2%nat. change (Z.to_nat 4) with (2 + 2)%nat.
  rewrite <- (drop_drop _ 2 2). rewrite drop_0, !(drop_app_length' _ _ 2), !(take_app_length' _ _ 2) by (by rewrite L).
  rewrite (take_ge (le_bytes 4 m)) by (by rewrite L). rewrite !le_val_le_bytes.
  split_and!; by apply Z.mod_small.
Qed.

(** The guest reads the configuration space of the device.  An access of one,
    two or four bytes gives these bytes of the current configuration in little
    endian, all ones when it ends beyond it; the fields at 0, 2 and 4 are the
    columns, the rows and the number of ports. *)
Theorem serial_config_read n addr e v :
  (0 < n <= 4)%nat -> 0 <= addr < 2 ^ 32 -> vd_config_len (vs_vdev v) = 8 -> length (vd_config (vs_vdev v)) = 8%nat ->
  0 <= cf_cols (vs_config v) < 2 ^ 16 -> 0 <= cf_rows (vs_config v) < 2 ^ 16 -> 0 <= max_ports v < 2 ^ 32 ->
  virtio_config_read n addr (e, v) =
    Done (config_at v n addr) (e, set_vs_vdev (set_vd_config 8 (encode_config (vs_config v)) (vs_vdev v)) v) /\
  config_at v 2 0 = cf_cols (vs_config v) /\ config_at v 2 2 = cf_rows (vs_config v) /\ config_at v 4 4 = max_ports v.
Proof.
  intros Hn Ha Hl Hc Hco Hro Hm. split; [|by apply config_fields]. set (v1 := set_vs_vdev _ v).
  assert (E : get_config_now (e, v) = Done tt (e, v1)).
  { unfold get_config_now. etrans; [by eapply bind_done|]. etrans; [by eapply bind_done|]. cbn [fst snd].
    change (get_vdev v) with (vs_vdev v). rewrite Hc, length_config. cbn [Nat.ltb Nat.leb].
    unfold mod_vdev, modx. cbn [fst snd]. change (get_vdev v) with (vs_vdev v).
    rewrite Hl, drop_ge, app_nil_r by lia. done. }
  unfold virtio_config_read. etrans; [eapply bind_done, E|].
  assert (Ed : vdev_of (e, v1) = Done (vs_vdev v1) (e, v1)) by done. etrans; [eapply bind_done, Ed|].
  change (vd_config_len (vs_vdev v1)) with 8. change (vd_config (vs_vdev v1)) with (encode_config (vs_config v)).
  rewrite length_config, u64_small by lia. unfold config_at.
  destruct (Z.ltb_spec (8 - Z.of_nat n) addr).
  - by rewrite (proj2 (Z.leb_gt _ _)) by lia.
  - rewrite (proj2 (Z.leb_le _ _)) by lia. by rewrite (proj2 (Z.ltb_ge _ _)) by lia.
Qed.
End Config.
