(* ===== verification/QemuFile.v ===== *)
(** * The buffered files of QEMU

    [QEMUFile] of [qemu-1.2.0/savevm.c]: the stream that the state of a virtual
    machine is saved to and loaded from, in front of a file, a socket or a block
    device, whose [put_buffer] and [get_buffer] are the class [FileOps].  The
    object is a [struct QEMUFile]. *)
From stdpp Require Import base gmap gmultiset list strings numbers.
From S2P Require Import Prelude Kernel.
Open Scope Z_scope.

Definition IO_BUF_SIZE : Z := 32768.
Definition EIO : Z := 5.

(** What is behind a file.  [put_buffer] writes bytes at a position and returns
    a count or an error; [get_buffer] reads up to a number of bytes from a
    position, [inr] being an error. *)
Class FileOps (Y : Type) := {
  put_buffer : option (bytes -> Z -> K Y Z);
  get_buffer : option (Z -> Z -> K Y (bytes + Z))
}.

(** [struct QEMUFile]; [qf_buf] are the bytes of [buf] in use, which are the
    first [buf_index] while writing and the first [buf_size] while reading. *)
Record qfile (Y : Type) := QFile {
  qf_opaque : Y; qf_is_write : bool; qf_buf_offset : Z;
  qf_buf_index : Z; qf_buf_size : Z; qf_buf : bytes; qf_last_error : Z }.
Arguments QFile {Y}.
Arguments qf_opaque {Y}.
Arguments qf_is_write {Y}.
Arguments qf_buf_offset {Y}.
Arguments qf_buf_index {Y}.
Arguments qf_buf_size {Y}.
Arguments qf_buf {Y}.
Arguments qf_last_error {Y}.

Section File.
Context {Y : Type} `{!FileOps Y}.
Implicit Types f : qfile Y.

Definition set_qf_opaque (y : Y) f : qfile Y :=
  QFile y (qf_is_write f) (qf_buf_offset f) (qf_buf_index f) (qf_buf_size f) (qf_buf f) (qf_last_error f).
Definition set_qf_error (v : Z) f : qfile Y :=
  QFile (qf_opaque f) (qf_is_write f) (qf_buf_offset f) (qf_buf_index f) (qf_buf_size f) (qf_buf f) v.
Definition set_qf_offset (v : Z) f : qfile Y :=
  QFile (qf_opaque f) (qf_is_write f) v (qf_buf_index f) (qf_buf_size f) (qf_buf f) (qf_last_error f).
Definition set_qf_index (v : Z) f : qfile Y :=
  QFile (qf_opaque f) (qf_is_write f) (qf_buf_offset f) v (qf_buf_size f) (qf_buf f) (qf_last_error f).
Definition set_qf_buf (index size : Z) (b : bytes) f : qfile Y :=
  QFile (qf_opaque f) (qf_is_write f) (qf_buf_offset f) index size b (qf_last_error f).
Definition set_qf_write f : qfile Y :=
  QFile (qf_opaque f) true (qf_buf_offset f) (qf_buf_index f) (qf_buf_size f) (qf_buf f) (qf_last_error f).

(** [qemu_fopen_ops] *)
Definition qemu_fopen_ops (opaque : Y) : qfile Y := QFile opaque false 0 0 0 [] 0.

(** [qemu_file_set_error] *)
Definition qemu_file_set_error (ret : Z) : K (qfile Y) unit := modx (set_qf_error ret).

Definition on_opaque {A} (m : K Y A) : K (qfile Y) A :=
  f ← getx;
  '(a, y) ← on_local (qf_opaque f) m;
  modx (set_qf_opaque y);;
  mret a.

(** [qemu_fflush] *)
Definition qemu_fflush : K (qfile Y) unit :=
  f ← getx;
  match put_buffer with
  | None => mret tt
  | Some put =>
      if qf_is_write f && (0 <? qf_buf_index f) then
        len ← on_opaque (put (take (Z.to_nat (qf_buf_index f)) (qf_buf f)) (qf_buf_offset f));
        (if 0 <? len then modx (set_qf_offset (qf_buf_offset f + qf_buf_index f))
         else qemu_file_set_error (- EINVAL));;
        modx (set_qf_index 0)
      else mret tt
  end.

(** [qemu_fill_buffer]: what is left in the buffer moves to its start, and more
    is read behind it. *)
Definition qemu_fill_buffer : K (qfile Y) unit :=
  match get_buffer with
  | None => mret tt
  | Some get =>
      f ← getx;
      if qf_is_write f then crashed Exited
      else
        let pending := qf_buf_size f - qf_buf_index f in
        let kept := take (Z.to_nat pending) (drop (Z.to_nat (qf_buf_index f)) (qf_buf f)) in
        modx (set_qf_buf 0 pending kept);;
        r ← on_opaque (get (qf_buf_offset f) (IO_BUF_SIZE - pending));
        match r with
        | inl bs =>
            let len := Z.of_nat (length bs) in
            if 0 <? len then
              modx (set_qf_buf 0 (pending + len) (kept ++ bs));;
              modx (set_qf_offset (qf_buf_offset f + len))
            else qemu_file_set_error (- EIO)
        | inr err => if err =? - EAGAIN then mret tt else qemu_file_set_error err
        end
  end.

(** ** Writing *)

(** The check at the start of [qemu_put_buffer] and [qemu_put_byte]. *)
Definition reading_back f : bool :=
  (qf_last_error f =? 0) && negb (qf_is_write f) && (0 <? qf_buf_index f).

(** Appends [l] to the buffer, and writes the buffer out when it is full. *)
Definition append_buf (l : bytes) : K (qfile Y) unit :=
  f ← getx;
  let index := qf_buf_index f + Z.of_nat (length l) in
  if IO_BUF_SIZE <? index then crashed OutOfBounds
  else
    modx (set_qf_buf index (qf_buf_size f) (take (Z.to_nat (qf_buf_index f)) (qf_buf f) ++ l));;
    modx set_qf_write;;
    if IO_BUF_SIZE <=? index then qemu_fflush else mret tt.

(** [qemu_put_buffer] *)
Definition put_round (buf : bytes) : K (qfile Y) (bytes + unit) :=
  f ← getx;
  if negb (qf_last_error f =? 0) || (length buf =? 0)%nat then mret (inr tt)
  else
    let l := Z.to_nat (Z.min (IO_BUF_SIZE - qf_buf_index f) (Z.of_nat (length buf))) in
    append_buf (take l buf);;
    mret (inl (drop l buf)).
Definition qemu_put_buffer (buf : bytes) : K (qfile Y) unit :=
  f ← getx;
  if reading_back f then crashed Exited else while_loop put_round buf.

(** [qemu_put_byte] *)
Definition qemu_put_byte (v : Z) : K (qfile Y) unit :=
  f ← getx;
  if reading_back f then crashed Exited else append_buf [u8 v].

(** [qemu_put_be16], [qemu_put_be32] and [qemu_put_be64] *)
Definition qemu_put_be16 (v : Z) : K (qfile Y) unit :=
  qemu_put_byte (Z.shiftr v 8);;
  qemu_put_byte v.
Definition qemu_put_be32 (v : Z) : K (qfile Y) unit :=
  qemu_put_byte (Z.shiftr v 24);;
  qemu_put_byte (Z.shiftr v 16);;
  qemu_put_byte (Z.shiftr v 8);;
  qemu_put_byte v.
Definition qemu_put_be64 (v : Z) : K (qfile Y) unit :=
  qemu_put_be32 (Z.shiftr v 32);;
  qemu_put_be32 v.

(** ** Reading *)

(** [qemu_file_skip] *)
Definition qemu_file_skip (size : Z) : K (qfile Y) unit :=
  modx (fun f => if qf_buf_index f + size <=? qf_buf_size f
                 then set_qf_index (qf_buf_index f + size) f else f).

(** [qemu_peek_buffer]: the bytes copied. *)
Definition qemu_peek_buffer (size offset : Z) : K (qfile Y) bytes :=
  f ← getx;
  if qf_is_write f then crashed Exited
  else
    (if qf_buf_size f - (qf_buf_index f + offset) <? size then qemu_fill_buffer else mret tt);;
    f ← getx;
    let index := qf_buf_index f + offset in
    let pending := qf_buf_size f - index in
    if pending <=? 0 then mret []
    else mret (take (Z.to_nat (Z.min size pending)) (drop (Z.to_nat index) (qf_buf f))).

(** [qemu_get_buffer]: the bytes read, which are all that were asked for, or
    less at the end of the file. *)
Definition get_round (st : Z * bytes) : K (qfile Y) ((Z * bytes) + bytes) :=
  let '(pending, got) := st in
  if pending <=? 0 then mret (inr got)
  else
    bs ← qemu_peek_buffer pending 0;
    match bs with
    | [] => mret (inr got)
    | _ =>
        let res := Z.of_nat (length bs) in
        qemu_file_skip res;;
        mret (inl (pending - res, got ++ bs))
    end.
Definition qemu_get_buffer (size : Z) : K (qfile Y) bytes := while_loop get_round (size, []).

(** [qemu_peek_byte] and [qemu_get_byte] *)
Definition qemu_peek_byte (offset : Z) : K (qfile Y) Z :=
  f ← getx;
  if qf_is_write f then crashed Exited
  else
    (if qf_buf_size f <=? qf_buf_index f + offset then qemu_fill_buffer else mret tt);;
    f ← getx;
    let index := qf_buf_index f + offset in
    if qf_buf_size f <=? index then mret 0
    else mret (default 0 (qf_buf f !! Z.to_nat index)).
Definition qemu_get_byte : K (qfile Y) Z :=
  result ← qemu_peek_byte 0;
  qemu_file_skip 1;;
  mret result.

(** [qemu_get_be16], [qemu_get_be32] and [qemu_get_be64] *)
Definition qemu_get_be16 : K (qfile Y) Z :=
  b1 ← qemu_get_byte;
  b0 ← qemu_get_byte;
  mret (Z.lor (Z.shiftl b1 8) b0).
Definition qemu_get_be32 : K (qfile Y) Z :=
  b3 ← qemu_get_byte;
  b2 ← qemu_get_byte;
  b1 ← qemu_get_byte;
  b0 ← qemu_get_byte;
  mret (Z.lor (Z.lor (Z.lor (Z.shiftl b3 24) (Z.shiftl b2 16)) (Z.shiftl b1 8)) b0).
Definition qemu_get_be64 : K (qfile Y) Z :=
  hi ← qemu_get_be32;
  lo ← qemu_get_be32;
  mret (Z.lor (Z.shiftl hi 32) lo).

(** [qemu_ftell] *)
Definition qemu_ftell f : Z := qf_buf_offset f - qf_buf_size f + qf_buf_index f.
End File.
