(* ===== verification/QemuFileFacts.v ===== *)
(** * Facts about the buffered files of QEMU

    Behind its buffer a file is a stream of bytes: what is written is appended
    to what was written before, and what is read is the front of what is left,
    whatever pieces the bytes come in from below. *)
From stdpp Require Import base gmap gmultiset list strings numbers.
From S2P Require Import Prelude Kernel KernelFacts QemuFile.
Open Scope Z_scope.

(** ** Big-endian numbers *)

Definition be_bytes (n : nat) (z : Z) : bytes := rev (le_bytes n z).
Definition be_val (bs : bytes) : Z := le_val (rev bs).

Lemma length_be_bytes n z : length (be_bytes n z) = n.
Proof. unfold be_bytes. by rewrite length_rev, length_le_bytes. Qed.

Lemma be_val_be_bytes n z : be_val (be_bytes n z) = z mod 2 ^ (8 * Z.of_nat n).
Proof. unfold be_val, be_bytes. by rewrite rev_involutive, le_val_le_bytes. Qed.

Lemma lor_shift b c k : 0 <= k -> 0 <= c < 2 ^ k -> Z.lor (Z.shiftl b k) c = b * 2 ^ k + c.
Proof.
  intros Hk Hc. rewrite <- Z.shiftl_mul_pow2 by done. rewrite <- Z.add_lor_land.
  replace (Z.land (Z.shiftl b k) c) with 0; [lia|]. apply Z.bits_inj'. intros i Hi. rewrite Z.land_spec, Z.bits_0.
  destruct (Z.lt_ge_cases i k).
  - by rewrite Z.shiftl_spec_low.
  - replace c with (c mod 2 ^ k) by (by apply Z.mod_small). by rewrite Z.mod_pow2_bits_high, andb_false_r by lia.
Qed.

(** ** Writing *)

(** What is below takes all that it is given. *)
Class OutStream (Y : Type) `{!FileOps Y} := {
  out : Y -> bytes;
  put_out : bytes -> Z -> K Y Z;
  put_out_buffer : put_buffer = Some put_out;
  put_out_spec : forall bs pos e y, bs <> [] ->
    exists r y', put_out bs pos (e, y) = Done r (e, y') /\ 0 < r /\ out y' = out y ++ bs
}.

Section Writing.
Context {Y : Type} `{!FileOps Y, !OutStream Y}.
Implicit Types f : qfile Y.

Definition written f : bytes := out (qf_opaque f) ++ take (Z.to_nat (qf_buf_index f)) (qf_buf f).

Record writer_ok f : Prop := {
  wo_error : qf_last_error f = 0;
  wo_index : 0 <= qf_buf_index f < IO_BUF_SIZE;
  wo_buf : qf_buf_index f <= Z.of_nat (length (qf_buf f));
  wo_write : qf_is_write f = false -> qf_buf_index f = 0
}.

Lemma writer_not_reading f : writer_ok f -> reading_back f = false.
Proof.
  intros [He _ _ Hw]. unfold reading_back. rewrite He. destruct (qf_is_write f); [done|]. by rewrite (Hw eq_refl).
Qed.

(** [m] writes [bs]. *)
Definition puts (m : K (qfile Y) unit) (bs : bytes) : Prop :=
  forall e f, writer_ok f -> exists f', m (e, f) = Done tt (e, f') /\ writer_ok f' /\ written f' = written f ++ bs.

Lemma puts_ret : puts (mret tt) [].
Proof. intros e f Hf. exists f. by rewrite app_nil_r. Qed.

Lemma puts_bind m bs m' bs' : puts m bs -> puts m' bs' -> puts (m;; m') (bs ++ bs').
Proof.
  intros Hm Hm' e f Hf. destruct (Hm e f Hf) as (f1 & E1 & Hf1 & W1). destruct (Hm' e f1 Hf1) as (f2 & E2 & Hf2 & W2).
  exists f2. split; [etrans; [eapply bind_done, E1|exact E2]|]. split; [done|]. by rewrite W2, W1, app_assoc.
Qed.

(** The same from the environment [e] on. *)
Definition puts_at e (m : K (qfile Y) unit) (bs : bytes) : Prop :=
  forall f, writer_ok f -> exists f', m (e, f) = Done tt (e, f') /\ writer_ok f' /\ written f' = written f ++ bs.

Lemma puts_then e m bs m' bs' : puts m bs -> puts_at e m' bs' -> puts_at e (m;; m') (bs ++ bs').
Proof.
  intros Hm Hm' f Hf. destruct (Hm e f Hf) as (f1 & E1 & Hf1 & W1). destruct (Hm' f1 Hf1) as (f2 & E2 & Hf2 & W2).
  exists f2. split; [etrans; [eapply bind_done, E1|exact E2]|]. split; [done|]. by rewrite W2, W1, app_assoc.
Qed.

Lemma puts_gete e (k : env -> K (qfile Y) unit) bs : puts_at e (k e) bs -> puts_at e (gete ≫= k) bs.
Proof. done. Qed.

(** [qemu_fflush] hands the buffer on. *)
Lemma fflush_spec e f :
  qf_last_error f = 0 -> qf_is_write f = true -> 0 <= qf_buf_index f <= Z.of_nat (length (qf_buf f)) ->
  exists f', qemu_fflush (e, f) = Done tt (e, f') /\ writer_ok f' /\ written f' = written f /\
    out (qf_opaque f') = written f.
Proof.
  intros He Hw Hi.
  destruct (Z.ltb_spec 0 (qf_buf_index f)) as [Hpos|Hz].
  - set (bs := take (Z.to_nat (qf_buf_index f)) (qf_buf f)).
    destruct (put_out_spec bs (qf_buf_offset f) e (qf_opaque f)) as (r & y' & E & Hr & Ho).
    { intros Hn. apply (f_equal length) in Hn. unfold bs in Hn. rewrite length_take in Hn. cbn in Hn. lia. }
    eexists. split; [|split; [|split]].
    + unfold qemu_fflush. etrans; [by eapply bind_done|]. cbn [snd].
      rewrite put_out_buffer, Hw, (proj2 (Z.ltb_lt _ _)) by done. cbn [andb].
      etrans; [eapply bind_done; unfold on_opaque, mbind, M_bind, on_local; cbn [getx fst snd]; fold bs; rewrite E; reflexivity|].
      rewrite (proj2 (Z.ltb_lt _ _)) by done. reflexivity.
    + split; cbn; try done; lia.
    + unfold written. cbn. by rewrite app_nil_r, Ho.
    + cbn. by rewrite Ho.
  - assert (qf_buf_index f = 0) as Hi0 by lia. exists f. split; [|split; [|split]].
    + unfold qemu_fflush. etrans; [by eapply bind_done|]. cbn [snd].
      by rewrite put_out_buffer, Hw, (proj2 (Z.ltb_ge _ _)) by lia.
    + split; try done; rewrite Hi0; unfold IO_BUF_SIZE; lia.
    + done.
    + unfold written. by rewrite Hi0, app_nil_r.
Qed.

Lemma append_buf_spec l e f :
  writer_ok f -> qf_buf_index f + Z.of_nat (length l) <= IO_BUF_SIZE ->
  exists f', append_buf l (e, f) = Done tt (e, f') /\ writer_ok f' /\ written f' = written f ++ l.
Proof.
  intros [He Hi Hb Hw] Hl. set (index := qf_buf_index f + Z.of_nat (length l)).
  set (f1 := set_qf_write (set_qf_buf index (qf_buf_size f) (take (Z.to_nat (qf_buf_index f)) (qf_buf f) ++ l) f)).
  assert (Hlen : length (qf_buf f1) = Z.to_nat index).
  { cbn. rewrite length_app, length_take. unfold index. lia. }
  assert (Hwr : written f1 = written f ++ l).
  { unfold written. rewrite <- app_assoc. f_equal. change (qf_buf_index f1) with index. rewrite <- Hlen, firstn_all. done. }
  assert (E : append_buf l (e, f) = (if IO_BUF_SIZE <=? index then qemu_fflush else mret tt) (e, f1)).
  { unfold append_buf. etrans; [by eapply bind_done|]. cbn [snd]. fold index.
    by rewrite (proj2 (Z.ltb_ge _ _)) by done. }
  destruct (Z.leb_spec IO_BUF_SIZE index) as [Hfull|Hroom].
  - destruct (fflush_spec e f1) as (f2 & E2 & Hf2 & W2 & _); [done|done| |].
    { rewrite Hlen. change (qf_buf_index f1) with index. unfold index. lia. }
    exists f2. split; [by rewrite E|]. split; [done|]. by rewrite W2.
  - exists f1. split; [done|]. split; [|done]. split; try done; rewrite ?Hlen; change (qf_buf_index f1) with index; unfold index in *; lia.
Qed.

Lemma put_byte_puts v : puts (qemu_put_byte v) [u8 v].
Proof.
  intros e f Hf. destruct (append_buf_spec [u8 v] e f Hf) as (f' & E & Hf'); [destruct Hf; cbn; lia|].
  exists f'. split; [|done]. unfold qemu_put_byte. etrans; [by eapply bind_done|]. cbn [snd].
  by rewrite writer_not_reading.
Qed.

Lemma shift_byte v k : 0 <= k -> u8 (Z.shiftr v k) = v / 2 ^ k mod 256.
Proof. intros Hk. by rewrite Z.shiftr_div_pow2. Qed.

Lemma put_be16_puts v : puts (qemu_put_be16 v) (be_bytes 2 v).
Proof.
  unfold qemu_put_be16. change (be_bytes 2 v) with ([v / 256 mod 256] ++ [v mod 256]).
  replace (v / 256 mod 256) with (u8 (Z.shiftr v 8)) by (by rewrite shift_byte).
  apply puts_bind; apply put_byte_puts.
Qed.

Lemma put_be32_puts v : puts (qemu_put_be32 v) (be_bytes 4 v).
Proof.
  unfold qemu_put_be32.
  change (be_bytes 4 v) with ([v / 256 / 256 / 256 mod 256] ++ [v / 256 / 256 mod 256] ++ [v / 256 mod 256] ++ [v mod 256]).
  rewrite !Z.div_div by done.
  change (256 * (256 * 256)) with (2 ^ 24). change (256 * 256) with (2 ^ 16). change (v / 256) with (v / 2 ^ 8).
  rewrite <- !shift_byte by done. repeat apply puts_bind; apply put_byte_puts.
Qed.

Lemma be_bytes_8 v : be_bytes 8 v = be_bytes 4 (v / 2 ^ 32) ++ be_bytes 4 v.
Proof.
  unfold be_bytes. rewrite <- rev_app_distr. f_equal. cbn [le_bytes app]. change (2 ^ 32) with (256 * (256 * (256 * 256))).
  by rewrite <- !Z.div_div by done.
Qed.

Lemma put_be64_puts v : puts (qemu_put_be64 v) (be_bytes 8 v).
Proof.
  unfold qemu_put_be64. rewrite be_bytes_8. apply puts_bind; [|apply put_be32_puts].
  rewrite Z.shiftr_div_pow2 by done. apply put_be32_puts.
Qed.

(** One round of [qemu_put_buffer]. *)
Lemma put_round_spec buf e f : writer_ok f -> buf <> [] ->
  exists l f', put_round buf (e, f) = Done (inl (drop l buf)) (e, f') /\ writer_ok f' /\
    (0 < l <= length buf)%nat /\ written f' = written f ++ take l buf.
Proof.
  intros Hf Hne. set (l := Z.to_nat (Z.min (IO_BUF_SIZE - qf_buf_index f) (Z.of_nat (length buf)))).
  assert (Hlen : (0 < length buf)%nat) by (destruct buf; [done|cbn; lia]).
  assert (Hl : (0 < l <= length buf)%nat) by (unfold l; destruct Hf; lia).
  destruct (append_buf_spec (take l buf) e f Hf) as (f' & E & Hf' & W).
  { rewrite length_take. unfold l. destruct Hf. lia. }
  exists l, f'. split_and!; try done; [|lia..]. unfold put_round. etrans; [by eapply bind_done|]. cbn [snd].
  rewrite (wo_error _ Hf). destruct (Nat.eqb_spec (length buf) 0); [lia|]. cbn [orb negb].
  change (negb (0 =? 0)) with false. cbn [orb]. fold l. by etrans; [eapply bind_done, E|].
Qed.

Lemma put_buffer_puts bs : Z.of_nat (length bs) < 2 ^ 31 -> puts (qemu_put_buffer bs) bs.
Proof.
  intros Hbs e f Hf.
  assert (Hw : wp (qemu_put_buffer bs) (fun _ '(e', f') => e' = e /\ writer_ok f' /\ written f' = written f ++ bs) (e, f)).
  { unfold qemu_put_buffer. apply wp_bind. eapply wp_eq; [reflexivity|]. cbn [snd]. rewrite writer_not_reading by done.
    eapply (wp_while _ (fun z buf '(e', f') => z = Z.of_nat (length buf) /\ e' = e /\ writer_ok f' /\
      written f' ++ buf = written f ++ bs)).
    - intros z buf [e1 f1] (-> & -> & Hf1 & W). destruct (decide (buf = [])) as [->|Hne].
      + eapply wp_eq. { unfold put_round. etrans; [by eapply bind_done|]. rewrite orb_true_r. reflexivity. }
        by rewrite app_nil_r in W.
      + destruct (put_round_spec buf e f1 Hf1 Hne) as (l & f2 & E & Hf2 & Hl & W2). eapply wp_eq; [exact E|].
        exists (Z.of_nat (length (drop l buf))). rewrite length_drop. split; [lia|]. split_and!; try done.
        rewrite W2, <- app_assoc, take_drop. done.
    - done.
    - unfold LOOP_BOUND. lia. }
  apply wp_done in Hw as ([] & [e' f'] & E & -> & Hf' & W). by exists f'.
Qed.
End Writing.

(** ** Reading *)

(** What is below gives some of what is left, unless nothing is. *)
Class InStream (Y : Type) `{!FileOps Y} := {
  left_in : Y -> bytes;
  get_in : Z -> Z -> K Y (bytes + Z);
  get_in_buffer : get_buffer = Some get_in;
  get_in_spec : forall pos size e y, 0 <= size ->
    exists bs y', get_in pos size (e, y) = Done (inl bs) (e, y') /\ left_in y = bs ++ left_in y' /\
      Z.of_nat (length bs) <= size /\ (0 < size -> left_in y <> [] -> bs <> [])
}.

Section Reading.
Context {Y : Type} `{!FileOps Y, !InStream Y}.
Implicit Types f : qfile Y.

Definition ahead f : bytes := drop (Z.to_nat (qf_buf_index f)) (qf_buf f) ++ left_in (qf_opaque f).

Record reader_ok f : Prop := {
  ro_read : qf_is_write f = false;
  ro_index : 0 <= qf_buf_index f <= qf_buf_size f;
  ro_size : qf_buf_size f = Z.of_nat (length (qf_buf f));
  ro_bound : qf_buf_size f <= IO_BUF_SIZE
}.

(** The bytes in the buffer. *)
Definition pending f : Z := qf_buf_size f - qf_buf_index f.

Lemma length_ahead f : reader_ok f -> pending f <= Z.of_nat (length (ahead f)).
Proof. intros [_ Hi Hs _]. unfold ahead, pending. rewrite length_app, length_drop. lia. Qed.

(** [qemu_fill_buffer] takes nothing away, and gets something if there is
    anything. *)
Lemma fill_spec e f : reader_ok f ->
  exists f', qemu_fill_buffer (e, f) = Done tt (e, f') /\ reader_ok f' /\ ahead f' = ahead f /\
    qf_buf_index f' = 0 /\ pending f <= pending f' /\ (pending f = 0 -> ahead f <> [] -> 0 < pending f').
Proof.
  intros [Hr Hi Hs Hb]. fold (pending f). set (kept := drop (Z.to_nat (qf_buf_index f)) (qf_buf f)).
  assert (Hk : Z.of_nat (length kept) = pending f) by (unfold kept, pending; rewrite length_drop; lia).
  destruct (get_in_spec (qf_buf_offset f) (IO_BUF_SIZE - pending f) e (qf_opaque f)) as (bs & y' & E & Hleft & Hlen & Hsome).
  { unfold pending. lia. }
  set (f1 := set_qf_opaque y' (set_qf_buf 0 (pending f) kept f)).
  assert (E1 : qemu_fill_buffer (e, f) = (if 0 <? Z.of_nat (length bs) then
      modx (set_qf_buf 0 (pending f + Z.of_nat (length bs)) (kept ++ bs));;
      modx (set_qf_offset (qf_buf_offset f + Z.of_nat (length bs)))
    else qemu_file_set_error (- EIO)) (e, f1)).
  { unfold qemu_fill_buffer. rewrite get_in_buffer. etrans; [by eapply bind_done|]. cbn [snd]. rewrite Hr. fold (pending f).
    replace (take (Z.to_nat (pending f)) _) with kept by (rewrite take_ge; [done|fold kept; lia]).
    etrans; [by eapply bind_done|].
    etrans; [eapply bind_done; unfold on_opaque, mbind, M_bind, on_local; cbn [getx fst snd qf_opaque set_qf_buf]; rewrite E; reflexivity|].
    done. }
  destruct (Z.ltb_spec 0 (Z.of_nat (length bs))) as [Hpos|Hz]; (eexists; split; [rewrite E1; reflexivity|]).
  - cbn. split_and!; [split; cbn; try done; rewrite ?length_app; unfold pending in *; lia| |done|unfold pending; cbn; lia|unfold pending; cbn; lia].
    change ((kept ++ bs) ++ left_in y' = kept ++ left_in (qf_opaque f)). by rewrite Hleft, app_assoc.
  - assert (bs = []) as -> by (destruct bs; [done|cbn in Hz; lia]). cbn in Hleft.
    split_and!; [split; cbn; try done; unfold pending in *; lia| |done|unfold pending at 2; cbn; lia|].
    + change (kept ++ left_in y' = kept ++ left_in (qf_opaque f)). by rewrite Hleft.
    + intros H0 Hne. exfalso. apply Hsome; [unfold IO_BUF_SIZE; lia| |done].
      intros Hn. apply Hne. unfold ahead. fold kept. rewrite Hn, app_nil_r. destruct kept; [done|cbn in Hk; lia].
Qed.

Lemma skip_spec n e f : reader_ok f -> 0 <= n <= pending f ->
  exists f', qemu_file_skip n (e, f) = Done tt (e, f') /\ reader_ok f' /\ ahead f' = drop (Z.to_nat n) (ahead f).
Proof.
  intros [Hr Hi Hs Hb] Hn. unfold pending in Hn. exists (set_qf_index (qf_buf_index f + n) f).
  split; [unfold qemu_file_skip, modx; cbn [fst snd]; by rewrite (proj2 (Z.leb_le _ _)) by lia|].
  split; [split; cbn; try done; lia|]. unfold ahead. cbn [qf_buf_index qf_buf qf_opaque set_qf_index].
  rewrite drop_app_le by (rewrite length_drop; lia). rewrite drop_drop. do 2 f_equal. lia.
Qed.

(** [qemu_peek_buffer] gives a front part of what is ahead. *)
Lemma peek_buffer_spec size e f : reader_ok f -> 0 < size ->
  exists n f', qemu_peek_buffer size 0 (e, f) = Done (take n (ahead f)) (e, f') /\ reader_ok f' /\ ahead f' = ahead f /\
    Z.of_nat n <= Z.min size (pending f') /\ (ahead f <> [] -> (0 < n)%nat).
Proof.
  intros Hf Hsz.
  assert (Hfill : exists f', (if pending f <? size then qemu_fill_buffer else mret tt) (e, f) = Done tt (e, f') /\ reader_ok f' /\
    ahead f' = ahead f /\ (ahead f <> [] -> 0 < pending f')).
  { destruct (Z.ltb_spec (pending f) size) as [Hlt|Hge].
    - destruct (fill_spec e f Hf) as (f' & E & Hf' & Ha & _ & Hp & H0). exists f'. split_and!; try done.
      intros Hne. destruct (decide (pending f = 0)); [by apply H0|]. destruct Hf. unfold pending in *. lia.
    - exists f. split_and!; try done. intros _. lia. }
  destruct Hfill as (f' & E & Hf' & Ha & Hpos). exists (Z.to_nat (Z.min size (pending f'))), f'.
  assert (Hpf : 0 <= pending f') by (destruct Hf'; unfold pending; lia).
  split; [|split_and!; try done; [lia|intros Hne; specialize (Hpos Hne); lia]].
  unfold qemu_peek_buffer. etrans; [by eapply bind_done|]. cbn [snd]. rewrite (ro_read _ Hf), Z.add_0_r. fold (pending f).
  etrans; [by eapply bind_done|]. etrans; [by eapply bind_done|]. cbn [snd]. rewrite Z.add_0_r. fold (pending f').
  rewrite <- Ha. destruct (Z.leb_spec (pending f') 0) as [Hz|Hp].
  - replace (pending f') with 0 by lia. by rewrite Z.min_r by lia.
  - unfold ahead. rewrite take_app_le; [done|]. destruct Hf'. rewrite length_drop. unfold pending. lia.
Qed.

Lemma nothing_left (l : bytes) i j : drop i l = [] -> (i <= j)%nat -> take i l = take j l /\ drop j l = [].
Proof.
  intros Hd Hij. assert (length l <= i)%nat by (apply (f_equal length) in Hd; rewrite length_drop in Hd; cbn in Hd; lia).
  rewrite !take_ge, drop_ge by lia. done.
Qed.

(** [qemu_get_buffer] reads the front of what is ahead. *)
Lemma get_buffer_spec n e f : reader_ok f -> 0 <= n < 2 ^ 31 ->
  exists f', qemu_get_buffer n (e, f) = Done (take (Z.to_nat n) (ahead f)) (e, f') /\ reader_ok f' /\
    ahead f' = drop (Z.to_nat n) (ahead f).
Proof.
  intros Hf Hn.
  assert (Hw : wp (qemu_get_buffer n) (fun bs '(e', f') => e' = e /\ reader_ok f' /\ bs = take (Z.to_nat n) (ahead f) /\
    ahead f' = drop (Z.to_nat n) (ahead f)) (e, f)).
  { unfold qemu_get_buffer.
    eapply (wp_while _ (fun z '(p, got) '(e', f') => z = p /\ 0 <= p <= n /\ e' = e /\ reader_ok f' /\
      got = take (Z.to_nat (n - p)) (ahead f) /\ ahead f' = drop (Z.to_nat (n - p)) (ahead f))).
    - intros z [p got] [e1 f1] (-> & Hp & -> & Hf1 & -> & Ha). unfold get_round.
      destruct (Z.leb_spec p 0) as [Hz|Hpos].
      { replace (n - p) with n in * by lia. by eapply wp_eq. }
      destruct (peek_buffer_spec p e f1 Hf1 Hpos) as (k & f2 & E2 & Hf2 & Ha2 & Hk & Hne).
      apply wp_bind. eapply wp_eq; [exact E2|]. destruct (decide (ahead f1 = [])) as [Hnil|Hsome].
      { rewrite Hnil, take_nil. eapply wp_eq; [reflexivity|]. rewrite Hnil in Ha.
        destruct (nothing_left (ahead f) (Z.to_nat (n - p)) (Z.to_nat n)) as [-> Hd]; [done|lia|].
        split_and!; try done. by rewrite Ha2, Hnil, Hd. }
      specialize (Hne Hsome). assert (Hkl : (k <= length (ahead f1))%nat) by (pose proof (length_ahead f2 Hf2); rewrite Ha2 in *; lia).
      assert (Htk : length (take k (ahead f1)) = k) by (rewrite length_take; lia).
      destruct (take k (ahead f1)) as [|b bs] eqn:Et; [cbn in Htk; lia|]. rewrite <- Et in *. clear Et b bs. rewrite Htk.
      destruct (skip_spec (Z.of_nat k) e f2 Hf2) as (f3 & E3 & Hf3 & Ha3); [lia|].
      apply wp_bind. eapply wp_eq; [exact E3|]. eapply wp_eq; [reflexivity|].
      exists (p - Z.of_nat k). split; [lia|]. split_and!; try done; [lia|lia| |].
      + rewrite Ha. replace (Z.to_nat (n - (p - Z.of_nat k))) with (Z.to_nat (n - p) + k)%nat by lia. by rewrite take_take_drop.
      + rewrite Ha3, Ha2, Ha, drop_drop. f_equal. lia.
    - rewrite Z.sub_diag. split_and!; try done; lia.
    - unfold LOOP_BOUND. lia. }
  apply wp_done in Hw as (bs & [e' f'] & E & -> & Hf' & -> & Ha). by exists f'.
Qed.

Lemma get_byte_spec e f : reader_ok f ->
  exists f', qemu_get_byte (e, f) = Done (default 0 (head (ahead f))) (e, f') /\ reader_ok f' /\ ahead f' = tail (ahead f).
Proof.
  intros Hf.
  assert (Hfill : exists f', (if qf_buf_size f <=? qf_buf_index f then qemu_fill_buffer else mret tt) (e, f) = Done tt (e, f') /\
    reader_ok f' /\ ahead f' = ahead f /\ (ahead f <> [] -> 0 < pending f')).
  { destruct (Z.leb_spec (qf_buf_size f) (qf_buf_index f)) as [Hle|Hgt].
    - destruct (fill_spec e f Hf) as (f' & E & Hf' & Ha & _ & _ & H0). exists f'. split_and!; try done.
      apply H0. destruct Hf. unfold pending. lia.
    - exists f. split_and!; try done. intros _. unfold pending. lia. }
  destruct Hfill as (f1 & E & Hf1 & Ha & Hpos). assert (Ep : qemu_peek_byte 0 (e, f) = Done (default 0 (head (ahead f))) (e, f1)).
  { unfold qemu_peek_byte. etrans; [by eapply bind_done|]. cbn [snd]. rewrite (ro_read _ Hf), Z.add_0_r.
    etrans; [by eapply bind_done|]. etrans; [by eapply bind_done|]. cbn [snd]. rewrite Z.add_0_r, <- Ha. fold (pending f1) in *.
    destruct Hf1 as [_ Hi Hs _]. destruct (Z.leb_spec (qf_buf_size f1) (qf_buf_index f1)) as [Hle|Hgt].
    - destruct (ahead f1) eqn:Ea; [done|]. unfold pending in Hpos. rewrite <- Ha in Hpos. specialize (Hpos ltac:(done)). lia.
    - unfold ahead. rewrite head_lookup, lookup_app_l by (rewrite length_drop; lia). by rewrite lookup_drop, Nat.add_0_r. }
  destruct (decide (ahead f = [])) as [Hn|Hn].
  - exists f1. assert (Hp0 : pending f1 = 0) by (pose proof (length_ahead f1 Hf1) as Hl; rewrite Ha, Hn in Hl; cbn in Hl; destruct Hf1; unfold pending in *; lia).
    split_and!; [|done|by rewrite Ha, Hn]. unfold qemu_get_byte. etrans; [eapply bind_done, Ep|].
    unfold qemu_file_skip, mbind, M_bind, modx. cbn [fst snd]. by rewrite (proj2 (Z.leb_gt _ _)) by (unfold pending in Hp0; lia).
  - destruct (skip_spec 1 e f1 Hf1) as (f2 & E2 & Hf2 & Ha2); [specialize (Hpos Hn); lia|]. exists f2.
    split_and!; [|done|rewrite Ha2, Ha; by destruct (ahead f)].
    unfold qemu_get_byte. etrans; [eapply bind_done, Ep|]. by etrans; [eapply bind_done, E2|].
Qed.

(** [m] reads [bs], and its result is [a]. *)
Definition gets {A} (m : K (qfile Y) A) (bs : bytes) (a : A) : Prop :=
  forall e f rest, reader_ok f -> ahead f = bs ++ rest ->
    exists f', m (e, f) = Done a (e, f') /\ reader_ok f' /\ ahead f' = rest.

Lemma gets_ret {A} (a : A) : gets (mret a) [] a.
Proof. intros e f rest Hf Ha. by exists f. Qed.

Lemma gets_bind {A B} (m : K (qfile Y) A) bs a (k : A -> K (qfile Y) B) bs' b :
  gets m bs a -> gets (k a) bs' b -> gets (m ≫= k) (bs ++ bs') b.
Proof.
  intros Hm Hk e f rest Hf Ha. rewrite <- app_assoc in Ha. destruct (Hm e f _ Hf Ha) as (f1 & E1 & Hf1 & Ha1).
  destruct (Hk e f1 _ Hf1 Ha1) as (f2 & E2 & Hf2). exists f2. split; [|done]. by etrans; [eapply bind_done, E1|].
Qed.

Lemma get_byte_gets b : gets qemu_get_byte [b] b.
Proof.
  intros e f rest Hf Ha. destruct (get_byte_spec e f Hf) as (f' & E & Hf' & Ha'). rewrite Ha in E, Ha'. by exists f'.
Qed.

Lemma get_buffer_gets bs : Z.of_nat (length bs) < 2 ^ 31 -> gets (qemu_get_buffer (Z.of_nat (length bs))) bs bs.
Proof.
  intros Hl e f rest Hf Ha. destruct (get_buffer_spec (Z.of_nat (length bs)) e f Hf) as (f' & E & Hf' & Ha'); [lia|].
  rewrite Nat2Z.id, Ha in *. rewrite take_app_length in E. rewrite drop_app_length in Ha'. by exists f'.
Qed.

Lemma get_be16_gets v : 0 <= v < 2 ^ 16 -> gets qemu_get_be16 (be_bytes 2 v) v.
Proof.
  intros Hv. unfold qemu_get_be16. change (be_bytes 2 v) with ([v / 256 mod 256] ++ [v mod 256]).
  eapply gets_bind; [apply get_byte_gets|]. rewrite <- (app_nil_r [v mod 256]). eapply gets_bind; [apply get_byte_gets|].
  rewrite lor_shift by (done || by apply Z.mod_pos_bound). change (2 ^ 8) with 256.
  replace (v / 256 mod 256 * 256 + v mod 256) with v by (Z.to_euclidean_division_equations; lia). apply gets_ret.
Qed.

Lemma be32_value v : 0 <= v < 2 ^ 32 ->
  Z.lor (Z.lor (Z.lor (Z.shiftl (v / 256 / 256 / 256 mod 256) 24) (Z.shiftl (v / 256 / 256 mod 256) 16))
    (Z.shiftl (v / 256 mod 256) 8)) (v mod 256) = v.
Proof.
  intros Hv. assert (Hb : forall z, 0 <= z mod 256 < 256) by (intros; by apply Z.mod_pos_bound).
  pose proof (Hb v). pose proof (Hb (v / 256)). pose proof (Hb (v / 256 / 256)).
  rewrite <- !Z.lor_assoc. rewrite (lor_shift _ _ 8) by lia. rewrite (lor_shift _ _ 16) by lia. rewrite (lor_shift _ _ 24) by lia.
  clear Hb. Z.to_euclidean_division_equations; lia.
Qed.

Lemma get_be32_gets v : 0 <= v < 2 ^ 32 -> gets qemu_get_be32 (be_bytes 4 v) v.
Proof.
  intros Hv. unfold qemu_get_be32.
  change (be_bytes 4 v) with ([v / 256 / 256 / 256 mod 256] ++ [v / 256 / 256 mod 256] ++ [v / 256 mod 256] ++ [v mod 256]).
  do 3 (eapply gets_bind; [apply get_byte_gets|]). rewrite <- (app_nil_r [v mod 256]).
  eapply gets_bind; [apply get_byte_gets|]. rewrite be32_value by done. apply gets_ret.
Qed.

Lemma be_bytes_mod n v : be_bytes n (v mod 2 ^ (8 * Z.of_nat n)) = be_bytes n v.
Proof.
  unfold be_bytes. f_equal. rewrite <- le_val_le_bytes.
  rewrite <- (length_le_bytes n v) at 1. apply le_bytes_le_val, le_bytes_byte.
Qed.

Lemma get_be64_gets v : 0 <= v < 2 ^ 64 -> gets qemu_get_be64 (be_bytes 8 v) v.
Proof.
  intros Hv. unfold qemu_get_be64. rewrite be_bytes_8, <- (be_bytes_mod 4 v). change (8 * Z.of_nat 4) with 32.
  assert (Hm : 0 <= v mod 2 ^ 32 < 2 ^ 32) by (by apply Z.mod_pos_bound).
  eapply gets_bind; [apply get_be32_gets; Z.to_euclidean_division_equations; lia|]. rewrite <- (app_nil_r (be_bytes 4 _)).
  eapply gets_bind; [by apply get_be32_gets|]. rewrite lor_shift by done.
  replace (v / 2 ^ 32 * 2 ^ 32 + v mod 2 ^ 32) with v by (Z.to_euclidean_division_equations; lia). apply gets_ret.
Qed.
End Reading.

(** ** A file is a stream *)

Create HintDb qfile.
#[export] Hint Resolve put_byte_puts put_be16_puts put_be32_puts put_be64_puts puts_ret : qfile.
#[export] Hint Resolve get_byte_gets get_be16_gets get_be32_gets get_be64_gets gets_ret : qfile.

(** C27: A file of QEMU is a stream, behind a buffer of 32 KiB.  Writing a buffer
    of any size appends it to what was written, flushing hands all that was
    written to the device below, and reading [n] bytes gives the next [n] bytes
    of what is left, or all of it if it is less, whatever the sizes of the pieces
    in which the device below delivers them. *)
Theorem file_is_stream {Y} `{!FileOps Y, !OutStream Y, !InStream Y} e :
  (forall (f : qfile Y) bs, writer_ok f -> Z.of_nat (length bs) < 2 ^ 31 ->
     exists f', qemu_put_buffer bs (e, f) = Done tt (e, f') /\ writer_ok f' /\ written f' = written f ++ bs) /\
  (forall f : qfile Y, writer_ok f -> qf_is_write f = true ->
     exists f', qemu_fflush (e, f) = Done tt (e, f') /\ writer_ok f' /\ out (qf_opaque f') = written f) /\
  (forall (f : qfile Y) n, reader_ok f -> 0 <= n < 2 ^ 31 ->
     exists f', qemu_get_buffer n (e, f) = Done (take (Z.to_nat n) (ahead f)) (e, f') /\ reader_ok f' /\
       ahead f' = drop (Z.to_nat n) (ahead f)).
Proof.
  split_and!.
  - intros f bs Hf Hl. by apply put_buffer_puts.
  - intros f Hf Hw. destruct (fflush_spec e f) as (f' & E & Hf' & _ & Ho); [by destruct Hf|done|destruct Hf; lia|].
    by exists f'.
  - intros f n Hf Hn. by apply get_buffer_spec.
Qed.
