(* ===== verification/Migrate.v ===== *)
(** * Saving and loading the device

    [virtio_save] and [virtio_load] of [qemu-1.2.0/hw/virtio.c], and
    [virtio_serial_save] and [virtio_serial_load] of [virtio-serial-bus.c]: the
    state of the device as it goes to another host.  The code of the transport
    (PCI) that adds its own state is the four parameters of the section, which
    are absent where the binding has no such function. *)
From stdpp Require Import base gmap gmultiset list strings numbers.
From S2P Require Import Prelude Kernel Vring VirtioDev Bus QemuFile.
Open Scope Z_scope.

(** ** The element of a port as it lies in memory *)

Definition sizeof_elem : Z := 49168.

Definition encode_iov (l : list iovec) : bytes := concat ((fun v => le_bytes 8 v.1 ++ le_bytes 8 v.2) <$> l).
Definition encode_addrs (l : list iovec) : bytes := concat ((fun v => le_bytes 8 v.1) <$> l).

(** An array of [n] bytes of which the first are used; the others were never
    written. *)
Definition padded (n : nat) (junk : Z) (bs : bytes) : bytes := bs ++ replicate (n - length bs) junk.

(** [struct VirtQueueElement] *)
Definition encode_elem (junk : Z) (el : virtqueue_element) : bytes :=
  le_bytes 4 (el_index el) ++ le_bytes 4 (Z.of_nat (length (el_out el))) ++
  le_bytes 4 (Z.of_nat (length (el_in el))) ++ replicate 4 junk ++
  padded (8 * 1024) junk (encode_addrs (el_in el)) ++ padded (8 * 1024) junk (encode_addrs (el_out el)) ++
  padded (16 * 1024) junk (encode_iov (el_in el)) ++ padded (16 * 1024) junk (encode_iov (el_out el)).

(** The first [n] entries of an array of addresses and of one of vectors. *)
Fixpoint decode_sg (n : nat) (addrs sg : bytes) : list iovec :=
  match n with
  | O => []
  | S n => (le_val (take 8 addrs), le_val (take 8 (drop 8 sg))) :: decode_sg n (drop 8 addrs) (drop 16 sg)
  end.

(** The element, unless it counts more entries than its arrays have. *)
Definition decode_elem (b : bytes) : option virtqueue_element :=
  let '(index, b) := field 4 b in
  let '(out_num, b) := field 4 b in
  let '(in_num, b) := field 4 b in
  let '(_, b) := raw 4 b in
  let '(in_addr, b) := raw (8 * 1024) b in
  let '(out_addr, b) := raw (8 * 1024) b in
  let '(in_sg, out_sg) := raw (16 * 1024) b in
  if (VIRTQUEUE_MAX_SIZE <? in_num) || (VIRTQUEUE_MAX_SIZE <? out_num) then None
  else Some (VQElem index (decode_sg (Z.to_nat in_num) in_addr in_sg) (decode_sg (Z.to_nat out_num) out_addr out_sg)).

(** ** Running on the device and on the file *)

Section Lift.
Context {X F : Type}.

Definition on_dev {A} (m : K X A) : K (X * F) A := fun s =>
  match m (s.1, s.2.1) with Done a (e, x) => Done a (e, (x, s.2.2)) | Crash c => Crash c end.
Definition on_file {A} (m : K F A) : K (X * F) A := fun s =>
  match m (s.1, s.2.2) with Done a (e, f) => Done a (e, (s.2.1, f)) | Crash c => Crash c end.
End Lift.

Section Migrate.
Context {Y : Type} `{!FileOps Y}.
Variables (save_config : option (K (qfile Y) unit)) (save_queue : option (nat -> K (qfile Y) unit)).
Variables (load_config : option (K (qfile Y) Z)) (load_queue : option (nat -> K (qfile Y) Z)).

(** The first [n] entries of an array. *)
Definition first_n {A} (n : Z) (l : list A) : K (qfile Y) (list A) :=
  if (length l <? Z.to_nat n)%nat then crashed OutOfBounds else mret (take (Z.to_nat n) l).

(** ** The virtio device *)

(** The queues of [virtio_save], from number [i] on. *)
Fixpoint save_queues (i : nat) (l : list virtqueue) : K (qfile Y) unit :=
  match l with
  | [] => mret tt
  | q :: l' =>
      if vr_num (vq_vring q) =? 0 then mret tt
      else
        qemu_put_be32 (vr_num (vq_vring q));;
        qemu_put_be64 (vq_pa q);;
        qemu_put_be16 (vq_last_avail_idx q);;
        match save_queue with Some f => f i | None => mret tt end;;
        save_queues (S i) l'
  end.

(** [virtio_save] *)
Definition virtio_save {Hd} (d : vdev Hd) : K (qfile Y) unit :=
  match save_config with Some f => f | None => mret tt end;;
  qemu_put_byte (vd_status d);;
  qemu_put_byte (vd_isr d);;
  qemu_put_be16 (vd_queue_sel d);;
  qemu_put_be32 (vd_guest_features d);;
  qemu_put_be32 (vd_config_len d);;
  config ← first_n (vd_config_len d) (vd_config d);
  qemu_put_buffer config;;
  qemu_put_be32 (Z.of_nat (free_queue (vd_vq d)));;
  save_queues 0 (vd_vq d).

Section Device.
Context {Hd X : Type} `{!VirtioState Hd X, !VirtioCallbacks Hd X}.

(** The loop of [virtio_load]: the queue [i] of [num]. *)
Definition load_round (num : Z) (i : nat) : K (X * qfile Y) (nat + Z) :=
  if negb (Z.of_nat i <? num) then mret (inr 0)
  else
    n ← on_file qemu_get_be32;
    on_dev (mod_vq i (fun q => set_vq_vring (VRing n (vr_desc (vq_vring q)) (vr_avail (vq_vring q))
                                               (vr_used (vq_vring q))) q));;
    pa ← on_file qemu_get_be64;
    on_dev (mod_vq i (set_vq_pa pa));;
    last ← on_file qemu_get_be16;
    on_dev (mod_vq i (set_vq_last_avail_idx last));;
    on_dev (mod_vq i (fun q => set_vq_notification true (set_vq_signalled (vq_signalled_used q) false q)));;
    ok ← (if negb (pa =? 0) then
            on_dev (mod_vq i virtqueue_init);;
            avail ← on_dev (on_vq i vring_avail_idx);
            q ← on_dev (vq_at i);
            mret (negb (vr_num (vq_vring q) <? u16 (avail - vq_last_avail_idx q)))
          else mret (last =? 0));
    if negb ok then mret (inr (-1))
    else
      ret ← match load_queue with Some f => on_file (f i) | None => mret 0 end;
      if negb (ret =? 0) then mret (inr ret) else mret (inl (S i)).

(** [qemu_get_buffer] into the buffer [config]. *)
Definition load_config_bytes : K (X * qfile Y) unit :=
  d ← on_dev vdev_of;
  bs ← on_file (qemu_get_buffer (s32 (vd_config_len d)));
  if (length (vd_config d) <? length bs)%nat then crashed OutOfBounds
  else on_dev (mod_vdev (set_vd_config (vd_config_len d) (bs ++ drop (length bs) (vd_config d)))).

(** [virtio_load] *)
Definition virtio_load : K (X * qfile Y) Z :=
  ret ← match load_config with Some f => on_file f | None => mret 0 end;
  if negb (ret =? 0) then mret ret
  else
    status ← on_file qemu_get_byte;
    on_dev (mod_vdev (set_vd_status status));;
    isr ← on_file qemu_get_byte;
    on_dev (mod_vdev (set_vd_isr isr));;
    sel ← on_file qemu_get_be16;
    on_dev (mod_vdev (set_vd_queue_sel sel));;
    features ← on_file qemu_get_be32;
    r ← on_dev (virtio_set_features features);
    if r <? 0 then mret (-1)
    else
      len ← on_file qemu_get_be32;
      on_dev (mod_vdev (fun d => set_vd_config len (vd_config d) d));;
      load_config_bytes;;
      num ← on_file qemu_get_be32;
      ret ← while_loop (load_round (s32 num)) 0%nat;
      if negb (ret =? 0) then mret ret
      else
        on_dev (virtio_notify_vector VIRTIO_NO_VECTOR);;
        mret 0.
End Device.

(** ** The serial bus *)

Section Serial.
Context {B : Type} `{!PortClass B}.
Variable map_ok : Z -> Z -> bool -> bool.
Context `{!VirtioCallbacks queue_handler (vser B)}.

Definition set_vs_config (c : console_config) (v : vser B) : vser B :=
  VSer (vs_vdev v) (vs_c_ivq v) (vs_c_ovq v) (vs_ivqs v) (vs_ovqs v) (vs_max_nr_ports v) (vs_ports v) (vs_ports_map v)
    c (vs_host v).

(** The calls of [f] on the entries of a list, one after the other. *)
Fixpoint each {A} (f : A -> K (qfile Y) unit) (l : list A) : K (qfile Y) unit :=
  match l with
  | [] => mret tt
  | a :: l' => f a;; each f l'
  end.

Definition put_bool (b : bool) : K (qfile Y) unit := qemu_put_byte (if b then 1 else 0).

(** One port of [virtio_serial_save]; [junk] is what the unused part of its
    element holds. *)
Definition save_port (junk : Z) (p : sport) : K (qfile Y) unit :=
  qemu_put_be32 (sp_id p);;
  put_bool (sp_guest_connected p);;
  put_bool (sp_host_connected p);;
  match el_out (sp_elem p) with
  | [] => qemu_put_be32 0
  | _ =>
      qemu_put_be32 1;;
      qemu_put_be32 (Z.of_nat (sp_iov_idx p));;
      qemu_put_be64 (sp_iov_offset p);;
      qemu_put_buffer (encode_elem junk (sp_elem p))
  end.

(** [virtio_serial_save] *)
Definition virtio_serial_save (v : vser B) : K (qfile Y) unit :=
  virtio_save (vs_vdev v);;
  qemu_put_be16 (cf_cols (vs_config v));;
  qemu_put_be16 (cf_rows (vs_config v));;
  qemu_put_be32 (cf_max_nr_ports (vs_config v));;
  words ← first_n (u32 (cf_max_nr_ports (vs_config v) + 31) / 32) (vs_ports_map v);
  each qemu_put_be32 words;;
  qemu_put_be32 (Z.of_nat (length (vs_ports v)));;
  e ← gete;
  each (save_port (e_junk e)) (vs_ports v).

(** The ports map of [virtio_serial_load], from the word [i] on: whether it is
    the same here. *)
Fixpoint load_map (n i : nat) : K (vser B * qfile Y) bool :=
  match n with
  | O => mret true
  | S n =>
      w ← on_file qemu_get_be32;
      v ← on_dev getx;
      match vs_ports_map v !! i with
      | None => crashed OutOfBounds
      | Some w' => if w =? w' then load_map n (S i) else mret false
      end
  end.

(** The element of a port that was in the middle of one. *)
Definition load_elem (a : Z) : K (vser B * qfile Y) unit :=
  idx ← on_file qemu_get_be32;
  offset ← on_file qemu_get_be64;
  on_dev (mod_port a (set_sp_iov (Z.to_nat idx) offset));;
  bs ← on_file (qemu_get_buffer sizeof_elem);
  e ← gete;
  p ← on_dev (port_at a);
  match decode_elem (bs ++ drop (length bs) (encode_elem (e_junk e) (sp_elem p))) with
  | None => crashed OutOfBounds
  | Some el =>
      on_dev (mod_port a (set_sp_elem el));;
      (if forallb (fun v => map_ok v.1 v.2 true) (el_in el ++ el_out el) then mret tt else crashed Exited);;
      on_dev (virtio_serial_throttle_port a false)
  end.

(** The loop over the ports, of which [i] of [n] are loaded. *)
Definition load_port_round (version_id n i : Z) : K (vser B * qfile Y) (Z + Z) :=
  if negb (i <? n) then mret (inr 0)
  else
    id ← on_file qemu_get_be32;
    v ← on_dev getx;
    match find_port_by_id id (vs_ports v) with
    | None => mret (inr (- EINVAL))
    | Some p =>
        let a := sp_addr p in
        guest ← on_file qemu_get_byte;
        on_dev (mod_port a (set_sp_guest_connected (negb (guest =? 0))));;
        host ← on_file qemu_get_byte;
        p ← on_dev (port_at a);
        (if Bool.eqb (negb (host =? 0)) (sp_host_connected p) then mret tt
         else
           on_dev (send_control_event map_ok (sp_id p) VIRTIO_CONSOLE_PORT_OPEN (if sp_host_connected p then 1 else 0));;
           mret tt);;
        (if 2 <? version_id then
           popped ← on_file qemu_get_be32;
           if popped =? 0 then mret tt else load_elem a
         else mret tt);;
        mret (inl (i + 1))
    end.

(** [virtio_serial_load] *)
Definition virtio_serial_load (version_id : Z) : K (vser B * qfile Y) Z :=
  if 3 <? version_id then mret (- EINVAL)
  else
    ret ← virtio_load;
    if negb (ret =? 0) then mret ret
    else if version_id <? 2 then mret 0
    else
      cols ← on_file qemu_get_be16;
      on_dev (modx (fun v => set_vs_config (CConfig cols (cf_rows (vs_config v)) (cf_max_nr_ports (vs_config v))) v));;
      rows ← on_file qemu_get_be16;
      on_dev (modx (fun v => set_vs_config (CConfig (cf_cols (vs_config v)) rows (cf_max_nr_ports (vs_config v))) v));;
      max_nr_ports ← on_file qemu_get_be32;
      v ← on_dev getx;
      if cf_max_nr_ports (vs_config v) <? max_nr_ports then mret (- EINVAL)
      else
        same ← load_map (Z.to_nat (u32 (max_nr_ports + 31) / 32)) 0;
        if negb same then mret (- EINVAL)
        else
          n ← on_file qemu_get_be32;
          while_loop (load_port_round version_id n) 0.
End Serial.
End Migrate.
