(* ===== verification/MigrateFacts.v ===== *)
(** * Facts about saving and loading

    A device that is loaded from what another one saved goes on where that one
    was: the registers, the rings and the ports are the same. *)
From stdpp Require Import base gmap gmultiset list strings numbers.
From S2P Require Import Prelude Kernel KernelFacts Vring VringFacts RingFacts VirtioDev VirtioDevFacts Bus BusFacts PortFacts QemuFile QemuFileFacts Migrate.
Open Scope Z_scope.

(** ** Loading as reading *)

Section Loads.
Context {Y : Type} `{!FileOps Y, !InStream Y} {X : Type}.
Implicit Types (e : env) (x : X).

(** [m] reads [bs] and takes the device from [x] to [x']. *)
Definition loads {A} (m : K (X * qfile Y) A) (bs : bytes) e x (a : A) x' : Prop :=
  forall f rest, reader_ok f -> ahead f = bs ++ rest ->
    exists f', m (e, (x, f)) = Done a (e, (x', f')) /\ reader_ok f' /\ ahead f' = rest.

Lemma loads_ret {A} (a : A) e x : loads (mret a) [] e x a x.
Proof. intros f rest Hf Ha. by exists f. Qed.

Lemma loads_bind {A B} (m : K (X * qfile Y) A) bs e x a x1 (k : A -> K (X * qfile Y) B) bs' b x2 :
  loads m bs e x a x1 -> loads (k a) bs' e x1 b x2 -> loads (m ≫= k) (bs ++ bs') e x b x2.
Proof.
  intros Hm Hk f rest Hf Ha. rewrite <- app_assoc in Ha. destruct (Hm f _ Hf Ha) as (f1 & E1 & Hf1 & Ha1).
  destruct (Hk f1 _ Hf1 Ha1) as (f2 & E2 & Hf2). exists f2. split; [|done]. by etrans; [eapply bind_done, E1|].
Qed.

Lemma loads_file {A} (m : K (qfile Y) A) bs a e x : gets m bs a -> loads (on_file m) bs e x a x.
Proof.
  intros Hm f rest Hf Ha. destruct (Hm e f rest Hf Ha) as (f' & E & Hf'). exists f'. split; [|done].
  unfold on_file. cbn [fst snd]. by rewrite E.
Qed.

Lemma loads_dev {A} (m : K X A) e x a x' : m (e, x) = Done a (e, x') -> loads (on_dev m) [] e x a x'.
Proof. intros E f rest Hf Ha. exists f. split; [|done]. unfold on_dev. cbn [fst snd]. by rewrite E. Qed.

Lemma bind_file {A B} (m : K (qfile Y) A) bs a (k : A -> K (X * qfile Y) B) bs' e x b x2 :
  gets m bs a -> loads (k a) bs' e x b x2 -> loads (on_file m ≫= k) (bs ++ bs') e x b x2.
Proof. intros Hm Hk. eapply loads_bind; [by apply loads_file|done]. Qed.

Lemma bind_dev {A B} (m : K X A) e x a x1 (k : A -> K (X * qfile Y) B) bs b x2 :
  m (e, x) = Done a (e, x1) -> loads (k a) bs e x1 b x2 -> loads (on_dev m ≫= k) bs e x b x2.
Proof. intros Hm Hk. rewrite <- (app_nil_l bs). eapply loads_bind; [by apply loads_dev|done]. Qed.

Lemma bind_gete {A} (k : env -> K (X * qfile Y) A) bs e x a x2 : loads (k e) bs e x a x2 -> loads (gete ≫= k) bs e x a x2.
Proof. done. Qed.

(** The rounds of a loop, each of which reads its part. *)
Inductive rounds {I R} (body : I -> K (X * qfile Y) (I + R)) e : nat -> I -> bytes -> X -> R -> X -> Prop :=
| rounds_end i x r x' : loads (body i) [] e x (inr r) x' -> rounds body e 0 i [] x r x'
| rounds_next n i bs x i' x1 bs' r x2 :
    loads (body i) bs e x (inl i') x1 -> rounds body e n i' bs' x1 r x2 -> rounds body e (S n) i (bs ++ bs') x r x2.

Lemma loads_while {I R} (body : I -> K (X * qfile Y) (I + R)) e n i bs x r x' :
  rounds body e n i bs x r x' -> Z.of_nat n < Z.pos LOOP_BOUND -> loads (while_loop body i) bs e x r x'.
Proof.
  intros Hr Hn f rest Hf Ha.
  assert (Hloops : exists f', loops body n i (e, (x, f)) r (e, (x', f')) /\ reader_ok f' /\ ahead f' = rest).
  { clear Hn. revert f Hf Ha. induction Hr as [i x r x' Hl|n i bs x i' x1 bs' r x2 Hl _ IH]; intros f Hf Ha.
    - destruct (Hl f rest Hf Ha) as (f' & E & Hf'). exists f'. split; [by apply loops_end|done].
    - rewrite <- app_assoc in Ha. destruct (Hl f _ Hf Ha) as (f1 & E1 & Hf1 & Ha1).
      destruct (IH f1 Hf1 Ha1) as (f2 & E2 & Hf2). exists f2. split; [by eapply loops_next|done]. }
  destruct Hloops as (f' & Hloops & Hf'). exists f'. split; [|done]. by eapply while_loops.
Qed.
End Loads.

(** ** The virtio device *)

Section Device.
Context {Y : Type} `{!FileOps Y}.
Variables (save_config : option (K (qfile Y) unit)) (save_queue : option (nat -> K (qfile Y) unit)).
Variables (load_config : option (K (qfile Y) Z)) (load_queue : option (nat -> K (qfile Y) Z)).

(** What the transport adds: the same bytes are written and read. *)
Variables (own : bytes) (own_queue : nat -> bytes).
Record transport_saves `{!OutStream Y} : Prop := {
  ts_config : puts (match save_config with Some f => f | None => mret tt end) own;
  ts_queue : forall i, puts (match save_queue with Some f => f i | None => mret tt end) (own_queue i)
}.
Record transport_loads `{!InStream Y} : Prop := {
  tl_config : forall X e (x : X), loads (match load_config with Some f => on_file f | None => mret 0 end) own e x 0 x;
  tl_queue : forall i X e (x : X), loads (match load_queue with Some f => on_file (f i) | None => mret 0 end) (own_queue i) e x 0 x
}.

(** The queues in use. *)
Definition in_use (l : list virtqueue) : list virtqueue := take (free_queue l) l.

Definition queue_bytes (i : nat) (q : virtqueue) : bytes :=
  be_bytes 4 (vr_num (vq_vring q)) ++ be_bytes 8 (vq_pa q) ++ be_bytes 2 (vq_last_avail_idx q) ++ own_queue i.
Fixpoint queues_bytes (i : nat) (l : list virtqueue) : bytes :=
  match l with
  | [] => []
  | q :: l' => queue_bytes i q ++ queues_bytes (S i) l'
  end.

Definition device_bytes {Hd} (d : vdev Hd) : bytes :=
  own ++ [u8 (vd_status d)] ++ [u8 (vd_isr d)] ++ be_bytes 2 (vd_queue_sel d) ++ be_bytes 4 (vd_guest_features d) ++
  be_bytes 4 (vd_config_len d) ++ take (Z.to_nat (vd_config_len d)) (vd_config d) ++
  be_bytes 4 (Z.of_nat (free_queue (vd_vq d))) ++ queues_bytes 0 (in_use (vd_vq d)).

Section Save.
Context `{!OutStream Y} (Hts : transport_saves).

Lemma save_queues_puts l : forall i, puts (save_queues save_queue i l) (queues_bytes i (in_use l)).
Proof using Hts.
  unfold in_use. induction l as [|q l IH]; intros i; cbn [save_queues free_queue]; [apply puts_ret|].
  destruct (Z.eqb_spec (vr_num (vq_vring q)) 0) as [E|E]; [apply puts_ret|]. cbn [take queues_bytes].
  unfold queue_bytes. rewrite <- !app_assoc. repeat first [apply IH | apply (ts_queue Hts) | solve [eauto with qfile] | apply puts_bind].
Qed.

Lemma first_n_done {A} n (l : list A) (k : list A -> K (qfile Y) unit) :
  n <= Z.of_nat (length l) -> first_n n l ≫= k = k (take (Z.to_nat n) l).
Proof. intros H. unfold first_n. by rewrite (proj2 (Nat.ltb_ge _ _)) by lia. Qed.

Lemma save_puts {Hd} (d : vdev Hd) :
  vd_config_len d <= Z.of_nat (length (vd_config d)) < 2 ^ 31 ->
  puts (virtio_save save_config save_queue d) (device_bytes d).
Proof using Hts.
  intros Hl. unfold virtio_save, device_bytes. rewrite first_n_done by lia.
  repeat first [apply save_queues_puts | apply (ts_config Hts) | solve [eauto with qfile] | apply puts_bind].
  apply put_buffer_puts. rewrite length_take. lia.
Qed.
End Save.

Section Load.
Context `{!InStream Y} (Htl : transport_loads) {Hd X : Type} `{!VirtioState Hd X, !VirtioCallbacks Hd X}.
Implicit Types (e : env) (x : X) (q : virtqueue).

(** A queue as the source has it and the destination can take it over. *)
Record queue_fits (m : mem) q : Prop := {
  qf_num : 0 <= vr_num (vq_vring q) < 2 ^ 32;
  qf_pa : 0 <= vq_pa q < 2 ^ 64;
  qf_last : 0 <= vq_last_avail_idx q < 2 ^ 16;
  qf_unset : vq_pa q = 0 -> vq_last_avail_idx q = 0;
  qf_heads : vq_pa q <> 0 -> heads m (virtqueue_init q) <= vr_num (vq_vring q)
}.

(** The queue [q0] after [q] was loaded into it. *)
Definition loaded_queue q q0 : virtqueue :=
  let q1 := VirtQueue (VRing (vr_num (vq_vring q)) (vr_desc (vq_vring q0)) (vr_avail (vq_vring q0)) (vr_used (vq_vring q0)))
    (vq_pa q) (vq_last_avail_idx q) (vq_signalled_used q0) false true (vq_inuse q0) (vq_vector q0) in
  if vq_pa q =? 0 then q1 else virtqueue_init q1.

Lemma load_round_loads e x i q q0 num :
  vq_is i x q0 -> queue_fits (e_mem e) q -> Z.of_nat i < num ->
  loads (load_round load_queue num i) (queue_bytes i q) e x (inl (S i)) (upd_vq i (loaded_queue q q0) x).
Proof using Htl.
  intros Hq [Hn Hpa Hl H0 Hh] Hi. unfold load_round, queue_bytes. rewrite (proj2 (Z.ltb_lt _ _)) by done. cbn [negb].
  eapply bind_file; [by apply get_be32_gets|]. eapply bind_dev; [by apply mod_vq_spec|].
  eapply bind_file; [by apply get_be64_gets|]. eapply bind_dev; [by eapply mod_vq_spec, upd_vq_is|]. rewrite upd_vq_twice.
  eapply bind_file; [by apply get_be16_gets|]. eapply bind_dev; [by eapply mod_vq_spec, upd_vq_is|]. rewrite upd_vq_twice.
  eapply bind_dev; [by eapply mod_vq_spec, upd_vq_is|]. rewrite upd_vq_twice. cbn [vq_signalled_used set_vq_last_avail_idx set_vq_pa set_vq_vring].
  set (q1 := set_vq_notification true _). rewrite <- (app_nil_l (own_queue i)).
  apply (loads_bind _ _ _ _ true (upd_vq i (loaded_queue q q0) x)).
  - unfold loaded_queue. fold q1. destruct (Z.eqb_spec (vq_pa q) 0) as [E|E]; cbn [negb].
    + replace (vq_last_avail_idx q =? 0) with true by (by rewrite (H0 E)). apply loads_ret.
    + eapply bind_dev; [by eapply mod_vq_spec, upd_vq_is|]. rewrite upd_vq_twice.
      eapply bind_dev; [eapply on_vq_done; [by eapply upd_vq_is|apply avail_idx_spec]|]. rewrite upd_vq_twice.
      eapply bind_dev; [by eapply vq_at_spec, upd_vq_is|].
      change (avail_idx (e_mem e) (virtqueue_init q1) - vq_last_avail_idx (virtqueue_init q1))
        with (avail_idx (e_mem e) (virtqueue_init q) - vq_last_avail_idx (virtqueue_init q)).
      fold (heads (e_mem e) (virtqueue_init q)). rewrite (proj2 (Z.ltb_ge _ _)) by (by apply Hh). apply loads_ret.
  - cbn [negb]. rewrite <- (app_nil_r (own_queue i)). eapply loads_bind; [by apply (tl_queue Htl)|]. apply loads_ret.
Qed.

(** The queues [l0] after [l] were loaded into the first of them. *)
Fixpoint load_into (l l0 : list virtqueue) : list virtqueue :=
  match l, l0 with
  | q :: l, q0 :: l0 => loaded_queue q q0 :: load_into l l0
  | _, _ => l0
  end.

Lemma load_into_lookup l : forall l0 i, (length l <= length l0)%nat -> load_into l l0 !! i =
  match l !! i with Some q => loaded_queue q <$> l0 !! i | None => l0 !! i end.
Proof. induction l as [|q l IH]; intros [|q0 l0] [|i] Hl; cbn in *; [lia || done..|]. apply IH. lia. Qed.

Definition set_vqs (l : list virtqueue) x : X := put_vdev (set_vd_vq l (get_vdev x)) x.

Lemma load_loop_loads e num l : forall d l0 x,
  Forall (queue_fits (e_mem e)) l -> vd_vq (get_vdev x) = d ++ l0 -> (length l <= length l0)%nat ->
  num = Z.of_nat (length d + length l) -> num < 2 ^ 31 ->
  loads (while_loop (load_round load_queue num) (length d)) (queues_bytes (length d) l) e x 0 (set_vqs (d ++ load_into l l0) x).
Proof using Htl.
  intros d l0 x Hl Hx Hlen Hnum Hsmall. apply (loads_while _ _ (length l)); [|unfold LOOP_BOUND; lia]. clear Hsmall.
  revert d l0 x Hx Hlen Hnum. induction Hl as [|q l Hq _ IH]; intros d l0 x Hx Hlen Hnum; cbn [length queues_bytes load_into] in *.
  - assert (E : set_vqs (d ++ l0) x = x).
    { unfold set_vqs. rewrite <- Hx. etrans; [|apply put_get_vdev]. f_equal. by destruct (get_vdev x). }
    rewrite E. apply rounds_end. unfold load_round. rewrite (proj2 (Z.ltb_ge _ _)) by lia. apply loads_ret.
  - destruct l0 as [|q0 l0]; cbn [length] in *; [lia|].
    eapply rounds_next; [apply (load_round_loads _ _ _ _ q0); [by unfold vq_is; rewrite Hx, list_lookup_middle|done|lia]|].
    specialize (IH (d ++ [loaded_queue q q0]) l0 (set_vqs (d ++ loaded_queue q q0 :: l0) x)).
    rewrite length_app, Nat.add_1_r in IH. unfold upd_vq. rewrite Hx, insert_app_r_alt, Nat.sub_diag by done. cbn [list_insert insert].
    unfold set_vqs in *. rewrite !get_put_vdev, !put_put_vdev, <- !app_assoc in IH. apply IH; [done|lia|lia].
Qed.

(** What of the device is more than its queues. *)
Record regs_fit (d : vdev Hd) : Prop := {
  rf_status : 0 <= vd_status d < 2 ^ 8;
  rf_isr : 0 <= vd_isr d < 2 ^ 8;
  rf_sel : 0 <= vd_queue_sel d < 2 ^ 16;
  rf_features : 0 <= vd_guest_features d < 2 ^ 32;
  rf_config : vd_config_len d = Z.of_nat (length (vd_config d)) /\ vd_config_len d < 2 ^ 31
}.
Definition loaded_regs (d d0 : vdev Hd) : vdev Hd :=
  VDev (vd_status d) (vd_isr d) (vd_queue_sel d) (vd_guest_features d) (vd_config_len d) (vd_config d)
    (vd_config_vector d0) (vd_vq d0) (vd_handlers d0) (vd_vm_running d0) (vd_irqs d0).

Definition loaded_device (d : vdev Hd) x0 : X :=
  put_vdev (add_vd_irq VIRTIO_NO_VECTOR (set_vd_vq (load_into (in_use (vd_vq d)) (vd_vq (get_vdev x0)))
    (loaded_regs d (get_vdev x0)))) x0.

Lemma free_queue_le l : (free_queue l <= length l)%nat.
Proof. induction l as [|q l IH]; cbn; [lia|]. destruct (_ =? _); lia. Qed.

Lemma bind_mod {A} f (k : unit -> K (X * qfile Y) A) bs e x a x2 :
  loads (k tt) bs e (put_vdev (f (get_vdev x)) x) a x2 -> loads (on_dev (mod_vdev f) ≫= k) bs e x a x2.
Proof. by apply bind_dev. Qed.

Lemma load_config_loads e x (d : vdev Hd) :
  regs_fit d -> vd_config_len (get_vdev x) = vd_config_len d -> length (vd_config (get_vdev x)) = length (vd_config d) ->
  loads load_config_bytes (vd_config d) e x tt
    (put_vdev (set_vd_config (vd_config_len d) (vd_config d) (get_vdev x)) x).
Proof.
  intros [_ _ _ _ [Hc Hs]] Hl Hlen. unfold load_config_bytes. eapply bind_dev; [reflexivity|]. cbn [snd].
  rewrite <- (app_nil_r (vd_config d)) at 1. rewrite Hl, s32_small, Hc by lia.
  eapply bind_file; [apply get_buffer_gets; lia|]. rewrite Hlen, Nat.ltb_irrefl. apply loads_dev.
  rewrite drop_ge, app_nil_r by lia. reflexivity.
Qed.

Lemma load_loads e x0 (d : vdev Hd) :
  regs_fit d -> Forall (queue_fits (e_mem e)) (in_use (vd_vq d)) ->
  length (vd_config (get_vdev x0)) = length (vd_config d) ->
  (free_queue (vd_vq d) <= length (vd_vq (get_vdev x0)))%nat -> Z.of_nat (free_queue (vd_vq d)) < 2 ^ 31 ->
  (forall x, virtio_set_features (vd_guest_features d) (e, x) =
     Done 0 (e, put_vdev (set_vd_guest_features (vd_guest_features d) (get_vdev x)) x)) ->
  loads (virtio_load load_config load_queue) (device_bytes d) e x0 0 (loaded_device d x0).
Proof using Htl.
  intros Hr Hq Hc Hn Hn31 Hset. destruct (Hr) as [Hst Hi Hs Hf [Hcl Hcs]]. unfold virtio_load, device_bytes, u8.
  rewrite !Z.mod_small by done. rewrite (take_ge (vd_config d)) by lia.
  eapply loads_bind; [apply (tl_config Htl)|]. cbn [negb Z.eqb].
  eapply bind_file; [apply get_byte_gets|]. apply bind_mod.
  eapply bind_file; [apply get_byte_gets|]. apply bind_mod.
  eapply bind_file; [by apply get_be16_gets|]. apply bind_mod.
  eapply bind_file; [by apply get_be32_gets|]. eapply bind_dev; [apply Hset|]. cbn [Z.ltb Z.compare].
  eapply bind_file; [apply get_be32_gets; lia|]. apply bind_mod. rewrite !get_put_vdev, !put_put_vdev.
  eapply loads_bind; [apply (load_config_loads _ _ d); rewrite ?get_put_vdev; done|]. rewrite get_put_vdev, put_put_vdev.
  eapply bind_file; [apply get_be32_gets; lia|]. rewrite s32_small by lia.
  rewrite <- (app_nil_r (queues_bytes _ _)).
  assert (Hlen : length (in_use (vd_vq d)) = free_queue (vd_vq d)).
  { unfold in_use. rewrite length_take. pose proof (free_queue_le (vd_vq d)). lia. }
  eapply loads_bind; [apply (load_loop_loads _ _ _ [] (vd_vq (get_vdev x0))); rewrite ?get_put_vdev; [done|done|lia|cbn; lia|lia]|].
  cbn [negb Z.eqb]. eapply bind_dev; [reflexivity|]. unfold set_vqs. cbn [snd]. rewrite !get_put_vdev, !put_put_vdev. apply loads_ret.
Qed.
End Load.
End Device.

(** ** The element of a port *)

Definition iov_fits (v : iovec) : Prop := 0 <= v.1 < 2 ^ 64 /\ 0 <= v.2 < 2 ^ 64.
Record elem_fits (el : virtqueue_element) : Prop := {
  ef_index : 0 <= el_index el < 2 ^ 32;
  ef_in : (length (el_in el) <= 1024)%nat /\ Forall iov_fits (el_in el);
  ef_out : (length (el_out el) <= 1024)%nat /\ Forall iov_fits (el_out el)
}.

Lemma length_encode_addrs l : length (encode_addrs l) = (8 * length l)%nat.
Proof. unfold encode_addrs. induction l as [|v l IH]; [done|]. cbn [fmap list_fmap concat length]. rewrite length_app, length_le_bytes, IH. lia. Qed.
Lemma length_encode_iov l : length (encode_iov l) = (16 * length l)%nat.
Proof.
  unfold encode_iov. induction l as [|v l IH]; [done|]. cbn [fmap list_fmap concat length].
  rewrite !length_app, !length_le_bytes, IH. lia.
Qed.
Lemma length_padded n junk bs : (length bs <= n)%nat -> length (padded n junk bs) = n.
Proof. intros. unfold padded. rewrite length_app, length_replicate. lia. Qed.

Lemma decode_sg_encode l : forall ja js, Forall iov_fits l ->
  decode_sg (length l) (encode_addrs l ++ ja) (encode_iov l ++ js) = l.
Proof.
  induction l as [|[a n] l IH]; intros ja js Hl; [done|]. apply list.Forall_cons_1 in Hl as [[Ha Hn] Hl].
  cbn [fst snd] in *. unfold encode_addrs, encode_iov. cbn [fmap list_fmap concat decode_sg length fst snd].
  fold (encode_addrs l) (encode_iov l). rewrite <- !app_assoc.
  assert (L : forall z, length (le_bytes 8 z) = 8%nat) by (intros; apply length_le_bytes).
  change 16%nat with (8 + 8)%nat. rewrite <- drop_drop. rewrite !drop_app_length' by done. rewrite !take_app_length' by done.
  rewrite !le_val_le_bytes, !Z.mod_small by done. by rewrite IH.
Qed.

Lemma length_encode_elem junk el : elem_fits el -> length (encode_elem junk el) = Z.to_nat sizeof_elem.
Proof.
  intros [_ [Hi _] [Ho _]]. unfold encode_elem. rewrite !length_app, !length_le_bytes, length_replicate.
  rewrite !length_padded by (rewrite ?length_encode_addrs, ?length_encode_iov; lia). done.
Qed.

(** What lies in memory is the element. *)
Lemma decode_encode_elem junk el more : elem_fits el -> decode_elem (encode_elem junk el ++ more) = Some el.
Proof.
  intros [Hx [Hi Hfi] [Ho Hfo]]. unfold decode_elem, encode_elem. rewrite <- !app_assoc.
  rewrite !field_le by (cbn; lia). rewrite raw_app by apply length_replicate.
  rewrite !raw_app by (apply length_padded; rewrite ?length_encode_addrs, ?length_encode_iov; lia).
  change VIRTQUEUE_MAX_SIZE with 1024. rewrite !(proj2 (Z.ltb_ge _ _)) by lia. cbn [orb]. rewrite !Nat2Z.id.
  unfold padded. rewrite <- !app_assoc, !decode_sg_encode by done. by destruct el.
Qed.

(** ** The serial bus *)

Section Serial.
Context {Y : Type} `{!FileOps Y}.
Variables (save_config : option (K (qfile Y) unit)) (save_queue : option (nat -> K (qfile Y) unit)).
Variables (load_config : option (K (qfile Y) Z)) (load_queue : option (nat -> K (qfile Y) Z)).
Variables (own : bytes) (own_queue : nat -> bytes).
Context {B : Type}.
Implicit Types (v : vser B) (p : sport) (e : env).

Definition bit (b : bool) : Z := if b then 1 else 0.
Definition port_bytes (junk : Z) p : bytes :=
  be_bytes 4 (sp_id p) ++ [bit (sp_guest_connected p)] ++ [bit (sp_host_connected p)] ++
  match el_out (sp_elem p) with
  | [] => be_bytes 4 0
  | _ => be_bytes 4 1 ++ be_bytes 4 (Z.of_nat (sp_iov_idx p)) ++ be_bytes 8 (sp_iov_offset p) ++ encode_elem junk (sp_elem p)
  end.
Definition map_words v : list Z := take (Z.to_nat (u32 (cf_max_nr_ports (vs_config v) + 31) / 32)) (vs_ports_map v).
Definition serial_bytes (junk : Z) v : bytes :=
  device_bytes own own_queue (vs_vdev v) ++ be_bytes 2 (cf_cols (vs_config v)) ++ be_bytes 2 (cf_rows (vs_config v)) ++
  be_bytes 4 (cf_max_nr_ports (vs_config v)) ++ concat (be_bytes 4 <$> map_words v) ++
  be_bytes 4 (Z.of_nat (length (vs_ports v))) ++ concat (port_bytes junk <$> vs_ports v).

Record port_fits p : Prop := {
  pf_id : 0 <= sp_id p < 2 ^ 32 - 1;
  pf_idx : Z.of_nat (sp_iov_idx p) < 2 ^ 32;
  pf_offset : 0 <= sp_iov_offset p < 2 ^ 64;
  pf_elem : elem_fits (sp_elem p)
}.

Lemma each_puts `{!OutStream Y} {A} (f : A -> K (qfile Y) unit) (g : A -> bytes) l :
  Forall (fun a => puts (f a) (g a)) l -> puts (each f l) (concat (g <$> l)).
Proof. induction 1 as [|a l Ha _ IH]; [apply puts_ret|]. by apply puts_bind. Qed.

Lemma put_bool_puts `{!OutStream Y} b : puts (put_bool b) [bit b].
Proof. unfold put_bool, bit. destruct b; apply put_byte_puts. Qed.

Lemma save_port_puts `{!OutStream Y} junk p : port_fits p -> puts (save_port junk p) (port_bytes junk p).
Proof.
  intros [_ _ _ He]. unfold save_port, port_bytes. destruct (el_out (sp_elem p));
    repeat first [apply put_bool_puts | solve [eauto with qfile] | apply puts_bind].
  apply put_buffer_puts. rewrite length_encode_elem by done. unfold sizeof_elem. lia.
Qed.

Lemma serial_save_puts `{!OutStream Y} e v :
  transport_saves save_config save_queue own own_queue ->
  vd_config_len (vs_vdev v) <= Z.of_nat (length (vd_config (vs_vdev v))) < 2 ^ 31 ->
  u32 (cf_max_nr_ports (vs_config v) + 31) / 32 <= Z.of_nat (length (vs_ports_map v)) ->
  Forall port_fits (vs_ports v) -> puts_at e (virtio_serial_save save_config save_queue v) (serial_bytes (e_junk e) v).
Proof.
  intros Hts Hc Hm Hp. unfold virtio_serial_save, serial_bytes. rewrite first_n_done by done.
  repeat (eapply puts_then; [first [by apply save_puts | solve [eauto with qfile] |
    apply each_puts, list.Forall_true; intros; apply put_be32_puts]|]).
  apply puts_gete. intros f. apply each_puts. eapply list.Forall_impl; [exact Hp|]. intros. by apply save_port_puts.
Qed.

Section Load.
Context `{!InStream Y, !PortClass B}.
Variable map_ok : Z -> Z -> bool -> bool.

Lemma load_map_loads e v l : forall i,
  (forall k w, l !! k = Some w -> vs_ports_map v !! (i + k)%nat = Some w /\ 0 <= w < 2 ^ 32) ->
  loads (load_map (length l) i) (concat (be_bytes 4 <$> l)) e v true v.
Proof.
  induction l as [|w l IH]; intros i Hw; cbn [load_map length fmap list_fmap concat]; [apply loads_ret|].
  destruct (Hw 0%nat w eq_refl) as [Hi Hb]. rewrite Nat.add_0_r in Hi.
  eapply bind_file; [by apply get_be32_gets|]. eapply bind_dev; [reflexivity|]. cbn [snd]. rewrite Hi, Z.eqb_refl.
  apply IH. intros k w' Hk. rewrite Nat.add_succ_comm. exact (Hw (S k) w' Hk).
Qed.

(** ** The ports *)

(** The port [p0] after [p] was loaded into it. *)
Definition loaded_port p p0 : sport :=
  let p1 := set_sp_guest_connected (sp_guest_connected p) p0 in
  match el_out (sp_elem p) with
  | [] => p1
  | _ => set_sp_bh true (set_sp_throttled false (set_sp_elem (sp_elem p)
           (set_sp_iov (sp_iov_idx p) (sp_iov_offset p) p1)))
  end.

(** The port is on both sides. *)
Record twin_port p p0 : Prop := {
  tp_id : sp_id p0 = sp_id p;
  tp_host : sp_host_connected p0 = sp_host_connected p;
  tp_addr : sp_addr p0 <> 0;
  tp_fits : port_fits p;
  tp_map : el_out (sp_elem p) <> [] ->
    Forall (fun d => map_ok d.1 d.2 true = true) (el_in (sp_elem p) ++ el_out (sp_elem p))
}.

Lemma mod_port_mid e v f d p l : vs_ports v = d ++ p :: l -> NoDup (sp_addr <$> d ++ p :: l) ->
  mod_port (sp_addr p) f (e, v) = Done tt (e, set_vs_ports (d ++ f p :: l) v).
Proof.
  intros Hv Hnd. rewrite (mod_port_done _ _ _ _ p) by (by eapply port_at_mid). by rewrite Hv, upd_port_mid.
Qed.

Lemma load_elem_loads e junk v d p p0 l :
  vs_ports v = d ++ p0 :: l -> NoDup (sp_addr <$> d ++ p0 :: l) -> port_fits p -> sp_addr p0 <> 0 ->
  Forall (fun d => map_ok d.1 d.2 true = true) (el_in (sp_elem p) ++ el_out (sp_elem p)) ->
  loads (load_elem map_ok (sp_addr p0))
    (be_bytes 4 (Z.of_nat (sp_iov_idx p)) ++ be_bytes 8 (sp_iov_offset p) ++ encode_elem junk (sp_elem p)) e v tt
    (set_vs_ports (d ++ set_sp_bh true (set_sp_throttled false (set_sp_elem (sp_elem p)
       (set_sp_iov (sp_iov_idx p) (sp_iov_offset p) p0))) :: l) v).
Proof.
  intros Hv Hnd [Hid Hidx Hoff He] Ha Hmap. unfold load_elem.
  assert (Hnd' : forall p1, sp_addr p1 = sp_addr p0 -> NoDup (sp_addr <$> d ++ p1 :: l)).
  { intros p1 E. rewrite fmap_app in *. cbn in *. by rewrite E. }
  eapply bind_file; [apply get_be32_gets; lia|]. eapply bind_file; [by apply get_be64_gets|]. rewrite Nat2Z.id.
  eapply bind_dev; [by apply mod_port_mid|]. set (p1 := set_sp_iov _ _ p0).
  rewrite <- (app_nil_r (encode_elem junk (sp_elem p))).
  replace sizeof_elem with (Z.of_nat (length (encode_elem junk (sp_elem p))))
    by (rewrite length_encode_elem by done; unfold sizeof_elem; lia).
  eapply bind_file; [apply get_buffer_gets; rewrite length_encode_elem by done; unfold sizeof_elem; lia|].
  apply bind_gete. eapply bind_dev; [by eapply port_at_spec, (port_at_mid _ d p1 l), Hnd'|].
  rewrite decode_encode_elem by done. eapply bind_dev; [by apply (mod_port_mid _ _ _ d p1 l), Hnd'|].
  rewrite <- (app_nil_l []). eapply loads_bind.
  - rewrite (proj2 (forallb_forall _ _)); [apply loads_ret|]. intros x Hx%list_elem_of_In. rewrite list.Forall_forall in Hmap. by apply Hmap.
  - apply loads_dev. unfold virtio_serial_throttle_port. rewrite (proj2 (Z.eqb_neq _ _)) by done.
    set (p2 := set_sp_elem _ p1). etrans; [eapply bind_done; by apply (mod_port_mid _ _ _ d p2 l), Hnd'|].
    exact (mod_port_mid e (set_vs_ports (d ++ set_sp_throttled false p2 :: l) v) (set_sp_bh true) d
             (set_sp_throttled false p2) l eq_refl (Hnd' (set_sp_throttled false p2) eq_refl)).
Qed.

Lemma load_port_loads e junk v d p p0 l n i :
  vs_ports v = d ++ p0 :: l -> NoDup (sp_addr <$> d ++ p0 :: l) -> NoDup (sp_id <$> d ++ p0 :: l) -> twin_port p p0 -> i < n ->
  loads (load_port_round map_ok 3 n i) (port_bytes junk p) e v (inl (i + 1)) (set_vs_ports (d ++ loaded_port p p0 :: l) v).
Proof.
  intros Hv Hnd Hndi [Hid Hhost Ha Hp Hmap] Hi. destruct (Hp) as [Hb _ _ _]. unfold load_port_round, port_bytes.
  rewrite (proj2 (Z.ltb_lt _ _)) by done. cbn [negb]. eapply bind_file; [apply get_be32_gets; lia|].
  eapply bind_dev; [reflexivity|]. cbn [snd].
  rewrite (find_id_some (sp_id p) (vs_ports v) p0); [|by rewrite Hv|rewrite Hv; set_solver|done|unfold VIRTIO_CONSOLE_BAD_ID; lia].
  eapply bind_file; [apply get_byte_gets|]. eapply bind_dev; [by apply mod_port_mid|].
  replace (negb (bit (sp_guest_connected p) =? 0)) with (sp_guest_connected p) by (by destruct (sp_guest_connected p)).
  set (p1 := set_sp_guest_connected _ p0).
  assert (Hnd1 : NoDup (sp_addr <$> d ++ p1 :: l)) by (rewrite fmap_app in *; exact Hnd).
  eapply bind_file; [apply get_byte_gets|]. eapply bind_dev; [by eapply port_at_spec, (port_at_mid _ d p1 l)|].
  replace (Bool.eqb _ _) with true by (cbn; rewrite Hhost; by destruct (sp_host_connected p)).
  rewrite <- (app_nil_l (match el_out (sp_elem p) with [] => _ | _ => _ end)). eapply loads_bind; [apply loads_ret|].
  change (2 <? 3) with true. cbv iota. rewrite <- (app_nil_r (match el_out (sp_elem p) with [] => _ | _ => _ end)).
  unfold loaded_port. fold p1. destruct (el_out (sp_elem p)) as [|o os] eqn:Eo.
  - eapply loads_bind; [|apply loads_ret]. rewrite <- (app_nil_r (be_bytes 4 0)). eapply bind_file; [by apply get_be32_gets|]. apply loads_ret.
  - eapply loads_bind; [|apply loads_ret]. eapply bind_file; [by apply get_be32_gets|]. change (1 =? 0) with false. cbv iota.
    rewrite <- Eo in Hmap. assert (Hne : el_out (sp_elem p) <> []) by (by rewrite Eo).
    exact (load_elem_loads e junk (set_vs_ports (d ++ p1 :: l) v) d p p1 l eq_refl Hnd1 Hp Ha (Hmap Hne)).
Qed.

Lemma load_ports_loads e junk n l l0 : Forall2 twin_port l l0 -> forall d v i,
  vs_ports v = d ++ l0 -> NoDup (sp_addr <$> d ++ l0) -> NoDup (sp_id <$> d ++ l0) ->
  n = i + Z.of_nat (length l) -> 0 <= i -> n < 2 ^ 32 ->
  loads (while_loop (load_port_round map_ok 3 n) i) (concat (port_bytes junk <$> l)) e v 0
    (set_vs_ports (d ++ zip_with loaded_port l l0) v).
Proof.
  intros Hl d v i Hv Hnd Hndi Hn Hi Hn32. apply (loads_while _ _ (length l)); [|unfold LOOP_BOUND; lia]. clear Hn32.
  revert d v i Hv Hnd Hndi Hn Hi. induction Hl as [|p p0 l l0 Hp _ IH]; intros d v i Hv Hnd Hndi Hn Hi; cbn [length fmap list_fmap concat zip_with] in *.
  - apply rounds_end. unfold load_port_round. rewrite (proj2 (Z.ltb_ge _ _)) by lia.
    rewrite <- Hv. destruct v. apply loads_ret.
  - eapply rounds_next; [eapply load_port_loads; [done..|lia]|].
    assert (Hsame : sp_addr (loaded_port p p0) = sp_addr p0 /\ sp_id (loaded_port p p0) = sp_id p0)
      by (unfold loaded_port; by destruct (el_out (sp_elem p))).
    destruct Hsame as [Ea Ei]. specialize (IH (d ++ [loaded_port p p0]) (set_vs_ports (d ++ loaded_port p p0 :: l0) v) (i + 1)).
    rewrite <- !app_assoc in IH. apply IH; [done|..|lia|lia]; rewrite fmap_app in *; cbn in *; by rewrite ?Ea, ?Ei.
Qed.

Lemma load_map_differs e v l : forall i,
  (forall k w, l !! k = Some w -> 0 <= w < 2 ^ 32 /\ is_Some (vs_ports_map v !! (i + k)%nat)) ->
  (exists k w, l !! k = Some w /\ vs_ports_map v !! (i + k)%nat <> Some w) ->
  exists bs more, concat (be_bytes 4 <$> l) = bs ++ more /\ loads (load_map (length l) i) bs e v false v.
Proof.
  induction l as [|w l IH]; intros i Hw (k & w1 & Hk & Hne); [done|]. cbn [load_map length fmap list_fmap concat].
  destruct (Hw 0%nat w eq_refl) as [Hb [w0 Hi]]. rewrite Nat.add_0_r in Hi.
  destruct (Z.eqb_spec w w0) as [E|E].
  - destruct (IH (S i)) as (bs & more & Ec & Hl).
    + intros k' w' Hk'. rewrite Nat.add_succ_comm. exact (Hw (S k') w' Hk').
    + destruct k as [|k]; [rewrite Nat.add_0_r, Hi in Hne; cbn in Hk; congruence|].
      exists k, w1. by rewrite Nat.add_succ_comm.
    + exists (be_bytes 4 w ++ bs), more. split; [by rewrite Ec, app_assoc|].
      eapply bind_file; [by apply get_be32_gets|]. eapply bind_dev; [reflexivity|]. cbn [snd]. by rewrite Hi, E, Z.eqb_refl.
  - exists (be_bytes 4 w), (concat (be_bytes 4 <$> l)). split; [done|]. rewrite <- (app_nil_r (be_bytes 4 w)).
    eapply bind_file; [by apply get_be32_gets|]. eapply bind_dev; [reflexivity|]. cbn [snd].
    rewrite Hi, (proj2 (Z.eqb_neq _ _)) by done. apply loads_ret.
Qed.

(** ** The whole device *)

Variables (host_features : Z) (vmstate : option (bool -> K (vser B) unit)).
Local Instance load_callbacks : VirtioCallbacks queue_handler (vser B) := serial_callbacks map_ok host_features vmstate.

Definition map_size (c : console_config) : Z := u32 (cf_max_nr_ports c + 31) / 32.

(** The device [v] of the source and the one [v0] of the destination are of one
    kind; the guest's memory was copied into that of [e]. *)
Record twin_device e v v0 : Prop := {
  tw_regs : regs_fit (vs_vdev v);
  tw_queues : Forall (queue_fits (e_mem e)) (in_use (vd_vq (vs_vdev v)));
  tw_vq_count : Z.of_nat (length (vd_vq (vs_vdev v))) < 2 ^ 31 /\ length (vd_vq (vs_vdev v0)) = length (vd_vq (vs_vdev v));
  tw_config_size : length (vd_config (vs_vdev v0)) = length (vd_config (vs_vdev v));
  tw_features : Z.ldiff (vd_guest_features (vs_vdev v)) host_features = 0;
  tw_console : 0 <= cf_cols (vs_config v) < 2 ^ 16 /\ 0 <= cf_rows (vs_config v) < 2 ^ 16;
  tw_max : 0 <= cf_max_nr_ports (vs_config v) < 2 ^ 32;
  tw_map : map_size (vs_config v) <= Z.of_nat (length (vs_ports_map v));
  tw_words : Forall (fun w => 0 <= w < 2 ^ 32) (vs_ports_map v)
}.

(** They have the same ports. *)
Record twin_ports v v0 : Prop := {
  tw_same_max : cf_max_nr_ports (vs_config v0) = cf_max_nr_ports (vs_config v);
  tw_same_map : vs_ports_map v0 = vs_ports_map v;
  tw_ports : Forall2 twin_port (vs_ports v) (vs_ports v0);
  tw_port_count : Z.of_nat (length (vs_ports v)) < 2 ^ 32;
  tw_addrs : NoDup (sp_addr <$> vs_ports v0);
  tw_ids : NoDup (sp_id <$> vs_ports v0)
}.

(** The device of the destination after loading. *)
Definition loaded_serial v v0 : vser B :=
  set_vs_ports (zip_with loaded_port (vs_ports v) (vs_ports v0))
    (set_vs_config (vs_config v) (loaded_device (vs_vdev v) v0)).

Lemma features_accepted e v val : Z.ldiff val host_features = 0 ->
  virtio_set_features val (e, v) = Done 0 (e, put_vdev (set_vd_guest_features val (get_vdev v)) v).
Proof.
  intros H. unfold virtio_set_features. etrans; [by eapply bind_done|].
  assert (E : Z.land val host_features = val).
  { apply Z.bits_inj_iff. intros n. rewrite Z.land_spec. apply (f_equal (fun z => Z.testbit z n)) in H.
    rewrite Z.ldiff_spec, Z.bits_0 in H. destruct (Z.testbit val n), (Z.testbit host_features n); done. }
  rewrite E, H. etrans; [by eapply bind_done|]. by etrans; [by eapply bind_done|].
Qed.

(** The destination when it has read the sizes. *)
Definition loaded_console v v0 : vser B :=
  set_vs_config (CConfig (cf_cols (vs_config v)) (cf_rows (vs_config v)) (cf_max_nr_ports (vs_config v0)))
    (loaded_device (vs_vdev v) v0).

(** What is done when it has. *)
Definition load_tail (max_nr_ports max0 : Z) : K (vser B * qfile Y) Z :=
  if max0 <? max_nr_ports then mret (- EINVAL)
  else
    same ← load_map (Z.to_nat (u32 (max_nr_ports + 31) / 32)) 0;
    if negb same then mret (- EINVAL)
    else
      n ← on_file qemu_get_be32;
      while_loop (load_port_round map_ok 3 n) 0.

Lemma serial_load_head e v v0 bs a v1 :
  transport_loads load_config load_queue own own_queue -> twin_device e v v0 ->
  loads (load_tail (cf_max_nr_ports (vs_config v)) (cf_max_nr_ports (vs_config v0))) bs e (loaded_console v v0) a v1 ->
  loads (virtio_serial_load load_config load_queue map_ok 3)
    (device_bytes own own_queue (vs_vdev v) ++ be_bytes 2 (cf_cols (vs_config v)) ++ be_bytes 2 (cf_rows (vs_config v)) ++
     be_bytes 4 (cf_max_nr_ports (vs_config v)) ++ bs) e v0 a v1.
Proof.
  intros Htl [Hr Hq [Hqc Hqe] Hc Hf [Hcols Hrows] Hmax _ _] Htail.
  pose proof (free_queue_le (vd_vq (vs_vdev v))). unfold virtio_serial_load. change (3 <? 3) with false. cbv iota.
  eapply loads_bind; [eapply load_loads; try done; [cbn; lia|lia|intros; by apply features_accepted]|].
  change (3 <? 2) with false. cbn [negb Z.eqb]. cbv iota.
  eapply bind_file; [by apply get_be16_gets|]. eapply bind_dev; [reflexivity|].
  eapply bind_file; [by apply get_be16_gets|]. eapply bind_dev; [reflexivity|].
  eapply bind_file; [by apply get_be32_gets|]. eapply bind_dev; [reflexivity|]. exact Htail.
Qed.

Lemma length_map_words e v v0 : twin_device e v v0 -> length (map_words v) = Z.to_nat (u32 (cf_max_nr_ports (vs_config v) + 31) / 32).
Proof. intros [_ _ _ _ _ _ _ Hm _]. unfold map_words, map_size in *. rewrite length_take. lia. Qed.

Lemma serial_load_loads e junk v v0 :
  transport_loads load_config load_queue own own_queue -> twin_device e v v0 -> twin_ports v v0 ->
  loads (virtio_serial_load load_config load_queue map_ok 3) (serial_bytes junk v) e v0 0 (loaded_serial v v0).
Proof.
  intros Htl Hd [Hmax Hmap Hp Hpc Ha Hi]. apply serial_load_head; [done|done|]. unfold load_tail.
  rewrite Hmax, Z.ltb_irrefl. eapply loads_bind.
  - rewrite <- (length_map_words e v v0) by done. apply load_map_loads. intros k w Hk. cbn. rewrite Hmap.
    apply lookup_take_Some in Hk as [Hk _]. split; [done|]. destruct Hd as [_ _ _ _ _ _ _ _ Hw]. by eapply list.Forall_lookup_1 in Hw.
  - cbn [negb]. eapply bind_file; [apply get_be32_gets; lia|].
    assert (E : loaded_serial v v0 = set_vs_ports ([] ++ zip_with loaded_port (vs_ports v) (vs_ports v0)) (loaded_console v v0)).
    { unfold loaded_serial, loaded_console. rewrite Hmax. by destruct (vs_config v). }
    rewrite E. apply (load_ports_loads e junk _ (vs_ports v) (vs_ports v0) Hp []); try done; lia.
Qed.

(** ** What goes over *)

(** The port [p'] goes on where [p] was. *)
Record port_continues p p' : Prop := {
  pc_id : sp_id p' = sp_id p;
  pc_guest : sp_guest_connected p' = sp_guest_connected p;
  pc_host : sp_host_connected p' = sp_host_connected p;
  pc_elem : el_out (sp_elem p) <> [] ->
    sp_elem p' = sp_elem p /\ sp_iov_idx p' = sp_iov_idx p /\ sp_iov_offset p' = sp_iov_offset p /\
    sp_throttled p' = false /\ sp_bh p' = true
}.

(** The queue [q'] goes on where [q] was. *)
Record queue_continues q q' : Prop := {
  qc_num : vr_num (vq_vring q') = vr_num (vq_vring q);
  qc_pa : vq_pa q' = vq_pa q;
  qc_last : vq_last_avail_idx q' = vq_last_avail_idx q;
  qc_ring : vq_pa q <> 0 -> vq_vring q' = vq_vring (virtqueue_init q)
}.

Record continues v v0 v' : Prop := {
  ct_regs : vd_status (vs_vdev v') = vd_status (vs_vdev v) /\ vd_isr (vs_vdev v') = vd_isr (vs_vdev v) /\
    vd_queue_sel (vs_vdev v') = vd_queue_sel (vs_vdev v) /\
    vd_guest_features (vs_vdev v') = vd_guest_features (vs_vdev v) /\ vd_config (vs_vdev v') = vd_config (vs_vdev v);
  ct_queues : Forall2 queue_continues (in_use (vd_vq (vs_vdev v))) (take (free_queue (vd_vq (vs_vdev v))) (vd_vq (vs_vdev v')));
  ct_ports : Forall2 port_continues (vs_ports v) (vs_ports v');
  ct_config : vs_config v' = vs_config v;
  ct_map : vs_ports_map v' = vs_ports_map v;
  ct_handlers : vd_handlers (vs_vdev v') = vd_handlers (vs_vdev v0) /\ vs_host v' = vs_host v0
}.

Lemma loaded_queue_continues q q0 : queue_continues q (loaded_queue q q0).
Proof. unfold loaded_queue. destruct (Z.eqb_spec (vq_pa q) 0); by constructor. Qed.

Lemma load_into_continues l : forall l0, (length l <= length l0)%nat ->
  Forall2 queue_continues l (take (length l) (load_into l l0)).
Proof.
  induction l as [|q l IH]; intros [|q0 l0] Hl; cbn in *; [constructor|constructor|lia|].
  constructor; [apply loaded_queue_continues|]. apply IH. lia.
Qed.

Lemma loaded_port_continues p p0 : twin_port p p0 -> port_continues p (loaded_port p p0).
Proof. intros [Hid Hh _ _ _]. unfold loaded_port. destruct (el_out (sp_elem p)) eqn:E; constructor; cbn; try done; congruence. Qed.

Lemma loaded_continues e v v0 : twin_device e v v0 -> twin_ports v v0 -> continues v v0 (loaded_serial v v0).
Proof.
  intros [_ _ [_ Hn] _ _ _ _ _ _] [_ Hmap Hp _ _ _]. pose proof (free_queue_le (vd_vq (vs_vdev v))) as Hf.
  assert (Hlen : length (in_use (vd_vq (vs_vdev v))) = free_queue (vd_vq (vs_vdev v))).
  { unfold in_use. rewrite length_take. lia. }
  constructor; try done.
  - cbn. rewrite <- Hlen at 1. apply load_into_continues. lia.
  - cbn. induction Hp as [|p p0 l l0 Hp _ IH]; cbn; constructor; [by apply loaded_port_continues|done].
Qed.

(** C25: Migration.  The device writes itself to a file, and a device of the same
    kind with the same ports that reads what was written goes on where the first
    one was: it loads without error, reads exactly what was written, and then has
    the same registers, configuration and negotiated features, the same rings at
    the same addresses and at the same position, and the same ports, each open or
    closed as it was and in the middle of the request it was in. *)
Theorem migrate_roundtrip `{!OutStream Y} e e0 v v0 :
  transport_saves save_config save_queue own own_queue -> transport_loads load_config load_queue own own_queue ->
  twin_device e0 v v0 -> twin_ports v v0 ->
  exists bs v', continues v v0 v' /\
    (forall f, writer_ok f -> exists f',
       virtio_serial_save save_config save_queue v (e, f) = Done tt (e, f') /\ writer_ok f' /\ written f' = written f ++ bs) /\
    (forall f rest, reader_ok f -> ahead f = bs ++ rest -> exists f',
       virtio_serial_load load_config load_queue map_ok 3 (e0, (v0, f)) = Done 0 (e0, (v', f')) /\
       reader_ok f' /\ ahead f' = rest).
Proof.
  intros Hts Htl Hd Hp. exists (serial_bytes (e_junk e) v), (loaded_serial v v0). split_and!; [by eapply loaded_continues| |].
  - apply serial_save_puts; [done|destruct Hd as [[_ _ _ _ [??]] _ _ _ _ _ _ _ _]; lia|by destruct Hd|].
    destruct Hp as [_ _ Hp _ _ _]. clear Hd. induction Hp as [|p p0 l l0 [_ _ _ Hf _] _ IH]; by constructor.
  - by apply serial_load_loads.
Qed.

Lemma lists_differ (l : list Z) : forall l0, (length l <= length l0)%nat -> take (length l) l0 <> l ->
  exists k w, l !! k = Some w /\ l0 !! k <> Some w.
Proof.
  induction l as [|w l IH]; intros [|w0 l0] Hl Hne; cbn in *; [done|done|lia|].
  destruct (decide (w0 = w)) as [->|E]; [|exists 0%nat, w; split; [done|cbn; congruence]].
  destruct (IH l0) as (k & w1 & Hk); [lia|congruence|]. by exists (S k), w1.
Qed.

End Load.
End Serial.
