(* ===== verification/Backend.v ===== *)
(** * The crypto port of QEMU

    [sgerag_virtio_crypto/qemu/virtio-crypto.c]: the device behind a port, which
    carries out the requests of the guest on the host's /dev/crypto.  Memory is
    that of the QEMU process; the guest's buffers are at their host addresses.

    The kernel of the host is the class [HostKernel].  The macros
    [CRYPTO_DATA_MAX_LEN] and [CRYPTO_BLOCK_MAX_LEN] are not defined anywhere in
    the repository, so they are a parameter, the class [CryptoLimits]. *)
From stdpp Require Import base gmap gmultiset list strings numbers.
From S2P Require Import Prelude Kernel Structs Vring VirtioDev Bus.
Open Scope Z_scope.

(** ** Requests *)

Class CryptoLimits := {
  CRYPTO_DATA_MAX_LEN : Z;
  CRYPTO_BLOCK_MAX_LEN : Z;
  data_max_nonneg : 0 <= CRYPTO_DATA_MAX_LEN;
  block_max_nonneg : 0 <= CRYPTO_BLOCK_MAX_LEN
}.

Definition align_up (n a : Z) : Z := (n + a - 1) / a * a.

(** [struct crypto_data]: where its fields are.  The union [op] comes first. *)
Section Layout.
Context `{CryptoLimits}.
Definition off_keyp : Z := sizeof_session_op `max` sizeof_crypt_op.
Definition off_srcp : Z := off_keyp + CRYPTO_CIPHER_MAX_KEY_LEN.
Definition off_dstp : Z := off_srcp + CRYPTO_DATA_MAX_LEN.
Definition off_ivp : Z := off_dstp + CRYPTO_DATA_MAX_LEN.
Definition off_cmd : Z := align_up (off_ivp + CRYPTO_BLOCK_MAX_LEN) 4.
Definition sizeof_crypto_data : Z := align_up (off_cmd + 4) 8.
End Layout.

(** Where [ses] is in [struct session_op]. *)
Definition off_ses : Z := 40.

Definition set_so_key (v : Z) (s : session_op) : session_op :=
  SessionOp (so_cipher s) (so_mac s) (so_keylen s) (so_pad0 s) v (so_mackeylen s) (so_pad1 s) (so_mackey s)
    (so_ses s) (so_pad2 s).
Definition set_co_bufs (src dst iv : Z) (c : crypt_op) : crypt_op :=
  CryptOp (co_ses c) (co_op c) (co_flags c) (co_len c) (co_pad0 c) src dst (co_mac c) iv.

(** ** The process *)

(** System calls on /dev/crypto, as the C library presents them: a failing call
    returns -1. *)
Class HostKernel (H : Type) := {
  host_open : K H Z;
  host_close : Z -> K H Z;
  host_ioctl : Z -> Z -> Z -> K H Z
}.

(** The process: the [struct crypto_info]s that [malloc] gave out, with their
    [cfd]; the next address of [malloc] and its next outcomes; what was written
    to the character devices; and the kernel. *)
Record qhost (H : Type) := QHost {
  qh_infos : gmap Z Z; qh_next : Z; qh_mallocs : list bool; qh_out : bytes; qh_kernel : H }.
Arguments QHost {H}.
Arguments qh_infos {H}.
Arguments qh_next {H}.
Arguments qh_mallocs {H}.
Arguments qh_out {H}.
Arguments qh_kernel {H}.

Section Backend.
Context {H : Type} `{!HostKernel H, !CryptoLimits}.
Variable map_ok : Z -> Z -> bool -> bool.
Variable frame : Z.  (** where the local variables of [flush_buf] are *)
Implicit Types h : qhost H.

Definition set_qh_infos (f : gmap Z Z -> gmap Z Z) h : qhost H :=
  QHost (f (qh_infos h)) (qh_next h) (qh_mallocs h) (qh_out h) (qh_kernel h).
Definition set_qh_alloc (n : Z) (l : list bool) h : qhost H :=
  QHost (qh_infos h) n l (qh_out h) (qh_kernel h).
Definition set_qh_out (bs : bytes) h : qhost H :=
  QHost (qh_infos h) (qh_next h) (qh_mallocs h) bs (qh_kernel h).
Definition set_qh_kernel (k : H) h : qhost H :=
  QHost (qh_infos h) (qh_next h) (qh_mallocs h) (qh_out h) k.

(** Memory of the process. *)
Definition rd_mem {X} (a n : Z) : K X bytes := e ← gete; mret (peeks (e_mem e) (seqZ a n)).
Definition wr_mem {X} (a : Z) (bs : bytes) : K X unit :=
  mode (set_mem (pokes (seqZ a (Z.of_nat (length bs))) bs)).

(** [malloc(sizeof(crypto_info))] and [free] *)
Definition malloc_info : K (qhost H) Z :=
  h ← getx;
  e ← gete;
  match qh_mallocs h with
  | false :: l => modx (set_qh_alloc (qh_next h) l);; mret 0
  | l =>
      modx (fun h => set_qh_infos <[qh_next h := e_junk e]> (set_qh_alloc (qh_next h + 16) (tail l) h));;
      mret (qh_next h)
  end.
Definition free_info (a : Z) : K (qhost H) unit :=
  if a =? 0 then mret tt
  else
    h ← getx;
    match qh_infos h !! a with
    | Some _ => modx (set_qh_infos (delete a))
    | None => crashed DoubleFree
    end.

(** [port->cr_info->cfd] *)
Definition read_cfd (a : Z) : K (qhost H) Z :=
  if a =? 0 then crashed NullDeref
  else
    h ← getx;
    match qh_infos h !! a with Some fd => mret fd | None => crashed UseAfterFree end.
Definition write_cfd (a fd : Z) : K (qhost H) unit :=
  _ ← read_cfd a;
  modx (set_qh_infos <[a := fd]>).

Definition on_kernel {A} (m : K H A) : K (qhost H) A :=
  h ← getx;
  '(r, k) ← on_local (qh_kernel h) m;
  modx (set_qh_kernel k);;
  mret r.

(** ** Requests of the guest *)

(** The branches of [flush_buf], which fail with 1 when the host's ioctl does. *)
Definition flush_get_session (a buf cfd : Z) : K (vser (qhost H)) Z :=
  b ← rd_mem buf sizeof_session_op;
  wr_mem frame (encode_session_op (set_so_key (buf + off_keyp) (decode_session_op b)));;
  ret ← on_host (on_kernel (host_ioctl cfd CIOCGSESSION frame));
  if negb (ret =? 0) then mret 1
  else
    sess ← rd_mem frame sizeof_session_op;
    wr_mem (buf + off_ses) (le_bytes 4 (so_ses (decode_session_op sess)));;
    virtio_serial_write map_ok a buf sizeof_crypto_data;;
    mret ret.

Definition flush_crypt (a buf cfd : Z) : K (vser (qhost H)) Z :=
  b ← rd_mem buf sizeof_crypt_op;
  wr_mem frame (encode_crypt_op (set_co_bufs (buf + off_srcp) (buf + off_dstp) (buf + off_ivp)
                                   (decode_crypt_op b)));;
  ret ← on_host (on_kernel (host_ioctl cfd CIOCCRYPT frame));
  if negb (ret =? 0) then mret 1
  else
    b ← rd_mem frame sizeof_crypt_op;
    let crypt := decode_crypt_op b in
    data ← rd_mem (co_dst crypt) (co_len crypt);
    wr_mem (buf + off_dstp) data;;
    virtio_serial_write map_ok a buf sizeof_crypto_data;;
    mret ret.

Definition flush_finish_session (a buf cfd : Z) : K (vser (qhost H)) Z :=
  id ← rd_mem buf 4;
  wr_mem frame id;;
  ret ← on_host (on_kernel (host_ioctl cfd CIOCFSESSION frame));
  if negb (ret =? 0) then mret 1
  else
    id ← rd_mem frame 4;
    wr_mem buf id;;
    virtio_serial_write map_ok a buf sizeof_crypto_data;;
    mret ret.

(** [flush_buf] *)
Definition flush_buf (a buf len : Z) : K (vser (qhost H)) Z :=
  p ← port_at a;
  if negb (sp_chr p) then mret len
  else if len <? sizeof_crypto_data then crashed OutOfBounds
  else
    b ← rd_mem (buf + off_cmd) 4;
    let cmd := le_val b in
    if cmd =? CIOCGSESSION then
      cfd ← on_host (read_cfd (sp_cr_info p)); flush_get_session a buf cfd
    else if cmd =? CIOCCRYPT then
      cfd ← on_host (read_cfd (sp_cr_info p)); flush_crypt a buf cfd
    else if cmd =? CIOCFSESSION then
      cfd ← on_host (read_cfd (sp_cr_info p)); flush_finish_session a buf cfd
    else
      data ← rd_mem buf len;
      on_host (modx (fun h => set_qh_out (qh_out h ++ data) h));;
      mret (- EINVAL).

(** ** Opening and closing *)

(** [guest_open] *)
Definition guest_open (a : Z) : K (vser (qhost H)) unit :=
  p ← port_at a;
  if negb (sp_chr p) then mret tt
  else
    info ← on_host malloc_info;
    mod_port a (set_sp_cr_info info);;
    if info =? 0 then mret tt
    else
      fd ← on_host (on_kernel host_open);
      on_host (write_cfd info fd).

(** [guest_close] *)
Definition guest_close (a : Z) : K (vser (qhost H)) unit :=
  p ← port_at a;
  if negb (sp_chr p) then mret tt
  else
    cfd ← on_host (read_cfd (sp_cr_info p));
    on_host (on_kernel (host_close cfd));;
    on_host (free_info (sp_cr_info p)).

(** ** The character device *)

(** [chr_can_read], [chr_read] and [chr_event] *)
Definition chr_can_read (a : Z) : K (vser (qhost H)) Z := virtio_serial_guest_ready a.
Definition chr_read (a buf size : Z) : K (vser (qhost H)) unit :=
  virtio_serial_write map_ok a buf size;; mret tt.
Inductive chr_event_kind := CHR_EVENT_OPENED | CHR_EVENT_CLOSED | CHR_EVENT_OTHER.
Definition chr_event (a : Z) (event : chr_event_kind) : K (vser (qhost H)) unit :=
  match event with
  | CHR_EVENT_OPENED => virtio_serial_open map_ok a;; mret tt
  | CHR_EVENT_CLOSED => virtio_serial_close map_ok a;; mret tt
  | CHR_EVENT_OTHER => mret tt
  end.

(** [virtconsole_initfn] *)
Definition virtconsole_initfn (port : sport) : K (vser (qhost H)) Z :=
  if (sp_id port =? 0) && negb (sp_is_console port) then mret (-1) else mret 0.

(** [virtconsole_class_init] and [virtserialport_class_init] *)
Definition crypto_port_class : PortClass (qhost H) := {|
  port_init := virtconsole_initfn;
  port_exit := None;
  port_guest_open := Some guest_open;
  port_guest_close := Some guest_close;
  port_guest_ready := None;
  port_have_data := flush_buf
|}.
End Backend.
