(* ===== verification/BackendFacts.v ===== *)
(** * Facts about the crypto port

    How the state of a port, of its two queues and of the process move together
    under the operations of the bus; opening and closing the port by the guest
    leaves nothing behind. *)
From stdpp Require Import base gmap gmultiset list strings numbers.
From S2P Require Import Prelude Kernel KernelFacts Structs Vring VringFacts RingFacts VirtioDev VirtioDevFacts Bus BusFacts PortFacts Backend.
Open Scope Z_scope.

(** ** The layout of a request *)

Section Layout.
Context `{!CryptoLimits}.
Lemma align_up_ge n a : 0 < a -> n <= align_up n a.
Proof. intros Ha. unfold align_up. Z.to_euclidean_division_equations. nia. Qed.

Lemma layout :
  sizeof_crypt_op <= off_srcp /\ off_dstp = off_srcp + CRYPTO_DATA_MAX_LEN /\
  off_ivp = off_dstp + CRYPTO_DATA_MAX_LEN /\ off_ivp + CRYPTO_BLOCK_MAX_LEN <= off_cmd /\
  off_cmd + 4 <= sizeof_crypto_data /\ 0 <= CRYPTO_DATA_MAX_LEN /\ 0 <= CRYPTO_BLOCK_MAX_LEN /\ 0 <= off_srcp.
Proof.
  pose proof data_max_nonneg. pose proof block_max_nonneg.
  pose proof (align_up_ge (off_ivp + CRYPTO_BLOCK_MAX_LEN) 4 eq_refl). pose proof (align_up_ge (off_cmd + 4) 8 eq_refl).
  unfold off_srcp, off_keyp, sizeof_session_op, sizeof_crypt_op, CRYPTO_CIPHER_MAX_KEY_LEN in *.
  split_and!; try done; lia.
Qed.
End Layout.

(** ** Ports *)

Lemma find_upd_port a f l : (forall p, sp_addr (f p) = sp_addr p) ->
  find_port a (upd_port a f l) = f <$> find_port a l.
Proof.
  intros Hf. induction l as [|p l IH]; [done|]. cbn. destruct (Z.eqb_spec (sp_addr p) a) as [E|E].
  - rewrite Hf, E, Z.eqb_refl. done.
  - rewrite (proj2 (Z.eqb_neq _ _)) by done. exact IH.
Qed.

Lemma find_port_addr a l p : find_port a l = Some p -> sp_addr p = a.
Proof. intros E. apply find_some in E as [_ E]. by apply Z.eqb_eq in E. Qed.

Lemma upd_upd_port a f p l : sp_addr p = a ->
  upd_port a f (upd_port a (fun _ => p) l) = upd_port a (fun _ => f p) l.
Proof.
  intros Hp. unfold upd_port. rewrite <- list_fmap_compose. apply list_fmap_ext. intros _ q _. cbn.
  destruct (Z.eqb_spec (sp_addr q) a); [by rewrite Hp, Z.eqb_refl|]. by rewrite (proj2 (Z.eqb_neq _ _)).
Qed.

Lemma upd_port_same l p : NoDup (sp_addr <$> l) -> p ∈ l -> upd_port (sp_addr p) (fun _ => p) l = l.
Proof.
  intros Hnd Hin. unfold upd_port. rewrite <- (list_fmap_id l) at 2. apply list_fmap_ext.
  intros i q Hq. cbn. destruct (Z.eqb_spec (sp_addr q) (sp_addr p)) as [E|E]; [|done].
  apply list_elem_of_lookup in Hin as [j Hj].
  assert (i = j) as -> by (eapply NoDup_lookup; [exact Hnd|rewrite list_lookup_fmap, Hq; done|rewrite list_lookup_fmap, Hj; cbn; by rewrite E]).
  congruence.
Qed.

Section Direct.
Context {B : Type}.
Implicit Types (v : vser B) (e : env).

Lemma on_host_done {A} (m : K B A) e v e' r h :
  m (e, vs_host v) = Done r (e', h) -> on_host m (e, v) = Done r (e', set_vs_host h v).
Proof. intros E. unfold on_host, mbind, M_bind, on_local. cbn [getx fst snd]. by rewrite E. Qed.
End Direct.

Section View.
Context {B : Type}.
Implicit Types (v : vser B) (e : env) (p : sport) (h : B).

(** The bus [v] is [v0] with the port at [a] now [p], the state of the process
    [h], and the queues [no] and [ni] (of the port) now [qo] and [qi]. *)
Record view v0 a no ni v p h qo qi : Prop := {
  vw_ports : vs_ports v = upd_port a (fun _ => p) (vs_ports v0);
  vw_found : is_Some (find_port a (vs_ports v0));
  vw_addr : sp_addr p = a;
  vw_host : vs_host v = h;
  vw_out : vq_is no v qo;
  vw_in : vq_is ni v qi;
  vw_apart : no <> ni;
  vw_features : vd_guest_features (vs_vdev v) = vd_guest_features (vs_vdev v0)
}.

Section Steps.
Context {v0 : vser B} {a : Z} {no ni : nat} {v : vser B} {p : sport} {h : B} {qo qi : virtqueue}.
Hypothesis Hv : view v0 a no ni v p h qo qi.

Lemma view_port : find_port a (vs_ports v) = Some p.
Proof.
  destruct Hv as [E [p0 F] Ha _ _ _ _ _]. rewrite E. clear E Hv. revert F. induction (vs_ports v0) as [|q l IH]; [done|]. cbn.
  destruct (Z.eqb_spec (sp_addr q) a); intros F; [by rewrite Ha, Z.eqb_refl|].
  rewrite (proj2 (Z.eqb_neq _ _)) by done. by apply IH.
Qed.

Lemma view_port_at e : port_at a (e, v) = Done p (e, v).
Proof. by apply port_at_spec, view_port. Qed.

Lemma view_mod_port e f : sp_addr (f p) = sp_addr p ->
  exists v', mod_port a f (e, v) = Done tt (e, v') /\ view v0 a no ni v' (f p) h qo qi.
Proof.
  intros Hf. exists (set_vs_ports (upd_port a f (vs_ports v)) v). split.
  - by eapply mod_port_done, view_port.
  - destruct Hv as [E ? Ha ? ? ? ? ?]. split; try done; [|by rewrite Hf]. cbn. rewrite E. by apply upd_upd_port.
Qed.

Lemma view_on_host {A} (m : K B A) e e' r h' :
  m (e, h) = Done r (e', h') ->
  exists v', on_host m (e, v) = Done r (e', v') /\ view v0 a no ni v' p h' qo qi.
Proof.
  intros E. exists (set_vs_host h' v). split; [|by destruct Hv].
  apply on_host_done. by rewrite (vw_host _ _ _ _ _ _ _ _ _ Hv).
Qed.

Lemma view_touched_out v' q : touched no v v' q -> view v0 a no ni v' p h q qi.
Proof.
  intros Ht. assert (Ho := touched_is _ _ _ _ _ (vw_out _ _ _ _ _ _ _ _ _ Hv) Ht). assert (Hi := touched_ne _ ni _ _ _ (vw_apart _ _ _ _ _ _ _ _ _ Hv) Ht).
  assert (Hf := touched_features _ _ _ _ Ht). destruct Ht as (isr & irqs & ->), Hv. split; try done.
  - unfold vq_is. by rewrite Hi.
Qed.

Lemma view_touched_in v' q : touched ni v v' q -> view v0 a no ni v' p h qo q.
Proof.
  intros Ht. assert (Hne : ni <> no) by (by destruct Hv).
  assert (Hi := touched_is _ _ _ _ _ (vw_in _ _ _ _ _ _ _ _ _ Hv) Ht). assert (Ho := touched_ne _ no _ _ _ Hne Ht).
  assert (Hf := touched_features _ _ _ _ Ht). destruct Ht as (isr & irqs & ->), Hv. split; try done.
  - unfold vq_is. by rewrite Ho.
Qed.
End Steps.
End View.

Section Process.
Context {H : Type} `{!HostKernel H, !CryptoLimits}.
Implicit Types (e : env) (h : qhost H).

Lemma on_kernel_done {A} (m : K H A) e h e' k' r :
  m (e, qh_kernel h) = Done r (e', k') -> on_kernel m (e, h) = Done r (e', set_qh_kernel k' h).
Proof. intros E. unfold on_kernel, mbind, M_bind, on_local. cbn [getx fst snd]. by rewrite E. Qed.

Lemma read_cfd_done a e h fd : a <> 0 -> qh_infos h !! a = Some fd -> read_cfd a (e, h) = Done fd (e, h).
Proof.
  intros Ha Hi. unfold read_cfd. rewrite (proj2 (Z.eqb_neq _ _)) by done.
  unfold mbind, M_bind. cbn [getx snd]. by rewrite Hi.
Qed.
End Process.
