(* ===== verification/Stack.v ===== *)
(** * The host under the crypto port

    The kernel that QEMU's crypto port runs on: its open files on /dev/crypto
    are those of cryptodev-linux.  The system call layer above the driver is the
    documented behaviour of [open], [ioctl] and [close]: a descriptor names an
    open file, an error of the driver arrives as -1, and the last [close]
    releases the file. *)
From stdpp Require Import base gmap gmultiset list strings numbers.
From S2P Require Import Prelude Kernel Structs CryptoApi Fcrypt Ioctl Vring VirtioDev Bus Backend.
Open Scope Z_scope.

Section Stack.
Context `{CryptoAPI}.

(** The open files of the process on /dev/crypto. *)
Definition files : Type := gmap Z crypt_priv.

(** Errors of the kernel, as the C library returns them. *)
Definition libc_result (r : Z) : Z := if (- 4095 <=? r) && (r <? 0) then -1 else r.

Definition files_open : K files Z :=
  e ← gete;
  match e_fds e with
  | fd :: fds =>
      mode (set_fds fds);;
      if fd <? 0 then mret (-1)
      else
        '(ret, o) ← on_local None cryptodev_open;
        match o with
        | Some p => modx <[fd := p]>;; mret fd
        | None => mret (libc_result ret)
        end
  | [] => mret (-1)
  end.

Definition files_close (fd : Z) : K files Z :=
  fs ← getx;
  match fs !! fd with
  | None => mret (-1)
  | Some p =>
      modx (delete fd);;
      if 1 <? cp_fcount p then mret 0
      else '(ret, _) ← on_local (Some p) cryptodev_release; mret (libc_result ret)
  end.

Definition files_ioctl (fd cmd arg : Z) : K files Z :=
  fs ← getx;
  match fs !! fd with
  | None => mret (-1)
  | Some p =>
      '(ret, p') ← on_local p (cryptodev_ioctl cmd arg);
      modx <[fd := p']>;;
      mret (libc_result ret)
  end.

Global Instance cryptodev_host : HostKernel files := {|
  host_open := files_open;
  host_close := files_close;
  host_ioctl := files_ioctl
|}.
End Stack.
