(* ===== verification/StackFacts.v ===== *)
(** * From the guest's request to the cipher and back

    A request that the guest puts into the queue of a crypto port is carried out
    by the host's cryptodev and comes back in a buffer of the guest: the ring
    code, the serial bus, the crypto port and the ioctl path of the driver,
    composed. *)
From stdpp Require Import base gmap gmultiset list strings numbers.
From S2P Require Import Prelude Kernel KernelFacts Structs CryptoApi Sg.
From S2P Require Import Cryptlib CryptlibFacts Zc ZcFacts Fcrypt FcryptFacts Run RunFacts Authenc Ioctl FileFacts IoctlFacts.
From S2P Require Import Vring VringFacts RingFacts VirtioDev VirtioDevFacts Bus BusFacts PortFacts Backend BackendFacts Stack.
Open Scope Z_scope.

(** ** Memory *)

Lemma pokes_agree (P : Z -> Prop) l bs m m' : agree P m m' -> agree P (pokes l bs m) (pokes l bs m').
Proof.
  revert bs m m'. induction l as [|a l IH]; intros [|b bs] m m' Ha; try done. cbn. apply IH.
  intros x Hx. destruct (decide (a = x)) as [->|Hne]; [by rewrite !peek_poke_eq|]. rewrite !peek_poke_ne by done. by apply Ha.
Qed.

Lemma write_back_agree (P : Z -> Prop) k m m' : agree P m m' -> agree P (write_back k m) (write_back k m').
Proof. intros Ha. unfold write_back, write_bytes. destruct (_ =? 0), (writes_iv k); by repeat apply pokes_agree. Qed.

(** Decides whether a region is in a list. *)
Ltac not_region := apply (bool_decide_unpack _); vm_compute; exact I.

Section StackFacts.
Context `{CryptoAPI, !CryptoAPISizes, !CipherLaws, !HashLaws, !CryptoAPISucceeds, !CryptoLimits}.
Implicit Types (e : env) (s : csession) (k : kernel_crypt_op).

(** ** The call of the driver *)

Lemma op_bufs_pages m m' s cop : m_pages m' = m_pages m -> op_bufs m s cop -> op_bufs m' s cop.
Proof.
  assert (Hub : forall src dst n, m_pages m' = m_pages m -> user_bufs m s src dst n -> user_bufs m' s src dst n).
  { intros src dst n Hp [Hs Hd Ha]. split; [by eapply range_readable_pages| |done].
    intros Hc. eapply range_writable_pages; [done|by apply Hd]. }
  intros Hp [Hl Hb]. split; [done|]. destruct (has_flag _ _); [by apply Hub|].
  destruct Hb. split; try done; [by apply Hub|by eapply range_writable_pages].
Qed.

(** What the caller has to provide does not depend on the contents of memory. *)
Lemma crypt_call_mem e f p R cop arg size i s :
  contents f -> crypt_call e p R cop arg size i s -> crypt_call (set_mem f e) p R cop arg size i s.
Proof.
  intros Hf [Hr Hu [Ha Hw] Hiv Hmac Hwiv].
  assert (Hp : m_pages (e_mem (set_mem f e)) = m_pages (e_mem e)) by apply Hf.
  split; [|done| | | |].
  - destruct Hr as [Hh Hc Hop Hs Hsid Hpl Hb Hbufs Hlen]. split; try done.
    + by apply handle_mem.
    + eapply op_bufs_pages; [exact Hp|exact Hbufs].
    + cbn [kc_iv request] in *. unfold memcpy in *. rewrite length_app, length_take, length_drop, length_peeks, length_seqZ in *. done.
  - split; [by eapply range_readable_pages|by eapply range_writable_pages].
  - intros Hne. eapply range_readable_pages; [done|by apply Hiv].
  - intros Hfin. eapply range_writable_pages; [done|by apply Hmac].
  - intros Hwr. eapply range_writable_pages; [done|by apply Hwiv].
Qed.

(** CIOCCRYPT through the system call. *)
Lemma files_ioctl_crypt e (fs : files) fd p R arg i s :
  let cop := decode_crypt_op (peeks (e_mem e) (seqZ arg sizeof_crypt_op)) in
  fs !! fd = Some p -> crypt_call e p R cop arg sizeof_crypt_op i s -> crypt_op_fits cop -> e_allocs e = [] ->
  exists e' p', files_ioctl fd CIOCCRYPT arg (e, fs) = Done 0 (e', <[fd := p']> fs) /\
    crypt_done e p R cop encode_crypt_op arg i s e' p'.
Proof.
  intros cop Hfd Hcc Hf Hal.
  destruct (crypt_request_done e p R sizeof_crypt_op (fun _ => decode_crypt_op) encode_crypt_op arg i s
    Hcc Hal ltac:(done)) as (e' & p' & E & Hd).
  { change (Z.of_nat (length (encode_crypt_op cop)) = sizeof_crypt_op).
    assert (Hl : length (encode_crypt_op cop) = 48%nat) by exact (encode_length (T := crypt_op) cop Hf). by rewrite Hl. }
  change (cryptodev_ioctl CIOCCRYPT arg (e, p) = Done 0 (e', p')) in E.
  exists e', p'. split; [|done]. unfold files_ioctl. etrans; [by eapply bind_done|]. cbn [fst snd]. rewrite Hfd.
  etrans; [eapply bind_done; unfold on_local; cbn [fst snd]; rewrite E; reflexivity|]. done.
Qed.

(** ** Who owns what *)

(** The parts of memory that take part in a request: what the guest offers in
    the two queues, the used rings, the request, the local variables of
    [flush_buf], and the buffers for the reply. *)
Inductive region := ROffer (out : bool) | RUsed (out : bool) | RRequest | RFrame | RReply.

Variable map_ok : Z -> Z -> bool -> bool.
Variable frame : Z.

Section Request.
Variables (m0 : mem) (qo qi : virtqueue) (base : Z) (ins : list iovec).

Definition in_region (r : region) (x : Z) : Prop :=
  match r with
  | ROffer true => offer_zone m0 qo x
  | ROffer false => offer_zone m0 qi x
  | RUsed true => device_zone qo x
  | RUsed false => device_zone qi x
  | RRequest => zone base sizeof_crypto_data x
  | RFrame => zone frame sizeof_crypt_op x
  | RReply => x ∈ iov_addrs ins
  end.

Global Instance region_eq_dec : EqDecision region.
Proof. solve_decision. Defined.

(** They do not overlap, and belong to the process. *)
Record regions_ok : Prop := {
  rg_disjoint : forall r r' x, in_region r x -> in_region r' x -> r = r';
  rg_user : forall r x, in_region r x -> 0 <= x < TASK_SIZE
}.

(** Of the memory of the process, only the regions in [W] have changed. *)
Definition only (W : list region) (m m' : mem) : Prop :=
  forall x, x < TASK_SIZE -> (forall r, r ∈ W -> ~ in_region r x) -> peek m' x = peek m x.

Lemma only_trans W m1 m2 m3 : only W m1 m2 -> only W m2 m3 -> only W m1 m3.
Proof. intros Ho1 Ho2 x Hx Hw. by rewrite (Ho2 x Hx Hw), (Ho1 x Hx Hw). Qed.
Lemma only_more W W' m m' : W ⊆ W' -> only W m m' -> only W' m m'.
Proof. intros Hs Ho x Hx Hw. apply Ho; [done|]. intros r Hr. apply Hw. by apply Hs. Qed.
Lemma only_agree W m m' (P : Z -> Prop) :
  agree P m m' -> (forall x, ~ P x -> exists r, r ∈ W /\ in_region r x) -> only W m m'.
Proof.
  intros Ha Hout x Hx Hw. destruct (peek m' x =? peek m x) eqn:E; [by apply Z.eqb_eq|]. exfalso.
  apply Z.eqb_neq in E. destruct (Hout x) as (r & Hr & Hi); [intros HP; by apply E, Ha|by eapply Hw].
Qed.
Lemma only_pokes r a n bs m :
  (forall x, zone a n x -> in_region r x) -> only [r] m (pokes (seqZ a n) bs m).
Proof.
  intros Hz x Hx Hw. apply peek_pokes_notin. rewrite elem_of_seqZ. intros Hin. apply (Hw r); [by left|]. by apply Hz.
Qed.

(** The other regions are as they were. *)
Lemma only_region W m m' r : regions_ok -> only W m m' -> r ∉ W -> agree (in_region r) m m'.
Proof.
  intros [Hd Hu] Ho Hr x Hx. apply Ho; [by apply (Hu r)|]. intros r' Hr' Hx'. by rewrite (Hd _ _ _ Hx Hx') in Hr.
Qed.
End Request.

(** ** The request *)

(** The operation that the request at [base] asks for. *)
Definition req_cop (m : mem) (base : Z) : crypt_op :=
  set_co_bufs (base + off_srcp) (base + off_dstp) (base + off_ivp)
    (decode_crypt_op (peeks m (seqZ base sizeof_crypt_op))).

(** A request that the session [s] of the file [p] can carry out: a cipher
    operation that fits into the fields of the structure. *)
Record request_ok e base p R i s : Prop := {
  rq_call : crypt_call e p R (req_cop (e_mem e) base) frame sizeof_crypt_op i s;
  rq_fits : crypt_op_fits (req_cop (e_mem e) base);
  rq_len : co_len (req_cop (e_mem e) base) <= CRYPTO_DATA_MAX_LEN;
  rq_iv : cd_ivsize (cs_cdata s) <= CRYPTO_BLOCK_MAX_LEN;
  rq_cipher : finishes s (req_cop (e_mem e) base) = false;
  rq_allocs : e_allocs e = []
}.

(** What the operation gives, and the request with the result in it. *)
Definition crypt_out e base s out iv st : Prop :=
  let cop := req_cop (e_mem e) base in
  let D := peeks (e_mem e) (seqZ (co_src cop) (co_len cop)) in
  chunk (negb (co_op cop =? COP_ENCRYPT)) s (start_iv s (request e s (stack_kcop e cop))) (start_st s cop) D D =
    (0, out, iv, st).
Definition answered e base s out iv st : mem :=
  let cop := req_cop (e_mem e) base in
  write_back (finish_kcop s (request e s (stack_kcop e cop)) iv st)
    (pokes (seqZ (co_dst cop) (co_len cop)) out (e_mem e)).

Lemma request_ivlen e s cop : ses_ok s -> 0 <= kc_ivlen (request e s (stack_kcop e cop)) <= cd_ivsize (cs_cdata s).
Proof. intros Hs. pose proof (session_ivsize _ Hs). cbn. destruct (_ =? 0); lia. Qed.

Local Instance port_class : PortClass (qhost files) := crypto_port_class map_ok frame.

Section Call.
Variables (m0 : mem) (qo qi : virtqueue) (base : Z) (ins : list iovec).
Hypothesis Hreg : regions_ok m0 qo qi base ins.
Abbreviation in_region := (in_region m0 qo qi base ins).
Abbreviation only := (only m0 qo qi base ins).

Lemma part_of_request a n : base <= a -> a + n <= base + sizeof_crypto_data ->
  forall x, x ∈ seqZ a n -> in_region RRequest x.
Proof. intros ? ? x Hx%elem_of_seqZ. cbn. unfold zone. lia. Qed.

Lemma request_agree e e2 s cop :
  ses_ok s -> agree (in_region RRequest) (e_mem e) (e_mem e2) -> e_junk e2 = e_junk e ->
  co_iv cop = base + off_ivp -> cd_ivsize (cs_cdata s) <= CRYPTO_BLOCK_MAX_LEN ->
  request e2 s (stack_kcop e2 cop) = request e s (stack_kcop e cop).
Proof.
  intros Hs Ha Hj Hiv Hbs. unfold request, stack_kcop. cbn [kc_cop kc_iv kc_hash_output]. rewrite Hj.
  destruct layout as (? & ? & ? & ? & ? & ? & ? & ?). pose proof (session_ivsize _ Hs).
  rewrite (peeks_agree _ _ _ _ Ha); [done|]. rewrite Hiv.
  destruct (_ =? 0); apply part_of_request; lia.
Qed.

(** Writing back stays in the request. *)
Lemma write_back_in s k iv st m :
  ses_ok s -> finishes s (kc_cop k) = false -> kc_digestsize k = 0 ->
  0 <= kc_ivlen k <= CRYPTO_BLOCK_MAX_LEN -> co_iv (kc_cop k) = base + off_ivp ->
  only [RRequest] m (write_back (finish_kcop s k iv st) m).
Proof.
  intros Hs Hfin Hd Hl Hiv. unfold write_back. rewrite finish_digestsize, Hfin, Hd. cbn [Z.eqb].
  destruct (writes_iv _); [|by intros x]. rewrite finish_kcop_cop, Hiv. unfold write_bytes. apply only_pokes.
  intros x Hx. destruct layout as (? & ? & ? & ? & ? & ? & ? & ?). cbn. unfold zone in *.
  unfold iv_out in Hx. rewrite finish_ivlen, length_take in Hx. lia.
Qed.

(** The ioctl of [flush_crypt], with the operation in the frame. *)
Lemma ioctl_step e (fs : files) fd p R i s :
  request_ok e base p R i s -> fs !! fd = Some p -> ses_ok s ->
  let cop := req_cop (e_mem e) base in
  let e2 := set_mem (pokes (seqZ frame sizeof_crypt_op) (encode_crypt_op cop)) e in
  exists e3 s' out iv st, files_ioctl fd CIOCCRYPT frame (e2, fs) = Done 0 (e3, <[fd := with_session i s' p]> fs) /\
    crypt_out e base s out iv st /\ handle_ok e3 (with_session i s' p) R /\
    cs_cdata s' = set_cd_iv iv (cs_cdata s) /\ e_pins e3 = e_pins e /\
    only [RFrame; RRequest] (e_mem e) (e_mem e3) /\
    peeks (e_mem e3) (seqZ frame sizeof_crypt_op) = encode_crypt_op cop /\
    agree (in_region RRequest) (answered e base s out iv st) (e_mem e3).
Proof.
  intros [Hcall Hfits Hlen Hiv Hnf Hal] Hfd Hs cop e2.
  assert (Hl : length (encode_crypt_op cop) = 48%nat) by exact (encode_length (T := crypt_op) cop Hfits).
  assert (Hfr : only [RFrame] (e_mem e) (e_mem e2)) by (apply only_pokes; by intros x).
  assert (Hrq : agree (in_region RRequest) (e_mem e) (e_mem e2)) by (eapply only_region; [done|exact Hfr|not_region]).
  assert (Hpk : peeks (e_mem e2) (seqZ frame sizeof_crypt_op) = encode_crypt_op cop).
  { apply peeks_pokes_eq; [apply NoDup_seqZ|]. by rewrite Hl, length_seqZ. }
  assert (Hdec : decode_crypt_op (peeks (e_mem e2) (seqZ frame sizeof_crypt_op)) = cop).
  { rewrite Hpk. exact (decode_encode (T := crypt_op) cop Hfits). }
  assert (Hcall2 : crypt_call e2 p R cop frame sizeof_crypt_op i s) by (apply crypt_call_mem; [intros m; apply pokes_pages|done]).
  destruct (files_ioctl_crypt e2 fs fd p R frame i s Hfd) as (e3 & p' & E & s' & out & iv & st & Hd); rewrite ?Hdec; try done.
  rewrite Hdec in Hd. cbv zeta in Hd. destruct Hd as (-> & Hc & U & Hcd & _ & Hpins & Hh).
  assert (Hreq : request e2 s (stack_kcop e2 cop) = request e s (stack_kcop e cop)) by (by apply request_agree).
  destruct layout as (? & ? & ? & ? & ? & ? & ? & ?).
  assert (H0l : 0 <= co_len cop) by (unfold crypt_op_fits, is_u in Hfits; tauto).
  change (req_cop (e_mem e) base) with cop in Hlen, Hnf. assert (Esrc : co_src cop = base + off_srcp) by done.
  assert (Edst : co_dst cop = base + off_dstp) by done.
  rewrite Hreq in Hc, U. rewrite (peeks_agree _ _ _ _ Hrq) in Hc by (apply part_of_request; lia).
  set (kf := finish_kcop s (request e s (stack_kcop e cop)) iv st) in *.
  set (dst := seqZ (co_dst cop) (co_len cop)) in *.
  assert (Hdst : forall m, only [RRequest] m (pokes dst out m)).
  { intros m. apply only_pokes. intros x Hx. apply (part_of_request (co_dst cop) (co_len cop)); [lia..|]. by apply elem_of_seqZ. }
  assert (Hwb : forall m, only [RRequest] m (write_back kf m)).
  { intros m. apply write_back_in; try done. pose proof (request_ivlen e s cop Hs). lia. }
  set (mw := write_back kf (pokes dst out (e_mem e2))) in *.
  assert (Hwr : forall m m', only [RRequest] m m' -> only [RFrame; RRequest] m m') by (intros m m'; apply only_more; intros r Hr; by right).
  assert (Hfin : only [RFrame; RRequest] mw (e_mem e3)).
  { intros x Hx Hout. rewrite (U x Hx). unfold write_bytes. rewrite Hl. apply peek_pokes_notin. rewrite elem_of_seqZ.
    intros Hin. apply (Hout RFrame); [by left|done]. }
  exists e3, s', out, iv, st. split_and!; try done.
  - eapply only_trans; [eapply only_more, Hfr; intros r ->%list_elem_of_singleton; by left|]. eapply only_trans; [apply Hwr, Hdst|].
    eapply only_trans; [apply Hwr, Hwb|exact Hfin].
  - etrans; [|apply (peeks_pokes_eq (seqZ frame sizeof_crypt_op) (encode_crypt_op cop) mw);
      [apply NoDup_seqZ|by rewrite Hl, length_seqZ]].
    apply list_fmap_ext. intros _ x Hx%list_elem_of_lookup_2. rewrite (U x); [unfold write_bytes; by rewrite Hl|].
    apply (rg_user _ _ _ _ _ Hreg RFrame x). by apply elem_of_seqZ in Hx.
  - intros x Hx. rewrite (U x) by (by apply (rg_user _ _ _ _ _ Hreg RRequest x)). unfold write_bytes. rewrite Hl.
    rewrite peek_pokes_notin.
    + apply (write_back_agree (in_region RRequest)), Hx. by apply pokes_agree.
    + intros Hf%elem_of_seqZ. by pose proof (rg_disjoint _ _ _ _ _ Hreg RRequest RFrame x Hx Hf).
Qed.

(** ** The reply *)

(** The queue to the guest has an entry that can hold the reply. *)
Record reply_ok e (l : list (bool * iovec)) : Prop := {
  ry_ins : ins = chain_ins l;
  ry_ring : ring_ok qi;
  ry_ready : virtio_queue_ready qi = true;
  ry_heads : 0 < heads (e_mem e) qi <= vr_num (vq_vring qi);
  ry_offers : offers map_ok (e_mem e) qi l;
  ry_zone : forall x, offer_zone (e_mem e) qi x -> in_region (ROffer false) x;
  ry_used : 0 <= used_idx (e_mem e) qi < 2 ^ 16;
  ry_ok : iov_ok ins;
  ry_nodup : NoDup (iov_addrs ins);
  ry_size : 0 < sizeof_crypto_data <= iov_size ins /\ sizeof_crypto_data < 2 ^ 32
}.

Lemma offer_zone_agree m m' l x :
  ring_placed qi -> agree (driver_zone qi) m m' -> offers map_ok m qi l -> offer_zone m' qi x -> offer_zone m qi x.
Proof. intros Hp Ha Ho [Hx|Hx]; [by left|right]. by eapply table_zone_agree. Qed.

Lemma used_idx_agree m m' q : ring_placed q -> agree (device_zone q) m m' -> used_idx m' q = used_idx m q.
Proof.
  intros Hp Ha. apply (rd_agree (device_zone q)); [done|]. intros x. rewrite u64_small by (destruct Hp; lia).
  unfold device_zone, zone. destruct Hp. lia.
Qed.

(** The offer stands as long as only the request and the frame change. *)
Lemma reply_ok_only e e' l W :
  reply_ok e l -> only W (e_mem e) (e_mem e') -> ROffer false ∉ W -> RUsed false ∉ W -> reply_ok e' l.
Proof.
  intros [Y1 Y2 Y3 Y4 Y5 Y6 Y7 Y8 Y9 Y10] Ho Hn1 Hn2. assert (Hp := ro_placed _ Y2).
  assert (Ha : agree (offer_zone (e_mem e) qi) (e_mem e) (e_mem e')).
  { eapply agree_sub; [exact Y6|]. by eapply only_region. }
  assert (Hd : agree (driver_zone qi) (e_mem e) (e_mem e')) by (eapply agree_sub; [|exact Ha]; by left).
  assert (Hu : agree (in_region (RUsed false)) (e_mem e) (e_mem e')) by (by eapply only_region).
  split; try done.
  - by rewrite (heads_agree (e_mem e)).
  - by eapply offers_agree.
  - intros x Hx. apply Y6. by eapply offer_zone_agree.
  - by rewrite (used_idx_agree (e_mem e)).
Qed.

Lemma reply_unmoved e e' l W :
  reply_ok e l -> only W (e_mem e) (e_mem e') -> ROffer false ∉ W -> RUsed false ∉ W ->
  next_head (e_mem e') qi = next_head (e_mem e) qi /\ used_idx (e_mem e') qi = used_idx (e_mem e) qi.
Proof.
  intros Hry Ho Hn1 Hn2. assert (Hp := ro_placed _ (ry_ring _ _ Hry)). split.
  - apply next_head_agree; [done|]. eapply agree_sub; [|eapply (only_region _ _ _ _ _ W _ _ (ROffer false)); done].
    intros x Hx. apply (ry_zone _ _ Hry). by left.
  - apply used_idx_agree; [done|]. by eapply (only_region _ _ _ _ _ W _ _ (RUsed false)).
Qed.

Lemma reply_fillable e l : reply_ok e l -> fillable qi (chain_ins l) base sizeof_crypto_data.
Proof.
  intros [Y1 Y2 Y3 Y4 Y5 Y6 Y7 Y8 Y9 Y10]. rewrite <- Y1. destruct Hreg as [Hd _]. split; try done.
  - intros x Hx Hz. by pose proof (Hd RReply (RUsed false) x Hx Hz).
  - intros x Hx%elem_of_seqZ Hz. by pose proof (Hd RRequest RReply x Hx Hz).
  - intros x Hx Hz. by pose proof (Hd RRequest (RUsed false) x Hx Hz).
Qed.

(** The structure at [base] has arrived in the guest's buffers. *)
Record replied e (e' : env) (qi' : virtqueue) : Prop := {
  rp_only : only [RUsed false; RReply] (e_mem e) (e_mem e');
  rp_data : peeks (e_mem e') (iov_part ins 0 sizeof_crypto_data) = peeks (e_mem e) (seqZ base sizeof_crypto_data);
  rp_id : used_id (e_mem e') qi (used_idx (e_mem e) qi mod vr_num (vq_vring qi)) = next_head (e_mem e) qi;
  rp_len : used_len (e_mem e') qi (used_idx (e_mem e) qi mod vr_num (vq_vring qi)) = sizeof_crypto_data;
  rp_idx : used_idx (e_mem e') qi = u16 (used_idx (e_mem e) qi + 1);
  rp_queue : at_same (popped qi) qi' /\ vq_inuse qi' = vq_inuse qi
}.

Lemma send_reply {B} e (v v0 : vser B) a no p h l qo1 :
  view v0 a no (sp_ivq p) v p h qo1 qi -> reply_ok e l ->
  a <> 0 -> sp_host_connected p = true -> sp_guest_connected p = true ->
  exists e' v' qi', virtio_serial_write map_ok a base sizeof_crypto_data (e, v) = Done sizeof_crypto_data (e', v') /\
    view v0 a no (sp_ivq p) v' p h qo1 qi' /\ (exists f, e' = set_mem f e) /\ replied e e' qi'.
Proof.
  intros Hv Hry Ha Hhc Hgc. assert (Hf := reply_fillable e l Hry).
  destruct (Hry) as [Y1 Y2 Y3 Y4 Y5 Y6 Y7 Y8 Y9 [Y10 Y11]]. assert (Hp := ro_placed _ Y2).
  destruct (serial_write_one map_ok a base sizeof_crypto_data e v p qi l) as (v' & q' & E & Ht & Hat & Hi);
    try done; [by eapply view_port|by eapply vw_in|by rewrite <- Y1|]. rewrite <- Y1 in *.
  eexists _, v', q'. split; [exact E|]. split; [by eapply view_touched_in|]. split.
  { by eexists. }
  set (f := vd_guest_features _) in *. destruct (filled_entry f qi e ins base sizeof_crypto_data sizeof_crypto_data) as [E1 E2];
    try done; [destruct (fr_head _ _ _ _ Y5); destruct Hp; lia|lia|].
  split; cbn [e_mem set_mem]; try done.
  - eapply only_agree; [by apply filled_kept|]. intros x Hx. destruct (decide (x ∈ iov_addrs ins)) as [Hin|Hin].
    + exists RReply. split; [by right; left|done].
    + exists (RUsed false). split; [by left|]. apply (dec_stable (P := device_zone qi x)). tauto.
  - eapply filled_data; [done|exact Hf|lia].
  - by eapply filled_used_idx.
Qed.

(** ** The crypto port *)

(** Memory and rings once a reply was sent. *)
Record sent e (e' : env) (qi' : virtqueue) : Prop := {
  se_only : only [RFrame; RRequest; RUsed false; RReply] (e_mem e) (e_mem e');
  se_id : used_id (e_mem e') qi (used_idx (e_mem e) qi mod vr_num (vq_vring qi)) = next_head (e_mem e) qi;
  se_len : used_len (e_mem e') qi (used_idx (e_mem e) qi mod vr_num (vq_vring qi)) = sizeof_crypto_data;
  se_idx : used_idx (e_mem e') qi = u16 (used_idx (e_mem e) qi + 1);
  se_queue : at_same (popped qi) qi' /\ vq_inuse qi' = vq_inuse qi
}.

(** The port is open on both sides, with a descriptor on /dev/crypto. *)
Record port_open (p : sport) (h : qhost files) (fd : Z) : Prop := {
  po_addr : sp_addr p <> 0;
  po_host : sp_host_connected p = true;
  po_guest : sp_guest_connected p = true;
  po_throttled : sp_throttled p = false;
  po_chr : sp_chr p = true;
  po_info : sp_cr_info p <> 0 /\ qh_infos h !! sp_cr_info p = Some fd
}.

(** The last step of every request. *)
Lemma reply_done e e4 (v v0 : vser (qhost files)) a no p h h3 l qo1 fd :
  view v0 a no (sp_ivq p) v p h3 qo1 qi -> reply_ok e l -> only [RFrame; RRequest] (e_mem e) (e_mem e4) -> port_open p h fd ->
  exists f v' qi', virtio_serial_write map_ok a base sizeof_crypto_data (e4, v) = Done sizeof_crypto_data (set_mem f e4, v') /\
    view v0 a no (sp_ivq p) v' p h3 qo1 qi' /\ sent e (set_mem f e4) qi' /\
    peeks (f (e_mem e4)) (iov_part ins 0 sizeof_crypto_data) = peeks (e_mem e4) (seqZ base sizeof_crypto_data).
Proof.
  intros Hv Hry Ho4 Hpo. assert (Hry4 : reply_ok e4 l) by (eapply reply_ok_only; [exact Hry|exact Ho4|not_region..]).
  assert (Ha : a <> 0) by (rewrite <- (vw_addr _ _ _ _ _ _ _ _ _ Hv); apply Hpo).
  destruct (send_reply e4 v v0 a no p _ l _ Hv Hry4 Ha (po_host _ _ _ Hpo) (po_guest _ _ _ Hpo))
    as (e5 & v5 & qi5 & E5 & Hv5 & (f & ->) & [Hon Hdat Hid Hlen Hidx Hq]).
  exists f, v5, qi5. split_and!; try done. destruct (reply_unmoved e e4 l _ Hry Ho4) as [En Eu]; [not_region..|]. rewrite En, Eu in *.
  split; try done. eapply only_trans; [eapply only_more, Ho4|eapply only_more, Hon]; clear; set_solver.
Qed.

(** [flush_buf] runs the branch of the command in the request. *)
Lemma flush_buf_branch e (v v0 : vser (qhost files)) a no p h fd len qo1 :
  let cmd := le_val (peeks (e_mem e) (seqZ (base + off_cmd) 4)) in
  view v0 a no (sp_ivq p) v p h qo1 qi -> port_open p h fd -> sizeof_crypto_data <= len ->
  exists v', view v0 a no (sp_ivq p) v' p h qo1 qi /\
    (cmd = CIOCGSESSION -> flush_buf map_ok frame a base len (e, v) = flush_get_session map_ok frame a base fd (e, v')) /\
    (cmd = CIOCCRYPT -> flush_buf map_ok frame a base len (e, v) = flush_crypt map_ok frame a base fd (e, v')) /\
    (cmd = CIOCFSESSION -> flush_buf map_ok frame a base len (e, v) = flush_finish_session map_ok frame a base fd (e, v')).
Proof.
  intros cmd Hv [Pa Ph Pg Pt Pc [Pi Pf]] Hlen.
  destruct (view_on_host Hv _ _ _ _ _ (read_cfd_done (sp_cr_info p) e h fd Pi Pf)) as (v1 & E1 & Hv1). exists v1. split; [done|].
  split_and!; intros Hcmd; unfold flush_buf; (etrans; [by eapply bind_done, view_port_at|]);
    rewrite Pc; cbn [negb]; rewrite (proj2 (Z.ltb_ge _ _)) by done; (etrans; [eapply bind_done; reflexivity|]); cbn [fst snd];
    fold cmd; rewrite Hcmd; cbn [Z.eqb]; by etrans; [eapply bind_done, E1|].
Qed.

(** What CIOCCRYPT has done, with [e] from before. *)
Record crypt_post e R i s p fd h (e' : env) (h' : qhost files) s' : Prop := {
  ck_host : h' = set_qh_kernel (<[fd := with_session i s' p]> (qh_kernel h)) h;
  ck_answer : exists out iv st, crypt_out e base s out iv st /\ cs_cdata s' = set_cd_iv iv (cs_cdata s) /\
    peeks (e_mem e') (iov_part ins 0 sizeof_crypto_data) =
      peeks (answered e base s out iv st) (seqZ base sizeof_crypto_data);
  ck_handle : handle_ok e' (with_session i s' p) R;
  ck_pins : e_pins e' = e_pins e
}.

Lemma flush_crypt_done e (v v0 : vser (qhost files)) a no p h l fd pr R i s qo1 :
  view v0 a no (sp_ivq p) v p h qo1 qi -> reply_ok e l -> port_open p h fd ->
  qh_kernel h !! fd = Some pr -> request_ok e base pr R i s -> ses_ok s ->
  exists e' v' qi' h' s', flush_crypt map_ok frame a base fd (e, v) = Done 0 (e', v') /\
    view v0 a no (sp_ivq p) v' p h' qo1 qi' /\ sent e e' qi' /\ crypt_post e R i s pr fd h e' h' s'.
Proof.
  intros Hv Hry Hpo Hfd Hrq Hs. set (cop := req_cop (e_mem e) base).
  assert (Hfits : crypt_op_fits cop) by apply Hrq.
  assert (Hl : length (encode_crypt_op cop) = 48%nat) by exact (encode_length (T := crypt_op) cop Hfits).
  destruct (ioctl_step e (qh_kernel h) fd pr R i s Hrq Hfd Hs)
    as (e3 & s' & out & iv & st & E & Hout & Hh & Hcd & Hpins & Honly & Hpk & Hag). fold cop in E, Hpk.
  change (files_ioctl fd CIOCCRYPT frame) with (host_ioctl (H := files) fd CIOCCRYPT frame) in E.
  destruct (view_on_host Hv _ _ _ _ _ (on_kernel_done (host_ioctl fd CIOCCRYPT frame) _ h _ _ _ E)) as (v3 & E3 & Hv3).
  set (data := peeks (e_mem e3) (seqZ (co_dst cop) (co_len cop))).
  set (e4 := set_mem (pokes (seqZ (base + off_dstp) (Z.of_nat (length data))) data) e3).
  assert (H0l : 0 <= co_len cop) by (unfold crypt_op_fits, is_u in Hfits; tauto).
  assert (H34 : forall x, peek (e_mem e4) x = peek (e_mem e3) x).
  { intros x. unfold e4. cbn [e_mem set_mem]. unfold data. rewrite length_peeks, length_seqZ, Z2Nat.id by done.
    apply pokes_peeks. }
  assert (Ho4 : only [RFrame; RRequest] (e_mem e) (e_mem e4)) by (intros x Hx Hn; rewrite H34; by apply Honly).
  destruct (reply_done e e4 v3 v0 a no p h _ l _ fd Hv3 Hry Ho4 Hpo) as (f & v5 & qi5 & E5 & Hv5 & Hsent & Hdat).
  eexists (set_mem f e4), v5, qi5, _, s'. split; [|split; [exact Hv5|split; [done|]]].
  - assert (Ew : wr_mem frame (encode_crypt_op cop) (e, v) = Done tt
      (set_mem (pokes (seqZ frame sizeof_crypt_op) (encode_crypt_op cop)) e, v)) by (unfold wr_mem; by rewrite Hl).
    unfold flush_crypt. etrans; [eapply bind_done; reflexivity|]. etrans; [eapply bind_done, Ew|].
    etrans; [eapply bind_done, E3|]. cbn [negb Z.eqb]. etrans; [eapply bind_done; reflexivity|]. cbn [fst snd].
    assert (Hdec : decode_crypt_op (encode_crypt_op cop) = cop) by exact (decode_encode (T := crypt_op) cop Hfits).
    rewrite Hpk, Hdec.
    etrans; [eapply bind_done; reflexivity|]. etrans; [eapply bind_done; reflexivity|]. cbn [fst snd].
    by etrans; [eapply bind_done, E5|].
  - split; try done; [|by do 2 apply handle_mem].
    exists out, iv, st. split_and!; try done. etrans; [exact Hdat|]. apply list_fmap_ext. intros _ x Hx%list_elem_of_lookup_2.
    rewrite H34. apply Hag. by apply elem_of_seqZ in Hx.
Qed.

(** A change of other regions does not matter for the request. *)
Lemma req_cop_agree m m' : agree (in_region RRequest) m m' -> req_cop m' base = req_cop m base.
Proof.
  intros Ha. unfold req_cop. rewrite (peeks_agree _ _ _ _ Ha); [done|].
  destruct layout as (? & ? & ? & ? & ? & ? & ? & ?). apply part_of_request; lia.
Qed.

Lemma request_ok_agree e f p R i s :
  contents f -> agree (in_region RRequest) (e_mem e) (f (e_mem e)) -> request_ok e base p R i s ->
  request_ok (set_mem f e) base p R i s.
Proof.
  intros Hf Ha [Hc Hfit Hl Hiv Hn Hal]. assert (E := req_cop_agree _ _ Ha).
  split; cbn [e_mem set_mem]; rewrite ?E; try done. by apply crypt_call_mem.
Qed.

Lemma answer_agree e f p R i s out iv st :
  agree (in_region RRequest) (e_mem e) (f (e_mem e)) -> request_ok e base p R i s -> ses_ok s ->
  crypt_out (set_mem f e) base s out iv st ->
  crypt_out e base s out iv st /\
  peeks (answered (set_mem f e) base s out iv st) (seqZ base sizeof_crypto_data) =
    peeks (answered e base s out iv st) (seqZ base sizeof_crypto_data).
Proof.
  intros Ha [_ Hfit Hl Hiv _ _] Hs Hout. assert (E := req_cop_agree _ _ Ha). set (cop := req_cop (e_mem e) base) in *.
  destruct layout as (? & ? & ? & ? & ? & ? & ? & ?).
  assert (H0l : 0 <= co_len cop) by (unfold crypt_op_fits, is_u in Hfit; tauto).
  assert (Er : request (set_mem f e) s (stack_kcop (set_mem f e) cop) = request e s (stack_kcop e cop))
    by (by apply request_agree).
  unfold crypt_out, answered in *. cbn [e_mem set_mem] in *. rewrite E, Er in *. fold cop in Hout |- *. split.
  - rewrite (peeks_agree _ _ _ _ Ha) in Hout; [done|]. change (co_src cop) with (base + off_srcp). apply part_of_request; lia.
  - apply (peeks_agree (in_region RRequest)); [|by intros x Hx%elem_of_seqZ].
    by apply write_back_agree, pokes_agree.
Qed.

(** A change of the used ring comes in between. *)
Lemma crypt_serves e f (v v0 : vser (qhost files)) a no p h l fd pr R i s len qo1 :
  le_val (peeks (e_mem e) (seqZ (base + off_cmd) 4)) = CIOCCRYPT -> qh_kernel h !! fd = Some pr -> request_ok e base pr R i s -> ses_ok s ->
  reply_ok e l -> sizeof_crypto_data <= len -> contents f -> only [RUsed true] (e_mem e) (f (e_mem e)) ->
  view v0 a no (sp_ivq p) v p h qo1 qi -> port_open p h fd ->
  exists e' v' qi' h', flush_buf map_ok frame a base len (set_mem f e, v) = Done 0 (e', v') /\
    view v0 a no (sp_ivq p) v' p h' qo1 qi' /\ sent (set_mem f e) e' qi' /\ exists s', crypt_post e R i s pr fd h e' h' s'.
Proof.
  intros Hcmd Hfd Hrq Hs Hry Hlen Hf Hon Hv Hpo. destruct layout as (? & ? & ? & ? & ? & ? & ? & ?).
  assert (Hreq : agree (in_region RRequest) (e_mem e) (f (e_mem e))) by (eapply only_region; [done|exact Hon|not_region]).
  assert (Hcmd' : le_val (peeks (e_mem (set_mem f e)) (seqZ (base + off_cmd) 4)) = CIOCCRYPT).
  { cbn [e_mem set_mem]. rewrite (peeks_agree _ _ _ _ Hreq); [done|]. apply part_of_request; lia. }
  destruct (flush_buf_branch (set_mem f e) v v0 a no p h fd len qo1 Hv Hpo Hlen) as (v1 & Hv1 & _ & Eb & _). rewrite (Eb Hcmd').
  destruct (flush_crypt_done (set_mem f e) v1 v0 a no p h l fd pr R i s qo1) as (e' & v' & qi' & h' & s' & E & Hv' & Hse & [Eh Ha Hh Hp]); try done.
  { eapply reply_ok_only; [exact Hry|exact Hon|not_region..]. }
  { by apply request_ok_agree. }
  exists e', v', qi', h'. split_and!; try done. exists s'. split; try done.
  destruct Ha as (out & iv & st & Hout & Hcd & Hpk). destruct (answer_agree e f pr R i s out iv st Hreq Hrq Hs Hout) as [Hout' Ea].
  exists out, iv, st. by rewrite <- Ea.
Qed.

(** ** The queue from the guest *)

(** The one entry of the queue is a request with the command [cmd], in one
    buffer. *)
Record submitted_ok e (len cmd : Z) : Prop := {
  sb_ring : ring_ok qo;
  sb_ready : virtio_queue_ready qo = true;
  sb_heads : heads (e_mem e) qo = 1;
  sb_offers : offers map_ok (e_mem e) qo [(false, (base, len))];
  sb_zone : forall x, offer_zone (e_mem e) qo x -> in_region (ROffer true) x;
  sb_used : 0 <= used_idx (e_mem e) qo < 2 ^ 16;
  sb_len : sizeof_crypto_data <= len < 2 ^ 64;
  sb_cmd : le_val (peeks (e_mem e) (seqZ (base + off_cmd) 4)) = cmd
}.

Lemma flush_elem_done e e1 (v v1 v0 : vser (qhost files)) a no p h h1 len qo1 qi1 :
  view v0 a no (sp_ivq p) v p h qo1 qi -> flush_buf map_ok frame a base len (e, v) = Done 0 (e1, v1) ->
  view v0 a no (sp_ivq p) v1 p h1 qo1 qi1 -> sp_iov_offset p = 0 -> 0 < len < 2 ^ 64 ->
  exists v2, flush_elem a 0 [(base, len)] (e, v) = Done tt (e1, v2) /\ view v0 a no (sp_ivq p) v2 (set_sp_iov 0 0 p) h1 qo1 qi1.
Proof.
  intros Hv E Hv1 Hoff Hlen. destruct (view_mod_port Hv1 e1 (set_sp_iov 0 0)) as (v2 & E2 & Hv2); [done|].
  exists v2. split; [|done]. cbn [flush_elem]. etrans; [by eapply bind_done, view_port_at|].
  rewrite Hoff, Z.add_0_r, Z.sub_0_r, u64_small by lia. etrans; [eapply bind_done, E|].
  rewrite (proj2 (Z.ltb_lt 0 len)) by lia. change ((0 <? 0) && negb (0 =? - EAGAIN)) with false.
  change ((0 =? - EAGAIN) || (0 <=? 0) && true) with true. cbv iota.
  etrans; [by eapply bind_done, view_port_at|]. rewrite Hoff. exact E2.
Qed.

(** The request was answered, and both entries went back to the guest. *)
Record exchanged e (e' : env) (qo' qi' : virtqueue) : Prop := {
  xc_only : only [RFrame; RRequest; RUsed false; RReply; RUsed true] (e_mem e) (e_mem e');
  xc_reply : let slot := used_idx (e_mem e) qi mod vr_num (vq_vring qi) in
    used_id (e_mem e') qi slot = next_head (e_mem e) qi /\ used_len (e_mem e') qi slot = sizeof_crypto_data /\
    used_idx (e_mem e') qi = u16 (used_idx (e_mem e) qi + 1);
  xc_request : let slot := used_idx (e_mem e) qo mod vr_num (vq_vring qo) in
    used_id (e_mem e') qo slot = next_head (e_mem e) qo /\ used_len (e_mem e') qo slot = 0 /\
    used_idx (e_mem e') qo = u16 (used_idx (e_mem e) qo + 1);
  xc_queues : at_same (popped qi) qi' /\ vq_inuse qi' = vq_inuse qi /\ at_same (popped qo) qo' /\ vq_inuse qo' = vq_inuse qo
}.

Lemma used_entry_agree m m' q i :
  ring_placed q -> agree (device_zone q) m m' -> 0 <= i < vr_num (vq_vring q) ->
  used_id m' q i = used_id m q i /\ used_len m' q i = used_len m q i.
Proof.
  intros Hp Ha Hi. destruct Hp. unfold used_id, used_len. rewrite !u64_small by lia.
  split; apply (rd_agree (device_zone q)); try done; intros x; unfold device_zone, zone; lia.
Qed.

(** Returning the entry of the request. *)
Lemma push_only m idx : ring_ok qo -> only [RUsed true] m (push_mem idx 0 (popped qo) m).
Proof.
  intros Sr. assert (Hpo := ro_placed _ Sr). eapply only_agree; [by apply (push_agree _ _ (popped qo)); destruct Hpo|].
  intros x Hx. exists (RUsed true). split; [by left|]. by apply (dec_stable (P := device_zone qo x)).
Qed.

Lemma exchanged_push e f e2 qi2 len cmd l old :
  submitted_ok e len cmd -> reply_ok e l -> contents f -> only [RUsed true] (e_mem e) (f (e_mem e)) ->
  used_idx (f (e_mem e)) qo = used_idx (e_mem e) qo -> sent (set_mem f e) e2 qi2 ->
  exchanged e (set_mem (push_mem (next_head (e_mem e) qo) 0 (popped qo)) e2) (pushed old (popped qo)) qi2.
Proof.
  intros [Sr Sy Sh So Sz Su Sl Sc] Hry Hf Hon Hui [Hon2 Hid Hln Hix [Hq Hinu]].
  assert (Hpo := ro_placed _ Sr). assert (Hpi := ro_placed _ (ry_ring _ _ Hry)).
  destruct (reply_unmoved e (set_mem f e) l _ Hry Hon) as [En Eu]; [not_region..|].
  cbn [e_mem set_mem] in *. rewrite En, Eu in *.
  set (mf := push_mem (next_head (e_mem e) qo) 0 (popped qo) (e_mem e2)).
  assert (Hon3 : only [RUsed true] (e_mem e2) mf) by (by apply push_only).
  assert (Hui2 : used_idx (e_mem e2) qo = used_idx (e_mem e) qo).
  { rewrite <- Hui. apply used_idx_agree; [done|]. eapply (only_region _ _ _ _ _ _ _ _ (RUsed true)); [done|exact Hon2|not_region]. }
  assert (Hkeep : forall r, r <> RUsed true -> agree (in_region r) (e_mem e2) mf).
  { intros r Hr. eapply only_region; [done|exact Hon3|]. by intros ?%list_elem_of_singleton. }
  split.
  - eapply only_trans; [eapply only_more, Hon|eapply only_trans; [eapply only_more, Hon2|eapply only_more, Hon3]];
      clear; set_solver.
  - cbv zeta. destruct (used_entry_agree (e_mem e2) mf qi (used_idx (e_mem e) qi mod vr_num (vq_vring qi))) as [E1 E2];
      [done|by apply (Hkeep (RUsed false))|apply Z.mod_pos_bound, Hpi|].
    cbn [e_mem set_mem]. fold mf. rewrite E1, E2, (used_idx_agree (e_mem e2) mf qi Hpi (Hkeep (RUsed false) ltac:(done))). done.
  - cbv zeta. destruct (push_mem_entry (next_head (e_mem e) qo) 0 (popped qo) (e_mem e2)) as (E1 & E2 & E3);
      [exact (placed_used _ Hpo)|destruct (fr_head _ _ _ _ So), (rp_num _ Hpo); lia|lia|].
    change (used_idx (e_mem e2) (popped qo)) with (used_idx (e_mem e2) qo) in *. rewrite Hui2 in *. done.
  - split_and!; [done..|split|]; [apply pushed_vring|apply pushed_last|]. rewrite pushed_inuse. cbn. lia.
Qed.

(** The port once the request is done. *)
Definition port_after (p : sport) (el : virtqueue_element) : sport :=
  clear_out (set_sp_iov 0 0 (set_sp_iov 0 0 (set_sp_elem el p))).

(** The port takes the request. *)
Lemma take_request e (v v0 : vser (qhost files)) a p h len cmd :
  let el := VQElem (next_head (e_mem e) qo) [] [(base, len)] in
  let e1 := set_mem (pop_change (vd_guest_features (vs_vdev v)) qo e) e in
  let p2 := set_sp_iov 0 0 (set_sp_elem el p) in
  view v0 a (sp_ovq p) (sp_ivq p) v p h qo qi -> submitted_ok e len cmd ->
  exists v2,
    (pop ← vq_pop map_ok (sp_ovq p);
     match pop with
     | Some el => mod_port a (fun p => set_sp_iov 0 0 (set_sp_elem el p));; mret true
     | None => mret false
     end) (e, v) = Done true (e1, v2) /\
    view v0 a (sp_ovq p) (sp_ivq p) v2 p2 h (popped qo) qi /\ only [RUsed true] (e_mem e) (e_mem e1).
Proof.
  intros el e1 p2 Hv [Sr Sy Sh So Sz Su Sl Sc]. assert (Hp := ro_placed _ Sr).
  assert (He1 : pop_event (vd_guest_features (vs_vdev v)) qo e = e1) by apply pop_event_change.
  assert (Epop : vq_pop map_ok (sp_ovq p) (e, v) = Done (Some el) (e1, upd_vq (sp_ovq p) (popped qo) v)).
  { unfold vq_pop. etrans; [by eapply bind_done|]. rewrite <- He1. eapply on_vq_done; [by eapply vw_out|].
    apply (pop_offers map_ok _ e qo [(false, (base, len))]); [done|destruct Hp; lia|done]. }
  assert (Hv1 : view v0 a (sp_ovq p) (sp_ivq p) (upd_vq (sp_ovq p) (popped qo) v) p h (popped qo) qi).
  { eapply view_touched_out; [exact Hv|]. eapply touched_upd, touched_refl. by eapply vw_out. }
  destruct (view_mod_port Hv1 e1 (fun p => set_sp_iov 0 0 (set_sp_elem el p))) as (v2 & E2 & Hv2); [done|].
  exists v2. split; [|split; [exact Hv2|]].
  - etrans; [eapply bind_done, Epop|]. by etrans; [eapply bind_done, E2|].
  - rewrite <- He1. eapply only_agree; [by apply pop_event_agree|]. intros x Hx. exists (RUsed true). split; [by left|].
    by apply (dec_stable (P := device_zone qo x)).
Qed.

(** A request with any command, of which [post] says what it does. *)
Section Command.
Variables (e : env) (h : qhost files) (fd len cmd : Z) (l : list (bool * iovec)) (post : env -> qhost files -> Prop).
Hypothesis Hpost : forall e' h' g, contents g -> only [RUsed true] (e_mem e') (g (e_mem e')) -> post e' h' -> post (set_mem g e') h'.
Hypothesis Hserve : forall f (v v0 : vser (qhost files)) a no p qo1,
  contents f -> only [RUsed true] (e_mem e) (f (e_mem e)) -> view v0 a no (sp_ivq p) v p h qo1 qi -> port_open p h fd ->
  exists e' v' qi' h', flush_buf map_ok frame a base len (set_mem f e, v) = Done 0 (e', v') /\
    view v0 a no (sp_ivq p) v' p h' qo1 qi' /\ sent (set_mem f e) e' qi' /\ post e' h'.

Lemma flush_round_done (v v0 : vser (qhost files)) a p :
  view v0 a (sp_ovq p) (sp_ivq p) v p h qo qi -> submitted_ok e len cmd -> reply_ok e l -> port_open p h fd -> el_out (sp_elem p) = [] ->
  exists e' v' el qo' qi' h', flush_round map_ok a (sp_ovq p) tt (e, v) = Done (inl tt) (e', v') /\
    view v0 a (sp_ovq p) (sp_ivq p) v' (port_after p el) h' qo' qi' /\ exchanged e e' qo' qi' /\ post e' h'.
Proof.
  intros Hv Hsb Hry Hpo Hout. destruct (Hsb) as [Sr Sy Sh So Sz Su Sl Sc]. assert (Hp := ro_placed _ Sr).
  assert (Hpos : 0 < sizeof_crypto_data) by (destruct (ry_size _ _ Hry); lia).
  set (el := VQElem (next_head (e_mem e) qo) [] [(base, len)]). set (g := pop_change (vd_guest_features (vs_vdev v)) qo e).
  set (e1 := set_mem g e). assert (He1 : pop_event (vd_guest_features (vs_vdev v)) qo e = e1) by apply pop_event_change.
  assert (Hg : contents g) by (intros m; unfold g, pop_change; destruct (_ && _); [apply pokes_pages|done]).
  destruct (take_request e v v0 a p h len cmd Hv Hsb) as (v2 & E2 & Hv2 & Hon1). fold el in E2, Hv2. fold g in E2, Hon1. fold e1 in E2, Hon1.
  set (p2 := set_sp_iov 0 0 (set_sp_elem el p)) in *.
  destruct (Hserve g v2 v0 a (sp_ovq p) p2 (popped qo)) as (e3 & v2' & qi3 & h' & E3' & Hv3' & Hse & Hps); [done|done|done|by destruct Hpo|].
  destruct (flush_elem_done e1 e3 v2 v2' v0 a (sp_ovq p) p2 h h' len (popped qo) qi3) as (v3 & E3 & Hv3); [done|exact E3'|done|done|lia|].
  assert (Hui : used_idx (e_mem e1) qo = used_idx (e_mem e) qo) by (rewrite <- He1; by apply pop_event_used_idx).
  assert (Hui3 : used_idx (e_mem e3) qo = used_idx (e_mem e1) qo).
  { apply used_idx_agree; [done|]. eapply (only_region _ _ _ _ _ _ _ _ (RUsed true)); [done|by eapply se_only|not_region]. }
  set (p3 := set_sp_iov 0 0 p2) in *. set (q3 := pushed (used_idx (e_mem e3) (popped qo)) (popped qo)).
  set (e4 := set_mem (push_mem (el_index (sp_elem p3)) 0 (popped qo)) e3).
  assert (E4 : vq_push (sp_ovq p) (sp_elem p3) 0 (e3, v3) = Done tt (e4, upd_vq (sp_ovq p) q3 v3)).
  { apply vq_push_spec; [|by eapply vw_out|exact (placed_used _ Hp)].
    change (used_idx (e_mem e3) (popped qo)) with (used_idx (e_mem e3) qo). by rewrite Hui3, Hui. }
  assert (Hv4 : view v0 a (sp_ovq p) (sp_ivq p) (upd_vq (sp_ovq p) q3 v3) p3 h' q3 qi3).
  { eapply view_touched_out; [exact Hv3|]. eapply touched_upd, touched_refl. by eapply vw_out. }
  destruct (view_mod_port Hv4 e4 clear_out) as (v5 & E5 & Hv5); [done|].
  exists e4, v5, el, q3, qi3, h'. split; [|split; [exact Hv5|split]].
  - unfold flush_round. etrans; [by eapply bind_done, view_port_at|]. rewrite (po_throttled _ _ _ Hpo), Hout.
    etrans; [eapply bind_done, E2|]. cbn [negb].
    etrans; [by eapply bind_done, (view_port_at Hv2)|]. change (drop _ _) with [(base, len)].
    change (sp_iov_idx p2) with 0%nat. etrans; [eapply bind_done, E3|].
    etrans; [by eapply bind_done, (view_port_at Hv3)|]. change (sp_throttled p3) with (sp_throttled p).
    rewrite (po_throttled _ _ _ Hpo). etrans; [eapply bind_done, E4|]. by etrans; [eapply bind_done, E5|].
  - by eapply (exchanged_push e g).
  - apply Hpost; [intros m; unfold push_mem; by rewrite !pokes_pages|by apply push_only|done].
Qed.

(** The loop: the request, and then the empty queue. *)
Lemma flush_loop_done (v v0 : vser (qhost files)) a p :
  view v0 a (sp_ovq p) (sp_ivq p) v p h qo qi -> submitted_ok e len cmd -> reply_ok e l -> port_open p h fd -> el_out (sp_elem p) = [] ->
  exists e' v' el qo' qi' h', do_flush_queued_data map_ok a (sp_ovq p) (e, v) = Done tt (e', v') /\
    view v0 a (sp_ovq p) (sp_ivq p) v' (port_after p el) h' qo' qi' /\ exchanged e e' qo' qi' /\ post e' h'.
Proof.
  intros Hv Hsb Hry Hpo Hout. assert (Hp := ro_placed _ (sb_ring _ _ _ Hsb)).
  destruct (flush_round_done v v0 a p) as (e1 & v1 & el & qo1 & qi1 & h' & E1 & Hv1 & Hd & Hps); try done.
  assert (Hq1 : at_same (popped qo) qo1) by apply (xc_queues _ _ _ _ Hd).
  assert (Hh : heads (e_mem e1) qo1 = 0).
  { rewrite (heads_vring _ (popped qo)) by apply Hq1. rewrite heads_popped; rewrite (heads_agree (e_mem e)); rewrite ?(sb_heads _ _ _ Hsb); try done;
      (eapply agree_sub; [|eapply (only_region _ _ _ _ _ _ _ _ (ROffer true)); [done|by eapply xc_only|not_region]];
       intros x Hx; apply (sb_zone _ _ _ Hsb); by left). }
  assert (E2 : flush_round map_ok a (sp_ovq p) tt (e1, v1) = Done (inr tt) (e1, v1)).
  { unfold flush_round. etrans; [by eapply bind_done, (view_port_at Hv1)|]. cbv beta.
    change (sp_throttled (port_after p el)) with (sp_throttled p).
    rewrite (po_throttled _ _ _ Hpo). change (el_out (sp_elem (port_after p el))) with (@nil iovec).
    assert (Hq := vw_out _ _ _ _ _ _ _ _ _ Hv1).
    etrans; [eapply bind_done; etrans; [eapply bind_done; unfold vq_pop; etrans; [by eapply bind_done|];
      eapply on_vq_done; [exact Hq|apply pop_none; [destruct Hq1 as [-> _], Hp; cbn; lia|done]]|]|]; [reflexivity|].
    cbn [negb]. by rewrite upd_vq_same. }
  assert (Ht1 : touched (sp_ovq p) v1 v1 qo1) by (by eapply touched_refl, vw_out).
  destruct (touched_notify (sp_ovq p) e1 v1 v1 qo1 qo1) as (v2 & q2 & E3 & Ht2 & Hsr); [by eapply vw_out|done|].
  exists e1, v2, el, q2, qi1, h'. split; [|split; [by eapply view_touched_out|split; [|done]]].
  - unfold do_flush_queued_data. etrans; [by eapply bind_done, vq_at_spec, vw_out|]. rewrite (sb_ready _ _ _ Hsb). cbn [negb].
    etrans; [eapply bind_done, (while_loops _ 1); [eapply loops_next; [exact E1|apply loops_end, E2]|done]|]. exact E3.
  - destruct Hd as [? ? ? (? & ? & [? ?] & ?)], Hsr as (Hv2 & _ & Hl2 & _ & Hi2 & _).
    split; try done. split_and!; [done..|split|]; congruence.
Qed.
End Command.

(** The result is where the guest looks for it. *)
Lemma answered_dst e p R i s out iv st :
  request_ok e base p R i s -> ses_ok s -> crypt_out e base s out iv st -> has_cipher s = true ->
  let cop := req_cop (e_mem e) base in
  take (Z.to_nat (co_len cop)) (drop (Z.to_nat off_dstp)
    (peeks (answered e base s out iv st) (seqZ base sizeof_crypto_data))) = out.
Proof.
  intros [_ Hfits Hlen Hiv Hnf _] Hs Hout Hc cop. fold cop in Hfits, Hlen, Hnf.
  destruct layout as (? & ? & ? & ? & ? & ? & ? & ?).
  assert (H0l : 0 <= co_len cop) by (unfold crypt_op_fits, is_u in Hfits; tauto).
  rewrite (seqZ_split base off_dstp sizeof_crypto_data), peeks_app by lia.
  rewrite drop_app_length' by (rewrite length_peeks, length_seqZ; lia).
  rewrite (seqZ_split _ (co_len cop)), peeks_app by lia. rewrite take_app_length' by (rewrite length_peeks, length_seqZ; lia).
  unfold crypt_out in Hout. cbv zeta in Hout. change (req_cop (e_mem e) base) with cop in Hout.
  apply chunk_length in Hout as [_ Hol]. rewrite Hc in Hol. destruct Hol as [Hol|[_ ?]]; [|done].
  rewrite length_peeks, length_seqZ in Hol.
  unfold answered. cbv zeta. change (req_cop (e_mem e) base) with cop. set (k := request _ _ _).
  etrans; [|apply (peeks_pokes_eq (seqZ (co_dst cop) (co_len cop)) out (e_mem e)); [apply NoDup_seqZ|rewrite length_seqZ; lia]].
  change (base + off_dstp) with (co_dst cop). unfold write_back.
  rewrite finish_digestsize. change (finishes s (kc_cop k)) with (finishes s cop). rewrite Hnf. cbn [Z.eqb].
  destruct (writes_iv _); [|done]. unfold write_bytes. apply peeks_pokes_disj, seqZ_disjoint.
  rewrite finish_kcop_cop. change (co_dst cop) with (base + off_dstp). change (co_iv (kc_cop k)) with (base + off_ivp). lia.
Qed.
End Call.

(** ** From kick to interrupt *)

(** The guest has put a request into the queue of a port that is open, and offers
    a buffer for the reply. *)
Record kicked e (v : vser (qhost files)) p qo qi base len cmd l fd : Prop := {
  kk_ports : NoDup (sp_addr <$> vs_ports v);
  kk_port : find_port_by_vq (sp_ovq p) (vs_ports v) = Some p;
  kk_queues : sp_ovq p <> sp_ivq p /\ vq_is (sp_ovq p) v qo /\ vq_is (sp_ivq p) v qi;
  kk_handler : vd_handlers (vs_vdev v) !! sp_ovq p = Some (Some HandleOutput);
  kk_desc : vr_desc (vq_vring qo) <> 0;
  kk_open : port_open p (vs_host v) fd;
  kk_elem : el_out (sp_elem p) = [];
  kk_regions : regions_ok (e_mem e) qo qi base (chain_ins l);
  kk_submitted : submitted_ok (e_mem e) qo qi base (chain_ins l) e len cmd;
  kk_reply : reply_ok (e_mem e) qo qi base (chain_ins l) e l
}.

(** The guest can write another request into the same buffer. *)
Lemma kicked_rewritten e f v p qo qi base len cmd cmd' l fd :
  kicked e v p qo qi base len cmd l fd -> only (e_mem e) qo qi base (chain_ins l) [RRequest] (e_mem e) (f (e_mem e)) ->
  le_val (peeks (f (e_mem e)) (seqZ (base + off_cmd) 4)) = cmd' -> kicked (set_mem f e) v p qo qi base len cmd' l fd.
Proof.
  intros [? ? ? ? ? ? ? Hreg Hsb Hry] Hon Hcmd. set (m := e_mem e) in *.
  assert (Hry' := reply_ok_only _ _ _ _ _ Hreg e (set_mem f e) l _ Hry Hon ltac:(not_region) ltac:(not_region)).
  destruct Hsb as [Sr Sy Sh So Sz Su Sl Sc], (Hry) as [Y1 Y2 Y3 Y4 Y5 Y6 Y7 Y8 Y9 Y10].
  assert (Hag : forall r, r <> RRequest -> agree (in_region m qo qi base (chain_ins l) r) m (f m)).
  { intros r Hr. eapply only_region; [exact Hreg|exact Hon|]. by intros ?%list_elem_of_singleton. }
  assert (Ao : agree (offer_zone m qo) m (f m)) by (by apply (Hag (ROffer true))).
  assert (Ai : agree (offer_zone m qi) m (f m)) by (by apply (Hag (ROffer false))).
  assert (Hd : forall q, agree (offer_zone m q) m (f m) -> agree (driver_zone q) m (f m)) by (intros q Ha x Hx; apply Ha; by left).
  assert (Hsub : forall r x, in_region (f m) qo qi base (chain_ins l) r x -> in_region m qo qi base (chain_ins l) r x).
  { intros [[]|[]| | |] x Hx; try exact Hx; (eapply offer_zone_agree; [|apply Hd| |exact Hx]); [exact (ro_placed _ Sr)|done|done|exact (ro_placed _ Y2)|done|done]. }
  split; try done.
  - split; [intros r r' x Hx Hx'; by apply (rg_disjoint _ _ _ _ _ Hreg r r' x); apply Hsub|intros r x Hx; by apply (rg_user _ _ _ _ _ Hreg r x), Hsub].
  - split; try done; cbn [e_mem set_mem]; fold m.
    + rewrite (heads_agree m); [done|exact (ro_placed _ Sr)|by apply Hd].
    + eapply offers_agree; [exact (ro_placed _ Sr)|exact Ao|done].
    + rewrite (used_idx_agree m); [done|exact (ro_placed _ Sr)|by apply (Hag (RUsed true))].
  - destruct Hry'. by split.
Qed.

(** The state after the interrupt. *)
Record settled e (v : vser (qhost files)) p qo qi base ins fd e' v' p' qo' qi' : Prop := {
  sl_exchanged : exchanged (e_mem e) qo qi base ins e e' qo' qi';
  sl_view : view v (sp_addr p) (sp_ovq p) (sp_ivq p) v' p' (vs_host v') qo' qi';
  sl_open : port_open p' (vs_host v') fd;
  sl_elem : el_out (sp_elem p') = []
}.

Lemma notify_done host_features vmstate e v p qo qi base len cmd l fd (post : env -> qhost files -> Prop) :
  let ins := chain_ins l in
  let only := only (e_mem e) qo qi base ins in
  let h := vs_host v in
  kicked e v p qo qi base len cmd l fd ->
  (forall e' h' g, contents g -> only [RUsed true] (e_mem e') (g (e_mem e')) -> post e' h' -> post (set_mem g e') h') ->
  (forall e' h', post e' h' -> qh_infos h' = qh_infos h) ->
  (forall f (v v0 : vser (qhost files)) a no p qo1, contents f -> only [RUsed true] (e_mem e) (f (e_mem e)) ->
     view v0 a no (sp_ivq p) v p h qo1 qi -> port_open p h fd ->
     exists e' v' qi' h', flush_buf map_ok frame a base len (set_mem f e, v) = Done 0 (e', v') /\
       view v0 a no (sp_ivq p) v' p h' qo1 qi' /\ sent (e_mem e) qo qi base ins (set_mem f e) e' qi' /\ post e' h') ->
  exists e' v' p' qo' qi',
    virtio_queue_notify (VirtioCallbacks0 := serial_callbacks map_ok host_features vmstate) (sp_ovq p) (e, v) =
      Done tt (e', v') /\
    settled e v p qo qi base ins fd e' v' p' qo' qi' /\ post e' (vs_host v').
Proof.
  intros ins only h [Hnd Hfq (Hne & Hqo & Hqi) Hhd Hdesc Hpo Hout Hreg Hsb Hry] Hpost Hinfos Hserve.
  assert (Hv : view v (sp_addr p) (sp_ovq p) (sp_ivq p) v p h qo qi).
  { assert (Hin : p ∈ vs_ports v) by (apply list_elem_of_In; by apply find_some in Hfq as [? _]).
    split; try done; [by rewrite upd_port_same|exists p; by apply find_port_in]. }
  destruct (flush_loop_done (e_mem e) qo qi base ins Hreg e h fd len cmd l post Hpost Hserve v v (sp_addr p) p)
    as (e' & v' & el & qo' & qi' & h' & E & Hv' & Hx & Hps); try done.
  assert (Eh : vs_host v' = h') by apply (vw_host _ _ _ _ _ _ _ _ _ Hv').
  exists e', v', (port_after p el), qo', qi'. rewrite <- Eh in *. split_and!; try done.
  - unfold virtio_queue_notify. etrans; [by eapply bind_done, vq_at_spec|]. rewrite (proj2 (Z.eqb_neq _ _)) by done.
    assert (Evd : vdev_of (e, v) = Done (vs_vdev v) (e, v)) by done.
    etrans; [eapply bind_done, Evd|]. rewrite Hhd. cbn [cb_handle_output serial_callbacks].
    unfold handle_output. etrans; [by eapply bind_done|]. cbn [snd]. rewrite Hfq, (po_host _ _ _ Hpo). exact E.
  - split; try done. destruct Hpo as [? ? ? ? ? [? ?]]. split; try done. by rewrite (Hinfos _ _ Hps).
Qed.

Lemma request_ses_ok e base p R i s : request_ok e base p R i s -> ses_ok s.
Proof.
  intros [[Hrs _ _ _ _ _] _ _ _ _ _]. destruct (rs_handle _ _ _ _ _ _ Hrs) as [_ [Hall _ _ _ _] _].
  eapply Forall_lookup_1; [exact Hall|]. exact (rs_session _ _ _ _ _ _ Hrs).
Qed.

(** The reply is not touched by what comes later. *)
Lemma reply_kept e qo qi base ins (e' : env) g :
  regions_ok (e_mem e) qo qi base ins -> only (e_mem e) qo qi base ins [RUsed true] (e_mem e') (g (e_mem e')) ->
  peeks (g (e_mem e')) (iov_part ins 0 sizeof_crypto_data) = peeks (e_mem e') (iov_part ins 0 sizeof_crypto_data).
Proof.
  intros Hreg Hon. eapply peeks_agree; [eapply (only_region _ _ _ _ _ _ _ _ RReply); [exact Hreg|exact Hon|not_region]|]. apply iov_part_sub.
Qed.

Lemma notify_crypt host_features vmstate e v p qo qi base len l fd pr R i s :
  kicked e v p qo qi base len CIOCCRYPT l fd -> qh_kernel (vs_host v) !! fd = Some pr -> request_ok e base pr R i s ->
  exists e' v' p' qo' qi' s',
    virtio_queue_notify (VirtioCallbacks0 := serial_callbacks map_ok host_features vmstate) (sp_ovq p) (e, v) =
      Done tt (e', v') /\
    settled e v p qo qi base (chain_ins l) fd e' v' p' qo' qi' /\
    crypt_post base (chain_ins l) e R i s pr fd (vs_host v) e' (vs_host v') s'.
Proof.
  intros Hk Hfd Hrq. assert (Hs := request_ses_ok _ _ _ _ _ _ Hrq). destruct (Hk) as [_ _ _ _ _ _ _ Hreg Hsb Hry].
  destruct (notify_done host_features vmstate e v p qo qi base len CIOCCRYPT l fd
    (fun e' h' => exists s', crypt_post base (chain_ins l) e R i s pr fd (vs_host v) e' h' s') Hk)
    as (e' & v' & p' & qo' & qi' & E & Hse & s' & Hps).
  - intros e' h' g Hg Hon [s' [Eh (out & iv & st & Ho & Hcd & Hpk) Hh Hpi]]. exists s'. split; try done; [|by apply handle_mem].
    exists out, iv, st. split_and!; try done. cbn [e_mem set_mem]. by rewrite (reply_kept e qo qi base).
  - by intros e' h' [s' [-> _ _ _]].
  - intros f v1 v0 a no p1 qo1 Hf Hon Hv Hpo. eapply crypt_serves; try done; [apply (sb_cmd _ _ _ _ _ _ _ _ Hsb)|].
    by destruct (sb_len _ _ _ _ _ _ _ _ Hsb).
  - by exists e', v', p', qo', qi', s'.
Qed.

(** C2: A request of the guest runs through the whole stack.  When the guest
    kicks the queue of its crypto port with an encryption or decryption request
    in it, for a session that is open on the host, the device takes the entry,
    the bus hands it to the port, the port has /dev/crypto do the operation and
    sends the reply: in the buffer that the guest had offered for it lie, at the
    place of the destination, exactly the bytes that the cipher makes of the
    source.  The entries of both rings come back, the session keeps the state of
    the cipher and of the hash, nothing is allocated or left on the way and no
    memory but the reply, the used rings, the request and the stack of the process
    changed. *)
Theorem guest_crypt_correct host_features vmstate e (v : vser (qhost files)) p qo qi base len l fd pr R i s :
  let ins := chain_ins l in
  let h := vs_host v in
  NoDup (sp_addr <$> vs_ports v) -> find_port_by_vq (sp_ovq p) (vs_ports v) = Some p ->
  sp_ovq p <> sp_ivq p -> vq_is (sp_ovq p) v qo -> vq_is (sp_ivq p) v qi ->
  vd_handlers (vs_vdev v) !! sp_ovq p = Some (Some HandleOutput) -> vr_desc (vq_vring qo) <> 0 ->
  port_open p h fd -> el_out (sp_elem p) = [] -> qh_kernel h !! fd = Some pr ->
  regions_ok (e_mem e) qo qi base ins ->
  submitted_ok (e_mem e) qo qi base ins e len CIOCCRYPT -> reply_ok (e_mem e) qo qi base ins e l ->
  request_ok e base pr R i s -> has_cipher s = true ->
  exists e' v' p' qo' qi' s' out iv st,
    virtio_queue_notify (VirtioCallbacks0 := serial_callbacks map_ok host_features vmstate) (sp_ovq p) (e, v) =
      Done tt (e', v') /\
    settled e v p qo qi base ins fd e' v' p' qo' qi' /\
    crypt_post base ins e R i s pr fd h e' (vs_host v') s' /\
    crypt_out e base s out iv st /\
    take (Z.to_nat (co_len (req_cop (e_mem e) base))) (drop (Z.to_nat off_dstp)
      (peeks (e_mem e') (iov_part ins 0 sizeof_crypto_data))) = out.
Proof.
  intros ins h Hnd Hfq Hne Hqo Hqi Hhd Hdesc Hpo Hout Hfd Hreg Hsb Hry Hrq Hc.
  destruct (notify_crypt host_features vmstate e v p qo qi base len l fd pr R i s) as (e' & v' & p' & qo' & qi' & s' & E & Hse & Hps); [by split|done|done|].
  destruct (ck_answer _ _ _ _ _ _ _ _ _ _ _ _ Hps) as (out & iv & st & Ho & _ & Hpk).
  exists e', v', p', qo', qi', s', out, iv, st. split_and!; try done. unfold ins. rewrite Hpk.
  eapply answered_dst; [exact Hrq|by eapply request_ses_ok|done|done].
Qed.

(** ** Opening and closing *)

Lemma open_message (B : Type) (PC : PortClass B) (v : vser B) e id p value :
  find_port_by_id id (vs_ports v) = Some p -> 0 <= id < 2 ^ 32 -> 0 <= value < 2 ^ 16 ->
  handle_control_message map_ok (encode_cpkt (Cpkt id VIRTIO_CONSOLE_PORT_OPEN value)) (e, v) =
  (mod_port (sp_addr p) (set_sp_guest_connected (negb (value =? 0)));;
   if negb (value =? 0) then call_port port_guest_open (sp_addr p) else call_port port_guest_close (sp_addr p)) (e, v).
Proof.
  intros Hf Hi Hv. unfold handle_control_message. rewrite cpkt_roundtrip by done.
  replace (Z.of_nat _ <? sizeof_cpkt) with false by (unfold encode_cpkt; by rewrite !length_app, !length_le_bytes).
  cbn [cp_id cp_event cp_value]. etrans; [by eapply bind_done|]. cbn [snd]. by rewrite Hf.
Qed.

(** [open] of /dev/crypto, with a free descriptor, and [close]. *)
Lemma files_open_done e (fs : files) R fd fds :
  env_ok e -> owns e R -> e_allocs e = [] -> e_fds e = fd :: fds -> 0 <= fd ->
  exists e' p, files_open (e, fs) = Done fd (e', <[fd := p]> fs) /\ handle_ok e' p R /\ fresh_handle p.
Proof.
  intros He Ho Hal Hfds Hfd.
  assert (Hw : wp cryptodev_open (fun r '(e', o) => exists p, o = Some p /\ handle_ok e' p R /\ fresh_handle p)
    (set_fds fds e, None)).
  { eapply open_spec; [by destruct He|exact Ho|by eauto|done]. }
  apply wp_done in Hw as (r & [e' o] & E & p & -> & Hh & Hf). exists e', p. split; [|done].
  unfold files_open. etrans; [by eapply bind_done|]. cbn [fst snd]. rewrite Hfds. etrans; [by eapply bind_done|]. cbn [fst snd].
  rewrite (proj2 (Z.ltb_ge _ _)) by done. etrans; [eapply bind_done; unfold on_local; cbn [fst snd]; rewrite E; reflexivity|].
  done.
Qed.

Lemma files_close_done e (fs : files) R fd p :
  fs !! fd = Some p -> handle_ok e p R -> cp_fcount p <= 1 ->
  exists e', files_close fd (e, fs) = Done 0 (e', delete fd fs) /\ same_world e e' /\ env_ok e' /\ owns e' R.
Proof.
  intros Hfd Hh Hc.
  destruct (proj1 (wp_done _ _ _) (release_spec e p R (fun r '(e', o) => r = 0 /\ o = None /\ same_world e e' /\
    env_ok e' /\ owns e' R) Hh ltac:(done))) as (r & [e' o] & E & -> & -> & ? & ? & ?).
  exists e'. split; [|done]. unfold files_close. etrans; [by eapply bind_done|]. cbn [fst snd]. rewrite Hfd.
  etrans; [by eapply bind_done|]. cbn [fst snd]. rewrite (proj2 (Z.ltb_ge _ _)) by lia.
  by etrans; [eapply bind_done; unfold on_local; cbn [fst snd]; rewrite E; reflexivity|].
Qed.

Lemma guest_open_done e (v : vser (qhost files)) a p R fd fds :
  find_port a (vs_ports v) = Some p -> sp_chr p = true -> qh_mallocs (vs_host v) = [] -> qh_next (vs_host v) <> 0 ->
  env_ok e -> owns e R -> e_allocs e = [] -> e_fds e = fd :: fds -> 0 <= fd ->
  let h := vs_host v in
  exists e' pr, guest_open a (e, v) = Done tt (e',
      set_vs_host (QHost (<[qh_next h := fd]> (qh_infos h)) (qh_next h + 16) [] (qh_out h) (<[fd := pr]> (qh_kernel h)))
        (set_vs_ports (upd_port a (set_sp_cr_info (qh_next h)) (vs_ports v)) v)) /\
    handle_ok e' pr R /\ fresh_handle pr.
Proof.
  intros Hp Hc Hm Hn He Ho Hal Hfds Hfd h. set (info := qh_next h).
  destruct (files_open_done e (qh_kernel h) R fd fds) as (e' & pr & E & Hh & Hf); try done.
  exists e', pr. split; [|done]. unfold guest_open. etrans; [by eapply bind_done, port_at_spec|]. rewrite Hc. cbn [negb].
  set (h1 := QHost (<[info := e_junk e]> (qh_infos h)) (info + 16) [] (qh_out h) (qh_kernel h)).
  assert (E1 : on_host malloc_info (e, v) = Done info (e, set_vs_host h1 v)).
  { apply on_host_done. unfold malloc_info, mbind, M_bind. cbn [getx gete fst snd]. fold h. unfold h in Hm |- *. by rewrite Hm. }
  etrans; [eapply bind_done, E1|]. etrans; [by eapply bind_done, mod_port_done|].
  rewrite (proj2 (Z.eqb_neq _ _)) by done.
  change (files_open (e, qh_kernel h1) = Done fd (e', <[fd := pr]> (qh_kernel h))) in E.
  etrans; [eapply bind_done, on_host_done, (on_kernel_done (H := files) host_open); exact E|].
  etrans; [eapply on_host_done; unfold write_cfd; etrans; [eapply bind_done, (read_cfd_done info _ _ (e_junk e)); [done|]|reflexivity]|].
  { cbn. apply lookup_insert_eq. }
  by rewrite <- (insert_insert_eq (qh_infos h) info fd (e_junk e)).
Qed.

Lemma guest_close_done e (v : vser (qhost files)) a p R fd pr :
  let h := vs_host v in
  find_port a (vs_ports v) = Some p -> sp_chr p = true -> sp_cr_info p <> 0 ->
  qh_infos h !! sp_cr_info p = Some fd -> qh_kernel h !! fd = Some pr -> handle_ok e pr R -> cp_fcount pr <= 1 ->
  exists e', guest_close a (e, v) = Done tt (e',
      set_vs_host (QHost (delete (sp_cr_info p) (qh_infos h)) (qh_next h) (qh_mallocs h) (qh_out h)
                     (delete fd (qh_kernel h))) v) /\
    same_world e e' /\ env_ok e' /\ owns e' R.
Proof.
  intros h Hp Hc Hi Hinfo Hfd Hh Hfc. destruct (files_close_done e (qh_kernel h) R fd pr) as (e' & E & Hw); try done.
  exists e'. split; [|done]. unfold guest_close. etrans; [by eapply bind_done, port_at_spec|]. rewrite Hc. cbn [negb].
  etrans; [by eapply bind_done, on_host_done, read_cfd_done|]. 
  change (files_close fd (e, qh_kernel h) = Done 0 (e', delete fd (qh_kernel h))) in E.
  etrans; [eapply bind_done, on_host_done, (on_kernel_done (H := files) (host_close fd)); exact E|].
  etrans; [eapply on_host_done; unfold free_info; rewrite (proj2 (Z.eqb_neq _ _)) by done;
    etrans; [by eapply bind_done|]; cbn [fst snd set_vs_host vs_host set_qh_kernel qh_infos]; fold h; rewrite Hinfo; reflexivity|].
  done.
Qed.

(** C21: The guest opens and closes a crypto port with control messages.  Opening
    connects the port, to a new descriptor on /dev/crypto without sessions;
    closing disconnects it, closes the descriptor, frees the memory of the port
    and releases everything the driver had kept for the sessions. *)
Theorem port_lifecycle e (v : vser (qhost files)) id p R :
  let h := vs_host v in
  find_port_by_id id (vs_ports v) = Some p -> find_port (sp_addr p) (vs_ports v) = Some p ->
  0 <= id < 2 ^ 32 -> sp_chr p = true ->
  let message value := handle_control_message map_ok (encode_cpkt (Cpkt id VIRTIO_CONSOLE_PORT_OPEN value)) in
  (forall fd fds, qh_mallocs h = [] -> qh_next h <> 0 -> env_ok e -> owns e R -> e_allocs e = [] ->
     e_fds e = fd :: fds -> 0 <= fd ->
     exists e' v' p' pr, message 1 (e, v) = Done tt (e', v') /\
       find_port (sp_addr p) (vs_ports v') = Some p' /\ sp_guest_connected p' = true /\
       sp_cr_info p' = qh_next h /\ qh_infos (vs_host v') !! qh_next h = Some fd /\
       qh_kernel (vs_host v') = <[fd := pr]> (qh_kernel h) /\ handle_ok e' pr R /\ fresh_handle pr) /\
  (forall fd pr, sp_cr_info p <> 0 -> qh_infos h !! sp_cr_info p = Some fd -> qh_kernel h !! fd = Some pr ->
     handle_ok e pr R -> cp_fcount pr <= 1 ->
     exists e' v' p', message 0 (e, v) = Done tt (e', v') /\
       find_port (sp_addr p) (vs_ports v') = Some p' /\ sp_guest_connected p' = false /\
       qh_infos (vs_host v') = delete (sp_cr_info p) (qh_infos h) /\
       qh_kernel (vs_host v') = delete fd (qh_kernel h) /\ env_ok e' /\ owns e' R).
Proof.
  intros h Hid Hp Hi Hc message. set (conn b := set_vs_ports (upd_port (sp_addr p) (set_sp_guest_connected b) (vs_ports v)) v).
  assert (Hp1 : forall b, find_port (sp_addr p) (vs_ports (conn b)) = Some (set_sp_guest_connected b p)).
  { intros b. unfold conn. cbn [vs_ports set_vs_ports]. by rewrite find_upd_port, Hp. }
  assert (Em : forall b value, 0 <= value < 2 ^ 16 -> negb (value =? 0) = b -> message value (e, v) =
    (if b then guest_open (sp_addr p) else guest_close (sp_addr p)) (e, conn b)).
  { intros b value Hv <-. unfold message. rewrite (open_message _ _ v e id p value) by done.
    etrans; [by eapply bind_done, mod_port_done|]. by destruct (negb (value =? 0)). }
  split.
  - intros fd fds Hm Hn He Ho Hal Hfds Hfd.
    destruct (guest_open_done e (conn true) (sp_addr p) (set_sp_guest_connected true p) R fd fds)
      as (e' & pr & E & Hh & Hf); try done.
    eexists e', _, _, pr. split; [rewrite (Em true) by done; exact E|]. cbn [vs_ports set_vs_host set_vs_ports vs_host qh_infos qh_kernel].
    rewrite find_upd_port, Hp1 by done. split_and!; try done. apply lookup_insert_eq.
  - intros fd pr Hcr Hinfo Hfd Hh Hfc.
    destruct (guest_close_done e (conn false) (sp_addr p) (set_sp_guest_connected false p) R fd pr)
      as (e' & E & _ & He & Ho); try done.
    eexists e', _, (set_sp_guest_connected false p). split; [rewrite (Em false) by done; exact E|].
    split; [exact (Hp1 false)|]. by split_and!.
Qed.
End StackFacts.
