(* ===== verification/SessionFacts.v ===== *)
(** * Sessions of the guest on the host

    A guest that asks for a session through the queue of its port gets one on
    /dev/crypto of the host, with the key it sent, and can finish it again. *)
From stdpp Require Import base gmap gmultiset list strings numbers.
From S2P Require Import Prelude Kernel KernelFacts Structs CryptoApi Sg Cryptlib CryptlibFacts Zc ZcFacts Fcrypt FcryptFacts Run RunFacts Authenc Ioctl FileFacts IoctlFacts.
From S2P Require Import Vring VringFacts RingFacts VirtioDev VirtioDevFacts Bus BusFacts PortFacts Backend BackendFacts Stack StackFacts.
Open Scope Z_scope.

Section SessionFacts.
Context `{CryptoAPI, !CryptoAPISizes, !CipherLaws, !HashLaws, !CryptoAPISucceeds, !CryptoLimits}.
Implicit Types (e : env) (s : csession).

(** ** The calls of the driver *)

(** A system call that the driver answers with 0. *)
Lemma files_ioctl_zero e (fs : files) fd p cmd arg (Q : env -> crypt_priv -> Prop) :
  fs !! fd = Some p -> wp (cryptodev_ioctl cmd arg) (fun r '(e', p') => r = 0 /\ Q e' p') (e, p) ->
  exists e' p', files_ioctl fd cmd arg (e, fs) = Done 0 (e', <[fd := p']> fs) /\ Q e' p'.
Proof.
  intros Hfd Hw. apply wp_done in Hw as (r & [e' p'] & E & -> & HQ). exists e', p'. split; [|done].
  unfold files_ioctl. etrans; [by eapply bind_done|]. cbn [fst snd]. rewrite Hfd.
  etrans; [eapply bind_done; unfold on_local; cbn [fst snd]; rewrite E; reflexivity|]. done.
Qed.

(** A cipher without a MAC that the host has, with a key it takes. *)
Record cipher_request e (p : crypt_priv) R (sop : session_op) name stream aead_ : Prop := {
  cq_handle : handle_ok e p R;
  cq_user : e_user e = true;
  cq_allocs : e_allocs e = [];
  cq_rng : Exists (fun r => u32 r ∉ cs_sid <$> cp_fcrypt p) (e_rng e);
  cq_fits : session_op_fits sop;
  cq_cipher : so_cipher sop <> 0 /\ cipher_of (so_cipher sop) = Some (Some name, stream, aead_);
  cq_mac : so_mac sop = 0;
  cq_usable : cipher_usable e sop (Some name) aead_
}.

(** The session that it gives. *)
Record cipher_session e (p : crypt_priv) (sop : session_op) name stream aead_ s : Prop := {
  cs_made : ses_ok s;
  cs_keyed : cipher_ready name (cipher_key e sop) stream aead_ (cs_cdata s);
  cs_no_hash : cs_hdata s = hash_data_zero;
  cs_fresh : cs_sid s ∉ cs_sid <$> cp_fcrypt p;
  cs_sid_range : 0 <= cs_sid s < 2 ^ 32
}.

Lemma sid_fits sop sid : session_op_fits sop -> 0 <= sid < 2 ^ 32 -> session_op_fits (set_so_ses sid sop).
Proof. unfold session_op_fits, is_u. cbn. tauto. Qed.

Lemma session_ioctl e p R arg name stream aead_ :
  let sop := decode_session_op (peeks (e_mem e) (seqZ arg sizeof_session_op)) in
  cipher_request e p R sop name stream aead_ -> range_writable (e_mem e) arg sizeof_session_op ->
  wp (cryptodev_ioctl CIOCGSESSION arg) (fun r '(e', p') => r = 0 /\ exists s,
    p' = set_fcrypt (s :: cp_fcrypt p) p /\ cipher_session e p sop name stream aead_ s /\ handle_ok e' p' R /\ e_pins e' = e_pins e /\
    e_mem e' = pokes (seqZ arg sizeof_session_op) (encode_session_op (set_so_ses (cs_sid s) sop)) (e_mem e)) (e, p).
Proof.
  intros sop [Hh Hu Hal Hrng Hfits [Hc0 Hc] Hm Hus] Hw. change (cryptodev_ioctl CIOCGSESSION arg) with (ioctl_get_session arg). unfold ioctl_get_session.
  assert (Hl0 : 0 <= so_keylen sop /\ 0 <= so_mackeylen sop) by (unfold session_op_fits, is_u in Hfits; tauto).
  apply wp_bind. apply copy_from_user_spec; [done|done|]. intros bs nleft _ _ Hbs Hn0.
  assert (nleft = 0) as -> by (by apply Hn0, writable_range).
  rewrite Hbs by done. cbn [Z.eqb negb]. fold sop. apply wp_bind. eapply create_session_spec; [exact Hh|done|tauto|tauto|done|].
  intros r sop' e1 p1 Hr. destruct Hr as [e1 s rng an st ae hn hm Hc1 Hm1 Hw1 [Mo Mc Mh] Hsid Hsr Hh1|r e1 lost _ Hwhy].
  - rewrite Hc in Hc1. injection Hc1 as <- <- <-. rewrite Hm in Hm1. injection Hm1 as <- <-. cbn [Z.eqb negb].
    assert (Hl := encode_length (T := session_op) _ (sid_fits _ _ Hfits Hsr)). change (length (encode_session_op (set_so_ses (cs_sid s) sop)) = 48%nat) in Hl.
    apply wp_bind. apply copy_out_spec; [by rewrite (sw_user _ _ Hw1)| |].
    + cbn [Z.eqb negb]. apply wp_ret. split; [done|]. exists s. assert (Hn : (if aead_ =? 0 then @None string else None) = None) by (by destruct (_ =? _)).
      rewrite Hn in Mh. split_and!; try done; [by apply handle_mem|exact (sw_pins _ _ Hw1)|].
      cbn [e_mem set_mem]. unfold write_bytes. rewrite Hl, (sw_mem _ _ Hw1). done.
    + intros nl f Hn _ Hnw. exfalso. apply Hnw. rewrite Hl. by rewrite (sw_mem _ _ Hw1).
  - exfalso. destruct Hwhy as [Hwhy|Hwhy]; [|done]. apply Hwhy. exists (Some name), stream, aead_, None, 1. rewrite Hm. split_and!; try done; [by left|].
    unfold hash_usable. by destruct (aead_ =? 0).
Qed.

(** CIOCFSESSION. *)
Lemma finish_ioctl_zero e p R arg :
  let sid := le_val (peeks (e_mem e) (seqZ arg 4)) in
  handle_ok e p R -> e_user e = true -> range_readable (e_mem e) arg 4 ->
  wp (cryptodev_ioctl CIOCFSESSION arg) (fun r '(e', p') => r = 0 /\
    p' = set_fcrypt (other_sessions sid (cp_fcrypt p)) p /\ handle_ok e' p' R /\ same_world e e') (e, p).
Proof.
  intros sid Hh Hu [_ Hr]. change (cryptodev_ioctl CIOCFSESSION arg) with (ioctl_finish_session arg). unfold ioctl_finish_session.
  apply wp_bind. apply get_user_spec; [done| |by rewrite Hr]. intros _. cbn [Z.eqb negb]. fold sid.
  eapply finish_session_spec; [exact Hh|]. by intros e' Hw Hh'.
Qed.

(** ** The requests of the guest *)

Variable map_ok : Z -> Z -> bool -> bool.
Variable frame : Z.

(** The session that the request at [base] asks for. *)
Definition req_sop (m : mem) (base : Z) : session_op :=
  set_so_key (base + off_keyp) (decode_session_op (peeks m (seqZ base sizeof_session_op))).

Section Call.
Variables (m0 : mem) (qo qi : virtqueue) (base : Z) (ins : list iovec).
Hypothesis Hreg : regions_ok frame m0 qo qi base ins.
Abbreviation in_region := (in_region frame m0 qo qi base ins).
Abbreviation only := (only frame m0 qo qi base ins).
Abbreviation sent := (sent frame m0 qo qi base ins).
Abbreviation reply_ok := (reply_ok map_ok frame m0 qo qi base ins).

Lemma fields_of_request :
  sizeof_session_op = 48 /\ off_keyp = 48 /\ off_srcp = 112 /\ off_ses = 40 /\ off_keyp + CRYPTO_CIPHER_MAX_KEY_LEN = off_srcp /\
  off_srcp <= sizeof_crypto_data.
Proof. destruct layout as (? & ? & ? & ? & ? & ? & ? & ?). split_and!; try done. lia. Qed.

(** The request is what it was when only other regions change. *)
Lemma cipher_request_agree e f p R name stream aead_ :
  contents f -> agree (in_region RRequest) (e_mem e) (f (e_mem e)) ->
  cipher_request e p R (req_sop (e_mem e) base) name stream aead_ ->
  req_sop (f (e_mem e)) base = req_sop (e_mem e) base /\ cipher_key (set_mem f e) (req_sop (e_mem e) base) = cipher_key e (req_sop (e_mem e) base) /\
  cipher_request (set_mem f e) p R (req_sop (e_mem e) base) name stream aead_.
Proof.
  intros Hf Ha [Hh Hu Hal Hrng Hfits Hc Hm Hus]. destruct fields_of_request as (? & ? & ? & ? & ? & ?). set (sop := req_sop (e_mem e) base) in *.
  assert (Hk : cipher_key (set_mem f e) sop = cipher_key e sop).
  { unfold cipher_key. cbn [e_mem set_mem]. apply (peeks_agree _ _ _ _ Ha). change (so_key sop) with (base + off_keyp).
    destruct Hus as (? & _). apply part_of_request; lia. }
  split_and!; [|done|].
  - unfold req_sop. rewrite (peeks_agree _ _ _ _ Ha); [done|]. apply part_of_request; lia.
  - split; try done; [by apply handle_mem|]. destruct Hus as (? & Hr & Hac). split; [done|]. rewrite Hk. split; [|done].
    by eapply range_readable_pages; [apply Hf|].
Qed.

(** What CIOCGSESSION has done. *)
Record session_post e R p fd h name stream aead_ (e' : env) (h' : qhost files) s : Prop := {
  sp_new : cipher_session e p (req_sop (e_mem e) base) name stream aead_ s;
  sp_file : h' = set_qh_kernel (<[fd := set_fcrypt (s :: cp_fcrypt p) p]> (qh_kernel h)) h;
  sp_answer : peeks (e_mem e') (iov_part ins 0 sizeof_crypto_data) =
    splice off_ses (le_bytes 4 (cs_sid s)) (peeks (e_mem e) (seqZ base sizeof_crypto_data));
  sp_handle : handle_ok e' (set_fcrypt (s :: cp_fcrypt p) p) R;
  sp_pins : e_pins e' = e_pins e
}.

Lemma flush_session_done e (v v0 : vser (qhost files)) a no p h l fd pr R name stream aead_ qo1 :
  view v0 a no (sp_ivq p) v p h qo1 qi -> reply_ok e l -> port_open p h fd -> qh_kernel h !! fd = Some pr ->
  cipher_request e pr R (req_sop (e_mem e) base) name stream aead_ -> range_writable (e_mem e) frame sizeof_session_op ->
  exists e' v' qi' h' s, flush_get_session map_ok frame a base fd (e, v) = Done 0 (e', v') /\
    view v0 a no (sp_ivq p) v' p h' qo1 qi' /\ sent e e' qi' /\ session_post e R pr fd h name stream aead_ e' h' s.
Proof.
  intros Hv Hry Hpo Hfd Hcq Hfw. destruct fields_of_request as (L1 & L2 & L3 & L4 & L5 & L6). set (sop := req_sop (e_mem e) base) in *.
  assert (Hfits := cq_fits _ _ _ _ _ _ _ Hcq).
  assert (Hl := encode_length (T := session_op) _ Hfits). change (length (encode_session_op sop) = 48%nat) in Hl.
  set (f2 := pokes (seqZ frame sizeof_session_op) (encode_session_op sop)). set (e2 := set_mem f2 e).
  assert (Hfr : only [RFrame] (e_mem e) (e_mem e2)) by (apply only_pokes; by intros x).
  assert (Hrq : agree (in_region RRequest) (e_mem e) (e_mem e2)) by (eapply only_region; [done|exact Hfr|not_region]).
  destruct (cipher_request_agree e f2 pr R name stream aead_) as (_ & Hk & Hcq2); [intros m; apply pokes_pages|done|done|].
  assert (Hdec : decode_session_op (peeks (e_mem e2) (seqZ frame sizeof_session_op)) = sop).
  { cbn [e_mem set_mem e2]. unfold f2. rewrite peeks_stored by (rewrite ?Hl; done). exact (decode_encode (T := session_op) sop Hfits). }
  destruct (files_ioctl_zero e2 (qh_kernel h) fd pr CIOCGSESSION frame _ Hfd (session_ioctl e2 pr R frame name stream aead_
    ltac:(rewrite Hdec; exact Hcq2) ltac:(eapply range_writable_pages; [apply pokes_pages|exact Hfw]))) as (e3 & p' & E & s & -> & Hcs & Hh3 & Hp3 & Hm3).
  rewrite Hdec in Hcs, Hm3. change (files_ioctl fd CIOCGSESSION frame) with (host_ioctl (H := files) fd CIOCGSESSION frame) in E.
  destruct (view_on_host Hv _ _ _ _ _ (on_kernel_done (host_ioctl fd CIOCGSESSION frame) _ h _ _ _ E)) as (v3 & E3 & Hv3).
  set (sop' := set_so_ses (cs_sid s) sop) in *. assert (Hfits' := sid_fits _ _ Hfits (cs_sid_range _ _ _ _ _ _ _ Hcs)).
  assert (Hl' := encode_length (T := session_op) _ Hfits'). change (length (encode_session_op sop') = 48%nat) in Hl'.
  set (e4 := set_mem (pokes (seqZ (base + off_ses) 4) (le_bytes 4 (cs_sid s))) e3).
  assert (Ho3 : only [RFrame] (e_mem e) (e_mem e3)) by (eapply only_trans; [exact Hfr|]; rewrite Hm3; apply only_pokes; by intros x).
  assert (Ho4 : only [RFrame; RRequest] (e_mem e) (e_mem e4)).
  { eapply only_trans; [eapply only_more, Ho3; clear; set_solver|]. eapply (only_more _ _ _ _ _ _ [RRequest]); [clear; set_solver|].
    apply only_pokes. intros x Hx. cbn. unfold zone in *. lia. }
  destruct (reply_done _ _ _ _ _ _ _ Hreg e e4 v3 v0 a no p h _ l _ fd Hv3 Hry Ho4 Hpo) as (f & v5 & qi5 & E5 & Hv5 & Hsent & Hdat).
  eexists (set_mem f e4), v5, qi5, _, s. split; [|split; [exact Hv5|split; [done|]]].
  - assert (Ew : wr_mem frame (encode_session_op sop) (e, v) = Done tt (e2, v)) by (unfold wr_mem; by rewrite Hl).
    unfold flush_get_session. etrans; [eapply bind_done; reflexivity|]. etrans; [eapply bind_done, Ew|].
    etrans; [eapply bind_done, E3|]. cbn [negb Z.eqb]. etrans; [eapply bind_done; reflexivity|]. cbn [fst snd].
    rewrite Hm3, peeks_stored by (rewrite ?Hl'; done).
    assert (Hdec' : decode_session_op (encode_session_op sop') = sop') by exact (decode_encode (T := session_op) sop' Hfits').
    rewrite Hdec'. etrans; [eapply bind_done; reflexivity|]. by etrans; [eapply bind_done, E5|].
  - split; try done; [| |by do 2 apply handle_mem].
    + destruct Hcs as [? Hky ? ? ?]. split; try done. change (cipher_key e2 sop = cipher_key e sop) in Hk. change (cipher_ready name (cipher_key e sop) stream aead_ (cs_cdata s)). by rewrite <- Hk.
    + etrans; [exact Hdat|]. cbn [e_mem set_mem e4]. rewrite peeks_splice by (done || lia). f_equal. apply (peeks_agree (in_region RRequest)).
      * eapply only_region; [done|exact Ho3|not_region].
      * apply part_of_request; lia.
Qed.

(** With a change of the used ring before it. *)
Lemma cmd_agree e f cmd :
  only [RUsed true] (e_mem e) (f (e_mem e)) -> le_val (peeks (e_mem e) (seqZ (base + off_cmd) 4)) = cmd ->
  agree (in_region RRequest) (e_mem e) (f (e_mem e)) /\ le_val (peeks (e_mem (set_mem f e)) (seqZ (base + off_cmd) 4)) = cmd /\
  peeks (f (e_mem e)) (seqZ base sizeof_crypto_data) = peeks (e_mem e) (seqZ base sizeof_crypto_data).
Proof.
  intros Hon Hc. destruct layout as (? & ? & ? & ? & ? & ? & ? & ?).
  assert (Hreq : agree (in_region RRequest) (e_mem e) (f (e_mem e))) by (eapply only_region; [done|exact Hon|not_region]).
  split_and!; [done| |apply (peeks_agree _ _ _ _ Hreq), part_of_request; lia].
  cbn [e_mem set_mem]. rewrite (peeks_agree _ _ _ _ Hreq); [done|]. apply part_of_request; lia.
Qed.

Lemma session_serves e f (v v0 : vser (qhost files)) a no p h l fd pr R name stream aead_ len qo1 :
  le_val (peeks (e_mem e) (seqZ (base + off_cmd) 4)) = CIOCGSESSION -> qh_kernel h !! fd = Some pr ->
  cipher_request e pr R (req_sop (e_mem e) base) name stream aead_ -> range_writable (e_mem e) frame sizeof_session_op ->
  reply_ok e l -> sizeof_crypto_data <= len -> contents f -> only [RUsed true] (e_mem e) (f (e_mem e)) ->
  view v0 a no (sp_ivq p) v p h qo1 qi -> port_open p h fd ->
  exists e' v' qi' h', flush_buf map_ok frame a base len (set_mem f e, v) = Done 0 (e', v') /\
    view v0 a no (sp_ivq p) v' p h' qo1 qi' /\ sent (set_mem f e) e' qi' /\
    exists s, session_post e R pr fd h name stream aead_ e' h' s.
Proof.
  intros Hcmd Hfd Hcq Hfw Hry Hlen Hf Hon Hv Hpo. destruct (cmd_agree e f _ Hon Hcmd) as (Hreq & Hcmd' & Hblk).
  destruct (cipher_request_agree e f pr R name stream aead_ Hf Hreq Hcq) as (Es & Ek & Hcq').
  destruct (flush_buf_branch map_ok frame qi base (set_mem f e) v v0 a no p h fd len qo1 Hv Hpo Hlen) as (v1 & Hv1 & Eb & _). rewrite (Eb Hcmd').
  destruct (flush_session_done (set_mem f e) v1 v0 a no p h l fd pr R name stream aead_ qo1)
    as (e' & v' & qi' & h' & s & E & Hv' & Hse & [[N1 N2 N3 N4 N5] Eh Ha Hh Hp]); try done.
  { eapply reply_ok_only; [exact Hreg|exact Hry|exact Hon|not_region..]. }
  { cbn [e_mem set_mem]. by rewrite Es. }
  { by eapply range_writable_pages; [apply Hf|]. }
  cbn [e_mem set_mem] in *. rewrite Es, Ek in N2. rewrite Hblk in Ha. exists e', v', qi', h'. split_and!; try done. by exists s.
Qed.

(** What CIOCFSESSION has done. *)
Record finish_post e R p fd h (e' : env) (h' : qhost files) : Prop := {
  fp_file : h' = set_qh_kernel (<[fd := set_fcrypt (other_sessions (le_val (peeks (e_mem e) (seqZ base 4))) (cp_fcrypt p)) p]> (qh_kernel h)) h;
  fp_answer : peeks (e_mem e') (iov_part ins 0 sizeof_crypto_data) = peeks (e_mem e) (seqZ base sizeof_crypto_data);
  fp_handle : handle_ok e' (set_fcrypt (other_sessions (le_val (peeks (e_mem e) (seqZ base 4))) (cp_fcrypt p)) p) R;
  fp_pins : e_pins e' = e_pins e
}.

Lemma flush_finish_done e (v v0 : vser (qhost files)) a no p h l fd pr R qo1 :
  view v0 a no (sp_ivq p) v p h qo1 qi -> reply_ok e l -> port_open p h fd -> qh_kernel h !! fd = Some pr ->
  handle_ok e pr R -> e_user e = true -> range_readable (e_mem e) frame 4 ->
  exists e' v' qi' h', flush_finish_session map_ok frame a base fd (e, v) = Done 0 (e', v') /\
    view v0 a no (sp_ivq p) v' p h' qo1 qi' /\ sent e e' qi' /\ finish_post e R pr fd h e' h'.
Proof.
  intros Hv Hry Hpo Hfd Hh Hu Hfr. destruct fields_of_request as (L1 & L2 & L3 & L4 & L5 & L6).
  set (id := peeks (e_mem e) (seqZ base 4)). set (e2 := set_mem (pokes (seqZ frame 4) id) e).
  assert (Hon : only [RFrame] (e_mem e) (e_mem e2)) by (apply only_pokes; intros x Hx; cbn; unfold zone in *; change sizeof_crypt_op with 48; lia).
  assert (Hrq : agree (in_region RRequest) (e_mem e) (e_mem e2)) by (eapply only_region; [done|exact Hon|not_region]).
  assert (Eid : peeks (e_mem e2) (seqZ frame 4) = id) by (by apply peeks_stored).
  destruct (files_ioctl_zero e2 (qh_kernel h) fd pr CIOCFSESSION frame _ Hfd (finish_ioctl_zero e2 pr R frame ltac:(by apply handle_mem) Hu
    ltac:(eapply range_readable_pages; [apply pokes_pages|exact Hfr]))) as (e3 & p' & E & -> & Hh3 & Hw3). rewrite Eid in E, Hh3.
  change (files_ioctl fd CIOCFSESSION frame) with (host_ioctl (H := files) fd CIOCFSESSION frame) in E.
  destruct (view_on_host Hv _ _ _ _ _ (on_kernel_done (host_ioctl fd CIOCFSESSION frame) _ h _ _ _ E)) as (v3 & E3 & Hv3).
  set (e4 := set_mem (pokes (seqZ base 4) id) e3).
  assert (H34 : forall x, peek (e_mem e4) x = peek (e_mem e2) x).
  { intros x. cbn [e_mem set_mem e4]. rewrite (sw_mem _ _ Hw3). pose proof (pokes_peeks base 4 (e_mem e2) x) as Hp.
    rewrite (peeks_agree _ _ _ _ Hrq) in Hp; [done|]. apply part_of_request; lia. }
  assert (Ho4 : only [RFrame; RRequest] (e_mem e) (e_mem e4)).
  { intros x Hx Hn. rewrite H34. apply Hon; [done|]. intros r ->%list_elem_of_singleton. apply Hn. by left. }
  destruct (reply_done _ _ _ _ _ _ _ Hreg e e4 v3 v0 a no p h _ l _ fd Hv3 Hry Ho4 Hpo) as (f & v5 & qi5 & E5 & Hv5 & Hsent & Hdat).
  eexists (set_mem f e4), v5, qi5, _. split; [|split; [exact Hv5|split; [done|]]].
  - unfold flush_finish_session. etrans; [eapply bind_done; reflexivity|]. cbn [fst snd]. fold id. etrans; [eapply bind_done; reflexivity|].
    change (Z.of_nat (length id)) with 4. fold e2. etrans; [eapply bind_done, E3|]. cbn [negb Z.eqb].
    etrans; [eapply bind_done; reflexivity|]. cbn [fst snd]. rewrite (sw_mem _ _ Hw3), Eid. etrans; [eapply bind_done; reflexivity|].
    by etrans; [eapply bind_done, E5|].
  - split; try done; [|by do 2 apply handle_mem|exact (sw_pins _ _ Hw3)].
    etrans; [exact Hdat|]. etrans; [apply list_fmap_ext; intros _ x _; apply H34|]. apply (peeks_agree _ _ _ _ Hrq), part_of_request; lia.
Qed.

Lemma finish_serves e f (v v0 : vser (qhost files)) a no p h l fd pr R len qo1 :
  le_val (peeks (e_mem e) (seqZ (base + off_cmd) 4)) = CIOCFSESSION -> qh_kernel h !! fd = Some pr ->
  handle_ok e pr R -> e_user e = true -> range_readable (e_mem e) frame 4 ->
  reply_ok e l -> sizeof_crypto_data <= len -> contents f -> only [RUsed true] (e_mem e) (f (e_mem e)) ->
  view v0 a no (sp_ivq p) v p h qo1 qi -> port_open p h fd ->
  exists e' v' qi' h', flush_buf map_ok frame a base len (set_mem f e, v) = Done 0 (e', v') /\
    view v0 a no (sp_ivq p) v' p h' qo1 qi' /\ sent (set_mem f e) e' qi' /\ finish_post e R pr fd h e' h'.
Proof.
  intros Hcmd Hfd Hh Hu Hfr Hry Hlen Hf Hon Hv Hpo. destruct (cmd_agree e f _ Hon Hcmd) as (Hreq & Hcmd' & Hblk).
  destruct fields_of_request as (L1 & L2 & L3 & L4 & L5 & L6).
  destruct (flush_buf_branch map_ok frame qi base (set_mem f e) v v0 a no p h fd len qo1 Hv Hpo Hlen) as (v1 & Hv1 & _ & _ & Eb). rewrite (Eb Hcmd').
  destruct (flush_finish_done (set_mem f e) v1 v0 a no p h l fd pr R qo1)
    as (e' & v' & qi' & h' & E & Hv' & Hse & [Eh Ha Hh' Hp]); try done.
  { eapply reply_ok_only; [exact Hreg|exact Hry|exact Hon|not_region..]. }
  { by apply handle_mem. }
  { by eapply range_readable_pages; [apply Hf|]. }
  cbn [e_mem set_mem] in *. rewrite Hblk in Ha. rewrite (peeks_agree _ _ _ _ Hreq) in Eh, Hh' by (apply part_of_request; lia).
  by exists e', v', qi', h'.
Qed.
End Call.

(** C10: a guest gets a session on the host.  When it kicks the queue of its port
    with a request for a cipher that the host has and a key that the cipher takes,
    the file that the port has open on /dev/crypto gets a new session with an
    identifier no other session has, keyed with exactly the bytes of the key in
    the request, and the reply is the request with the identifier in its place.
    The entries of both rings come back, the port stays open, and no memory but
    the reply, the used rings, the request and the stack of the process changed. *)
Theorem guest_session_correct host_features vmstate e v p qo qi base len l fd pr R name stream aead_ :
  kicked map_ok frame e v p qo qi base len CIOCGSESSION l fd -> qh_kernel (vs_host v) !! fd = Some pr ->
  cipher_request e pr R (req_sop (e_mem e) base) name stream aead_ -> range_writable (e_mem e) frame sizeof_session_op ->
  exists e' v' p' qo' qi' s,
    virtio_queue_notify (VirtioCallbacks0 := serial_callbacks (PortClass0 := crypto_port_class map_ok frame) map_ok host_features vmstate)
      (sp_ovq p) (e, v) = Done tt (e', v') /\
    settled frame e v p qo qi base (chain_ins l) fd e' v' p' qo' qi' /\
    session_post base (chain_ins l) e R pr fd (vs_host v) name stream aead_ e' (vs_host v') s.
Proof.
  intros Hk Hfd Hcq Hfw. destruct (Hk) as [_ _ _ _ _ _ _ Hreg Hsb Hry].
  destruct (notify_done map_ok frame host_features vmstate e v p qo qi base len CIOCGSESSION l fd
    (fun e' h' => exists s, session_post base (chain_ins l) e R pr fd (vs_host v) name stream aead_ e' h' s) Hk)
    as (e' & v' & p' & qo' & qi' & E & Hse & s & Hps).
  - intros e' h' g Hg Hon [s [Hn Eh Ha Hh Hpi]]. exists s. split; try done; [|by apply handle_mem].
    cbn [e_mem set_mem]. by rewrite (reply_kept frame e qo qi base).
  - by intros e' h' [s [_ -> _ _ _]].
  - intros f v1 v0 a no p1 qo1 Hf Hon Hv Hpo. eapply session_serves; try done; [apply (sb_cmd _ _ _ _ _ _ _ _ _ _ Hsb)|].
    by destruct (sb_len _ _ _ _ _ _ _ _ _ _ Hsb).
  - by exists e', v', p', qo', qi', s.
Qed.

(** C11: a guest finishes a session on the host.  When it kicks the queue of its
    port with a request to finish a session, exactly the session with the
    identifier in the request, if there is one, leaves the file, with all it
    owned freed; the request comes back as the reply, and no memory but the
    reply, the used rings, the request and the stack of the process changed. *)
Theorem guest_finish_correct host_features vmstate e v p qo qi base len l fd pr R :
  kicked map_ok frame e v p qo qi base len CIOCFSESSION l fd -> qh_kernel (vs_host v) !! fd = Some pr ->
  handle_ok e pr R -> e_user e = true -> range_readable (e_mem e) frame 4 ->
  exists e' v' p' qo' qi',
    virtio_queue_notify (VirtioCallbacks0 := serial_callbacks (PortClass0 := crypto_port_class map_ok frame) map_ok host_features vmstate)
      (sp_ovq p) (e, v) = Done tt (e', v') /\
    settled frame e v p qo qi base (chain_ins l) fd e' v' p' qo' qi' /\
    finish_post base (chain_ins l) e R pr fd (vs_host v) e' (vs_host v').
Proof.
  intros Hk Hfd Hh Hu Hfr. destruct (Hk) as [_ _ _ _ _ _ _ Hreg Hsb Hry].
  apply (notify_done map_ok frame host_features vmstate e v p qo qi base len CIOCFSESSION l fd
    (finish_post base (chain_ins l) e R pr fd (vs_host v)) Hk).
  - intros e' h' g Hg Hon [Eh Ha Hh' Hpi]. split; try done; [|by apply handle_mem].
    cbn [e_mem set_mem]. by rewrite (reply_kept frame e qo qi base).
  - by intros e' h' [-> _ _ _].
  - intros f v1 v0 a no p1 qo1 Hf Hon Hv Hpo. eapply finish_serves; try done; [apply (sb_cmd _ _ _ _ _ _ _ _ _ _ Hsb)|].
    by destruct (sb_len _ _ _ _ _ _ _ _ _ _ Hsb).
Qed.
End SessionFacts.
