(* ===== verification/ResetFacts.v ===== *)
(** * Resetting the device

    A reset of the device by the guest closes every port it had open, with the
    descriptors on /dev/crypto and what the driver keeps for them, and leaves
    queues that a kick does not run. *)
From stdpp Require Import base gmap gmultiset list strings numbers.
From S2P Require Import Prelude Kernel KernelFacts Structs CryptoApi Sg Cryptlib CryptlibFacts Zc ZcFacts Fcrypt FcryptFacts Run RunFacts Authenc Ioctl FileFacts IoctlFacts.
From S2P Require Import Vring VringFacts RingFacts VirtioDev VirtioDevFacts Bus BusFacts PortFacts Backend BackendFacts Stack StackFacts.
Open Scope Z_scope.

Section Reset.
Context `{CryptoAPI, !CryptoAPISizes, !CryptoLimits}.
Variables (map_ok : Z -> Z -> bool -> bool) (frame host_features : Z).
Variable vmstate : option (bool -> K (vser (qhost files)) unit).
Local Instance reset_class : PortClass (qhost files) := crypto_port_class map_ok frame.
Local Instance reset_callbacks : VirtioCallbacks queue_handler (vser (qhost files)) :=
  serial_callbacks map_ok host_features vmstate.
Implicit Types (e : env) (v : vser (qhost files)) (p : sport) (h : qhost files).

(** The port is open by the guest, with a device behind it. *)
Definition is_open p : Prop := sp_guest_connected p = true /\ sp_chr p = true.
Global Instance is_open_dec p : Decision (is_open p).
Proof. unfold is_open. apply _. Defined.

(** The open ports of [l] have the files [os], which own their objects. *)
Record files_ok e h (l : list sport) (os : list (Z * crypt_priv)) (R : list (Z * kobj)) : Prop := {
  fo_each : Forall2 (fun p o => sp_cr_info p <> 0 /\ qh_infos h !! sp_cr_info p = Some o.1 /\
    qh_kernel h !! o.1 = Some o.2 /\ cp_fcount o.2 <= 1 /\ priv_ok o.2) (filter is_open l) os;
  fo_infos : NoDup (sp_cr_info <$> filter is_open l);
  fo_fds : NoDup os.*1;
  fo_env : env_ok e;
  fo_owns : owns e ((os.*2 ≫= priv_objs) ++ R)
}.

Definition drop_keys {A} (m : gmap Z A) (l : list Z) : gmap Z A := foldl (fun m k => delete k m) m l.

(** The state of the process when the ports [l] are closed. *)
Definition closed h (l : list sport) (os : list (Z * crypt_priv)) : qhost files :=
  QHost (drop_keys (qh_infos h) (sp_cr_info <$> filter is_open l)) (qh_next h) (qh_mallocs h) (qh_out h)
    (drop_keys (qh_kernel h) os.*1).

Lemma set_gc_same p : sp_guest_connected p = false -> set_sp_guest_connected false p = p.
Proof. destruct p. cbn. by intros ->. Qed.

Lemma set_host_same v : set_vs_host (vs_host v) v = v.
Proof. by destruct v. Qed.

(** The files of the other ports once one is closed. *)
Lemma files_ok_rest e h p l fd pr os R e' :
  is_open p -> files_ok e h (p :: l) ((fd, pr) :: os) R -> env_ok e' -> owns e' ((os.*2 ≫= priv_objs) ++ R) ->
  files_ok e' (QHost (delete (sp_cr_info p) (qh_infos h)) (qh_next h) (qh_mallocs h) (qh_out h)
                 (delete fd (qh_kernel h))) l os R.
Proof.
  intros Hp [Hall Hi Hf _ _] He Ho. rewrite filter_cons_True in Hall, Hi by done.
  apply list.Forall2_cons_1 in Hall as [_ Hall]. rewrite fmap_cons in Hi. apply list.NoDup_cons in Hi as [Hni Hi].
  cbn in Hf. apply list.NoDup_cons in Hf as [Hnf Hf]. split; try done.
  apply Forall2_same_length_lookup. split; [by eapply Forall2_length|]. intros i q o Hq Hoo.
  destruct (Forall2_lookup_lr _ _ _ _ _ _ Hall Hq Hoo) as (? & ? & ? & ? & ?). split_and!; try done; cbn [qh_infos qh_kernel].
  - rewrite lookup_delete_ne; [done|]. intros E. apply Hni. rewrite E. apply list_elem_of_fmap_2. by eapply list_elem_of_lookup_2.
  - etrans; [apply (lookup_delete_ne (M := gmap Z))|done]. intros E. apply Hnf. rewrite E.
    apply list_elem_of_fmap_2. by eapply list_elem_of_lookup_2.
Qed.

(** A port that is not open has no file. *)
Lemma files_ok_skip e h p l os R : ~ is_open p -> files_ok e h (p :: l) os R ->
  files_ok e h l os R /\ closed h (p :: l) os = closed h l os.
Proof.
  intros Hp [Hall Hi Hf He Ho]. unfold closed. rewrite filter_cons_False in Hall, Hi |- * by done. by split.
Qed.

Lemma set_host_ports v l : set_vs_host (vs_host v) (set_vs_ports l v) = set_vs_ports l v.
Proof. by destruct v. Qed.

Lemma set_ports_same v : set_vs_ports (vs_ports v) v = v.
Proof. by destruct v. Qed.

(** One turn of the loop of [guest_reset]: the port [p] is closed if it was
    open, and the files of the ports after it are as before. *)
Lemma reset_turn e v d p l os R :
  vs_ports v = d ++ p :: l -> NoDup (sp_addr <$> d ++ p :: l) -> files_ok e (vs_host v) (p :: l) os R ->
  exists e' h' os', (if sp_guest_connected p
      then mod_port (sp_addr p) (set_sp_guest_connected false);; call_port port_guest_close (sp_addr p)
      else mret tt) (e, v) =
      Done tt (e', set_vs_host h' (set_vs_ports (d ++ set_sp_guest_connected false p :: l) v)) /\
    files_ok e' h' l os' R /\ closed h' l os' = closed (vs_host v) (p :: l) os.
Proof.
  intros Hv Hnd Hf. assert (Hp := port_at_mid v d p l Hv Hnd).
  set (p' := set_sp_guest_connected false p). set (v1 := set_vs_ports (d ++ p' :: l) v).
  assert (Emod : mod_port (sp_addr p) (set_sp_guest_connected false) (e, v) = Done tt (e, v1)).
  { rewrite (mod_port_done _ _ _ _ p) by done. unfold v1. by rewrite Hv, upd_port_mid. }
  assert (Hp1 : find_port (sp_addr p) (vs_ports v1) = Some p').
  { apply (port_at_mid v1 d p' l); [done|]. rewrite fmap_app in *. exact Hnd. }
  destruct (decide (is_open p)) as [Ho|Ho]; cycle 1.
  - destruct (files_ok_skip _ _ _ _ _ _ Ho Hf) as [Hf' Hc]. exists e, (vs_host v), os. split; [|done].
    subst v1. rewrite set_host_ports. destruct (sp_guest_connected p) eqn:Eg.
    + etrans; [by eapply bind_done|]. etrans; [by eapply bind_done, port_at_spec|].
      subst p'. cbn [sp_chr set_sp_guest_connected]. destruct (sp_chr p) eqn:Ec; [by destruct Ho|done].
    + subst p'. rewrite set_gc_same by done. rewrite <- Hv, set_ports_same. done.
  - assert (Hf0 := Hf). destruct Hf0 as [Hall _ _ He Hown]. rewrite filter_cons_True in Hall by done.
    inversion Hall as [|? [fd pr] ? os' (Hi & Hinfo & Hfd & Hfc & Hpr) _]; subst. destruct Ho as [Hg Hc].
    destruct (guest_close_done e v1 (sp_addr p) p' ((os'.*2 ≫= priv_objs) ++ R) fd pr) as (e' & E & _ & He' & Ho'); try done.
    { split; try done. by rewrite app_assoc. }
    eexists e', _, os'. split; [|split; [by eapply files_ok_rest|]].
    + rewrite Hg. etrans; [by eapply bind_done|]. exact E.
    + unfold closed. by rewrite filter_cons_True by done.
Qed.

Lemma reset_ports_done l : forall d e v os R,
  vs_ports v = d ++ l -> NoDup (sp_addr <$> d ++ l) -> files_ok e (vs_host v) l os R ->
  exists e', reset_ports (sp_addr <$> l) (e, v) = Done tt (e',
      set_vs_host (closed (vs_host v) l os) (set_vs_ports (d ++ (set_sp_guest_connected false <$> l)) v)) /\
    env_ok e' /\ owns e' R.
Proof.
  induction l as [|p l IH]; intros d e v os R Hv Hnd Hf.
  { destruct Hf as [Hall _ _ He Ho]. apply Forall2_nil_inv_l in Hall as ->. exists e. split; [|done].
    rewrite app_nil_r in Hv. cbn. rewrite app_nil_r, <- Hv. by destruct v as [? ? ? ? ? ? ? ? ? []]. }
  destruct (reset_turn e v d p l os R Hv Hnd Hf) as (e1 & h1 & os1 & E1 & Hf1 & Hc1).
  destruct (IH (d ++ [set_sp_guest_connected false p]) e1 
    (set_vs_host h1 (set_vs_ports (d ++ set_sp_guest_connected false p :: l) v)) os1 R) as (e2 & E2 & He2).
  { cbn. by rewrite <- app_assoc. } { rewrite <- app_assoc. rewrite fmap_app in *. exact Hnd. } { done. }
  exists e2. split; [|done]. cbn [reset_ports fmap list_fmap].
  etrans; [by eapply bind_done, port_at_spec, port_at_mid|]. etrans; [by eapply bind_done|]. etrans; [exact E2|].
  cbn [vs_host set_vs_host set_vs_ports]. rewrite Hc1, <- app_assoc. done.
Qed.

Definition all_closed (l : list sport) : list sport := set_sp_guest_connected false <$> l.

Lemma all_closed_twice l : all_closed (all_closed l) = all_closed l.
Proof. unfold all_closed. rewrite <- list_fmap_compose. by apply list_fmap_ext. Qed.

Lemma all_closed_addr l : sp_addr <$> all_closed l = sp_addr <$> l.
Proof. unfold all_closed. rewrite <- list_fmap_compose. by apply list_fmap_ext. Qed.

Lemma all_closed_none l : filter is_open (all_closed l) = [].
Proof. induction l as [|p l IH]; [done|]. cbn. rewrite decide_False; [done|]. by intros []. Qed.

Lemma guest_reset_done e v os R : NoDup (sp_addr <$> vs_ports v) -> files_ok e (vs_host v) (vs_ports v) os R ->
  exists e', guest_reset (e, v) = Done tt (e',
      set_vs_host (closed (vs_host v) (vs_ports v) os) (set_vs_ports (all_closed (vs_ports v)) v)) /\
    env_ok e' /\ owns e' R.
Proof. intros Hnd Hf. by apply (reset_ports_done (vs_ports v) [] e v os R). Qed.

(** A second reset finds all ports closed. *)
Lemma guest_reset_again e v : NoDup (sp_addr <$> vs_ports v) -> env_ok e -> all_closed (vs_ports v) = vs_ports v ->
  forall R, owns e R -> exists e', guest_reset (e, v) = Done tt (e', v) /\ env_ok e' /\ owns e' R.
Proof.
  intros Hnd He Hc R Ho. assert (Hn := all_closed_none (vs_ports v)). rewrite Hc in Hn.
  destruct (guest_reset_done e v [] R Hnd) as (e' & E & Hr). { split; rewrite ?Hn; try done; constructor. }
  exists e'. split; [|done]. rewrite E, Hc, set_ports_same. unfold closed. rewrite Hn. cbn.
  destruct v as [? ? ? ? ? ? ? ? ? []]. done.
Qed.

Lemma virtio_set_status_0 e v e' v' : guest_reset (e, v) = Done tt (e', v') ->
  virtio_set_status 0 (e, v) = Done tt (e', put_vdev (set_vd_status 0 (vs_vdev v')) v').
Proof.
  intros E. assert (Es : call_if cb_set_status 0 (e, v) = Done tt (e', v'));
    [|unfold virtio_set_status; by etrans; [by eapply bind_done|]].
  cbn [call_if cb_set_status reset_callbacks serial_callbacks]. unfold set_status.
  etrans; [by eapply bind_done|]. replace (has_flag 0 VIRTIO_CONFIG_S_DRIVER_OK) with false by done.
  cbn [snd]. destruct (find_port_by_id 0 (vs_ports v)); [rewrite andb_false_r|]; exact E.
Qed.

(** A queue without a ring is not run. *)
Lemma kick_unset n e v q : vd_vq (vs_vdev v) !! n = Some q -> vr_desc (vq_vring q) = 0 ->
  virtio_queue_notify n (e, v) = Done tt (e, v).
Proof.
  intros Hq Hd. unfold virtio_queue_notify. etrans; [eapply bind_done|].
  { etrans; [by eapply bind_done|]. cbn. rewrite Hq. done. }
  by rewrite Hd.
Qed.

(** C20: A reset of the device by the guest closes every port that the guest had
    open: the descriptors on /dev/crypto are closed, with all that the driver
    kept for their sessions, the memory of the ports is freed and no port is
    connected.  The registers of the device are cleared and every queue is
    without a ring, so that a kick of any of them does nothing until the guest
    gives the queue an address. *)
Theorem reset_closes_all e v os R :
  NoDup (sp_addr <$> vs_ports v) -> files_ok e (vs_host v) (vs_ports v) os R ->
  exists e' v', virtio_reset (e, v) = Done tt (e', v') /\ env_ok e' /\ owns e' R /\
    vs_ports v' = all_closed (vs_ports v) /\ vs_host v' = closed (vs_host v) (vs_ports v) os /\
    vd_status (vs_vdev v') = 0 /\ vd_guest_features (vs_vdev v') = 0 /\ vd_isr (vs_vdev v') = 0 /\
    vd_vq (vs_vdev v') = reset_queue <$> vd_vq (vs_vdev v) /\
    forall n e2, (n < length (vd_vq (vs_vdev v)))%nat -> virtio_queue_notify n (e2, v') = Done tt (e2, v').
Proof.
  intros Hnd Hf. destruct (guest_reset_done e v os R Hnd Hf) as (e1 & E1 & He1 & Ho1).
  set (v1 := set_vs_host _ _) in E1. set (v2 := put_vdev (set_vd_status 0 (vs_vdev v)) v1).
  destruct (guest_reset_again e1 v2) with (R := R) as (e2 & E2 & He2 & Ho2); try done.
  { cbn. by rewrite all_closed_addr. } { apply all_closed_twice. }
  do 2 eexists. split; [|split; [exact He2|split; [exact Ho2|]]].
  - unfold virtio_reset. etrans; [eapply bind_done, (virtio_set_status_0 e v e1 v1), E1|].
    etrans; [by eapply bind_done|]. reflexivity.
  - cbn. split_and!; try done. intros n e3 Hn.
    apply lookup_lt_is_Some in Hn as [q Hq]. apply (kick_unset n e3 _ (reset_queue q)); [|done].
    cbn. by rewrite list_lookup_fmap, Hq.
Qed.
End Reset.
