(* ===== verification/Driver.v ===== *)
(** * The driver in the guest

    [linux_kernel/virtio_crypto.c]: the driver of the crypto ports in the kernel
    of the guest.  A program opens a port as a device file; its ioctls are
    packed into a [struct crypto_data], sent through the output queue of the
    port, and the answer is taken from the input queue.  The virtqueue layer of
    Linux and the services of its driver core are not part of the repository:
    they are the class [GuestKernel].  Locks are left out, since a handler here
    runs to its end; waiting processes test their condition again after [sleep],
    which is what the others do in the meantime, so waking them up, signals and
    the log messages leave no trace. *)
From stdpp Require Import base gmap gmultiset list strings numbers.
From S2P Require Import Prelude Kernel Structs Vring VirtioDev Bus Backend.
Open Scope Z_scope.

Definition ENXIO : Z := 6.
Definition ENODEV : Z := 19.
Definition ENOTTY : Z := 25.
Definition EPIPE : Z := 32.
Definition VIRTIO_CONSOLE_F_SIZE : Z := 0.
Definition VIRTIO_CONSOLE_RESIZE : Z := 5.

(** ** Data *)

(** [struct port_buffer] *)
Record port_buffer := PortBuffer {
  pb_buf : Z;
  pb_size : Z;
  pb_len : Z;
  pb_offset : Z }.
Definition set_pb_len_offset (v0 : Z) (v1 : Z) (b : port_buffer) : port_buffer :=
  PortBuffer (pb_buf b) (pb_size b) v0 v1.
Definition set_pb_offset (v : Z) (b : port_buffer) : port_buffer :=
  PortBuffer (pb_buf b) (pb_size b) (pb_len b) v.

(** [struct port], with the console and the counters in it *)
Record port := Port {
  pt_portdev : Z;
  pt_inbuf : Z;
  pt_in_vq : nat;
  pt_out_vq : nat;
  pt_debugfs_file : Z;
  pt_sent : Z;
  pt_received : Z;
  pt_discarded : Z;
  pt_hvc : Z;
  pt_vtermno : Z;
  pt_rows : Z;
  pt_cols : Z;
  pt_cdev : Z;
  pt_devt : Z;
  pt_dev : Z;
  pt_kref : Z;
  pt_name : Z;
  pt_id : Z;
  pt_outvq_full : bool;
  pt_host_connected : bool;
  pt_guest_connected : bool }.
Definition set_pt_portdev (v : Z) (p : port) : port :=
  Port v (pt_inbuf p) (pt_in_vq p) (pt_out_vq p) (pt_debugfs_file p) (pt_sent p) (pt_received p)
    (pt_discarded p) (pt_hvc p) (pt_vtermno p) (pt_rows p) (pt_cols p) (pt_cdev p) (pt_devt p) (pt_dev p)
    (pt_kref p) (pt_name p) (pt_id p) (pt_outvq_full p) (pt_host_connected p) (pt_guest_connected p).
Definition set_pt_inbuf (v : Z) (p : port) : port :=
  Port (pt_portdev p) v (pt_in_vq p) (pt_out_vq p) (pt_debugfs_file p) (pt_sent p) (pt_received p)
    (pt_discarded p) (pt_hvc p) (pt_vtermno p) (pt_rows p) (pt_cols p) (pt_cdev p) (pt_devt p) (pt_dev p)
    (pt_kref p) (pt_name p) (pt_id p) (pt_outvq_full p) (pt_host_connected p) (pt_guest_connected p).
Definition set_pt_debugfs_file (v : Z) (p : port) : port :=
  Port (pt_portdev p) (pt_inbuf p) (pt_in_vq p) (pt_out_vq p) v (pt_sent p) (pt_received p) (pt_discarded p)
    (pt_hvc p) (pt_vtermno p) (pt_rows p) (pt_cols p) (pt_cdev p) (pt_devt p) (pt_dev p) (pt_kref p) (pt_name p)
    (pt_id p) (pt_outvq_full p) (pt_host_connected p) (pt_guest_connected p).
Definition set_pt_sent (v : Z) (p : port) : port :=
  Port (pt_portdev p) (pt_inbuf p) (pt_in_vq p) (pt_out_vq p) (pt_debugfs_file p) v (pt_received p)
    (pt_discarded p) (pt_hvc p) (pt_vtermno p) (pt_rows p) (pt_cols p) (pt_cdev p) (pt_devt p) (pt_dev p)
    (pt_kref p) (pt_name p) (pt_id p) (pt_outvq_full p) (pt_host_connected p) (pt_guest_connected p).
Definition set_pt_received (v : Z) (p : port) : port :=
  Port (pt_portdev p) (pt_inbuf p) (pt_in_vq p) (pt_out_vq p) (pt_debugfs_file p) (pt_sent p) v (pt_discarded p)
    (pt_hvc p) (pt_vtermno p) (pt_rows p) (pt_cols p) (pt_cdev p) (pt_devt p) (pt_dev p) (pt_kref p) (pt_name p)
    (pt_id p) (pt_outvq_full p) (pt_host_connected p) (pt_guest_connected p).
Definition set_pt_discarded (v : Z) (p : port) : port :=
  Port (pt_portdev p) (pt_inbuf p) (pt_in_vq p) (pt_out_vq p) (pt_debugfs_file p) (pt_sent p) (pt_received p) v
    (pt_hvc p) (pt_vtermno p) (pt_rows p) (pt_cols p) (pt_cdev p) (pt_devt p) (pt_dev p) (pt_kref p) (pt_name p)
    (pt_id p) (pt_outvq_full p) (pt_host_connected p) (pt_guest_connected p).
Definition set_pt_hvc_vtermno (v0 : Z) (v1 : Z) (p : port) : port :=
  Port (pt_portdev p) (pt_inbuf p) (pt_in_vq p) (pt_out_vq p) (pt_debugfs_file p) (pt_sent p) (pt_received p)
    (pt_discarded p) v0 v1 (pt_rows p) (pt_cols p) (pt_cdev p) (pt_devt p) (pt_dev p) (pt_kref p) (pt_name p)
    (pt_id p) (pt_outvq_full p) (pt_host_connected p) (pt_guest_connected p).
Definition set_pt_rows_cols (v0 : Z) (v1 : Z) (p : port) : port :=
  Port (pt_portdev p) (pt_inbuf p) (pt_in_vq p) (pt_out_vq p) (pt_debugfs_file p) (pt_sent p) (pt_received p)
    (pt_discarded p) (pt_hvc p) (pt_vtermno p) v0 v1 (pt_cdev p) (pt_devt p) (pt_dev p) (pt_kref p) (pt_name p)
    (pt_id p) (pt_outvq_full p) (pt_host_connected p) (pt_guest_connected p).
Definition set_pt_cdev (v : Z) (p : port) : port :=
  Port (pt_portdev p) (pt_inbuf p) (pt_in_vq p) (pt_out_vq p) (pt_debugfs_file p) (pt_sent p) (pt_received p)
    (pt_discarded p) (pt_hvc p) (pt_vtermno p) (pt_rows p) (pt_cols p) v (pt_devt p) (pt_dev p) (pt_kref p)
    (pt_name p) (pt_id p) (pt_outvq_full p) (pt_host_connected p) (pt_guest_connected p).
Definition set_pt_devt (v : Z) (p : port) : port :=
  Port (pt_portdev p) (pt_inbuf p) (pt_in_vq p) (pt_out_vq p) (pt_debugfs_file p) (pt_sent p) (pt_received p)
    (pt_discarded p) (pt_hvc p) (pt_vtermno p) (pt_rows p) (pt_cols p) (pt_cdev p) v (pt_dev p) (pt_kref p)
    (pt_name p) (pt_id p) (pt_outvq_full p) (pt_host_connected p) (pt_guest_connected p).
Definition set_pt_dev (v : Z) (p : port) : port :=
  Port (pt_portdev p) (pt_inbuf p) (pt_in_vq p) (pt_out_vq p) (pt_debugfs_file p) (pt_sent p) (pt_received p)
    (pt_discarded p) (pt_hvc p) (pt_vtermno p) (pt_rows p) (pt_cols p) (pt_cdev p) (pt_devt p) v (pt_kref p)
    (pt_name p) (pt_id p) (pt_outvq_full p) (pt_host_connected p) (pt_guest_connected p).
Definition set_pt_kref (v : Z) (p : port) : port :=
  Port (pt_portdev p) (pt_inbuf p) (pt_in_vq p) (pt_out_vq p) (pt_debugfs_file p) (pt_sent p) (pt_received p)
    (pt_discarded p) (pt_hvc p) (pt_vtermno p) (pt_rows p) (pt_cols p) (pt_cdev p) (pt_devt p) (pt_dev p) v
    (pt_name p) (pt_id p) (pt_outvq_full p) (pt_host_connected p) (pt_guest_connected p).
Definition set_pt_name (v : Z) (p : port) : port :=
  Port (pt_portdev p) (pt_inbuf p) (pt_in_vq p) (pt_out_vq p) (pt_debugfs_file p) (pt_sent p) (pt_received p)
    (pt_discarded p) (pt_hvc p) (pt_vtermno p) (pt_rows p) (pt_cols p) (pt_cdev p) (pt_devt p) (pt_dev p)
    (pt_kref p) v (pt_id p) (pt_outvq_full p) (pt_host_connected p) (pt_guest_connected p).
Definition set_pt_outvq_full (v : bool) (p : port) : port :=
  Port (pt_portdev p) (pt_inbuf p) (pt_in_vq p) (pt_out_vq p) (pt_debugfs_file p) (pt_sent p) (pt_received p)
    (pt_discarded p) (pt_hvc p) (pt_vtermno p) (pt_rows p) (pt_cols p) (pt_cdev p) (pt_devt p) (pt_dev p)
    (pt_kref p) (pt_name p) (pt_id p) v (pt_host_connected p) (pt_guest_connected p).
Definition set_pt_host_connected (v : bool) (p : port) : port :=
  Port (pt_portdev p) (pt_inbuf p) (pt_in_vq p) (pt_out_vq p) (pt_debugfs_file p) (pt_sent p) (pt_received p)
    (pt_discarded p) (pt_hvc p) (pt_vtermno p) (pt_rows p) (pt_cols p) (pt_cdev p) (pt_devt p) (pt_dev p)
    (pt_kref p) (pt_name p) (pt_id p) (pt_outvq_full p) v (pt_guest_connected p).
Definition set_pt_guest_connected (v : bool) (p : port) : port :=
  Port (pt_portdev p) (pt_inbuf p) (pt_in_vq p) (pt_out_vq p) (pt_debugfs_file p) (pt_sent p) (pt_received p)
    (pt_discarded p) (pt_hvc p) (pt_vtermno p) (pt_rows p) (pt_cols p) (pt_cdev p) (pt_devt p) (pt_dev p)
    (pt_kref p) (pt_name p) (pt_id p) (pt_outvq_full p) (pt_host_connected p) v.

(** [struct ports_device], with the features of its virtio device *)
Record ports_device := PortsDevice {
  pd_ports : list Z;
  pd_max_nr_ports : Z;
  pd_features : Z;
  pd_c_ivq : nat;
  pd_c_ovq : nat;
  pd_in_arr : Z;
  pd_in_vqs : list nat;
  pd_out_arr : Z;
  pd_out_vqs : list nat;
  pd_drv_index : Z;
  pd_chr_major : Z }.
Definition set_pd_ports (v : list Z) (d : ports_device) : ports_device :=
  PortsDevice v (pd_max_nr_ports d) (pd_features d) (pd_c_ivq d) (pd_c_ovq d) (pd_in_arr d) (pd_in_vqs d)
    (pd_out_arr d) (pd_out_vqs d) (pd_drv_index d) (pd_chr_major d).
Definition set_pd_max_nr_ports (v : Z) (d : ports_device) : ports_device :=
  PortsDevice (pd_ports d) v (pd_features d) (pd_c_ivq d) (pd_c_ovq d) (pd_in_arr d) (pd_in_vqs d)
    (pd_out_arr d) (pd_out_vqs d) (pd_drv_index d) (pd_chr_major d).
Definition set_pd_c_ivq_c_ovq (v0 : nat) (v1 : nat) (d : ports_device) : ports_device :=
  PortsDevice (pd_ports d) (pd_max_nr_ports d) (pd_features d) v0 v1 (pd_in_arr d) (pd_in_vqs d) (pd_out_arr d)
    (pd_out_vqs d) (pd_drv_index d) (pd_chr_major d).
Definition set_pd_in_arr_in_vqs (v0 : Z) (v1 : list nat) (d : ports_device) : ports_device :=
  PortsDevice (pd_ports d) (pd_max_nr_ports d) (pd_features d) (pd_c_ivq d) (pd_c_ovq d) v0 v1 (pd_out_arr d)
    (pd_out_vqs d) (pd_drv_index d) (pd_chr_major d).
Definition set_pd_out_arr_out_vqs (v0 : Z) (v1 : list nat) (d : ports_device) : ports_device :=
  PortsDevice (pd_ports d) (pd_max_nr_ports d) (pd_features d) (pd_c_ivq d) (pd_c_ovq d) (pd_in_arr d)
    (pd_in_vqs d) v0 v1 (pd_drv_index d) (pd_chr_major d).
Definition set_pd_chr_major (v : Z) (d : ports_device) : ports_device :=
  PortsDevice (pd_ports d) (pd_max_nr_ports d) (pd_features d) (pd_c_ivq d) (pd_c_ovq d) (pd_in_arr d)
    (pd_in_vqs d) (pd_out_arr d) (pd_out_vqs d) (pd_drv_index d) v.

(** [struct ports_driver_data] *)
Record ports_driver_data := PortsDriverData {
  dd_portdevs : list Z;
  dd_index : Z;
  dd_next_vtermno : Z;
  dd_consoles : list Z;
  dd_debugfs_dir : bool }.
Definition set_dd_portdevs (v : list Z) (g : ports_driver_data) : ports_driver_data :=
  PortsDriverData v (dd_index g) (dd_next_vtermno g) (dd_consoles g) (dd_debugfs_dir g).
Definition set_dd_index (v : Z) (g : ports_driver_data) : ports_driver_data :=
  PortsDriverData (dd_portdevs g) v (dd_next_vtermno g) (dd_consoles g) (dd_debugfs_dir g).
Definition set_dd_next_vtermno (v : Z) (g : ports_driver_data) : ports_driver_data :=
  PortsDriverData (dd_portdevs g) (dd_index g) v (dd_consoles g) (dd_debugfs_dir g).
Definition set_dd_debugfs_dir (v : bool) (g : ports_driver_data) : ports_driver_data :=
  PortsDriverData (dd_portdevs g) (dd_index g) (dd_next_vtermno g) (dd_consoles g) v.
Definition set_dd_consoles (v : list Z) (g : ports_driver_data) : ports_driver_data :=
  PortsDriverData (dd_portdevs g) (dd_index g) (dd_next_vtermno g) v (dd_debugfs_dir g).

(** ** The kernel of the guest *)

(** The interrupt handlers of the queues. *)
Inductive vq_callback := InIntr | OutIntr | ControlIntr | NoCallback.

(** The virtqueues, by their numbers, the services of the driver core, and the
    host behind them. *)
Class GuestKernel (W : Type) := {
  virtqueue_add_buf : nat -> list iovec -> list iovec -> Z -> K W Z;
  virtqueue_kick : nat -> K W unit;
  virtqueue_get_buf : nat -> K W (option (Z * Z));
  virtqueue_detach_unused_buf : nat -> K W (option Z);
  cdev_add : Z -> K W Z;
  device_error : Z -> K W Z;
  class_create : K W Z;
  debugfs_create_dir : K W bool;
  register_virtio_driver : K W Z;
  unregister_virtio_driver : K W unit;
  hvc_instantiate : K W Z;
  hvc_error : Z -> K W Z;
  hvc_resize : Z -> Z -> Z -> K W unit;
  hvc_irq_requested : Z -> bool -> K W unit;
  hvc_poll : Z -> K W bool;
  hvc_kick : K W unit;
  sysfs_create_group : Z -> K W Z;
  register_chrdev : K W Z;
  find_vqs : list vq_callback -> K W (list nat + Z);
  del_vqs : K W unit;
  virtio_device_reset : K W unit;
  virtio_config_get : Z -> nat -> K W bytes;
  early_put_chars : Z -> Z -> Z -> K W Z
}.

(** The state of the driver; [dr_early] is whether [early_put_chars] is set and
    [dr_early_added] how often the completion [early_console_added] was completed
    and not waited for. *)
Record drv (W : Type) := Drv {
  dr_data : ports_driver_data; dr_early : bool; dr_early_added : Z;
  dr_devs : gmap Z ports_device; dr_ports : gmap Z port; dr_bufs : gmap Z port_buffer; dr_w : W }.
Arguments Drv {W}.
Arguments dr_data {W}.
Arguments dr_early {W}.
Arguments dr_early_added {W}.
Arguments dr_devs {W}.
Arguments dr_ports {W}.
Arguments dr_bufs {W}.
Arguments dr_w {W}.

Section Driver.
Context {W : Type} `{!GuestKernel W, !CryptoLimits}.
Implicit Types s : drv W.

Definition set_dr_data (v : ports_driver_data) s : drv W :=
  Drv v (dr_early s) (dr_early_added s) (dr_devs s) (dr_ports s) (dr_bufs s) (dr_w s).
Definition set_dr_early (v : bool) s : drv W :=
  Drv (dr_data s) v (dr_early_added s) (dr_devs s) (dr_ports s) (dr_bufs s) (dr_w s).
Definition set_dr_early_added (v : Z) s : drv W :=
  Drv (dr_data s) (dr_early s) v (dr_devs s) (dr_ports s) (dr_bufs s) (dr_w s).
Definition set_dr_devs (v : gmap Z ports_device) s : drv W :=
  Drv (dr_data s) (dr_early s) (dr_early_added s) v (dr_ports s) (dr_bufs s) (dr_w s).
Definition set_dr_ports (v : gmap Z port) s : drv W :=
  Drv (dr_data s) (dr_early s) (dr_early_added s) (dr_devs s) v (dr_bufs s) (dr_w s).
Definition set_dr_bufs (v : gmap Z port_buffer) s : drv W :=
  Drv (dr_data s) (dr_early s) (dr_early_added s) (dr_devs s) (dr_ports s) v (dr_w s).
Definition set_dr_w (v : W) s : drv W :=
  Drv (dr_data s) (dr_early s) (dr_early_added s) (dr_devs s) (dr_ports s) (dr_bufs s) v.

(** Runs code of the kernel. *)
Definition on_kernel {A} (m : K W A) : K (drv W) A :=
  s ← getx;
  '(a, w) ← on_local (dr_w s) m;
  modx (set_dr_w w);;
  mret a.

(** What a pointer points to. *)
Definition object_at {A} (field : drv W -> gmap Z A) (a : Z) : K (drv W) A :=
  if a =? 0 then crashed NullDeref
  else
    touch a;;
    s ← getx;
    match field s !! a with Some x => mret x | None => crashed UseAfterFree end.
Definition port_at (a : Z) : K (drv W) port := object_at dr_ports a.
Definition buf_at (a : Z) : K (drv W) port_buffer := object_at dr_bufs a.
Definition dev_at (a : Z) : K (drv W) ports_device := object_at dr_devs a.

Definition mod_port (a : Z) (f : port -> port) : K (drv W) unit :=
  p ← port_at a; modx (fun s => set_dr_ports (<[a := f p]> (dr_ports s)) s).
Definition mod_buf (a : Z) (f : port_buffer -> port_buffer) : K (drv W) unit :=
  b ← buf_at a; modx (fun s => set_dr_bufs (<[a := f b]> (dr_bufs s)) s).
Definition mod_dev (a : Z) (f : ports_device -> ports_device) : K (drv W) unit :=
  d ← dev_at a; modx (fun s => set_dr_devs (<[a := f d]> (dr_devs s)) s).
Definition mod_data (f : ports_driver_data -> ports_driver_data) : K (drv W) unit :=
  modx (fun s => set_dr_data (f (dr_data s)) s).

(** ** Finding ports *)

(** The first port of a list of which [f] holds, or NULL. *)
Fixpoint first_port (f : port -> bool) (l : list Z) : K (drv W) Z :=
  match l with
  | [] => mret 0
  | a :: l' => p ← port_at a; if f p then mret a else first_port f l'
  end.

(** [find_port_by_vtermno] *)
Definition find_port_by_vtermno (vtermno : Z) : K (drv W) Z :=
  s ← getx; first_port (fun p => pt_vtermno p =? vtermno) (dd_consoles (dr_data s)).

(** [find_port_by_devt_in_portdev] *)
Definition find_port_by_devt_in_portdev (portdev dev : Z) : K (drv W) Z :=
  d ← dev_at portdev; first_port (fun p => pt_devt p =? dev) (pd_ports d).

Fixpoint devt_in (dev : Z) (l : list Z) : K (drv W) Z :=
  match l with
  | [] => mret 0
  | portdev :: l' =>
      a ← find_port_by_devt_in_portdev portdev dev;
      if negb (a =? 0) then mret a else devt_in dev l'
  end.

(** [find_port_by_devt] *)
Definition find_port_by_devt (dev : Z) : K (drv W) Z :=
  s ← getx; devt_in dev (dd_portdevs (dr_data s)).

(** [find_port_by_id] *)
Definition find_port_by_id (portdev id : Z) : K (drv W) Z :=
  d ← dev_at portdev; first_port (fun p => pt_id p =? id) (pd_ports d).

(** [find_port_by_vq] *)
Definition find_port_by_vq (portdev : Z) (vq : nat) : K (drv W) Z :=
  d ← dev_at portdev;
  first_port (fun p => (pt_in_vq p =? vq)%nat || (pt_out_vq p =? vq)%nat) (pd_ports d).

(** [is_console_port] *)
Definition is_console_port (p : port) : bool := negb (pt_hvc p =? 0).

(** [use_multiport] *)
Definition use_multiport (d : ports_device) : bool := has_feature (pd_features d) VIRTIO_CONSOLE_F_MULTIPORT.

(** ** Buffers *)

(** [free_buf] *)
Definition free_buf (b : Z) : K (drv W) unit :=
  pb ← buf_at b;
  kfree (pb_buf pb);;
  kfree b.

Definition sizeof_port_buffer : Z := 32.

(** [kzalloc] *)
Definition kzalloc (n : Z) (k : kobj) : K (drv W) Z :=
  p ← kmalloc n k;
  (if p =? 0 then mret tt else mode (set_mem (pokes (seqZ p n) (replicate (Z.to_nat n) 0))));;
  mret p.

(** [alloc_buf] *)
Definition alloc_buf (buf_size : Z) : K (drv W) Z :=
  b ← kmalloc sizeof_port_buffer OPortBuf;
  if b =? 0 then mret 0
  else
    data ← kzalloc buf_size OBuffer;
    if data =? 0 then kfree b;; mret 0
    else
      modx (fun s => set_dr_bufs (<[b := PortBuffer data buf_size 0 0]> (dr_bufs s)) s);;
      mret b.

(** [get_inbuf] *)
Definition get_inbuf (a : Z) : K (drv W) Z :=
  p ← port_at a;
  if negb (pt_inbuf p =? 0) then mret (pt_inbuf p)
  else
    r ← on_kernel (virtqueue_get_buf (pt_in_vq p));
    match r with
    | None => mret 0
    | Some (b, len) =>
        mod_buf b (set_pb_len_offset len 0);;
        mod_port a (fun p => set_pt_received (u64 (pt_received p + len)) p);;
        mret b
    end.

(** [add_inbuf] *)
Definition add_inbuf (vq : nat) (b : Z) : K (drv W) Z :=
  pb ← buf_at b;
  ret ← on_kernel (virtqueue_add_buf vq [] [(pb_buf pb, pb_size pb)] b);
  on_kernel (virtqueue_kick vq);;
  mret ret.

(** One round of [discard_port_data]. *)
Definition discard_round (a b : Z) : K (drv W) (Z + unit) :=
  if b =? 0 then mret (inr tt)
  else
    pb ← buf_at b;
    mod_port a (fun p => set_pt_discarded (u64 (pt_discarded p + (pb_len pb - pb_offset pb))) p);;
    p ← port_at a;
    ret ← add_inbuf (pt_in_vq p) b;
    (if ret <? 0 then free_buf b else mret tt);;
    mod_port a (set_pt_inbuf 0);;
    b ← get_inbuf a;
    mret (inl b).

(** [discard_port_data] *)
Definition discard_port_data (a : Z) : K (drv W) unit :=
  p ← port_at a;
  if pt_portdev p =? 0 then mret tt
  else b ← get_inbuf a; while_loop (discard_round a) b.

(** [port_has_data] *)
Definition port_has_data (a : Z) : K (drv W) bool :=
  b ← get_inbuf a;
  mod_port a (set_pt_inbuf b);;
  mret (negb (b =? 0)).

(** ** Sending *)

(** The loop that waits for the host to use a buffer. *)
Definition spin (vq : nat) : K (drv W) unit :=
  while_loop (fun _ : unit =>
    r ← on_kernel (virtqueue_get_buf vq);
    match r with None => mret (inl tt) | Some _ => mret (inr tt) end) tt.

(** Where the control packet lies on the stack. *)
Variable frame : Z.

(** [__send_control_msg] *)
Definition __send_control_msg (portdev port_id event value : Z) : K (drv W) Z :=
  d ← dev_at portdev;
  if negb (use_multiport d) then mret 0
  else
    mode (set_mem (pokes (seqZ frame sizeof_cpkt) (encode_cpkt (Cpkt port_id event value))));;
    ret ← on_kernel (virtqueue_add_buf (pd_c_ovq d) [(frame, sizeof_cpkt)] [] frame);
    (if 0 <=? ret then
       on_kernel (virtqueue_kick (pd_c_ovq d));;
       spin (pd_c_ovq d)
     else mret tt);;
    mret 0.

(** [send_control_msg] *)
Definition send_control_msg (a event value : Z) : K (drv W) Z :=
  p ← port_at a;
  if negb (pt_portdev p =? 0) then __send_control_msg (pt_portdev p) (pt_id p) event value else mret 0.

(** [reclaim_consumed_buffers] *)
Definition reclaim_round (a : Z) (_ : unit) : K (drv W) (unit + unit) :=
  p ← port_at a;
  r ← on_kernel (virtqueue_get_buf (pt_out_vq p));
  match r with
  | None => mret (inr tt)
  | Some (buf, _) => kfree buf;; mod_port a (set_pt_outvq_full false);; mret (inl tt)
  end.
Definition reclaim_consumed_buffers (a : Z) : K (drv W) unit :=
  p ← port_at a;
  if pt_portdev p =? 0 then mret tt else while_loop (reclaim_round a) tt.

(** [send_buf] *)
Definition send_buf (a in_buf in_count : Z) (nonblock : bool) : K (drv W) Z :=
  p ← port_at a;
  let out_vq := pt_out_vq p in
  reclaim_consumed_buffers a;;
  ret ← on_kernel (virtqueue_add_buf out_vq [(in_buf, in_count)] [] in_buf);
  on_kernel (virtqueue_kick out_vq);;
  in_count ← (if ret <? 0 then mret 0
              else
                (if ret =? 0 then mod_port a (set_pt_outvq_full true) else mret tt);;
                (if nonblock then mret tt else spin out_vq);;
                mret in_count);
  mod_port a (fun p => set_pt_sent (u64 (pt_sent p + in_count)) p);;
  mret in_count.

(** ** Receiving *)

(** [fill_readbuf] *)
Definition fill_readbuf (a out_buf out_count : Z) (to_user : bool) : K (drv W) Z :=
  has ← (if out_count =? 0 then mret false else port_has_data a);
  if negb has then mret 0
  else
    p ← port_at a;
    let b := pt_inbuf p in
    pb ← buf_at b;
    let n := Z.min out_count (u64 (pb_len pb - pb_offset pb)) in
    if pb_size pb <? pb_offset pb + n then crashed OutOfBounds
    else
      e ← gete;
      let data := peeks (e_mem e) (seqZ (pb_buf pb + pb_offset pb) n) in
      fault ← (if to_user then nleft ← copy_to_user out_buf data; mret (negb (nleft =? 0))
               else mode (set_mem (pokes (seqZ out_buf n) data));; mret false);
      if fault : bool then mret (- EFAULT)
      else
        mod_buf b (set_pb_offset (pb_offset pb + n));;
        (if pb_offset pb + n =? pb_len pb then
           mod_port a (set_pt_inbuf 0);;
           add_inbuf (pt_in_vq p) b;;
           mret tt
         else mret tt);;
        mret n.

(** [will_read_block] *)
Definition will_read_block (a : Z) : K (drv W) bool :=
  p ← port_at a;
  if negb (pt_guest_connected p) then mret false
  else
    has ← port_has_data a;
    p ← port_at a;
    mret (negb has && pt_host_connected p).

(** [will_write_block] *)
Definition will_write_block (a : Z) : K (drv W) bool :=
  p ← port_at a;
  if negb (pt_guest_connected p) then mret false
  else if negb (pt_host_connected p) then mret true
  else
    reclaim_consumed_buffers a;;
    p ← port_at a;
    mret (pt_outvq_full p).

(** ** Waiting *)

(** What the others do while the caller sleeps: negative if a signal came. *)
Variable sleep : K (drv W) Z.

(** [wait_event_freezable], until [blocked] is false. *)
Definition wait_event (blocked : K (drv W) bool) : K (drv W) Z :=
  while_loop (fun _ : unit =>
    b ← blocked;
    if negb b then mret (inr 0)
    else r ← sleep; if r <? 0 then mret (inr r) else mret (inl tt)) tt.

(** ** The device file *)

(** Stores into the [struct crypto_data] at [cr]. *)
Definition wr_data (cr off : Z) (bs : bytes) : K (drv W) unit :=
  if sizeof_crypto_data <? off + Z.of_nat (length bs) then crashed OutOfBounds
  else mode (set_mem (pokes (seqZ (cr + off) (Z.of_nat (length bs))) bs)).
Definition rd_data (cr off n : Z) : K (drv W) bytes :=
  if sizeof_crypto_data <? off + n then crashed OutOfBounds
  else e ← gete; mret (peeks (e_mem e) (seqZ (cr + off) n)).

(** A [copy_from_user] into the structure: whether all of it could be copied. *)
Definition fetch (cr off from n : Z) : K (drv W) bool :=
  '(bs, nleft) ← copy_from_user from n;
  wr_data cr off bs;;
  mret (nleft =? 0).

(** Sends the structure and waits for the answer, which replaces it; the error
    the ioctl returns with otherwise, without freeing the structure. *)
Definition exchange (a cr : Z) (nonblock : bool) : K (drv W) (option Z) :=
  send_buf a cr sizeof_crypto_data nonblock;;
  has ← port_has_data a;
  p ← port_at a;
  stop ← (if has : bool then mret None
          else if negb (pt_host_connected p) then mret (Some (- ENOTTY))
          else ret ← wait_event (will_read_block a); mret (if ret <? 0 then Some ret else None));
  match stop with
  | Some _ => mret stop
  | None =>
      p ← port_at a;
      if negb (pt_guest_connected p) then mret (Some (- ENODEV))
      else
        has ← port_has_data a;
        p ← port_at a;
        if negb has && negb (pt_host_connected p) then mret (Some (- ENOTTY))
        else fill_readbuf a cr sizeof_crypto_data false;; mret None
  end.

(** What is left to do when the request is in the structure: the exchange, the
    copies back and the release. *)
Definition finish_ioctl (a cr : Z) (nonblock : bool) (back : K (drv W) Z) : K (drv W) Z :=
  stop ← exchange a cr nonblock;
  match stop with
  | Some ret => mret ret
  | None => ret ← back; kfree cr;; mret ret
  end.

(** The three requests of [port_fops_ioctl]. *)
Definition port_ioctl_session (a cr arg : Z) (nonblock : bool) : K (drv W) Z :=
  ok ← fetch cr 0 arg sizeof_session_op;
  if negb ok then kfree cr;; mret (- EFAULT)
  else
    b ← rd_data cr 0 sizeof_session_op;
    let sess := decode_session_op b in
    ok ← fetch cr off_keyp (so_key sess) (so_keylen sess);
    if negb ok then kfree cr;; mret (- EFAULT)
    else
      finish_ioctl a cr nonblock (
        b ← rd_data cr 0 sizeof_session_op;
        nleft ← copy_to_user arg b;
        mret (if nleft =? 0 then 0 else - EFAULT)).

(** The pointer [dst] in the request of the caller, which is read without a
    check. *)
Definition user_dst (arg : Z) : K (drv W) Z :=
  e ← gete;
  let l := seqZ arg sizeof_crypt_op in
  if forallb (readable (e_mem e)) l then mret (co_dst (decode_crypt_op (peeks (e_mem e) l)))
  else crashed NullDeref.

(** What the caller gets back. *)
Definition crypt_back (cr arg : Z) : K (drv W) Z :=
  b ← rd_data cr 0 sizeof_crypt_op;
  nleft ← copy_to_user arg b;
  if negb (nleft =? 0) then mret (- EFAULT)
  else
    dst ← user_dst arg;
    data ← rd_data cr off_dstp (co_len (decode_crypt_op b));
    nleft ← copy_to_user dst data;
    mret (if nleft =? 0 then 0 else - EFAULT).

Definition port_ioctl_crypt (a cr arg : Z) (nonblock : bool) : K (drv W) Z :=
  ok ← fetch cr 0 arg sizeof_crypt_op;
  if negb ok then kfree cr;; mret (- EFAULT)
  else
    b ← rd_data cr 0 sizeof_crypt_op;
    let op := decode_crypt_op b in
    ok ← fetch cr off_srcp (co_src op) (co_len op);
    if negb ok then kfree cr;; mret (- EFAULT)
    else
      ok ← fetch cr off_dstp (co_dst op) (co_len op);
      if negb ok then kfree cr;; mret (- EFAULT)
      else
        ok ← fetch cr off_ivp (co_iv op) CRYPTO_BLOCK_MAX_LEN;
        if negb ok then kfree cr;; mret (- EFAULT)
        else
          finish_ioctl a cr nonblock (crypt_back cr arg).

Definition port_ioctl_finish (a cr arg : Z) (nonblock : bool) : K (drv W) Z :=
  '(id, ret) ← get_user arg;
  wr_data cr 0 (le_bytes 4 id);;
  if negb (ret =? 0) then kfree cr;; mret (- EFAULT)
  else
    finish_ioctl a cr nonblock (
      b ← rd_data cr 0 4;
      ret ← put_user (le_val b) arg;
      mret (if ret =? 0 then 0 else - EFAULT)).

(** [port_fops_ioctl] on the file of the port [a]. *)
Definition port_fops_ioctl (a : Z) (nonblock : bool) (cmd arg : Z) : K (drv W) Z :=
  blocked ← will_write_block a;
  ret ← (if blocked : bool then if nonblock then mret (- EAGAIN) else wait_event (will_write_block a) else mret 0);
  if ret <? 0 then mret ret
  else
    p ← port_at a;
    if negb (pt_guest_connected p) then mret (- ENODEV)
    else
      cr ← kmalloc sizeof_crypto_data OBuffer;
      if cr =? 0 then mret (- ENOMEM)
      else
        e ← gete;
        mode (set_mem (pokes (seqZ cr sizeof_crypto_data) (replicate (Z.to_nat sizeof_crypto_data) (e_junk e))));;
        wr_data cr off_cmd (le_bytes 4 cmd);;
        if cmd =? CIOCGSESSION then port_ioctl_session a cr arg nonblock
        else if cmd =? CIOCCRYPT then port_ioctl_crypt a cr arg nonblock
        else if cmd =? CIOCFSESSION then port_ioctl_finish a cr arg nonblock
        else mret (- EINVAL).

(** [port_fops_poll] *)
Definition port_fops_poll (a : Z) : K (drv W) Z :=
  p ← port_at a;
  if negb (pt_guest_connected p) then mret POLLHUP
  else
    rd ← will_read_block a;
    wr ← will_write_block a;
    p ← port_at a;
    mret (Z.lor (Z.lor (if rd : bool then 0 else Z.lor POLLIN POLLRDNORM) (if wr : bool then 0 else POLLOUT))
            (if pt_host_connected p then 0 else POLLHUP)).

(** [remove_port]: the references of the driver to the device, to the character
    device and to the debugfs file, and the port itself. *)
Definition remove_port (a : Z) : K (drv W) unit :=
  p ← port_at a;
  kfree (pt_dev p);;
  kfree (pt_cdev p);;
  kfree (pt_name p);;
  kfree (pt_debugfs_file p);;
  kfree a.

(** [kref_put(&port->kref, remove_port)] *)
Definition put_port (a : Z) : K (drv W) unit :=
  mod_port a (fun p => set_pt_kref (pt_kref p - 1) p);;
  p ← port_at a;
  if pt_kref p =? 0 then remove_port a else mret tt.

(** [port_fops_release] *)
Definition port_fops_release (a : Z) : K (drv W) Z :=
  send_control_msg a VIRTIO_CONSOLE_PORT_OPEN 0;;
  mod_port a (set_pt_guest_connected false);;
  discard_port_data a;;
  reclaim_consumed_buffers a;;
  put_port a;;
  mret 0.

(** [port_fops_open]: the result and [private_data]. *)
Definition port_fops_open (dev : Z) : K (drv W) (Z * Z) :=
  a ← find_port_by_devt dev;
  p ← port_at a;
  dev_at (pt_portdev p);;
  mod_port a (fun p => set_pt_kref (pt_kref p + 1) p);;
  if is_console_port p then put_port a;; mret (- ENXIO, a)
  else if pt_guest_connected p then put_port a;; mret (- EMFILE, a)
  else
    mod_port a (set_pt_guest_connected true);;
    reclaim_consumed_buffers a;;
    send_control_msg a VIRTIO_CONSOLE_PORT_OPEN 1;;
    mret (0, a).
End Driver.
