(* ===== verification/DriverDev.v ===== *)
(** * Ports and devices of the driver in the guest

    The rest of [linux_kernel/virtio_crypto.c]: consoles, adding and removing
    ports, the messages of the control queue, the interrupts, and the set-up and
    removal of a device.  The terminal layer is part of [GuestKernel]; what it
    reads and writes are calls of [get_chars] and [put_chars] of their own. *)
From stdpp Require Import base gmap gmultiset list strings numbers.
From S2P Require Import Prelude Kernel Structs Vring VirtioDev Bus Backend Driver.
Open Scope Z_scope.

(** [MKDEV] *)
Definition MKDEV (major minor : Z) : Z := Z.lor (Z.shiftl major 20) minor.

(** The bytes of a string. *)
Fixpoint until_nul (l : bytes) : bytes :=
  match l with
  | [] => []
  | b :: l' => if b =? 0 then [] else b :: until_nul l'
  end.

(** What [strncpy] leaves in a buffer of [n] bytes. *)
Definition strncpy (n : nat) (l : bytes) : bytes :=
  let str := until_nul (take n l) in str ++ replicate (n - length str) 0.

Section DriverDev.
Context {W : Type} `{!GuestKernel W, !CryptoLimits}.
Variables (frame : Z) (sleep : K (drv W) Z).

(** ** Consoles *)

(** [put_chars] *)
Definition put_chars (vtermno buf count : Z) : K (drv W) Z :=
  s ← getx;
  if dr_early s then on_kernel (early_put_chars vtermno buf count)
  else
    a ← find_port_by_vtermno vtermno;
    if a =? 0 then mret (- EPIPE) else send_buf a buf count false.

(** [get_chars] *)
Definition get_chars (vtermno buf count : Z) : K (drv W) Z :=
  s ← getx;
  if dr_early s then mret 0
  else
    a ← find_port_by_vtermno vtermno;
    if a =? 0 then mret (- EPIPE) else fill_readbuf a buf count false.

(** [resize_console] *)
Definition resize_console (a : Z) : K (drv W) unit :=
  if a =? 0 then mret tt
  else
    p ← port_at a;
    if negb (is_console_port p) then mret tt
    else
      d ← dev_at (pt_portdev p);
      if has_feature (pd_features d) VIRTIO_CONSOLE_F_SIZE
      then on_kernel (hvc_resize (pt_hvc p) (pt_rows p) (pt_cols p)) else mret tt.

(** [notifier_add_vio] and [notifier_del_vio] of the terminal [hp], which has the
    number [vtermno]. *)
Definition notifier_add_vio (hp vtermno : Z) : K (drv W) Z :=
  a ← find_port_by_vtermno vtermno;
  if a =? 0 then mret (- EINVAL)
  else on_kernel (hvc_irq_requested hp true);; resize_console a;; mret 0.
Definition notifier_del_vio (hp : Z) : K (drv W) unit := on_kernel (hvc_irq_requested hp false).

(** [virtio_cons_early_init] *)
Definition virtio_cons_early_init : K (drv W) Z := modx (set_dr_early true);; on_kernel hvc_instantiate.

(** [set_console_size] *)
Definition set_console_size (a rows cols : Z) : K (drv W) unit :=
  if a =? 0 then mret tt
  else
    p ← port_at a;
    if negb (is_console_port p) then mret tt else mod_port a (set_pt_rows_cols rows cols).

(** [init_port_console] *)
Definition init_port_console (a : Z) : K (drv W) Z :=
  s ← getx;
  let vtermno := dd_next_vtermno (dr_data s) in
  mod_port a (fun p => set_pt_hvc_vtermno (pt_hvc p) vtermno p);;
  err ← on_kernel (hvc_error vtermno);
  hvc ← (if err <? 0 then mret 0 else kalloc OHvc);
  mod_port a (set_pt_hvc_vtermno hvc vtermno);;
  if hvc =? 0 then mret (if err <? 0 then err else - ENOMEM)
  else
    mod_data (fun g => set_dd_consoles (dd_consoles g ++ [a]) (set_dd_next_vtermno (u32 (dd_next_vtermno g + 1)) g));;
    mod_port a (set_pt_guest_connected true);;
    modx (set_dr_early false);;
    send_control_msg frame a VIRTIO_CONSOLE_PORT_OPEN 1;;
    mret 0.

(** ** Adding and removing ports *)

(** [fill_queue]; [n] buffers are in the queue already. *)
Definition fill_round (vq : nat) (n : Z) : K (drv W) (Z + Z) :=
  b ← alloc_buf PAGE_SIZE;
  if b =? 0 then mret (inr n)
  else
    ret ← add_inbuf vq b;
    if ret <? 0 then free_buf b;; mret (inr n)
    else mret (if 0 <? ret then inl (u32 (n + 1)) else inr (u32 (n + 1))).
Definition fill_queue (vq : nat) : K (drv W) Z := while_loop (fill_round vq) 0.

(** Takes the buffers out of a queue that is no longer used. *)
Definition detach_bufs (vq : nat) : K (drv W) unit :=
  while_loop (fun _ : unit =>
    r ← on_kernel (virtqueue_detach_unused_buf vq);
    match r with None => mret (inr tt) | Some b => free_buf b;; mret (inl tt) end) tt.

(** The ends of [add_port] when something failed. *)
Definition add_failed (portdev id err : Z) : K (drv W) Z :=
  __send_control_msg frame portdev id VIRTIO_CONSOLE_PORT_READY 0;;
  mret err.
Definition free_port (portdev id a err : Z) : K (drv W) Z := kfree a;; add_failed portdev id err.
Definition free_cdev (portdev id a err : Z) : K (drv W) Z :=
  p ← port_at a; kfree (pt_cdev p);; free_port portdev id a err.
Definition free_device (portdev id a err : Z) : K (drv W) Z :=
  p ← port_at a; kfree (pt_dev p);; free_cdev portdev id a err.

(** [device_create]: the device or the error. *)
Definition device_create (devt : Z) : K (drv W) (Z + Z) :=
  err ← on_kernel (device_error devt);
  if err <? 0 then mret (inr err)
  else dev ← kalloc ODevice; mret (if dev =? 0 then inr (- ENOMEM) else inl dev).

(** [add_port] from the point where the port has its device. *)
Definition start_port (portdev id a : Z) : K (drv W) Z :=
  p ← port_at a;
  nr ← fill_queue (pt_in_vq p);
  if nr =? 0 then free_device portdev id a (- ENOMEM)
  else
    d ← dev_at portdev;
    err ← (if negb (use_multiport d) then init_port_console a else mret 0);
    if negb (err =? 0) then detach_bufs (pt_in_vq p);; free_device portdev id a err
    else
      mod_dev portdev (fun d => set_pd_ports (pd_ports d ++ [a]) d);;
      send_control_msg frame a VIRTIO_CONSOLE_PORT_READY 1;;
      s ← getx;
      (if dd_debugfs_dir (dr_data s) then f ← kalloc ODentry; mod_port a (set_pt_debugfs_file f) else mret tt);;
      mret 0.

(** [add_port] *)
Definition add_port (portdev id : Z) : K (drv W) Z :=
  a ← kalloc OPort;
  if a =? 0 then add_failed portdev id (- ENOMEM)
  else
    e ← gete;
    d ← dev_at portdev;
    match pd_in_vqs d !! Z.to_nat id, pd_out_vqs d !! Z.to_nat id with
    | Some in_vq, Some out_vq =>
        modx (fun s => set_dr_ports (<[a := Port portdev 0 in_vq out_vq (e_junk e) 0 0 0 0 (e_junk e) 0 0
          0 0 0 1 0 id false false false]> (dr_ports s)) s);;
        cdev ← kalloc OCdev;
        if cdev =? 0 then free_port portdev id a (- ENOMEM)
        else
          let devt := MKDEV (pd_chr_major d) id in
          mod_port a (fun p => set_pt_devt devt (set_pt_cdev cdev p));;
          err ← on_kernel (cdev_add devt);
          if err <? 0 then free_cdev portdev id a err
          else
            r ← device_create devt;
            match r with
            | inr err => free_cdev portdev id a err
            | inl dev => mod_port a (set_pt_dev dev);; start_port portdev id a
            end
    | _, _ => crashed OutOfBounds
    end.

(** [unplug_port] *)
Definition unplug_port (a : Z) : K (drv W) unit :=
  p ← port_at a;
  mod_dev (pt_portdev p) (fun d => set_pd_ports (filter (fun b => b <> a) (pd_ports d)) d);;
  (if pt_guest_connected p then
     mod_port a (fun p => set_pt_host_connected false (set_pt_guest_connected false p)) else mret tt);;
  (if is_console_port p then
     mod_data (fun g => set_dd_consoles (filter (fun b => b <> a) (dd_consoles g)) g);;
     kfree (pt_hvc p)
   else mret tt);;
  discard_port_data a;;
  reclaim_consumed_buffers a;;
  detach_bufs (pt_in_vq p);;
  mod_port a (set_pt_portdev 0);;
  put_port a.

(** ** Messages of the host *)

(** The bytes of a buffer from [off] on. *)
Definition rd_buf (pb : port_buffer) (off n : Z) : K (drv W) bytes :=
  if pb_size pb <? pb_offset pb + off + n then crashed OutOfBounds
  else e ← gete; mret (peeks (e_mem e) (seqZ (pb_buf pb + pb_offset pb + off) n)).

(** The name of a port. *)
Definition port_name (a : Z) (pb : port_buffer) : K (drv W) unit :=
  p ← port_at a;
  if negb (pt_name p =? 0) then mret tt
  else
    let name_size := u64 (pb_len pb - pb_offset pb - sizeof_cpkt + 1) in
    name ← kmalloc name_size OBuffer;
    mod_port a (set_pt_name name);;
    if name =? 0 then mret tt
    else if name_size =? 0 then crashed OutOfBounds
    else
      str ← rd_buf pb sizeof_cpkt (name_size - 1);
      mode (set_mem (pokes (seqZ name name_size) (strncpy (length str) str ++ [0])));;
      on_kernel (sysfs_create_group (pt_dev p));;
      mret tt.

(** [handle_control_message] *)
Definition handle_control_message (portdev b : Z) : K (drv W) unit :=
  pb ← buf_at b;
  bs ← rd_buf pb 0 sizeof_cpkt;
  let cpkt := decode_cpkt bs in
  a ← find_port_by_id portdev (cp_id cpkt);
  if (a =? 0) && negb (cp_event cpkt =? VIRTIO_CONSOLE_PORT_ADD) then mret tt
  else if cp_event cpkt =? VIRTIO_CONSOLE_PORT_ADD then
    if negb (a =? 0) then send_control_msg frame a VIRTIO_CONSOLE_PORT_READY 1;; mret tt
    else
      d ← dev_at portdev;
      if pd_max_nr_ports d <=? cp_id cpkt then mret tt
      else add_port portdev (cp_id cpkt);; mret tt
  else if cp_event cpkt =? VIRTIO_CONSOLE_PORT_REMOVE then unplug_port a
  else if cp_event cpkt =? VIRTIO_CONSOLE_CONSOLE_PORT then
    p ← port_at a;
    if (cp_value cpkt =? 0) || is_console_port p then mret tt
    else init_port_console a;; modx (fun s => set_dr_early_added (dr_early_added s + 1) s)
  else if cp_event cpkt =? VIRTIO_CONSOLE_RESIZE then
    p ← port_at a;
    if negb (is_console_port p) then mret tt
    else
      size ← rd_buf pb sizeof_cpkt 4;
      set_console_size a (le_val (take 2 size)) (le_val (drop 2 size));;
      on_kernel (hvc_irq_requested (pt_hvc p) true);;
      resize_console a
  else if cp_event cpkt =? VIRTIO_CONSOLE_PORT_OPEN then
    mod_port a (set_pt_host_connected (negb (cp_value cpkt =? 0)));;
    reclaim_consumed_buffers a
  else if cp_event cpkt =? VIRTIO_CONSOLE_PORT_NAME then port_name a pb
  else mret tt.

(** One round of [control_work_handler]. *)
Definition control_work_round (portdev : Z) (_ : unit) : K (drv W) (unit + unit) :=
  d ← dev_at portdev;
  r ← on_kernel (virtqueue_get_buf (pd_c_ivq d));
  match r with
  | None => mret (inr tt)
  | Some (b, len) =>
      mod_buf b (set_pb_len_offset len 0);;
      handle_control_message portdev b;;
      ret ← add_inbuf (pd_c_ivq d) b;
      (if ret <? 0 then free_buf b else mret tt);;
      mret (inl tt)
  end.

(** [control_work_handler] *)
Definition control_work_handler (portdev : Z) : K (drv W) unit := while_loop (control_work_round portdev) tt.

(** [in_intr] *)
Definition in_intr (portdev : Z) (vq : nat) : K (drv W) unit :=
  a ← find_port_by_vq portdev vq;
  if a =? 0 then mret tt
  else
    b ← get_inbuf a;
    mod_port a (set_pt_inbuf b);;
    p ← port_at a;
    (if negb (pt_guest_connected p) then discard_port_data a else mret tt);;
    if is_console_port p then
      more ← on_kernel (hvc_poll (pt_hvc p));
      if more : bool then on_kernel hvc_kick else mret tt
    else mret tt.

(** [out_intr] only wakes up the processes that wait for the port, and
    [control_intr] only has [control_work_handler] run. *)
Definition out_intr (portdev : Z) (vq : nat) : K (drv W) unit := find_port_by_vq portdev vq;; mret tt.

(** [config_intr]: the columns are the first two bytes of the configuration
    space, the rows the next two. *)
Definition config_intr (portdev : Z) : K (drv W) unit :=
  d ← dev_at portdev;
  if use_multiport d then mret tt
  else
    cols ← on_kernel (virtio_config_get 0 2);
    rows ← on_kernel (virtio_config_get 2 2);
    a ← find_port_by_id portdev 0;
    set_console_size a (le_val rows) (le_val cols);;
    resize_console a.

(** ** The device *)

(** [l[i] = x] and [l[i]] *)
Definition store {A} (i : nat) (x : A) (l : list A) : K (drv W) (list A) :=
  if (i <? length l)%nat then mret (<[i := x]> l) else crashed OutOfBounds.
Definition entry {A} (i : nat) (l : list A) : K (drv W) A :=
  match l !! i with Some x => mret x | None => crashed OutOfBounds end.

(** The callbacks of the queues, for the ports from [i] on, of which the queues
    start at [j]. *)
Fixpoint port_callbacks (n j : nat) (l : list vq_callback) : K (drv W) (list vq_callback) :=
  match n with
  | O => mret l
  | S n =>
      l ← store j InIntr l;
      l ← store (S j) OutIntr l;
      port_callbacks n (j + 2) l
  end.

(** The queues of the ports from [i] on. *)
Fixpoint port_queues (n i j : nat) (vqs ins outs : list nat) : K (drv W) (list nat * list nat) :=
  match n with
  | O => mret (ins, outs)
  | S n =>
      q ← entry j vqs; ins ← store i q ins;
      q ← entry (S j) vqs; outs ← store i q outs;
      port_queues n (S i) (j + 2) vqs ins outs
  end.

(** What [init_vqs] hands to [find_vqs]. *)
Definition vq_callbacks (multiport : bool) (nr_ports nr_queues : nat) : K (drv W) (list vq_callback) :=
  l ← port_callbacks 1 0 (replicate nr_queues NoCallback);
  if multiport then
    l ← store 2 ControlIntr l;
    l ← store 3 NoCallback l;
    port_callbacks (nr_ports - 1) 4 l
  else mret l.

(** [init_vqs] from the point where the memory is there. *)
Definition place_vqs (portdev : Z) (multiport : bool) (nr_ports nr_queues : nat) (in_arr out_arr : Z) : K (drv W) Z :=
  callbacks ← vq_callbacks multiport nr_ports nr_queues;
  r ← on_kernel (find_vqs callbacks);
  match r with
  | inr err => mret err
  | inl vqs =>
      '(ins, outs) ← port_queues 1 0 0 vqs (replicate nr_ports 0%nat) (replicate nr_ports 0%nat);
      '(ins, outs) ← (if multiport then
                        ci ← entry 2 vqs; co ← entry 3 vqs;
                        mod_dev portdev (set_pd_c_ivq_c_ovq ci co);;
                        port_queues (nr_ports - 1) 1 4 vqs ins outs
                      else mret (ins, outs));
      mod_dev portdev (fun d => set_pd_in_arr_in_vqs in_arr ins (set_pd_out_arr_out_vqs out_arr outs d));;
      mret 0
  end.

(** [init_vqs] *)
Definition init_vqs (portdev : Z) : K (drv W) Z :=
  d ← dev_at portdev;
  let nr_ports := pd_max_nr_ports d in
  let nr_queues := if use_multiport d then u32 (u32 (nr_ports + 1) * 2) else 2 in
  vqs ← kmalloc (nr_queues * 8) OVqArray;
  io_callbacks ← kmalloc (nr_queues * 8) OVqArray;
  io_names ← kmalloc (nr_queues * 8) OVqArray;
  in_vqs ← kmalloc (nr_ports * 8) OVqArray;
  out_vqs ← kmalloc (nr_ports * 8) OVqArray;
  err ← (if (vqs =? 0) || (io_callbacks =? 0) || (io_names =? 0) || (in_vqs =? 0) || (out_vqs =? 0)
         then mret (- ENOMEM)
         else place_vqs portdev (use_multiport d) (Z.to_nat nr_ports) (Z.to_nat nr_queues) in_vqs out_vqs);
  (if err =? 0 then mret tt else kfree out_vqs;; kfree in_vqs);;
  kfree io_names;;
  kfree io_callbacks;;
  kfree vqs;;
  mret err.

(** The end of [virtcons_probe] when something failed. *)
Definition probe_failed (portdev err : Z) : K (drv W) Z := kfree portdev;; mret err.

(** [virtcons_probe] from the point where the queues are there. *)
Definition start_device (portdev : Z) (multiport early : bool) : K (drv W) Z :=
  d ← dev_at portdev;
  nr ← (if multiport then fill_queue (pd_c_ivq d) else add_port portdev 0;; mret 1);
  if nr =? 0 then
    __send_control_msg frame portdev VIRTIO_CONSOLE_BAD_ID VIRTIO_CONSOLE_DEVICE_READY 0;;
    on_kernel del_vqs;;
    kfree (pd_in_arr d);;
    kfree (pd_out_arr d);;
    probe_failed portdev (- ENOMEM)
  else
    mod_data (fun g => set_dd_portdevs (dd_portdevs g ++ [portdev]) g);;
    __send_control_msg frame portdev VIRTIO_CONSOLE_BAD_ID VIRTIO_CONSOLE_DEVICE_READY 1;;
    (if multiport && early then
       while_loop (fun _ : unit =>
         s ← getx;
         if 0 <? dr_early_added s then modx (set_dr_early_added (dr_early_added s - 1));; mret (inr tt)
         else sleep;; mret (inl tt)) tt
     else mret tt);;
    mret 0.

(** [virtcons_probe] of a device with the features [features]. *)
Definition virtcons_probe (features : Z) : K (drv W) Z :=
  s ← getx;
  let early := dr_early s in
  portdev ← kalloc OPortdev;
  if portdev =? 0 then mret (- ENOMEM)
  else
    let index := dd_index (dr_data s) in
    mod_data (set_dd_index (u32 (index + 1)));;
    major ← on_kernel register_chrdev;
    if major <? 0 then probe_failed portdev major
    else
      let multiport := has_feature features VIRTIO_CONSOLE_F_MULTIPORT in
      max ← (if multiport then bs ← on_kernel (virtio_config_get 4 4); mret (le_val bs) else mret 1);
      modx (fun s => set_dr_devs (<[portdev := PortsDevice [] max features 0 0 0 [] 0 [] index major]> (dr_devs s)) s);;
      err ← init_vqs portdev;
      if err <? 0 then probe_failed portdev err else start_device portdev multiport early.

(** [unplug_port] for all ports. *)
Fixpoint unplug_ports (l : list Z) : K (drv W) unit :=
  match l with
  | [] => mret tt
  | a :: l' => unplug_port a;; unplug_ports l'
  end.

(** [virtcons_remove] *)
Definition virtcons_remove (portdev : Z) : K (drv W) unit :=
  mod_data (fun g => set_dd_portdevs (filter (fun d => d <> portdev) (dd_portdevs g)) g);;
  on_kernel virtio_device_reset;;
  d ← dev_at portdev;
  unplug_ports (pd_ports d);;
  (if use_multiport d then
     while_loop (fun _ : unit =>
       r ← on_kernel (virtqueue_get_buf (pd_c_ivq d));
       match r with None => mret (inr tt) | Some (b, _) => free_buf b;; mret (inl tt) end) tt;;
     detach_bufs (pd_c_ivq d)
   else mret tt);;
  on_kernel del_vqs;;
  kfree (pd_in_arr d);;
  kfree (pd_out_arr d);;
  kfree portdev.

(** ** The module *)

(** [init]; the class of the devices has no state of its own. *)
Definition init : K (drv W) Z :=
  err ← on_kernel class_create;
  if err <? 0 then mret err
  else
    dir ← on_kernel debugfs_create_dir;
    mod_data (fun g => set_dd_consoles [] (set_dd_portdevs [] (set_dd_debugfs_dir dir g)));;
    on_kernel register_virtio_driver.

(** [fini]; the layer below removes the devices first. *)
Definition fini : K (drv W) unit := on_kernel unregister_virtio_driver.
End DriverDev.
