(* ===== verification/DriverFacts.v ===== *)
(** * Facts about the driver in the guest

    What the driver needs of the virtqueue layer, as laws, and what its
    operations do under them: the buffers of a port are each in one place, every
    object is freed once and nothing is left behind. *)
From stdpp Require Import base gmap gmultiset list strings numbers.
From S2P Require Import Prelude Kernel KernelFacts Structs Vring VringFacts VirtioDev Bus Backend Driver DriverDev.
Open Scope Z_scope.

(** ** The virtqueue layer *)

(** A buffer the host has not used yet. *)
Record vbuf := VBuf { vb_tok : Z; vb_outs : list iovec; vb_ins : list iovec }.
Definition has_ins (b : vbuf) : Prop := vb_ins b <> [].

(** Only the memory differs, and no page of it. *)
Record mem_only (e e' : env) : Prop := {
  mo_env : e' = set_mem (fun _ => e_mem e') e;
  mo_pages : m_pages (e_mem e') = m_pages (e_mem e)
}.

(** The interface of the virtqueues as Linux documents it: a buffer that is added
    comes back once, from [virtqueue_get_buf] when the host used it, or from
    [virtqueue_detach_unused_buf]; the host acts when it is kicked, uses only
    what was added and writes only where it may.  The host fills at most
    [vq_budget] buffers on its own. *)
Class VirtqueueLaws (W : Type) `{!GuestKernel W} := {
  vq_avail : W -> nat -> list vbuf;
  vq_used : W -> nat -> list (Z * Z);
  vq_room : W -> nat -> Z;
  vq_budget : W -> nat;
  tokens w q := (vb_tok <$> vq_avail w q) ++ (vq_used w q).*1;
  same_vq w w' q := vq_avail w' q = vq_avail w q /\ vq_used w' q = vq_used w q /\ vq_room w' q = vq_room w q;
  load w q := (length (vq_used w q) + vq_budget w)%nat;
  room_law : forall w q, 0 <= vq_room w q < 2 ^ 32;
  size_law : forall w q, Z.of_nat (length (tokens w q)) < 2 ^ 32;
  load_law : forall w q, Z.of_nat (load w q) < 2 ^ 64;
  add_buf_law : forall q outs ins tok e w, exists r w',
    virtqueue_add_buf q outs ins tok (e, w) = Done r (e, w') /\ vq_budget w' = vq_budget w /\
    (forall q', q' <> q -> same_vq w w' q') /\ vq_used w' q = vq_used w q /\
    (r < 0 /\ same_vq w w' q \/
     0 <= r /\ vq_avail w' q = vq_avail w q ++ [VBuf tok outs ins] /\ vq_room w q = r + 1 /\ vq_room w' q = r);
  get_buf_law : forall q e w, exists w', 
    virtqueue_get_buf q (e, w) = Done (head (vq_used w q)) (e, w') /\ vq_budget w' = vq_budget w /\
    (forall q', q' <> q -> same_vq w w' q') /\ vq_avail w' q = vq_avail w q /\ vq_used w' q = tail (vq_used w q);
  detach_law : forall q e w, exists r w',
    virtqueue_detach_unused_buf q (e, w) = Done r (e, w') /\ (forall q', q' <> q -> same_vq w w' q') /\
    (forall b, b ∈ vq_avail w' q -> b ∈ vq_avail w q) /\
    match r with None => tokens w q = [] /\ tokens w' q = [] | Some t => tokens w q ≡ₚ t :: tokens w' q end;
  kick_law : forall q e w, exists e' w',
    virtqueue_kick q (e, w) = Done tt (e', w') /\ mem_only e e' /\
    (forall a, (forall q' b, b ∈ vq_avail w q' -> a ∉ iov_addrs (vb_ins b)) -> peek (e_mem e') a = peek (e_mem e) a) /\
    (forall q', exists moved lens, vq_avail w q' ≡ₚ moved ++ vq_avail w' q' /\ vq_used w' q' = vq_used w q' ++ lens /\
       Forall2 (fun b t => t.1 = vb_tok b /\ 0 <= t.2 <= iov_size (vb_ins b)) moved lens /\ vq_room w' q' = vq_room w q' /\
       (Forall has_ins (vq_avail w q') -> load w' q' <= load w q')%nat)
}.

(** The host takes what is sent to it at once. *)
Class PromptHost (W : Type) `{!GuestKernel W, !VirtqueueLaws W} := {
  kick_consumes : forall q e w e' w', virtqueue_kick q (e, w) = Done tt (e', w') -> Forall has_ins (vq_avail w' q)
}.

(** The services of the driver core leave the queues alone. *)
Definition quiet {W A} `{!GuestKernel W, !VirtqueueLaws W} (m : K W A) : Prop :=
  forall e w, exists a w', m (e, w) = Done a (e, w') /\ forall q, same_vq w w' q.
Class ServiceLaws (W : Type) `{!GuestKernel W, !VirtqueueLaws W} := {
  cdev_add_quiet : forall devt, quiet (cdev_add devt);
  device_error_quiet : forall devt, quiet (device_error devt)
}.

Section Queues.
Context {W : Type} `{!GuestKernel W, !VirtqueueLaws W}.
Implicit Types (w : W) (e : env) (s : drv W).

Lemma same_tokens w w' q : same_vq w w' q -> tokens w' q = tokens w q.
Proof. unfold same_vq, tokens. by intros (-> & -> & _). Qed.

(** All queues hold the same, up to the queue [q], which holds also [l]. *)
Definition gains (q : nat) (l : list Z) w w' : Prop :=
  tokens w' q ≡ₚ l ++ tokens w q /\ forall q', q' <> q -> tokens w' q' ≡ₚ tokens w q'.

Lemma on_kernel_spec {A} (m : K W A) e s e' w' a (Q : A -> env * drv W -> Prop) :
  m (e, dr_w s) = Done a (e', w') -> Q a (e', set_dr_w w' s) -> wp (on_kernel m) Q (e, s).
Proof. intros E HQ. unfold on_kernel, on_local, wp, mbind, M_bind. cbn. by rewrite E. Qed.

Lemma add_spec q outs ins tok e s (Q : Z -> env * drv W -> Prop) :
  (forall r w', vq_budget w' = vq_budget (dr_w s) -> (forall q', vq_used w' q' = vq_used (dr_w s) q') ->
     (forall q', q' <> q -> vq_avail w' q' = vq_avail (dr_w s) q') ->
     r < 0 /\ gains q [] (dr_w s) w' /\ vq_avail w' q = vq_avail (dr_w s) q /\ vq_room w' q = vq_room (dr_w s) q \/
     0 <= r /\ gains q [tok] (dr_w s) w' /\ vq_avail w' q = vq_avail (dr_w s) q ++ [VBuf tok outs ins] /\
       vq_room (dr_w s) q = r + 1 /\ vq_room w' q = r -> Q r (e, set_dr_w w' s)) ->
  wp (on_kernel (virtqueue_add_buf q outs ins tok)) Q (e, s).
Proof.
  intros HQ. destruct (add_buf_law q outs ins tok e (dr_w s)) as (r & w' & E & Hb & Ho & Hu & Hr).
  eapply on_kernel_spec; [exact E|]. apply HQ; [done| | |].
  { intros q'. destruct (decide (q' = q)) as [->|Hq]; [done|]. by destruct (Ho q' Hq) as (_ & -> & _). }
  { intros q' Hq. by destruct (Ho q' Hq). }
  assert (Ho' : forall q', q' <> q -> tokens w' q' ≡ₚ tokens (dr_w s) q').
  { intros q' Hq. by rewrite (same_tokens (dr_w s) w') by auto. }
  destruct Hr as [[H0 Hs]|(H0 & Ha & Hr & Hr')]; [left|right].
  - split_and!; [done|split; [by rewrite (same_tokens (dr_w s) w')|done]|by destruct Hs|by destruct Hs as (_ & _ & ?)].
  - split_and!; try done. split; [|done]. unfold tokens. rewrite Ha, Hu, fmap_app. cbn. by rewrite <- app_assoc, Permutation_middle.
Qed.

Lemma get_spec q e s (Q : option (Z * Z) -> env * drv W -> Prop) :
  (forall w', vq_budget w' = vq_budget (dr_w s) -> (forall q', vq_avail w' q' = vq_avail (dr_w s) q') ->
     vq_used (dr_w s) q = [] -> vq_used w' q = [] -> gains q [] (dr_w s) w' -> Q None (e, set_dr_w w' s)) ->
  (forall t n w', vq_budget w' = vq_budget (dr_w s) -> (forall q', vq_avail w' q' = vq_avail (dr_w s) q') ->
     vq_used (dr_w s) q = (t, n) :: vq_used w' q -> gains q [t] w' (dr_w s) -> Q (Some (t, n)) (e, set_dr_w w' s)) ->
  wp (on_kernel (virtqueue_get_buf q)) Q (e, s).
Proof.
  intros HN HS. destruct (get_buf_law q e (dr_w s)) as (w' & E & Hb & Ho & Ha & Hu). eapply on_kernel_spec; [exact E|].
  assert (Ha' : forall q', vq_avail w' q' = vq_avail (dr_w s) q').
  { intros q'. destruct (decide (q' = q)) as [->|Hq]; [done|]. by destruct (Ho q' Hq) as (-> & _). }
  assert (Ho' : forall q', q' <> q -> tokens w' q' = tokens (dr_w s) q') by (intros q' Hq; by apply same_tokens, Ho).
  destruct (vq_used (dr_w s) q) as [|[t n] l] eqn:El; cbn in *.
  - apply HN; try done. split; [unfold tokens; by rewrite Ha, Hu, El|]. intros q' Hq. by rewrite Ho'.
  - apply HS; try done; [by rewrite Hu|]. split; [|intros q' Hq; by rewrite Ho'].
    unfold tokens. rewrite Ha, Hu, El. cbn. symmetry. apply Permutation_middle.
Qed.

Lemma kick_spec q e s (Q : unit -> env * drv W -> Prop) :
  (forall e' w', virtqueue_kick q (e, dr_w s) = Done tt (e', w') -> mem_only e e' -> gains q [] (dr_w s) w' ->
     (forall q', vq_room w' q' = vq_room (dr_w s) q' /\
       exists moved, vq_avail (dr_w s) q' ≡ₚ moved ++ vq_avail w' q') ->
     (forall q', Forall has_ins (vq_avail (dr_w s) q') ->
        Forall has_ins (vq_avail w' q') /\ (load w' q' <= load (dr_w s) q')%nat) -> Q tt (e', set_dr_w w' s)) ->
  wp (on_kernel (virtqueue_kick q)) Q (e, s).
Proof.
  intros HQ. destruct (kick_law q e (dr_w s)) as (e' & w' & E & Hm & _ & Hq). eapply on_kernel_spec; [exact E|].
  assert (Ht : forall q', tokens w' q' ≡ₚ tokens (dr_w s) q').
  { intros q'. destruct (Hq q') as (moved & lens & Ha & Hu & Hl & _). unfold tokens. rewrite Ha, Hu, !fmap_app.
    assert (El : lens.*1 = vb_tok <$> moved) by (clear - Hl; induction Hl as [|b t m l [Ht _] _ IH]; [done|]; cbn; by rewrite Ht, IH).
    rewrite El. solve_Permutation. }
  apply HQ; [done|done|by split| |].
  - intros q'. destruct (Hq q') as (moved & lens & Ha & _ & _ & Hr & _). split; [done|]. by exists moved.
  - intros q' Hi. destruct (Hq q') as (moved & lens & Ha & _ & _ & _ & Hl). split; [|auto].
    rewrite Ha, list.Forall_app in Hi. by destruct Hi.
Qed.

Lemma detach_spec q e s (Q : option Z -> env * drv W -> Prop) :
  (forall r w', (forall q' b, b ∈ vq_avail w' q' -> b ∈ vq_avail (dr_w s) q') ->
     match r with
     | None => tokens (dr_w s) q = [] /\ gains q [] (dr_w s) w'
     | Some t => gains q [t] w' (dr_w s)
     end -> Q r (e, set_dr_w w' s)) ->
  wp (on_kernel (virtqueue_detach_unused_buf q)) Q (e, s).
Proof.
  intros HQ. destruct (detach_law q e (dr_w s)) as (r & w' & E & Ho & Hav & Hr). eapply on_kernel_spec; [exact E|].
  assert (Ho' : forall q', q' <> q -> tokens w' q' = tokens (dr_w s) q') by (intros q' Hq; by apply same_tokens, Ho).
  apply HQ.
  - intros q' b. destruct (decide (q' = q)) as [->|Hq]; [apply Hav|]. by destruct (Ho q' Hq) as (-> & _).
  - destruct r as [t|].
    + split; [done|]. intros q' Hq. by rewrite Ho'.
    + destruct Hr as [H0 H0']. split; [done|]. split; [by rewrite H0, H0'|]. intros q' Hq. by rewrite Ho'.
Qed.
End Queues.

(** ** A port *)

Lemma mem_only_ok e e' : mem_only e e' -> env_ok e -> env_ok e'.
Proof. intros [-> _] [? ? ?]. by constructor. Qed.
Lemma mem_only_owns e e' l : mem_only e e' -> owns e l -> owns e' l.
Proof. intros [-> _]. done. Qed.

Section Port.
Context {W : Type} `{!GuestKernel W, !CryptoLimits, !VirtqueueLaws W}.
Implicit Types (w : W) (e : env) (s : drv W) (p : port).

Definition if_set (a : Z) : list Z := if a =? 0 then [] else [a].
Definition objs (k : kobj) (l : list Z) : list (Z * kobj) := (fun a => (a, k)) <$> l.

(** The objects of a port, of input buffers with their data, and of requests. *)
Definition port_objs (a : Z) p : list (Z * kobj) :=
  (a, OPort) :: objs ODevice (if_set (pt_dev p)) ++ objs OCdev (if_set (pt_cdev p)) ++ objs OBuffer (if_set (pt_name p)).
Definition file_objs p : list (Z * kobj) := objs ODentry (if_set (pt_debugfs_file p)).
Definition buf_objs (B : list (Z * Z)) : list (Z * kobj) := concat ((fun b => [(b.1, OPortBuf); (b.2, OBuffer)]) <$> B).

Definition buf_is s (b : Z * Z) : Prop :=
  exists pb, dr_bufs s !! b.1 = Some pb /\ pb_buf pb = b.2 /\ pb_size pb = PAGE_SIZE.

(** The port [a] is [p]; its input buffers are those of [B], of which [hand] are
    not in the queue; the output queue holds [O]; there are the objects [l] as
    well. *)
Record port_st e s (a : Z) p (B : list (Z * Z)) (hand O : list Z) l : Prop := {
  ps_env : env_ok e;
  ps_owns : owns e (port_objs a p ++ buf_objs B ++ objs OBuffer O ++ l);
  ps_port : dr_ports s !! a = Some p;
  ps_bufs : Forall (buf_is s) B;
  ps_in : B.*1 ≡ₚ hand ++ tokens (dr_w s) (pt_in_vq p);
  ps_ins : Forall has_ins (vq_avail (dr_w s) (pt_in_vq p));
  ps_out : O ≡ₚ tokens (dr_w s) (pt_out_vq p);
  ps_idle : vq_avail (dr_w s) (pt_out_vq p) = [];
  ps_apart : pt_in_vq p <> pt_out_vq p
}.

(** What an operation on the port leaves alone: the port up to its counters and
    its current buffer, the devices, and the other queues. *)
Definition core p : port :=
  set_pt_inbuf 0 (set_pt_sent 0 (set_pt_received 0 (set_pt_discarded 0 (set_pt_outvq_full false p)))).
Record kept (a : Z) p s s' : Prop := {
  kp_devs : dr_devs s' = dr_devs s;
  kp_data : dr_data s' = dr_data s;
  kp_ports : forall b, b <> a -> dr_ports s' !! b = dr_ports s !! b;
  kp_queues : forall q, q <> pt_in_vq p -> q <> pt_out_vq p -> tokens (dr_w s') q ≡ₚ tokens (dr_w s) q
}.

Lemma drv_kept_refl a p s : kept a p s s.
Proof. by split. Qed.
Lemma kept_trans a p s1 s2 s3 : kept a p s1 s2 -> kept a p s2 s3 -> kept a p s1 s3.
Proof.
  intros [D1 G1 P1 Q1] [D2 G2 P2 Q2]. split; [congruence|congruence| |]; [intros b Hb; by rewrite P2, P1|].
  intros q Hi Ho. by rewrite Q2, Q1.
Qed.

Lemma core_objs a p p' : core p' = core p -> port_objs a p' = port_objs a p.
Proof. intros E. apply (f_equal (port_objs a)) in E. exact E. Qed.
Lemma core_queues p p' : core p' = core p -> pt_in_vq p' = pt_in_vq p /\ pt_out_vq p' = pt_out_vq p.
Proof. intros E. split; [by apply (f_equal pt_in_vq) in E|by apply (f_equal pt_out_vq) in E]. Qed.

(** ** Following pointers *)

Lemma object_spec {A} (field : drv W -> gmap Z A) e s a x k l (Q : A -> env * drv W -> Prop) :
  env_ok e -> owns e l -> (a, k) ∈ l -> field s !! a = Some x -> Q x (e, s) -> wp (object_at field a) Q (e, s).
Proof.
  intros He Ho Hin Hx HQ. unfold object_at. rewrite (proj2 (Z.eqb_neq a 0)) by (by eapply owns_nonnull).
  apply wp_bind. eapply touch_spec; [exact Ho|exact Hin|]. ksteps. by rewrite Hx.
Qed.

Definition upd_port (a : Z) p s : drv W := set_dr_ports (<[a := p]> (dr_ports s)) s.
Definition upd_buf (b : Z) (pb : port_buffer) s : drv W := set_dr_bufs (<[b := pb]> (dr_bufs s)) s.

Lemma drv_port_at_spec e s a p B hand O l (Q : port -> env * drv W -> Prop) :
  port_st e s a p B hand O l -> Q p (e, s) -> wp (port_at a) Q (e, s).
Proof. intros [He Ho Hp _ _ _ _ _ _] HQ. eapply object_spec; [done|exact Ho|left|done|done]. Qed.

Lemma mod_port_spec f e s a p B hand O l (Q : unit -> env * drv W -> Prop) :
  port_st e s a p B hand O l -> Q tt (e, upd_port a (f p) s) -> wp (mod_port a f) Q (e, s).
Proof. intros Hp HQ. unfold mod_port. apply wp_bind. eapply drv_port_at_spec; [exact Hp|]. exact HQ. Qed.

Lemma port_st_flags e s a p p' B hand O l :
  port_st e s a p B hand O l -> port_objs a p' = port_objs a p -> pt_in_vq p' = pt_in_vq p -> pt_out_vq p' = pt_out_vq p ->
  port_st e (upd_port a p' s) a p' B hand O l.
Proof.
  intros [He Ho Hp Hb Hi Hh Hout Hid Ha] E Ei Eo. split; rewrite ?E, ?Ei, ?Eo; try done. cbn. by rewrite lookup_insert_eq.
Qed.
Lemma port_st_upd e s a p p' B hand O l :
  port_st e s a p B hand O l -> core p' = core p -> port_st e (upd_port a p' s) a p' B hand O l.
Proof. intros Hp E. apply (port_st_flags _ _ _ p); [done|by apply core_objs|by apply core_queues..]. Qed.
Lemma kept_upd a p s p' : kept a p s (upd_port a p' s).
Proof. split; [done..| |done]. intros b Hb. cbn. by rewrite lookup_insert_ne by congruence. Qed.

Lemma elem_buf_objs b B : b ∈ B -> (b.1, OPortBuf) ∈ buf_objs B.
Proof.
  intros Hb. unfold buf_objs. apply list_elem_of_In, in_concat. exists [(b.1, OPortBuf); (b.2, OBuffer)]. split; [|by left].
  apply list_elem_of_In, list_elem_of_fmap. by exists b.
Qed.

Lemma buf_at_spec e s a p B hand O l b (Q : port_buffer -> env * drv W -> Prop) :
  port_st e s a p B hand O l -> b ∈ B ->
  (forall pb, dr_bufs s !! b.1 = Some pb -> pb_buf pb = b.2 -> pb_size pb = PAGE_SIZE -> Q pb (e, s)) ->
  wp (buf_at b.1) Q (e, s).
Proof.
  intros [He Ho _ Hb _ _ _ _ _] Hin HQ. rewrite list.Forall_forall in Hb. destruct (Hb b Hin) as (pb & E & Hd & Hs).
  eapply object_spec; [done|exact Ho| |done|by apply HQ].
  apply elem_of_app. right. apply elem_of_app. left. by apply elem_buf_objs.
Qed.

Lemma buf_is_upd s b pb x : dr_bufs s !! b = Some pb -> forall n o, buf_is s x -> buf_is (upd_buf b (set_pb_len_offset n o pb) s) x.
Proof.
  intros Hb n o (pb' & E & Hd & Hs). unfold buf_is, upd_buf. cbn. destruct (decide (x.1 = b)) as [Eb|Hne].
  - subst b. rewrite lookup_insert_eq. rewrite Hb in E. injection E as ->. by eexists.
  - rewrite lookup_insert_ne by done. by exists pb'.
Qed.

Lemma mod_buf_spec n o e s a p B hand O l b (Q : unit -> env * drv W -> Prop) :
  port_st e s a p B hand O l -> b ∈ B ->
  (forall s', dr_w s' = dr_w s -> dr_ports s' = dr_ports s -> dr_devs s' = dr_devs s -> dr_data s' = dr_data s ->
     port_st e s' a p B hand O l -> Q tt (e, s')) ->
  wp (mod_buf b.1 (set_pb_len_offset n o)) Q (e, s).
Proof.
  intros Hp Hin HQ. unfold mod_buf. apply wp_bind. eapply buf_at_spec; [exact Hp|done|]. intros pb Hb _ _. ksteps.
  apply HQ; [done..|]. destruct Hp as [He Ho Hpt Hbs Hi Hh Hout Hid Ha]. split; try done.
  eapply list.Forall_impl; [exact Hbs|]. intros x. by apply buf_is_upd.
Qed.

(** ** Input *)

Definition busy (b : Z) : nat := if b =? 0 then 0 else 1.

Lemma in_buf (B : list (Z * Z)) b : b ∈ B.*1 -> exists d, (b, d) ∈ B.
Proof. intros ([b' d] & -> & Hin)%list_elem_of_fmap. by exists d. Qed.

Lemma token_buf e s a p B hand O l b : port_st e s a p B hand O l -> b ∈ B.*1 -> b <> 0 /\ exists d, (b, d) ∈ B.
Proof.
  intros [He Ho _ _ _ _ _ _ _] [d Hd]%in_buf. split; [|by exists d]. eapply owns_nonnull; [exact He|exact Ho|].
  apply elem_of_app. right. apply elem_of_app. left. by apply (elem_buf_objs (b, d)).
Qed.

Lemma if_set_nz b : b <> 0 -> if_set b = [b].
Proof. intros. unfold if_set. by rewrite (proj2 (Z.eqb_neq b 0)). Qed.

Lemma get_inbuf_spec e s a p B O l (Q : Z -> env * drv W -> Prop) :
  port_st e s a p B (if_set (pt_inbuf p)) O l ->
  (forall b s' p', port_st e s' a p' B (if_set b) O l -> core p' = core p -> kept a p s s' ->
     pt_inbuf p' = pt_inbuf p -> (pt_inbuf p <> 0 -> b = pt_inbuf p) ->
     (load (dr_w s') (pt_in_vq p) + busy b <= load (dr_w s) (pt_in_vq p) + busy (pt_inbuf p))%nat -> Q b (e, s')) ->
  wp (get_inbuf a) Q (e, s).
Proof.
  intros Hp HQ. unfold get_inbuf. apply wp_bind. eapply drv_port_at_spec; [exact Hp|].
  destruct (Z.eqb_spec (pt_inbuf p) 0) as [E0|E0]; cbn [negb]; [|by apply HQ with p].
  apply wp_bind. destruct (Hp) as [He Ho Hpt Hb Hi Hh Hout Hid Ha]. unfold if_set in Hi. rewrite E0 in Hi. cbn in Hi.
  apply get_spec.
  - intros w' Eb Eav Eu Eu' [Eq Eo]. apply (HQ 0 _ p); [|done|split; [done..|]|done|done|].
    + split; try done; cbn; [by rewrite Eq|by rewrite Eav|by rewrite Eo by (by apply not_eq_sym)|by rewrite Eav].
    + intros q Hqi _. by apply Eo.
    + cbn. unfold load. rewrite Eb, Eu, Eu'. cbn. lia.
  - intros b n w' Eb Eav Eu [Eq Eo].
    assert (Hp1 : port_st e (set_dr_w w' s) a p B [b] O l).
    { split; try done; cbn; [by rewrite Hi, Eq|by rewrite Eav|by rewrite Hout, Eo by (by apply not_eq_sym)|by rewrite Eav]. }
    destruct (token_buf _ _ _ _ _ _ _ _ b Hp1) as [Hb0 [d Hd]]; [rewrite Hi, Eq; by left|].
    apply wp_bind. apply (mod_buf_spec n 0 _ _ _ _ _ _ _ _ (b, d) _ Hp1 Hd). intros s1 Ew Ept Ed Eg Hp2.
    apply wp_bind. eapply mod_port_spec; [exact Hp2|]. ksteps.
    eapply HQ; [rewrite if_set_nz by done; by apply (port_st_upd _ _ _ _ _ _ _ _ _ Hp2)|done|split; cbn; [by rewrite Ed|by rewrite Eg| |]|done|done|].
    + intros x Hx. cbn. by rewrite Ept, lookup_insert_ne by congruence.
    + intros q Hqi _. cbn. rewrite Ew. cbn. by rewrite Eo.
    + cbn. rewrite Ew. cbn. unfold load. rewrite Eb, Eu. cbn. unfold busy. destruct (b =? 0), (pt_inbuf p =? 0); lia.
Qed.

Lemma add_inbuf_spec e s a p B hand O l b (Q : Z -> env * drv W -> Prop) :
  port_st e s a p B (b :: hand) O l ->
  (forall ret e' s', kept a p s s' -> (load (dr_w s') (pt_in_vq p) <= load (dr_w s) (pt_in_vq p))%nat ->
     (0 <= ret -> vq_room (dr_w s) (pt_in_vq p) = ret + 1 /\ vq_room (dr_w s') (pt_in_vq p) = ret) ->
     port_st e' s' a p B (if ret <? 0 then b :: hand else hand) O l -> Q ret (e', s')) ->
  wp (add_inbuf (pt_in_vq p) b) Q (e, s).
Proof.
  intros Hp HQ. unfold add_inbuf. destruct (token_buf _ _ _ _ _ _ _ _ b Hp) as [Hb0 [d Hd]].
  { rewrite (ps_in _ _ _ _ _ _ _ _ Hp). by left. }
  apply wp_bind. apply (buf_at_spec _ _ _ _ _ _ _ _ (b, d) _ Hp Hd). intros pb _ Ed Es. cbn in Ed. rewrite Ed, Es.
  destruct Hp as [He Ho Hpt Hb Hi Hh Hout Hid Ha]. apply wp_bind, add_spec. intros r w1 Eb Eu Eav Hr.
  assert (Hw1 : gains (pt_in_vq p) (if r <? 0 then [] else [b]) (dr_w s) w1 /\ Forall has_ins (vq_avail w1 (pt_in_vq p)) /\
    (0 <= r -> vq_room (dr_w s) (pt_in_vq p) = r + 1 /\ vq_room w1 (pt_in_vq p) = r)).
  { destruct Hr as [(Hr & Hg & Hav & _)|(Hr & Hg & Hav & Hroom)].
    - rewrite (proj2 (Z.ltb_lt _ _)), Hav by done. split_and!; [done|done|lia].
    - rewrite (proj2 (Z.ltb_ge _ _)), Hav by done. split_and!; [done| |done]. apply list.Forall_app. split; [done|]. by constructor. }
  clear Hr. destruct Hw1 as ([Hg Hgo] & Hins & Hroom). apply wp_bind, kick_spec. cbn [dr_w set_dr_w].
  intros e2 w2 _ Hm [Hk Hko] Hav2 Hld. destruct (Hld _ Hins) as [Hins2 Hl2]. ksteps. apply HQ.
  - split; try done. cbn. intros q Hqi Hqo. by rewrite Hko, Hgo.
  - cbn. unfold load in *. by rewrite Eb, Eu in Hl2.
  - cbn. rewrite (proj1 (Hav2 _)). done.
  - split; cbn; try done; [by eapply mem_only_ok|by eapply mem_only_owns| |by rewrite Hko, Hgo by (by apply not_eq_sym)|].
    + rewrite Hk, Hg, Hi. destruct (r <? 0); cbn; [done|]. apply Permutation_middle.
    + destruct (Hav2 (pt_out_vq p)) as [_ [moved Hm2]]. rewrite Eav, Hid in Hm2 by (by apply not_eq_sym).
      apply Permutation_nil in Hm2. by apply app_eq_nil in Hm2 as [_ ?].
Qed.

Lemma buf_objs_app B1 B2 : buf_objs (B1 ++ B2) = buf_objs B1 ++ buf_objs B2.
Proof. unfold buf_objs. by rewrite fmap_app, concat_app. Qed.

Lemma free_buf_spec e s a p B hand O l b (Q : unit -> env * drv W -> Prop) :
  port_st e s a p B (b :: hand) O l ->
  (forall e' B', length B = S (length B') -> port_st e' s a p B' hand O l -> Q tt (e', s)) ->
  wp (free_buf b) Q (e, s).
Proof.
  intros Hp HQ. unfold free_buf. destruct (token_buf _ _ _ _ _ _ _ _ b Hp) as [Hb0 [d Hd]].
  { rewrite (ps_in _ _ _ _ _ _ _ _ Hp). by left. }
  apply wp_bind. apply (buf_at_spec _ _ _ _ _ _ _ _ (b, d) _ Hp Hd). intros pb _ Ed Es. cbn in Ed. rewrite Ed.
  destruct Hp as [He Ho Hpt Hb Hi Hh Hout Hid Ha]. apply list_elem_of_split in Hd as (B1 & B2 & ->).
  assert (Ho1 : owns e ((d, OBuffer) :: (b, OPortBuf) :: port_objs a p ++ buf_objs (B1 ++ B2) ++ objs OBuffer O ++ l)).
  { eapply owns_perm; [|exact Ho]. rewrite !buf_objs_app. cbn. fold (buf_objs B2). perm_solve. }
  apply wp_bind. eapply kfree_spec; [exact He|exact Ho1|]. intros e1 _ He1 Ho2. eapply kfree_spec; [exact He1|exact Ho2|]. intros e2 _ He2 Ho3.
  eapply (HQ _ (B1 ++ B2)); [rewrite !length_app; cbn; lia|]. split; try done.
  - rewrite list.Forall_app in *. destruct Hb as [? [_ ?]%list.Forall_cons]. done.
  - rewrite fmap_app in *. cbn in Hi. rewrite <- Permutation_middle in Hi. by apply Permutation_cons_inv in Hi.
Qed.
(** The port and what is around it after an operation on it. *)
Lemma kept_port a p p' s s' : pt_in_vq p' = pt_in_vq p -> pt_out_vq p' = pt_out_vq p -> kept a p' s s' -> kept a p s s'.
Proof. intros Ei Eo [? ? ? Hq]. split; try done. by rewrite <- Ei, <- Eo. Qed.
Lemma kept_core a p p' s s' : core p' = core p -> kept a p' s s' -> kept a p s s'.
Proof. intros [Ei Eo]%core_queues. by apply kept_port. Qed.

Lemma requeue_spec {A} (k : K (drv W) A) e s a p B O l b (Q : A -> env * drv W -> Prop) :
  port_st e s a p B [b] O l ->
  (forall e' s' B', port_st e' s' a p B' [] O l -> kept a p s s' ->
     (load (dr_w s') (pt_in_vq p) <= load (dr_w s) (pt_in_vq p))%nat -> wp k Q (e', s')) ->
  wp (ret ← add_inbuf (pt_in_vq p) b; (if ret <? 0 then free_buf b else mret tt);; k) Q (e, s).
Proof.
  intros Hp HQ. apply wp_bind. eapply add_inbuf_spec; [exact Hp|]. intros ret e1 s1 Hk Hl _ Hp1. apply wp_bind.
  destruct (ret <? 0); [|by eapply HQ]. eapply free_buf_spec; [exact Hp1|]. intros e2 B2 _ Hp2. by eapply HQ.
Qed.

Lemma discard_spec e s a p B O l (Q : unit -> env * drv W -> Prop) :
  port_st e s a p B (if_set (pt_inbuf p)) O l -> pt_portdev p <> 0 ->
  (forall e' s' p' B', port_st e' s' a p' B' [] O l -> pt_inbuf p' = 0 -> core p' = core p -> kept a p s s' -> Q tt (e', s')) ->
  wp (discard_port_data a) Q (e, s).
Proof.
  intros Hp Hd HQ. unfold discard_port_data. apply wp_bind. eapply drv_port_at_spec; [exact Hp|].
  rewrite (proj2 (Z.eqb_neq _ _)) by done. apply wp_bind. eapply get_inbuf_spec; [exact Hp|].
  intros b0 s0 p0 Hp0 Hc0 Hk0 Hi0 Hb0 _.
  eapply (wp_while _ (fun z b '(e1, s1) => exists p1 B1, port_st e1 s1 a p1 B1 (if_set b) O l /\ core p1 = core p /\ kept a p s s1 /\
    (b = 0 -> pt_inbuf p1 = 0) /\ z = Z.of_nat (load (dr_w s1) (pt_in_vq p) + busy b))).
  2: { exists p0, B. split_and!; try done. rewrite Hi0. intros ->. destruct (decide (pt_inbuf p = 0)) as [?|Hn]; [done|]. by rewrite (Hb0 Hn) at 1. }
  2: { pose proof (load_law (dr_w s0) (pt_in_vq p)). unfold busy, LOOP_BOUND. destruct (b0 =? 0); lia. }
  intros z b [e1 s1] (p1 & B1 & Hp1 & Hc1 & Hk1 & Hb1 & ->). unfold discard_round.
  destruct (Z.eqb_spec b 0) as [E0|E0]; [subst b; eapply HQ; [exact Hp1|by apply Hb1|done|done]|].
  rewrite if_set_nz in Hp1 by done. destruct (token_buf _ _ _ _ _ _ _ _ b Hp1) as [_ [d Hd1]].
  { rewrite (ps_in _ _ _ _ _ _ _ _ Hp1). by left. }
  apply wp_bind. apply (buf_at_spec _ _ _ _ _ _ _ _ (b, d) _ Hp1 Hd1). intros pb _ _ _.
  apply wp_bind. eapply mod_port_spec; [exact Hp1|]. set (p2 := set_pt_discarded _ p1).
  assert (Hp2 : port_st e1 (upd_port a p2 s1) a p2 B1 [b] O l) by (by apply (port_st_upd _ _ _ p1)).
  apply wp_bind. eapply drv_port_at_spec; [exact Hp2|]. eapply requeue_spec; [exact Hp2|]. intros e3 s3 B3 Hp3 Hk3 Hl3.
  apply wp_bind. eapply mod_port_spec; [exact Hp3|]. apply wp_bind.
  eapply get_inbuf_spec; [by apply (port_st_upd _ _ _ p2 (set_pt_inbuf 0 p2))|]. intros b4 s4 p4 Hp4 Hc4 Hk4 Hi4 _ Hl4. ksteps.
  assert (Hin : pt_in_vq p1 = pt_in_vq p) by (by apply (core_queues p p1)).
  exists (Z.of_nat (load (dr_w s4) (pt_in_vq p) + busy b4)). cbn in Hl3, Hl4. rewrite Hin in *. split.
  - cbn in *. unfold busy in *. rewrite (proj2 (Z.eqb_neq b 0)) by done. lia.
  - exists p4, B3. split_and!; try done; [by rewrite Hc4|].
    eapply kept_trans; [exact Hk1|]. eapply kept_trans; [apply kept_upd|].
    eapply kept_trans; [by apply (kept_core a p p2)|]. eapply kept_trans; [apply kept_upd|]. by apply (kept_core a p (set_pt_inbuf 0 p2)).
Qed.

(** ** Output *)

Lemma reclaim_spec e s a p B hand O l (Q : unit -> env * drv W -> Prop) :
  port_st e s a p B hand O l -> pt_portdev p <> 0 ->
  (forall e' s' p', port_st e' s' a p' B hand [] l -> pt_inbuf p' = pt_inbuf p -> core p' = core p -> kept a p s s' -> Q tt (e', s')) ->
  wp (reclaim_consumed_buffers a) Q (e, s).
Proof.
  intros Hp Hd HQ. unfold reclaim_consumed_buffers. apply wp_bind. eapply drv_port_at_spec; [exact Hp|].
  rewrite (proj2 (Z.eqb_neq _ _)) by done.
  eapply (wp_while _ (fun z _ '(e1, s1) => exists p1 O1, port_st e1 s1 a p1 B hand O1 l /\ pt_inbuf p1 = pt_inbuf p /\
    core p1 = core p /\ kept a p s s1 /\ z = Z.of_nat (load (dr_w s1) (pt_out_vq p)))).
  2: { exists p, O. split_and!; try done. }
  2: { pose proof (load_law (dr_w s) (pt_out_vq p)). unfold LOOP_BOUND. lia. }
  intros z [] [e1 s1] (p1 & O1 & Hp1 & Hb1 & Hc1 & Hk1 & ->). unfold reclaim_round.
  apply wp_bind. eapply drv_port_at_spec; [exact Hp1|]. destruct (core_queues p p1 Hc1) as [Ei Eo].
  destruct (Hp1) as [He Ho Hpt Hb Hi Hh Hout Hid Ha]. apply wp_bind, get_spec.
  - intros w' _ Eav Eu Eu' [Eq Eoq]. ksteps.
    assert (Hg : forall q, tokens w' q ≡ₚ tokens (dr_w s1) q) by (intros q; destruct (decide (q = pt_out_vq p1)) as [->|]; [done|by apply Eoq]).
    assert (EO : O1 = []).
    { apply Permutation_nil. by rewrite Hout; unfold tokens; rewrite Hid, Eu. }
    subst O1. eapply (HQ _ _ p1); [|done|done|].
    + split; cbn; try done; [by rewrite Hg|by rewrite Eav|by rewrite Hg|by rewrite Eav].
    + eapply kept_trans; [exact Hk1|]. split; [done..|]. intros q _ _. by rewrite Hg.
  - intros t n w' Eb Eav Eu [Eq Eoq]. rewrite Eq in Hout. assert (Ht : t ∈ O1) by (rewrite Hout; by left).
    apply list_elem_of_split in Ht as (O2 & O3 & ->). rewrite <- Permutation_middle in Hout. apply Permutation_cons_inv in Hout.
    apply wp_bind. eapply (kfree_spec _ _ _ OBuffer (port_objs a p1 ++ buf_objs B ++ objs OBuffer (O2 ++ O3) ++ l)); [exact He| |].
    { eapply owns_perm; [|exact Ho]. unfold objs. rewrite !fmap_app. cbn. perm_solve. }
    intros e2 _ He2 Ho2. assert (Hp2 : port_st e2 (set_dr_w w' s1) a p1 B hand (O2 ++ O3) l).
    { split; cbn; try done; [by rewrite Hi, Eoq|by rewrite Eav|by rewrite Eav]. }
    apply wp_bind. eapply mod_port_spec; [exact Hp2|]. ksteps. eexists. split.
    2: { eexists _, (O2 ++ O3). split_and!; [by apply (port_st_upd _ _ _ p1)|done|done| |reflexivity].
         eapply kept_trans; [exact Hk1|]. apply (kept_core a p p1); [done|].
         eapply kept_trans; [|apply kept_upd]. split; [done..|]. intros q _ Hq. cbn. by rewrite Eoq. }
    cbn. unfold load. rewrite Eb, <- Eo, Eu. cbn. lia.
Qed.
End Port.

(** ** Messages to the host *)

Section Control.
Context {W : Type} `{!GuestKernel W, !CryptoLimits, !VirtqueueLaws W, !PromptHost W}.
Variable frame : Z.
Implicit Types (w : W) (e : env) (s : drv W) (p : port).

(** The queues hold the same, and nothing was left to the host that was not. *)
Definition rests w w' : Prop := forall q, tokens w' q ≡ₚ tokens w q /\
  (Forall has_ins (vq_avail w q) -> Forall has_ins (vq_avail w' q)) /\ (vq_avail w q = [] -> vq_avail w' q = []).

Lemma port_st_rests e e' s w' a p B hand O l :
  port_st e s a p B hand O l -> mem_only e e' -> rests (dr_w s) w' -> port_st e' (set_dr_w w' s) a p B hand O l.
Proof.
  intros [He Ho Hpt Hb Hi Hh Hout Hid Ha] Hm Hr. split; cbn; try done; [by eapply mem_only_ok|by eapply mem_only_owns|..].
  - by rewrite Hi, (proj1 (Hr _)).
  - by apply Hr.
  - by rewrite Hout, (proj1 (Hr _)).
  - by apply Hr.
Qed.
Lemma rests_kept a p s w' : rests (dr_w s) w' -> kept a p s (set_dr_w w' s).
Proof. intros Hr. split; [done..|]. intros q _ _. apply Hr. Qed.

Lemma mem_only_trans e1 e2 e3 : mem_only e1 e2 -> mem_only e2 e3 -> mem_only e1 e3.
Proof. intros [E1 P1] [E2 P2]. split; [rewrite E2, E1; done|congruence]. Qed.
Lemma mem_only_pokes e l bs : mem_only e (set_mem (pokes l bs) e).
Proof. split; [done|]. cbn. by rewrite pokes_pages. Qed.

Lemma control_msg_spec e s pd d R id event value (Q : Z -> env * drv W -> Prop) :
  env_ok e -> owns e R -> (pd, OPortdev) ∈ R -> dr_devs s !! pd = Some d -> use_multiport d = true ->
  tokens (dr_w s) (pd_c_ovq d) = [] ->
  (forall e' w', mem_only e e' -> rests (dr_w s) w' -> Q 0 (e', set_dr_w w' s)) ->
  wp (__send_control_msg frame pd id event value) Q (e, s).
Proof.
  intros He Ho Hin Hd Hmp Ht HQ. unfold __send_control_msg. apply wp_bind. eapply object_spec; [done|exact Ho|exact Hin|done|].
  rewrite Hmp. cbn [negb]. apply wp_bind. ksteps. set (e1 := set_mem _ e).
  assert (Hm1 : mem_only e e1) by apply mem_only_pokes. set (q0 := pd_c_ovq d) in *.
  pose proof Ht as [Hav0 Hu0]%app_eq_nil. apply fmap_nil_inv in Hav0, Hu0.
  apply wp_bind, add_spec. intros r w1 Eb Eu Eav Hr. apply wp_bind. destruct Hr as [(Hr & [Hg Hgo] & Hav & _)|(Hr & [Hg Hgo] & Hav & _)].
  - rewrite (proj2 (Z.leb_gt _ _)) by done. ksteps. apply HQ; [done|]. intros q.
    assert (E : vq_avail w1 q = vq_avail (dr_w s) q) by (destruct (decide (q = q0)) as [->|]; auto).
    rewrite E. split; [|done]. destruct (decide (q = q0)) as [->|]; auto.
  - rewrite (proj2 (Z.leb_le _ _)) by done. apply wp_bind, kick_spec. cbn [dr_w set_dr_w].
    intros e2 w2 Ek Hm2 [Hk Hko] Hmv Hld.
    assert (Hav2 : vq_avail w2 q0 = []).
    { destruct (Hmv q0) as [_ [moved Hm]]. rewrite Hav, Hav0 in Hm. cbn in Hm. pose proof (kick_consumes _ _ _ _ _ Ek) as Hc.
      destruct (vq_avail w2 q0) as [|b rest]; [done|]. apply list.Forall_cons in Hc as [Hb _].
      assert (Hb' : b ∈ [VBuf frame [(frame, sizeof_cpkt)] []]) by (rewrite Hm; apply elem_of_app; right; by left).
      apply list_elem_of_singleton in Hb'. by subst b. }
    unfold spin. eapply (wp_while _ (fun z _ st => z = 0 /\ st = (e2, set_dr_w w2 (set_dr_w w1 s)))); [|done|done].
    intros z [] st [-> ->]. apply wp_bind, get_spec; cbn [dr_w set_dr_w].
    + intros w3 _ _ Eu2 _ _. exfalso. rewrite Hg, Ht in Hk. unfold tokens in Hk. rewrite Hav2, Eu2 in Hk.
      by apply Permutation_nil_cons in Hk.
    + intros t n w3 _ Eav3 Eu3 [Eq3 Eo3]. ksteps. apply (HQ e2 w3); [by eapply mem_only_trans|]. intros q.
      destruct (decide (q = q0)) as [->|Hq].
      * rewrite Eav3, Hav2, Hav0. split; [|done]. rewrite Hk, Hg, Ht in Eq3. rewrite Ht.
        apply Permutation_length in Eq3. destruct (tokens w3 q0) eqn:E3; [done|cbn in Eq3; lia].
      * rewrite Eav3. split; [by rewrite <- Eo3, Hko, Hgo|]. split; [intros Hf; apply Hld; by rewrite Eav|].
        intros Hn. destruct (Hmv q) as [_ [moved Hm]]. rewrite Eav, Hn in Hm by done.
        apply Permutation_nil in Hm. by apply app_eq_nil in Hm as [_ ?].
Qed.
End Control.

(** ** The life of a port *)

Section Life.
Context {W : Type} `{!GuestKernel W, !CryptoLimits, !VirtqueueLaws W, !PromptHost W, !ServiceLaws W}.
Variables (frame pd : Z).
Implicit Types (w : W) (e : env) (s : drv W) (p : port) (d : ports_device).

(** A port before it in the list, which is not taken for it. *)
Definition other s p (l : list (Z * kobj)) (b : Z) : Prop :=
  exists p', dr_ports s !! b = Some p' /\ (b, OPort) ∈ l /\ pt_devt p' <> pt_devt p /\
    pt_in_vq p' <> pt_in_vq p /\ pt_out_vq p' <> pt_in_vq p /\ pt_id p' <> pt_id p.

(** The port is plugged in, and [opened] or not. *)
Record plugged e s d (a : Z) p (B : list (Z * Z)) (O : list Z) (l : list (Z * kobj)) (opened : bool) : Prop := {
  pl_st : port_st e s a p B (if_set (pt_inbuf p)) O (file_objs p ++ l);
  pl_dev : dr_devs s !! pd = Some d /\ (pd, OPortdev) ∈ l;
  pl_multiport : use_multiport d = true;
  pl_control : tokens (dr_w s) (pd_c_ovq d) = [];
  pl_apart : pd_c_ovq d <> pt_in_vq p /\ pd_c_ovq d <> pt_out_vq p;
  pl_portdev : pt_portdev p = pd;
  pl_hvc : pt_hvc p = 0;
  pl_kref : pt_kref p = if opened then 2 else 1;
  pl_guest : pt_guest_connected p = opened;
  pl_devs : dd_portdevs (dr_data s) = [pd];
  pl_list : exists before after, pd_ports d = before ++ a :: after /\ Forall (other s p l) before /\ a ∉ after
}.

Lemma pd_nonnull e s d a p B O l opened : plugged e s d a p B O l opened -> pd <> 0.
Proof.
  intros [[He Ho _ _ _ _ _ _ _] [_ Hin] _ _ _ _ _ _ _ _ _]. eapply owns_nonnull; [exact He|exact Ho|].
  do 4 (apply elem_of_app; right). exact Hin.
Qed.
Lemma owns_ne e a k m b k' : owns e ((a, k) :: m) -> (b, k') ∈ m -> b <> a.
Proof.
  intros [Hn _] Hb ->. cbn in Hn. apply list.NoDup_cons in Hn as [Hn _]. apply Hn. by apply list_elem_of_fmap_2 with (f := fst) in Hb.
Qed.
Lemma live_ne e a p B O l b : owns e (port_objs a p ++ buf_objs B ++ objs OBuffer O ++ file_objs p ++ l) -> (b, OPort) ∈ l -> b <> a.
Proof. intros Ho Hb. eapply owns_ne; [exact Ho|]. do 4 (apply elem_of_app; right). done. Qed.

(** What stays of a port over its life. *)
Definition same_port p p' : Prop :=
  pt_devt p' = pt_devt p /\ pt_in_vq p' = pt_in_vq p /\ pt_out_vq p' = pt_out_vq p /\ pt_id p' = pt_id p.

Lemma core_same p p' : core p' = core p -> same_port p p'.
Proof. intros E. split_and!; [by apply (f_equal pt_devt) in E|by apply (f_equal pt_in_vq) in E|by apply (f_equal pt_out_vq) in E|by apply (f_equal pt_id) in E]. Qed.
Lemma same_port_trans p1 p2 p3 : same_port p1 p2 -> same_port p2 p3 -> same_port p1 p3.
Proof. intros (? & ? & ? & ?) (? & ? & ? & ?). split_and!; congruence. Qed.

(** An operation on the port that ends as [port_st] describes it. *)
Lemma plugged_from e s d a p B O l opened e' s' p' B' O' (opened' : bool) :
  plugged e s d a p B O l opened -> port_st e' s' a p' B' (if_set (pt_inbuf p')) O' (file_objs p ++ l) -> same_port p p' ->
  pt_debugfs_file p' = pt_debugfs_file p -> pt_portdev p' = pt_portdev p -> pt_hvc p' = pt_hvc p -> pt_kref p' = (if opened' then 2 else 1) ->
  pt_guest_connected p' = opened' -> kept a p s s' -> plugged e' s' d a p' B' O' l opened'.
Proof.
  intros [Hst Hd Hm Hc [Ha1 Ha2] Hpd Hh Hk Hg Hds (before & after & Hl & Hb & Hna)] Hst' (Edt & Ei & Eo & Eid) Ef Ep Eh Ek Eg [K1 K2 K3 K4].
  split; try done; [unfold file_objs; by rewrite Ef|by rewrite K1| |by rewrite Ei, Eo|by rewrite Ep|by rewrite Eh|by rewrite K2|].
  - apply Permutation_nil. by rewrite K4, Hc.
  - exists before, after. split_and!; try done. eapply list.Forall_impl; [exact Hb|]. intros b (q & Eq & Hin & Hne & Hq).
    exists q. rewrite Edt, Ei, Eid. split_and!; try done; [|by apply Hq..]. rewrite K3; [done|].
    eapply live_ne; [apply (ps_owns _ _ _ _ _ _ _ _ Hst)|exact Hin].
Qed.
Lemma plugged_kept e s d a p B O l opened e' s' p' B' O' :
  plugged e s d a p B O l opened -> port_st e' s' a p' B' (if_set (pt_inbuf p')) O' (file_objs p ++ l) -> core p' = core p ->
  kept a p s s' -> plugged e' s' d a p' B' O' l opened.
Proof.
  intros Hpl Hst E Hk. eapply plugged_from; [exact Hpl|exact Hst|by apply core_same|..|exact Hk].
  - by apply (f_equal pt_debugfs_file) in E.
  - by apply (f_equal pt_portdev) in E.
  - by apply (f_equal pt_hvc) in E.
  - rewrite <- (pl_kref _ _ _ _ _ _ _ _ _ Hpl). by apply (f_equal pt_kref) in E.
  - rewrite <- (pl_guest _ _ _ _ _ _ _ _ _ Hpl). by apply (f_equal pt_guest_connected) in E.
Qed.

(** Messages change nothing. *)
Lemma send_msg_spec event value e s d a p B O l opened (Q : Z -> env * drv W -> Prop) :
  plugged e s d a p B O l opened ->
  (forall e' s', plugged e' s' d a p B O l opened -> dr_ports s' = dr_ports s -> Q 0 (e', s')) ->
  wp (send_control_msg frame a event value) Q (e, s).
Proof.
  intros Hpl HQ. pose proof (pd_nonnull _ _ _ _ _ _ _ _ _ Hpl) as Hz. destruct (Hpl) as [Hst [Hd Hin] Hm Hc _ Hpd _ _ _ _ _].
  unfold send_control_msg. apply wp_bind. eapply drv_port_at_spec; [exact Hst|]. rewrite Hpd, (proj2 (Z.eqb_neq _ _)) by done. cbn [negb].
  eapply control_msg_spec; [by destruct Hst|by destruct Hst|do 4 (apply elem_of_app; right); exact Hin|exact Hd|done|done|].
  intros e' w' Hmo Hr. apply HQ; [|done]. eapply plugged_kept; [exact Hpl|by apply port_st_rests with e|done|by apply rests_kept].
Qed.

(** ** Finding the port *)

Lemma first_port_spec f e s d a p B O l opened before after (Q : Z -> env * drv W -> Prop) :
  plugged e s d a p B O l opened -> f p = true ->
  Forall (fun b => exists p', dr_ports s !! b = Some p' /\ (b, OPort) ∈ l /\ f p' = false) before ->
  Q a (e, s) -> wp (first_port f (before ++ a :: after)) Q (e, s).
Proof.
  intros Hpl Hf Hb HQ. destruct (pl_st _ _ _ _ _ _ _ _ _ Hpl) as [He Ho Hp _ _ _ _ _ _].
  induction Hb as [|b before (p' & Hp' & Hin & Hf') _ IH]; cbn [app first_port]; apply wp_bind.
  - eapply object_spec; [done|exact Ho|left|done|]. by rewrite Hf.
  - eapply object_spec; [done|exact Ho|do 4 (apply elem_of_app; right); exact Hin|done|]. by rewrite Hf'.
Qed.

Lemma dev_at_spec e s d a p B O l opened (Q : ports_device -> env * drv W -> Prop) :
  plugged e s d a p B O l opened -> Q d (e, s) -> wp (dev_at pd) Q (e, s).
Proof.
  intros [[He Ho _ _ _ _ _ _ _] [Hd Hin] _ _ _ _ _ _ _ _ _] HQ.
  eapply object_spec; [done|exact Ho|do 4 (apply elem_of_app; right); exact Hin|done|done].
Qed.

Lemma find_devt_spec e s d a p B O l opened (Q : Z -> env * drv W -> Prop) :
  plugged e s d a p B O l opened -> Q a (e, s) -> wp (find_port_by_devt (pt_devt p)) Q (e, s).
Proof.
  intros Hpl HQ. destruct (pl_list _ _ _ _ _ _ _ _ _ Hpl) as (before & after & Hl & Hb & _).
  unfold find_port_by_devt. ksteps. rewrite (pl_devs _ _ _ _ _ _ _ _ _ Hpl). cbn [devt_in]. apply wp_bind.
  unfold find_port_by_devt_in_portdev. apply wp_bind. eapply dev_at_spec; [exact Hpl|]. rewrite Hl.
  eapply first_port_spec; [exact Hpl|apply Z.eqb_refl| |].
  - eapply list.Forall_impl; [exact Hb|]. intros b (q & Eq & Hin & Hne & _). exists q. split_and!; try done. by apply Z.eqb_neq.
  - destruct (pl_st _ _ _ _ _ _ _ _ _ Hpl) as [He Ho _ _ _ _ _ _ _].
    rewrite (proj2 (Z.eqb_neq a 0)) by (eapply owns_nonnull; [exact He|exact Ho|left]). done.
Qed.

Lemma find_vq_spec e s d a p B O l opened (Q : Z -> env * drv W -> Prop) :
  plugged e s d a p B O l opened -> Q a (e, s) -> wp (find_port_by_vq pd (pt_in_vq p)) Q (e, s).
Proof.
  intros Hpl HQ. destruct (pl_list _ _ _ _ _ _ _ _ _ Hpl) as (before & after & Hl & Hb & _).
  unfold find_port_by_vq. apply wp_bind. eapply dev_at_spec; [exact Hpl|]. rewrite Hl.
  eapply first_port_spec; [exact Hpl|by rewrite Nat.eqb_refl| |done].
  eapply list.Forall_impl; [exact Hb|]. intros b (q & Eq & Hin & _ & Hi & Ho & _). exists q. split_and!; try done.
  by rewrite (proj2 (Nat.eqb_neq _ _) Hi), (proj2 (Nat.eqb_neq _ _) Ho).
Qed.

(** ** The operations *)

Lemma plugged_switch e s d a p B O l opened (opened' : bool) :
  plugged e s d a p B O l opened ->
  let p' := set_pt_guest_connected opened' (set_pt_kref (if opened' then 2 else 1) p) in
  plugged e (upd_port a p' s) d a p' B O l opened'.
Proof.
  intros Hpl p'. eapply plugged_from; [exact Hpl| |done..|apply kept_upd].
  apply (port_st_flags _ _ _ p); [apply (pl_st _ _ _ _ _ _ _ _ _ Hpl)|done..].
Qed.

Lemma upd_port_twice a p p' s : upd_port a p (upd_port a p' s) = upd_port a p s.
Proof. unfold upd_port. cbn. by rewrite insert_insert_eq. Qed.

Lemma port_open_spec e s d a p B O l opened (Q : Z * Z -> env * drv W -> Prop) :
  plugged e s d a p B O l opened ->
  (forall e' s' p' O', plugged e' s' d a p' B O' l true -> same_port p p' ->
     Q (if opened then - EMFILE else 0, a) (e', s')) ->
  wp (port_fops_open frame (pt_devt p)) Q (e, s).
Proof.
  intros Hpl HQ. unfold port_fops_open. apply wp_bind. eapply find_devt_spec; [exact Hpl|].
  pose proof (pl_st _ _ _ _ _ _ _ _ _ Hpl) as Hst. apply wp_bind. eapply drv_port_at_spec; [exact Hst|].
  rewrite (pl_portdev _ _ _ _ _ _ _ _ _ Hpl). apply wp_bind. eapply dev_at_spec; [exact Hpl|].
  apply wp_bind. eapply mod_port_spec; [exact Hst|]. unfold is_console_port. rewrite (pl_hvc _ _ _ _ _ _ _ _ _ Hpl), (pl_kref _ _ _ _ _ _ _ _ _ Hpl).
  change (negb (0 =? 0)) with false. cbv iota. set (p1 := set_pt_kref _ p).
  assert (Hst1 : port_st e (upd_port a p1 s) a p1 B (if_set (pt_inbuf p)) O (file_objs p ++ l)) by (by apply (port_st_flags _ _ _ p)).
  rewrite (pl_guest _ _ _ _ _ _ _ _ _ Hpl). destruct opened.
  - apply wp_bind. unfold put_port. apply wp_bind. eapply mod_port_spec; [exact Hst1|]. rewrite upd_port_twice.
    set (p2 := set_pt_guest_connected true (set_pt_kref 2 p)).
    assert (E2 : set_pt_kref (pt_kref p1 - 1) p1 = p2).
    { pose proof (pl_guest _ _ _ _ _ _ _ _ _ Hpl) as Hg. unfold p2, p1. destruct p. cbn in *. by subst. }
    rewrite E2. assert (Hpl2 : plugged e (upd_port a p2 s) d a p2 B O l true) by (by eapply plugged_switch).
    apply wp_bind. eapply drv_port_at_spec; [apply (pl_st _ _ _ _ _ _ _ _ _ Hpl2)|]. change (pt_kref p2 =? 0) with false. cbv iota. ksteps. by eapply HQ.
  - apply wp_bind. eapply mod_port_spec; [exact Hst1|]. rewrite upd_port_twice. set (p2 := set_pt_guest_connected true p1).
    assert (Hpl2 : plugged e (upd_port a p2 s) d a p2 B O l true) by (by eapply plugged_switch).
    apply wp_bind. eapply reclaim_spec; [apply (pl_st _ _ _ _ _ _ _ _ _ Hpl2)|cbn; rewrite (pl_portdev _ _ _ _ _ _ _ _ _ Hpl); by eapply pd_nonnull|].
    intros e3 s3 p3 Hst3 Hi3 Hc3 Hk3. assert (Hpl3 : plugged e3 s3 d a p3 B [] l true).
    { eapply plugged_kept; [exact Hpl2|by rewrite Hi3|done|done]. }
    apply wp_bind. eapply send_msg_spec; [exact Hpl3|]. intros e4 s4 Hpl4 _. ksteps.
    eapply HQ; [exact Hpl4|]. by apply (core_same p2).
Qed.

Lemma intr_spec e s d a p B O l opened (Q : unit -> env * drv W -> Prop) :
  plugged e s d a p B O l opened ->
  (forall e' s' p' B', plugged e' s' d a p' B' O l opened -> same_port p p' -> Q tt (e', s')) ->
  wp (in_intr pd (pt_in_vq p)) Q (e, s).
Proof.
  intros Hpl HQ. pose proof (pd_nonnull _ _ _ _ _ _ _ _ _ Hpl) as Hz. unfold in_intr. apply wp_bind. eapply find_vq_spec; [exact Hpl|].
  pose proof (pl_st _ _ _ _ _ _ _ _ _ Hpl) as Hst. destruct (Hst) as [He Ho _ _ _ _ _ _ _].
  rewrite (proj2 (Z.eqb_neq a 0)) by (eapply owns_nonnull; [exact He|exact Ho|left]).
  apply wp_bind. eapply get_inbuf_spec; [exact Hst|]. intros b s1 p1 Hst1 Hc1 Hk1 _ _ _.
  apply wp_bind. eapply mod_port_spec; [exact Hst1|]. set (p2 := set_pt_inbuf b p1).
  assert (Hst2 : port_st e (upd_port a p2 s1) a p2 B (if_set (pt_inbuf p2)) O (file_objs p ++ l)) by (by apply (port_st_upd _ _ _ p1)).
  assert (Hk2 : kept a p s (upd_port a p2 s1)) by (eapply kept_trans; [exact Hk1|apply kept_upd]).
  assert (Hcon : is_console_port p2 = false).
  { unfold is_console_port. apply (f_equal pt_hvc) in Hc1. cbn in *. by rewrite Hc1, (pl_hvc _ _ _ _ _ _ _ _ _ Hpl). }
  apply wp_bind. eapply drv_port_at_spec; [exact Hst2|]. rewrite Hcon. apply wp_bind. destruct (pt_guest_connected p2); cbn [negb].
  - ksteps. eapply HQ; [by eapply plugged_kept|by apply core_same].
  - eapply discard_spec; [exact Hst2| |].
    { apply (f_equal pt_portdev) in Hc1. cbn in *. rewrite Hc1. by rewrite (pl_portdev _ _ _ _ _ _ _ _ _ Hpl). }
    intros e3 s3 p3 B3 Hst3 Hi3 Hc3 Hk3. assert (Hcc : core p3 = core p) by (rewrite Hc3; exact Hc1). ksteps.
    eapply HQ; [eapply plugged_kept; [exact Hpl|by rewrite Hi3|done|]|by apply core_same].
    eapply kept_trans; [exact Hk2|]. by apply (kept_core a p p2).
Qed.

Lemma kfree_set_spec k x e s l (Q : unit -> env * drv W -> Prop) :
  env_ok e -> owns e (objs k (if_set x) ++ l) -> (forall e', env_ok e' -> owns e' l -> Q tt (e', s)) -> wp (kfree x) Q (e, s).
Proof.
  intros He Ho HQ. unfold if_set in Ho. destruct (Z.eqb_spec x 0) as [->|Hx]; [by apply kfree_null, HQ|].
  eapply kfree_spec; [exact He|exact Ho|]. intros e' _ He' Ho'. by apply HQ.
Qed.

Lemma remove_port_spec e s a p l (Q : unit -> env * drv W -> Prop) :
  env_ok e -> owns e (port_objs a p ++ file_objs p ++ l) -> dr_ports s !! a = Some p ->
  (forall e', env_ok e' -> owns e' l -> Q tt (e', s)) -> wp (remove_port a) Q (e, s).
Proof.
  intros He Ho Hp HQ. unfold remove_port. apply wp_bind. eapply object_spec; [exact He|exact Ho|left|exact Hp|].
  assert (Ho1 : owns e (objs ODevice (if_set (pt_dev p)) ++ objs OCdev (if_set (pt_cdev p)) ++ objs OBuffer (if_set (pt_name p)) ++
    objs ODentry (if_set (pt_debugfs_file p)) ++ (a, OPort) :: l)).
  { eapply owns_perm; [|exact Ho]. unfold port_objs, file_objs. rewrite <- !app_comm_cons. perm_solve. }
  apply wp_bind. eapply kfree_set_spec; [exact He|exact Ho1|]. intros e2 He2 Ho2.
  apply wp_bind. eapply kfree_set_spec; [exact He2|exact Ho2|]. intros e3 He3 Ho3.
  apply wp_bind. eapply kfree_set_spec; [exact He3|exact Ho3|]. intros e4 He4 Ho4.
  apply wp_bind. eapply kfree_set_spec; [exact He4|exact Ho4|]. intros e5 He5 Ho5.
  eapply kfree_spec; [exact He5|exact Ho5|]. intros e6 _ He6 Ho6. by apply HQ.
Qed.

(** The port was unplugged while it was open. *)
Record unplugged e s (a : Z) p (l : list (Z * kobj)) : Prop := {
  un_env : env_ok e;
  un_owns : owns e (port_objs a p ++ file_objs p ++ l);
  un_port : dr_ports s !! a = Some p;
  un_portdev : pt_portdev p = 0;
  un_kref : pt_kref p = 1;
  un_guest : pt_guest_connected p = false
}.

(** Nothing is left of the port. *)
Record gone e s (a : Z) p (l : list (Z * kobj)) : Prop := {
  gn_env : env_ok e;
  gn_owns : owns e l;
  gn_queues : tokens (dr_w s) (pt_in_vq p) = [] /\ tokens (dr_w s) (pt_out_vq p) = []
}.

Lemma un_at_spec e s a p l (Q : port -> env * drv W -> Prop) : unplugged e s a p l -> Q p (e, s) -> wp (port_at a) Q (e, s).
Proof. intros [He Ho Hp _ _ _] HQ. eapply object_spec; [exact He|exact Ho|left|exact Hp|done]. Qed.

Lemma put_last_spec e s a p l (Q : unit -> env * drv W -> Prop) :
  env_ok e -> owns e (port_objs a p ++ file_objs p ++ l) -> dr_ports s !! a = Some p -> pt_kref p = 1 ->
  (forall e' s', env_ok e' -> owns e' l -> dr_w s' = dr_w s -> Q tt (e', s')) -> wp (put_port a) Q (e, s).
Proof.
  intros He Ho Hp Hk HQ. unfold put_port, mod_port. apply wp_bind, wp_bind. eapply object_spec; [exact He|exact Ho|left|exact Hp|].
  ksteps. rewrite Hk. change (1 - 1) with 0. set (p1 := set_pt_kref 0 p). fold (upd_port a p1 s).
  assert (Hp1 : dr_ports (upd_port a p1 s) !! a = Some p1) by (cbn; by rewrite lookup_insert_eq).
  eapply object_spec; [exact He|exact Ho|left|exact Hp1|]. change (pt_kref p1 =? 0) with true. cbv iota.
  eapply (remove_port_spec _ _ _ p1); [exact He|exact Ho|exact Hp1|]. intros e' He' Ho'. by apply HQ.
Qed.

Lemma release_unplugged e s a p l (Q : Z -> env * drv W -> Prop) :
  unplugged e s a p l -> (forall e' s', env_ok e' -> owns e' l -> dr_w s' = dr_w s -> Q 0 (e', s')) ->
  wp (port_fops_release frame a) Q (e, s).
Proof.
  intros Hu HQ. unfold port_fops_release. apply wp_bind. unfold send_control_msg. apply wp_bind. eapply un_at_spec; [exact Hu|].
  rewrite (un_portdev _ _ _ _ _ Hu). cbn [Z.eqb negb]. ksteps. unfold mod_port. apply wp_bind. eapply un_at_spec; [exact Hu|]. ksteps.
  set (p1 := set_pt_guest_connected false p). fold (upd_port a p1 s).
  assert (Hu1 : unplugged e (upd_port a p1 s) a p1 l) by (destruct Hu; split; try done; cbn; by rewrite lookup_insert_eq).
  unfold discard_port_data. apply wp_bind. eapply un_at_spec; [exact Hu1|]. rewrite (un_portdev _ _ _ _ _ Hu1). cbn [Z.eqb]. ksteps.
  unfold reclaim_consumed_buffers. apply wp_bind. eapply un_at_spec; [exact Hu1|]. rewrite (un_portdev _ _ _ _ _ Hu1). cbn [Z.eqb]. ksteps.
  destruct Hu1 as [He Ho Hp _ Hk _]. eapply put_last_spec; [exact He|exact Ho|exact Hp|exact Hk|]. intros e' s' He' Ho' Ew. ksteps. by apply HQ.
Qed.

Lemma port_release_spec e s d a p B O l (Q : Z -> env * drv W -> Prop) :
  plugged e s d a p B O l true ->
  (forall e' s' p' B', plugged e' s' d a p' B' [] l false -> same_port p p' -> Q 0 (e', s')) ->
  wp (port_fops_release frame a) Q (e, s).
Proof.
  intros Hpl HQ. pose proof (pd_nonnull _ _ _ _ _ _ _ _ _ Hpl) as Hz. unfold port_fops_release. apply wp_bind. eapply send_msg_spec; [exact Hpl|].
  intros e1 s1 Hpl1 _. pose proof (pl_st _ _ _ _ _ _ _ _ _ Hpl1) as Hst1. pose proof (pl_portdev _ _ _ _ _ _ _ _ _ Hpl1) as Hpd.
  apply wp_bind. eapply mod_port_spec; [exact Hst1|]. set (p2 := set_pt_guest_connected false p).
  apply wp_bind. eapply (discard_spec _ _ _ p2); [by apply (port_st_flags _ _ _ p)|by rewrite <- Hpd in Hz|].
  intros e3 s3 p3 B3 Hst3 Hi3 Hc3 Hk3.
  apply wp_bind. eapply reclaim_spec; [exact Hst3|apply (f_equal pt_portdev) in Hc3; cbn in Hc3; by rewrite Hc3, Hpd|].
  intros e4 s4 p4 Hst4 Hi4 Hc4 Hk4. assert (Hc : core p4 = core p2) by (by rewrite Hc4, Hc3).
  assert (Ek : pt_kref p4 = 2) by (apply (f_equal pt_kref) in Hc; cbn in Hc; by rewrite Hc, (pl_kref _ _ _ _ _ _ _ _ _ Hpl1)).
  unfold put_port. apply wp_bind, wp_bind. eapply mod_port_spec; [exact Hst4|]. rewrite Ek. change (2 - 1) with 1. set (p5 := set_pt_kref 1 p4).
  assert (Hst5 : port_st e4 (upd_port a p5 s4) a p5 B3 (if_set (pt_inbuf p5)) [] (file_objs p ++ l)).
  { apply (port_st_flags _ _ _ p4); [|done..]. cbn. by rewrite Hi4, Hi3. }
  apply wp_bind. eapply drv_port_at_spec; [exact Hst5|]. ksteps.
  assert (Hsame : same_port p p5) by exact (core_same p2 p4 Hc).
  eapply HQ; [|exact Hsame]. eapply plugged_from; [exact Hpl1|exact Hst5|exact Hsame|..].
  - by apply (f_equal pt_debugfs_file) in Hc.
  - by apply (f_equal pt_portdev) in Hc.
  - by apply (f_equal pt_hvc) in Hc.
  - done.
  - by apply (f_equal pt_guest_connected) in Hc.
  - apply (kept_port a p p2); [done..|]. eapply kept_trans; [apply kept_upd|]. eapply kept_trans; [exact Hk3|].
    eapply kept_trans; [apply (kept_core a p2 p3 _ _ Hc3 Hk4)|]. apply kept_upd.
Qed.

Lemma detach_bufs_spec e s a p B l (Q : unit -> env * drv W -> Prop) :
  port_st e s a p B [] [] l -> Z.of_nat (length B) < 2 ^ 64 ->
  (forall e' s', port_st e' s' a p [] [] [] l -> kept a p s s' -> Q tt (e', s')) ->
  wp (detach_bufs (pt_in_vq p)) Q (e, s).
Proof.
  intros Hp Hlen HQ. unfold detach_bufs.
  eapply (wp_while _ (fun z _ '(e1, s1) => exists B1, port_st e1 s1 a p B1 [] [] l /\ kept a p s s1 /\ z = Z.of_nat (length B1))).
  2: { exists B. split_and!; [done|apply drv_kept_refl|reflexivity]. }
  2: { unfold LOOP_BOUND. lia. }
  intros z [] [e1 s1] (B1 & Hp1 & Hk & ->). destruct (Hp1) as [He Ho Hpt Hb Hi Hh Hout Hid Ha]. apply wp_bind, detach_spec.
  intros r w' Hav Hr.
  assert (Hins : Forall has_ins (vq_avail w' (pt_in_vq p))).
  { apply list.Forall_forall. intros b Hb'. rewrite list.Forall_forall in Hh. by apply Hh, Hav. }
  assert (Hidle : vq_avail w' (pt_out_vq p) = []).
  { apply elem_of_nil_inv. intros b Hb'%Hav. rewrite Hid in Hb'. by apply elem_of_nil in Hb'. }
  destruct r as [t|].
  - destruct Hr as [Hq Hqo]. apply wp_bind. eapply (free_buf_spec e1 (set_dr_w w' s1) a p B1 [] [] l t).
    { split; cbn; try done; [by rewrite Hi, Hq|by rewrite <- Hqo by (by apply not_eq_sym)]. }
    intros e2 B2 Hlt Hp2. ksteps. eexists. split; [|exists B2; split_and!; [exact Hp2| |reflexivity]]; [lia|].
    eapply kept_trans; [exact Hk|]. split; [done..|]. intros q Hq1 _. cbn. by rewrite <- Hqo.
  - destruct Hr as [H0 [Hq Hqo]]. rewrite H0 in Hi, Hq. apply Permutation_sym, Permutation_nil, fmap_nil_inv in Hi. subst B1.
    ksteps. apply HQ.
    + split; cbn; try done; by rewrite ?Hq, ?Hqo by (by apply not_eq_sym).
    + eapply kept_trans; [exact Hk|]. split; [done..|]. intros q Hq1 _. cbn. by rewrite Hqo.
Qed.

Lemma bufs_bound e s a p B hand O l : port_st e s a p B hand O l -> (length hand <= 1)%nat -> Z.of_nat (length B) < 2 ^ 64.
Proof.
  intros Hp Hh. pose proof (Permutation_length (ps_in _ _ _ _ _ _ _ _ Hp)) as E. rewrite length_fmap, length_app in E.
  pose proof (size_law (dr_w s) (pt_in_vq p)). lia.
Qed.

(** The last steps of [unplug_port]. *)
Lemma unplug_end_spec e s a p l (Q : unit -> env * drv W -> Prop) :
  port_st e s a p [] [] [] (file_objs p ++ l) -> pt_guest_connected p = false ->
  (forall e' s', dr_w s' = dr_w s -> pt_kref p = 1 -> gone e' s' a p l -> Q tt (e', s')) ->
  (forall e' s' p', pt_kref p = 2 -> same_port p p' -> unplugged e' s' a p' l -> dr_w s' = dr_w s -> Q tt (e', s')) ->
  pt_kref p = 1 \/ pt_kref p = 2 -> wp (mod_port a (set_pt_portdev 0);; put_port a) Q (e, s).
Proof.
  intros Hp Hg HG HU Hk. apply wp_bind. eapply mod_port_spec; [exact Hp|]. set (p1 := set_pt_portdev 0 p).
  assert (Hp1 : port_st e (upd_port a p1 s) a p1 [] [] [] (file_objs p ++ l)) by (by apply (port_st_flags _ _ _ p)).
  destruct (Hp1) as [He Ho Hpt _ Hi _ Hout _ _]. cbn [buf_objs fmap list_fmap concat objs app] in Ho.
  destruct Hk as [Hk|Hk].
  - eapply put_last_spec; [exact He|exact Ho|exact Hpt|exact Hk|]. intros e' s' He' Ho' Ew. apply HG; [done|done|].
    split; [done..|]. rewrite Ew. split; apply Permutation_nil; [exact Hi|exact Hout].
  - unfold put_port. apply wp_bind. eapply mod_port_spec; [exact Hp1|]. rewrite upd_port_twice. change (pt_kref p1) with (pt_kref p).
    rewrite Hk. change (2 - 1) with 1. set (p2 := set_pt_kref 1 p1).
    assert (Hp2 : port_st e (upd_port a p2 s) a p2 [] [] [] (file_objs p ++ l)) by (by apply (port_st_flags _ _ _ p)).
    apply wp_bind. eapply drv_port_at_spec; [exact Hp2|]. ksteps. apply (HU _ _ p2); [done|done| |done].
    destruct Hp2 as [? Ho2 ? _ _ _ _ _ _]. by split.
Qed.

Lemma unplug_spec e s d a p B O l opened (Q : unit -> env * drv W -> Prop) :
  plugged e s d a p B O l opened ->
  (forall e' s', opened = false -> gone e' s' a p l -> Q tt (e', s')) ->
  (forall e' s' p', opened = true -> unplugged e' s' a p' l -> same_port p p' ->
     tokens (dr_w s') (pt_in_vq p) = [] -> tokens (dr_w s') (pt_out_vq p) = [] -> Q tt (e', s')) ->
  wp (unplug_port a) Q (e, s).
Proof.
  intros Hpl HG HU. pose proof (pd_nonnull _ _ _ _ _ _ _ _ _ Hpl) as Hz. unfold unplug_port.
  pose proof (pl_st _ _ _ _ _ _ _ _ _ Hpl) as Hst. apply wp_bind. eapply drv_port_at_spec; [exact Hst|].
  rewrite (pl_portdev _ _ _ _ _ _ _ _ _ Hpl). unfold mod_dev. apply wp_bind, wp_bind. eapply dev_at_spec; [exact Hpl|]. ksteps.
  set (s1 := set_dr_devs _ s).
  assert (Hst1 : port_st e s1 a p B (if_set (pt_inbuf p)) O (file_objs p ++ l)) by (by destruct Hst).
  rewrite (pl_guest _ _ _ _ _ _ _ _ _ Hpl). unfold is_console_port. rewrite (pl_hvc _ _ _ _ _ _ _ _ _ Hpl). change (negb (0 =? 0)) with false. cbv iota.
  assert (Hflags : wp (if opened then mod_port a (fun p => set_pt_host_connected false (set_pt_guest_connected false p)) else mret tt)
    (fun _ '(e2, s2) => exists p2, port_st e2 s2 a p2 B (if_set (pt_inbuf p2)) O (file_objs p ++ l) /\ pt_guest_connected p2 = false /\
       same_port p p2 /\ pt_debugfs_file p2 = pt_debugfs_file p /\ pt_kref p2 = pt_kref p /\ pt_portdev p2 = pd) (e, s1)).
  { pose proof (pl_portdev _ _ _ _ _ _ _ _ _ Hpl). destruct opened.
    - eapply mod_port_spec; [exact Hst1|]. eexists. split_and!; [by apply (port_st_flags _ _ _ p)|done..].
    - exists p. by rewrite (pl_guest _ _ _ _ _ _ _ _ _ Hpl). }
  eapply wp_mono; [exact Hflags|]. intros [] [e2 s2] (p2 & Hst2 & Hg2 & Hs2 & Hf2 & Hk2 & Hd2). ksteps.
  eapply discard_spec; [exact Hst2|by rewrite Hd2|]. intros e3 s3 p3 B3 Hst3 Hi3 Hc3 Hk3.
  apply wp_bind. eapply reclaim_spec; [exact Hst3|apply (f_equal pt_portdev) in Hc3; cbn in Hc3; by rewrite Hc3, Hd2|].
  intros e4 s4 p4 Hst4 Hi4 Hc4 Hk4. assert (Hc : core p4 = core p2) by (by rewrite Hc4, Hc3).
  assert (Hs4 : same_port p p4) by (eapply same_port_trans; [exact Hs2|by apply core_same]).
  assert (Ei : pt_in_vq p = pt_in_vq p4) by (by destruct Hs4 as (_ & -> & _)).
  apply wp_bind. rewrite Ei. eapply detach_bufs_spec; [exact Hst4|eapply bufs_bound; [exact Hst4|cbn; lia]|]. intros e5 s5 Hst5 Hk5.
  pose proof (pl_kref _ _ _ _ _ _ _ _ _ Hpl) as Hkr.
  assert (Ek : pt_kref p4 = pt_kref p) by (rewrite <- Hk2; by apply (f_equal pt_kref) in Hc).
  destruct (Hst5) as [_ _ _ _ Hin5 _ Hout5 _ _]. apply Permutation_nil in Hin5, Hout5.
  assert (Ef : file_objs p = file_objs p4) by (unfold file_objs; rewrite <- Hf2; apply (f_equal pt_debugfs_file) in Hc; cbn in Hc; by rewrite Hc).
  rewrite Ef in Hst5. eapply unplug_end_spec; [exact Hst5|apply (f_equal pt_guest_connected) in Hc; cbn in Hc; by rewrite Hc| | |rewrite Ek, Hkr; destruct opened; auto].
  - intros e6 s6 Ew Hk1 [He6 Ho6 Hq6]. apply HG; [rewrite Ek, Hkr in Hk1; by destruct opened|]. split; [done..|].
    destruct Hs4 as (_ & Ei4 & Eo4 & _). by rewrite <- Ei4, <- Eo4.
  - intros e6 s6 p6 Hkk Hs6 Hu6 Ew. eapply HU; [rewrite Ek, Hkr in Hkk; by destruct opened|exact Hu6|by eapply same_port_trans|..];
      rewrite Ew; [by rewrite Ei|]. destruct Hs4 as (_ & _ & <- & _). exact Hout5.
Qed.

Lemma has_data_spec e s d a p B O l opened (Q : bool -> env * drv W -> Prop) :
  plugged e s d a p B O l opened ->
  (forall r s' p', plugged e s' d a p' B O l opened -> same_port p p' -> Q r (e, s')) ->
  wp (port_has_data a) Q (e, s).
Proof.
  intros Hpl HQ. unfold port_has_data. apply wp_bind. eapply get_inbuf_spec; [apply (pl_st _ _ _ _ _ _ _ _ _ Hpl)|].
  intros b s1 p1 Hst1 Hc1 Hk1 _ _ _. apply wp_bind. eapply mod_port_spec; [exact Hst1|]. ksteps.
  assert (Hc : core (set_pt_inbuf b p1) = core p) by exact Hc1.
  eapply (HQ _ _ (set_pt_inbuf b p1)); [|by apply core_same].
  eapply plugged_kept; [exact Hpl|by apply (port_st_upd _ _ _ p1)|exact Hc|]. eapply kept_trans; [exact Hk1|apply kept_upd].
Qed.

Lemma read_block_spec e s d a p B O l opened (Q : bool -> env * drv W -> Prop) :
  plugged e s d a p B O l opened ->
  (forall r s' p', plugged e s' d a p' B O l opened -> same_port p p' -> Q r (e, s')) -> wp (will_read_block a) Q (e, s).
Proof.
  intros Hpl HQ. unfold will_read_block. apply wp_bind. eapply drv_port_at_spec; [apply (pl_st _ _ _ _ _ _ _ _ _ Hpl)|].
  destruct (pt_guest_connected p); cbn [negb]; [|by eapply HQ]. apply wp_bind. eapply has_data_spec; [exact Hpl|].
  intros r s1 p1 Hpl1 Hs1. apply wp_bind. eapply drv_port_at_spec; [apply (pl_st _ _ _ _ _ _ _ _ _ Hpl1)|]. by eapply HQ.
Qed.

Lemma write_block_spec e s d a p B O l opened (Q : bool -> env * drv W -> Prop) :
  plugged e s d a p B O l opened ->
  (forall r e' s' p' O', plugged e' s' d a p' B O' l opened -> same_port p p' -> Q r (e', s')) -> wp (will_write_block a) Q (e, s).
Proof.
  intros Hpl HQ. unfold will_write_block. apply wp_bind. eapply drv_port_at_spec; [apply (pl_st _ _ _ _ _ _ _ _ _ Hpl)|].
  destruct (pt_guest_connected p); cbn [negb]; [|by eapply HQ]. destruct (pt_host_connected p); cbn [negb]; [|by eapply HQ].
  apply wp_bind. eapply reclaim_spec; [apply (pl_st _ _ _ _ _ _ _ _ _ Hpl)|rewrite (pl_portdev _ _ _ _ _ _ _ _ _ Hpl); by eapply pd_nonnull|].
  intros e1 s1 p1 Hst1 Hi1 Hc1 Hk1. assert (Hpl1 : plugged e1 s1 d a p1 B [] l opened).
  { eapply plugged_kept; [exact Hpl|by rewrite Hi1|exact Hc1|exact Hk1]. }
  apply wp_bind. eapply drv_port_at_spec; [exact Hst1|]. eapply HQ; [exact Hpl1|by apply core_same].
Qed.

Lemma poll_spec e s d a p B O l (Q : Z -> env * drv W -> Prop) :
  plugged e s d a p B O l true ->
  (forall r e' s' p' O', plugged e' s' d a p' B O' l true -> same_port p p' -> Q r (e', s')) -> wp (port_fops_poll a) Q (e, s).
Proof.
  intros Hpl HQ. unfold port_fops_poll. apply wp_bind. eapply drv_port_at_spec; [apply (pl_st _ _ _ _ _ _ _ _ _ Hpl)|].
  rewrite (pl_guest _ _ _ _ _ _ _ _ _ Hpl). cbn [negb]. apply wp_bind. eapply read_block_spec; [exact Hpl|]. intros r1 s1 p1 Hpl1 Hs1.
  apply wp_bind. eapply write_block_spec; [exact Hpl1|]. intros r2 e2 s2 p2 O2 Hpl2 Hs2.
  apply wp_bind. eapply drv_port_at_spec; [apply (pl_st _ _ _ _ _ _ _ _ _ Hpl2)|]. eapply HQ; [exact Hpl2|by eapply same_port_trans].
Qed.

(** ** Adding a port *)

Lemma alloc_buf_spec n e s l (Q : Z -> env * drv W -> Prop) :
  env_ok e -> owns e l -> (forall e', env_ok e' -> owns e' l -> Q 0 (e', s)) ->
  (forall b data e', env_ok e' -> owns e' ((data, OBuffer) :: (b, OPortBuf) :: l) -> b <> 0 ->
     Q b (e', upd_buf b (PortBuffer data n 0 0) s)) ->
  wp (alloc_buf n) Q (e, s).
Proof.
  intros He Ho H0 H1. unfold alloc_buf. apply wp_bind. eapply kmalloc_spec; [exact He|exact Ho|..].
  - intros e1 _ He1 Ho1 _. rewrite Z.eqb_refl. ksteps. by apply H0.
  - intros b e1 _ He1 Ho1 Hb _ _. rewrite (proj2 (Z.eqb_neq b 0)) by done. apply wp_bind. unfold kzalloc. apply wp_bind.
    eapply kmalloc_spec; [exact He1|exact Ho1|..].
    + intros e2 _ He2 Ho2 _. rewrite Z.eqb_refl. ksteps. rewrite Z.eqb_refl. apply wp_bind.
      eapply kfree_spec; [exact He2|exact Ho2|]. intros e3 _ He3 Ho3. ksteps. by apply H0.
    + intros data e2 _ He2 Ho2 Hd _ _. rewrite (proj2 (Z.eqb_neq data 0)) by done. ksteps.
      rewrite (proj2 (Z.eqb_neq data 0)) by done. ksteps. apply (H1 b data); [by destruct He2|done|done].
Qed.

Lemma new_buf_st e e' s a p B O l b data :
  port_st e s a p B [] O l -> env_ok e' ->
  owns e' ((data, OBuffer) :: (b, OPortBuf) :: port_objs a p ++ buf_objs B ++ objs OBuffer O ++ l) ->
  port_st e' (upd_buf b (PortBuffer data PAGE_SIZE 0 0) s) a p ((b, data) :: B) [b] O l.
Proof.
  intros [He Ho Hpt Hb Hi Hh Hout Hid Ha] He' Ho'. split; try done.
  - eapply owns_perm; [|exact Ho']. change (buf_objs ((b, data) :: B)) with ((b, OPortBuf) :: (data, OBuffer) :: buf_objs B). perm_solve.
  - assert (Hnew : b ∉ B.*1).
    { intros [d Hd]%in_buf. destruct Ho' as [Hn _]. cbn in Hn. apply list.NoDup_cons in Hn as [_ [Hn _]%list.NoDup_cons]. apply Hn.
      rewrite !fmap_app. right. apply elem_of_app. right. apply elem_of_app. left.
      apply list_elem_of_fmap. exists (b, OPortBuf). split; [done|]. by apply (elem_buf_objs (b, d)). }
    constructor; [eexists; cbn; by rewrite lookup_insert_eq|]. apply list.Forall_forall. intros [b' d'] Hin.
    rewrite list.Forall_forall in Hb. destruct (Hb _ Hin) as (pb & E & Hpb). exists pb. cbn in *.
    rewrite lookup_insert_ne; [done|]. intros ->. apply Hnew. apply list_elem_of_fmap. by exists (b', d').
  - cbn. by rewrite Hi.
Qed.

Lemma fill_queue_spec e s a p l (Q : Z -> env * drv W -> Prop) :
  port_st e s a p [] [] [] l ->
  (forall e' s' B, port_st e' s' a p B [] [] l -> kept a p s s' -> Q (Z.of_nat (length B)) (e', s')) ->
  wp (fill_queue (pt_in_vq p)) Q (e, s).
Proof.
  intros Hp HQ. unfold fill_queue.
  eapply (wp_while _ (fun z n '(e1, s1) => exists B, port_st e1 s1 a p B [] [] l /\ kept a p s s1 /\ n = Z.of_nat (length B) /\
    z = vq_room (dr_w s1) (pt_in_vq p))).
  2: { exists []. split_and!; [done|apply drv_kept_refl|done|reflexivity]. }
  2: { pose proof (room_law (dr_w s) (pt_in_vq p)). unfold LOOP_BOUND. lia. }
  intros z n [e1 s1] (B & Hp1 & Hk1 & -> & ->). unfold fill_round.
  destruct (Hp1) as [He Ho Hpt Hb Hi Hh Hout Hid Ha]. apply wp_bind. eapply alloc_buf_spec; [exact He|exact Ho|..].
  - intros e2 He2 Ho2. rewrite Z.eqb_refl. ksteps. eapply HQ; [|exact Hk1]. by split.
  - intros b data e2 He2 Ho2 Hb0. rewrite (proj2 (Z.eqb_neq b 0)) by done.
    assert (Hp2 : port_st e2 (upd_buf b (PortBuffer data PAGE_SIZE 0 0) s1) a p ((b, data) :: B) [b] [] l).
    { by apply (new_buf_st e1). }
    apply wp_bind. eapply add_inbuf_spec; [exact Hp2|]. intros ret e3 s3 Hk3 _ Hroom Hp3.
    assert (Hk : kept a p s s3) by (eapply kept_trans; [exact Hk1|]; eapply kept_trans; [|exact Hk3]; by split).
    destruct (Z.ltb_spec ret 0) as [Hr|Hr].
    + apply wp_bind. eapply free_buf_spec; [exact Hp3|]. intros e4 B4 El Hp4. ksteps. cbn in El. injection El as El. rewrite El. by eapply HQ.
    + destruct (Hroom Hr) as [Hr1 Hr2]. cbn in Hr1.
      assert (En : u32 (Z.of_nat (length B) + 1) = Z.of_nat (length ((b, data) :: B))).
      { pose proof (size_law (dr_w s3) (pt_in_vq p)). pose proof (Permutation_length (ps_in _ _ _ _ _ _ _ _ Hp3)) as El.
        rewrite length_fmap in El. cbn [length app] in *. rewrite u32_small; lia. }
      rewrite En. ksteps. destruct (Z.ltb_spec 0 ret) as [Hr0|Hr0]; [|by eapply HQ].
      eexists. split; [|exists ((b, data) :: B); split_and!; [exact Hp3|exact Hk|done|reflexivity]].
      pose proof (room_law (dr_w s3) (pt_in_vq p)). rewrite Hr2, Hr1 in *. lia.
Qed.

(** The device as [add_port] finds it. *)
Record spot e s d (l : list (Z * kobj)) : Prop := {
  sp_env : env_ok e;
  sp_owns : owns e l;
  sp_dev : dr_devs s !! pd = Some d /\ (pd, OPortdev) ∈ l;
  sp_multiport : use_multiport d = true;
  sp_control : tokens (dr_w s) (pd_c_ovq d) = []
}.

Lemma add_failed_spec id err e s d l (Q : Z -> env * drv W -> Prop) :
  spot e s d l -> (forall e' w', env_ok e' -> owns e' l -> rests (dr_w s) w' -> Q err (e', set_dr_w w' s)) ->
  wp (add_failed frame pd id err) Q (e, s).
Proof.
  intros [He Ho [Hd Hin] Hm Hc] HQ. unfold add_failed. apply wp_bind.
  eapply control_msg_spec; [exact He|exact Ho|exact Hin|exact Hd|exact Hm|exact Hc|]. intros e' w' Hmo Hr. ksteps.
  apply HQ; [by eapply mem_only_ok|by eapply mem_only_owns|done].
Qed.

(** Releasing what [add_port] got so far. *)
Lemma free_cdev_spec id err e s d a p l (Q : Z -> env * drv W -> Prop) :
  spot e s d ((a, OPort) :: objs OCdev (if_set (pt_cdev p)) ++ l) -> (pd, OPortdev) ∈ l -> dr_ports s !! a = Some p ->
  (forall e' w', env_ok e' -> owns e' l -> rests (dr_w s) w' -> Q err (e', set_dr_w w' s)) ->
  wp (free_cdev frame pd id a err) Q (e, s).
Proof.
  intros [He Ho [Hd _] Hm Hc] Hin Hp HQ. unfold free_cdev. apply wp_bind. eapply object_spec; [exact He|exact Ho|left|exact Hp|].
  apply wp_bind. eapply kfree_set_spec; [exact He|eapply owns_perm; [|exact Ho]; apply Permutation_middle|]. intros e1 He1 Ho1.
  unfold free_port. apply wp_bind. eapply kfree_spec; [exact He1|exact Ho1|]. intros e2 _ He2 Ho2. eapply add_failed_spec; [by split|done].
Qed.

Lemma free_device_spec id err e s d a p l (Q : Z -> env * drv W -> Prop) :
  spot e s d (port_objs a p ++ l) -> (pd, OPortdev) ∈ l -> dr_ports s !! a = Some p -> pt_name p = 0 ->
  (forall e' w', env_ok e' -> owns e' l -> rests (dr_w s) w' -> Q err (e', set_dr_w w' s)) ->
  wp (free_device frame pd id a err) Q (e, s).
Proof.
  intros [He Ho [Hd _] Hm Hc] Hin Hp Hname HQ. unfold free_device. apply wp_bind. eapply object_spec; [exact He|exact Ho|left|exact Hp|].
  apply wp_bind. eapply (kfree_set_spec ODevice _ _ _ ((a, OPort) :: objs OCdev (if_set (pt_cdev p)) ++ l)); [exact He| |].
  { eapply owns_perm; [|exact Ho]. unfold port_objs. rewrite Hname. cbn [objs if_set Z.eqb fmap list_fmap]. rewrite app_nil_r. perm_solve. }
  intros e1 He1 Ho1. eapply free_cdev_spec; [split; try done|done|done|done]. split; [done|]. right. apply elem_of_app. by right.
Qed.

(** The other ports are not taken for the new one. *)
Definition fresh s d p (l : list (Z * kobj)) : Prop := dd_portdevs (dr_data s) = [pd] /\ Forall (other s p l) (pd_ports d).

(** The last step: the file in debugfs. *)
Lemma debugfs_spec e s a p B l (Q : unit -> env * drv W -> Prop) :
  port_st e s a p B [] [] l ->
  (forall e' p', port_st e' (upd_port a p' s) a p' B [] [] (file_objs p' ++ l) -> same_port p p' ->
     pt_portdev p' = pt_portdev p /\ pt_hvc p' = pt_hvc p /\ pt_kref p' = pt_kref p /\
     pt_guest_connected p' = pt_guest_connected p /\ pt_id p' = pt_id p /\ pt_inbuf p' = pt_inbuf p -> Q tt (e', upd_port a p' s)) ->
  wp (f ← kalloc ODentry; mod_port a (set_pt_debugfs_file f)) Q (e, s).
Proof.
  intros Hst HQ. destruct (Hst) as [He Ho _ _ _ _ _ _ _].
  assert (Hdone : forall f e4, env_ok e4 -> owns e4 (objs ODentry (if_set f) ++ port_objs a p ++ buf_objs B ++ objs OBuffer [] ++ l) ->
    wp (mod_port a (set_pt_debugfs_file f)) Q (e4, s)).
  { intros f e4 He4 Ho4. set (p4 := set_pt_debugfs_file f p).
    assert (Hst4 : port_st e4 s a p B [] [] (file_objs p4 ++ l)).
    { destruct Hst. split; try done. eapply owns_perm; [|exact Ho4]. unfold file_objs. cbn [pt_debugfs_file p4 set_pt_debugfs_file]. perm_solve. }
    eapply mod_port_spec; [exact Hst4|]. apply HQ; [by apply (port_st_flags _ _ _ p)|done|done]. }
  apply wp_bind. eapply kalloc_spec; [exact He|exact Ho|..].
  - intros e4 _ He4 Ho4 _. by apply Hdone.
  - intros f e4 _ He4 Ho4 Hf _ _. apply Hdone; [done|]. by rewrite if_set_nz.
Qed.

Lemma start_port_spec id e s d a p l (Q : Z -> env * drv W -> Prop) :
  spot e s d (port_objs a p ++ l) -> (pd, OPortdev) ∈ l -> port_st e s a p [] [] [] l -> fresh s d p l ->
  pd_c_ovq d <> pt_in_vq p -> pd_c_ovq d <> pt_out_vq p -> dd_debugfs_dir (dr_data s) = true ->
  pt_portdev p = pd -> pt_inbuf p = 0 -> pt_hvc p = 0 -> pt_kref p = 1 -> pt_guest_connected p = false -> pt_name p = 0 -> pt_id p = id ->
  (forall e' s', env_ok e' -> owns e' l -> dr_devs s' = dr_devs s -> (forall q, tokens (dr_w s') q ≡ₚ tokens (dr_w s) q) -> Q (- ENOMEM) (e', s')) ->
  (forall e' s' p' B, plugged e' s' (set_pd_ports (pd_ports d ++ [a]) d) a p' B [] l false -> same_port p p' -> pt_id p' = id -> Q 0 (e', s')) ->
  wp (start_port frame pd id a) Q (e, s).
Proof.
  intros Hsp Hin Hst [Hds Hoth] Hc1 Hc2 Hdbg Hpd Hib Hhvc Hkr Hgc Hname Hid HF HS. unfold start_port. apply wp_bind. eapply drv_port_at_spec; [exact Hst|].
  apply wp_bind. eapply fill_queue_spec; [exact Hst|]. intros e1 s1 B Hst1 Hk1. destruct (Hk1) as [K1 K2 K3 K4].
  destruct (Hsp) as [_ _ [Hd _] Hm Hc].
  assert (Hd1 : dr_devs s1 !! pd = Some d) by (by rewrite K1).
  assert (Hc0 : tokens (dr_w s1) (pd_c_ovq d) = []) by (apply Permutation_nil; by rewrite K4, Hc).
  destruct (Z.eqb_spec (Z.of_nat (length B)) 0) as [E0|E0].
  - assert (B = []) as -> by (destruct B; [done|cbn in E0; lia]). destruct (Hst1) as [He1 Ho1 Hp1 _ Hi1 _ Ho1' _ _].
    eapply (free_device_spec _ _ _ _ d _ p l); [split; try done; split; [done|apply elem_of_app; by right]|done|done|done|].
    intros e2 w2 He2 Ho2 Hr2. apply HF; [done|done|done|]. intros q. cbn. rewrite (proj1 (Hr2 q)).
    destruct (Hst) as [_ _ _ _ Hi0 _ Ho0 _ _]. destruct (decide (q = pt_in_vq p)) as [->|Hq1]; [by rewrite <- Hi1, <- Hi0|].
    destruct (decide (q = pt_out_vq p)) as [->|Hq2]; [by rewrite <- Ho1', <- Ho0|]. by apply K4.
  - destruct (Hst1) as [He1 Ho1 _ _ _ _ _ _ _].
    assert (Hin1 : (pd, OPortdev) ∈ port_objs a p ++ buf_objs B ++ objs OBuffer [] ++ l) by (do 3 (apply elem_of_app; right); done).
    apply wp_bind. eapply object_spec; [exact He1|exact Ho1|exact Hin1|exact Hd1|]. rewrite Hm. cbn [negb]. apply wp_bind, wp_ret. cbn [Z.eqb negb].
    apply wp_bind. unfold mod_dev. apply wp_bind. eapply object_spec; [exact He1|exact Ho1|exact Hin1|exact Hd1|]. apply wp_ret. cbn [fst snd].
    set (d2 := set_pd_ports (pd_ports d ++ [a]) d). set (s2 := set_dr_devs _ s1).
    assert (Hst2 : port_st e1 s2 a p B [] [] l) by (by destruct Hst1).
    apply wp_bind. unfold send_control_msg. apply wp_bind. eapply drv_port_at_spec; [exact Hst2|]. rewrite Hpd.
    rewrite (proj2 (Z.eqb_neq pd 0)) by (by eapply owns_nonnull). cbn [negb].
    eapply (control_msg_spec frame e1 s2 pd d2); [exact He1|exact Ho1|exact Hin1|cbn; by rewrite lookup_insert_eq|exact Hm|exact Hc0|].
    intros e3 w3 Hmo Hr. assert (Hst3 : port_st e3 (set_dr_w w3 s2) a p B [] [] l) by (by apply (port_st_rests e1)).
    apply wp_bind, wp_ret. cbn [snd dr_data set_dr_w s2 set_dr_devs]. rewrite K2, Hdbg. apply wp_bind.
    eapply debugfs_spec; [exact Hst3|]. intros e4 p4 Hst4 Hs4 (Ep & Eh & Ek & Eg & Ei & Ein). ksteps.
    apply (HS e4 _ p4 B); [|done|by rewrite Ei]. destruct (Hs4) as (Edt & Evi & Evo & Evd).
    split; try done; [by rewrite Ein, Hib|cbn; by rewrite lookup_insert_eq| |by rewrite Evi, Evo|by rewrite Ep|by rewrite Eh|by rewrite Ek|by rewrite Eg|cbn; by rewrite K2|].
    + apply Permutation_nil. etrans; [|symmetry; apply Hr]. change ([] ≡ₚ tokens (dr_w s1) (pd_c_ovq d)). by rewrite Hc0.
    + exists (pd_ports d), []. split_and!; [done| |set_solver]. eapply list.Forall_impl; [exact Hoth|].
      intros b (q & Eq & Hinb & Hq). exists q. rewrite Edt, Evi, Evd. split_and!; [|done|apply Hq..].
      assert (Hne : b <> a) by (eapply live_ne; [apply (ps_owns _ _ _ _ _ _ _ _ Hst4)|exact Hinb]).
      cbn. rewrite lookup_insert_ne by congruence. by rewrite K3.
Qed.

Lemma quiet_spec {A} (m : K W A) e s (Q : A -> env * drv W -> Prop) :
  quiet m -> (forall a w', (forall q, same_vq (dr_w s) w' q) -> Q a (e, set_dr_w w' s)) -> wp (on_kernel m) Q (e, s).
Proof. intros Hm HQ. destruct (Hm e (dr_w s)) as (a & w' & E & Hs). eapply on_kernel_spec; [exact E|by apply HQ]. Qed.

Lemma quiet_rests w w' : (forall q, same_vq w w' q) -> rests w w'.
Proof. intros Hs q. destruct (Hs q) as (E & _ & _). rewrite E, (same_tokens w w') by done. done. Qed.

Lemma spot_quiet e s d l w' : spot e s d l -> (forall q, same_vq (dr_w s) w' q) -> spot e (set_dr_w w' s) d l.
Proof. intros [? ? ? ? Hc] Hs. split; try done. cbn. by rewrite (same_tokens (dr_w s) w'). Qed.

(** What [add_port] leaves when it fails. *)
Definition add_fails e' s s' (l : list (Z * kobj)) : Prop :=
  env_ok e' /\ owns e' l /\ dr_devs s' = dr_devs s /\ forall q, tokens (dr_w s') q ≡ₚ tokens (dr_w s) q.

(** The new port, as far as it has its character device. *)
Definition new_port (iq oq : nat) (junk id cdev devt dev : Z) : port :=
  Port pd 0 iq oq junk 0 0 0 0 junk 0 0 cdev devt dev 1 0 id false false false.

(** The queues of the new port are free, and it is not taken for another one. *)
Record room_for s d (l : list (Z * kobj)) (id : Z) (iq oq : nat) : Prop := {
  rm_in : pd_in_vqs d !! Z.to_nat id = Some iq;
  rm_out : pd_out_vqs d !! Z.to_nat id = Some oq;
  rm_apart : iq <> oq /\ pd_c_ovq d <> iq /\ pd_c_ovq d <> oq;
  rm_empty : tokens (dr_w s) iq = [] /\ tokens (dr_w s) oq = [];
  rm_devs : dd_portdevs (dr_data s) = [pd];
  rm_debugfs : dd_debugfs_dir (dr_data s) = true;
  rm_others : Forall (fun b => exists p', dr_ports s !! b = Some p' /\ (b, OPort) ∈ l /\ pt_devt p' <> MKDEV (pd_chr_major d) id /\
    pt_in_vq p' <> iq /\ pt_out_vq p' <> iq /\ pt_id p' <> id) (pd_ports d)
}.

Lemma room_kept s s' d l id iq oq a p' :
  room_for s d l id iq oq -> (forall b, (b, OPort) ∈ l -> b <> a) -> dr_data s' = dr_data s ->
  (forall q, tokens (dr_w s') q = tokens (dr_w s) q) -> dr_ports s' = <[a := p']> (dr_ports s) -> room_for s' d l id iq oq.
Proof.
  intros [? ? ? [E1 E2] ? ? Ho] Hne Hd Ht Hp. split; try done; rewrite ?Hd, ?Ht; try done.
  eapply list.Forall_impl; [exact Ho|]. intros b (q & Eq & Hin & Hq). exists q. split_and!; [|done|apply Hq..].
  rewrite Hp, lookup_insert_ne; [done|]. apply not_eq_sym. by apply Hne.
Qed.

Lemma device_step_spec id iq oq junk cdev a e s d l s0 (Q : Z -> env * drv W -> Prop) :
  let devt := MKDEV (pd_chr_major d) id in
  spot e s d ((a, OPort) :: (cdev, OCdev) :: l) -> (pd, OPortdev) ∈ l -> cdev <> 0 ->
  dr_ports s !! a = Some (new_port iq oq junk id cdev devt 0) -> room_for s d l id iq oq ->
  dr_devs s = dr_devs s0 -> (forall q, tokens (dr_w s) q = tokens (dr_w s0) q) ->
  (forall r e' s', r < 0 -> add_fails e' s0 s' l -> Q r (e', s')) ->
  (forall e' s' p B, plugged e' s' (set_pd_ports (pd_ports d ++ [a]) d) a p B [] l false -> pt_id p = id ->
     pt_in_vq p = iq -> pt_out_vq p = oq -> Q 0 (e', s')) ->
  wp (r ← device_create devt; match r with inr err => free_cdev frame pd id a err
      | inl dev => mod_port a (set_pt_dev dev);; start_port frame pd id a end) Q (e, s).
Proof.
  intros devt Hsp Hin Hcd Hp Hrm Hd0 Ht0 HF HS. unfold device_create. apply wp_bind, wp_bind. apply quiet_spec; [apply device_error_quiet|].
  intros err w1 Hs1. set (s1 := set_dr_w w1 s). assert (Ht1 : forall q, tokens (dr_w s1) q = tokens (dr_w s0) q).
  { intros q. rewrite <- Ht0. by apply same_tokens. }
  assert (Hfail : forall err e2, err < 0 -> env_ok e2 -> owns e2 ((a, OPort) :: (cdev, OCdev) :: l) -> wp (free_cdev frame pd id a err) Q (e2, s1)).
  { intros err2 e2 Herr He2 Ho2. destruct Hsp as [_ _ [Hd _] Hm Hc]. eapply (free_cdev_spec _ _ _ _ d a _ l); [|exact Hin|exact Hp|].
    - split; try done; [cbn [pt_cdev new_port]; by rewrite if_set_nz|split; [done|do 1 right; apply elem_of_app; by right]|]. by rewrite Ht1, <- Ht0.
    - intros e3 w3 He3 Ho3 Hr3. apply HF; [done|]. split_and!; try done. intros q. cbn. rewrite (proj1 (Hr3 q)). by rewrite Ht1. }
  destruct (Hsp) as [He Ho [Hd _] Hm Hc]. destruct (Z.ltb_spec err 0) as [Herr|Herr]; [ksteps; by apply Hfail|].
  apply wp_bind. eapply kalloc_spec; [exact He|exact Ho|..].
  - intros e2 _ He2 Ho2 _. rewrite Z.eqb_refl. ksteps. by apply Hfail.
  - intros dev e2 _ He2 Ho2 Hdev _ _. rewrite (proj2 (Z.eqb_neq dev 0)) by done. ksteps. unfold mod_port. apply wp_bind.
    eapply object_spec; [exact He2|exact Ho2|right; left|exact Hp|]. apply wp_ret. cbn [fst snd].
    set (p2 := set_pt_dev dev (new_port iq oq junk id cdev devt 0)). fold (upd_port a p2 s1).
    assert (Ho3 : owns e2 (port_objs a p2 ++ l)).
    { eapply owns_perm; [|exact Ho2]. unfold port_objs. cbn [pt_dev pt_cdev pt_name p2 set_pt_dev new_port]. rewrite !if_set_nz by done. cbn. perm_solve. }
    destruct Hrm as [Hiq Hoq (Ha1 & Ha2 & Ha3) [Et1 Et2] Hds Hdbg Hoth].
    assert (Hst : port_st e2 (upd_port a p2 s1) a p2 [] [] [] l).
    { assert (Hav : forall q, tokens (dr_w s) q = [] -> vq_avail w1 q = []).
      { intros q E. destruct (Hs1 q) as (-> & _). apply app_eq_nil in E as [E _]. by apply fmap_nil_inv in E. }
      split; try done; cbn; [by rewrite lookup_insert_eq|..]; rewrite ?Ht1, <- ?Ht0, ?Et1, ?Et2, ?Hav by done; done. }
    eapply (start_port_spec id e2 (upd_port a p2 s1) d a p2 l); try done.
    + split; try done; [split; [done|apply elem_of_app; by right]|]. by rewrite Ht1, <- Ht0.
    + split; [done|]. eapply list.Forall_impl; [exact Hoth|]. intros b (q & Eq & Hinb & Hq). exists q. split_and!; [|done|apply Hq..].
      cbn. rewrite lookup_insert_ne; [done|]. apply not_eq_sym. eapply owns_ne; [exact Ho3|]. apply elem_of_app. by right.
    + intros e' s' He' Ho' Hd' Ht'. apply HF; [done|]. split_and!; [done|done|by rewrite Hd'|]. intros q. rewrite Ht'. cbn. by rewrite Ht1.
    + intros e' s' p' B Hpl (_ & Ei & Eo & _) Eid. by eapply HS.
Qed.

Lemma add_port_spec id iq oq e s d l (Q : Z -> env * drv W -> Prop) :
  spot e s d l -> room_for s d l id iq oq ->
  (forall r e' s', r < 0 -> add_fails e' s s' l -> Q r (e', s')) ->
  (forall a e' s' p B, plugged e' s' (set_pd_ports (pd_ports d ++ [a]) d) a p B [] l false -> pt_id p = id ->
     pt_in_vq p = iq -> pt_out_vq p = oq -> Q 0 (e', s')) ->
  wp (add_port frame pd id) Q (e, s).
Proof.
  intros Hsp Hrm HF HS. destruct (Hsp) as [He Ho [Hd Hin] Hm Hc]. unfold add_port. apply wp_bind.
  assert (Hfail : forall r e2 s2, r < 0 -> env_ok e2 -> owns e2 l -> dr_devs s2 = dr_devs s -> dr_w s2 = dr_w s ->
    wp (add_failed frame pd id r) Q (e2, s2)).
  { intros r e2 s2 Hr He2 Ho2 Ed Ew. eapply (add_failed_spec _ _ _ _ d); [split; rewrite ?Ed, ?Ew; done|].
    intros e3 w3 He3 Ho3 Hr3. apply HF; [done|]. split_and!; try done. intros q. cbn. by rewrite (proj1 (Hr3 q)), Ew. }
  eapply kalloc_spec; [exact He|exact Ho|..].
  { intros e1 _ He1 Ho1 _. rewrite Z.eqb_refl. by apply Hfail. }
  intros a e1 _ He1 Ho1 Ha _ _. rewrite (proj2 (Z.eqb_neq a 0)) by done. apply wp_bind, wp_ret. cbn [fst snd].
  apply wp_bind. eapply object_spec; [exact He1|exact Ho1|right; exact Hin|exact Hd|].
  rewrite (rm_in _ _ _ _ _ _ Hrm), (rm_out _ _ _ _ _ _ Hrm). apply wp_bind, wp_ret. cbn [fst snd].
  set (p1 := Port pd _ _ _ _ _ _ _ _ _ _ _ _ _ _ _ _ _ _ _ _). fold (upd_port a p1 s).
  apply wp_bind. eapply kalloc_spec; [exact He1|exact Ho1|..].
  { intros e2 _ He2 Ho2 _. rewrite Z.eqb_refl. unfold free_port. apply wp_bind. eapply kfree_spec; [exact He2|exact Ho2|].
    intros e3 _ He3 Ho3. by apply Hfail. }
  intros cdev e2 _ He2 Ho2 Hcd _ _. rewrite (proj2 (Z.eqb_neq cdev 0)) by done. unfold mod_port at 1. apply wp_bind, wp_bind.
  eapply object_spec; [exact He2|exact Ho2|right; left|cbn; by rewrite lookup_insert_eq|]. apply wp_ret. cbn [fst snd].
  set (devt := MKDEV (pd_chr_major d) id). set (p2 := set_pt_devt _ _). fold (upd_port a p2 (upd_port a p1 s)). rewrite upd_port_twice.
  apply wp_bind. apply quiet_spec; [apply cdev_add_quiet|]. intros err w3 Hs3. set (s3 := set_dr_w w3 (upd_port a p2 s)).
  assert (Hsp3 : spot e2 s3 d ((a, OPort) :: (cdev, OCdev) :: l)).
  { apply spot_quiet; [|exact Hs3]. split; try done; [eapply owns_perm; [|exact Ho2]; constructor|]. split; [done|]. by do 2 right. }
  assert (Hp3 : dr_ports s3 !! a = Some p2) by (cbn; by rewrite lookup_insert_eq).
  assert (Ht3 : forall q, tokens (dr_w s3) q = tokens (dr_w s) q) by (intros q; by apply same_tokens).
  destruct (Z.ltb_spec err 0) as [Herr|Herr].
  - eapply (free_cdev_spec _ _ _ _ d a p2 l); [cbn [pt_cdev p2 set_pt_devt set_pt_cdev]; by rewrite if_set_nz|exact Hin|exact Hp3|].
    intros e4 w4 He4 Ho4 Hr4. apply HF; [done|]. split_and!; try done. intros q. cbn. by rewrite (proj1 (Hr4 q)), Ht3.
  - eapply (device_step_spec id iq oq (e_junk e1) cdev a e2 s3 d l s); [exact Hsp3|exact Hin|exact Hcd|exact Hp3| |done|exact Ht3|exact HF|by eapply HS].
    eapply (room_kept s s3 d l id iq oq a p2); [exact Hrm| |done|exact Ht3|done].
    intros b Hb. eapply owns_ne; [exact (sp_owns _ _ _ _ Hsp3)|]. by right.
Qed.
End Life.
