(* ===== verification/LifeFacts.v ===== *)
(** * The life of a port of the driver

    From the message that announces a port to its end: every sequence of
    openings, closings, interrupts, polls and messages of the host that makes
    sense runs to its end and frees what it should, once. *)
From stdpp Require Import base gmap gmultiset list strings numbers.
From S2P Require Import Prelude Kernel KernelFacts Structs Vring VringFacts VirtioDev Bus BusFacts Backend Driver DriverDev DriverFacts.
Open Scope Z_scope.

Section Life.
Context {W : Type} `{!GuestKernel W, !CryptoLimits, !VirtqueueLaws W, !PromptHost W, !ServiceLaws W}.
Variables (frame pd : Z).
Implicit Types (w : W) (e : env) (s : drv W) (p : port) (d : ports_device).
Abbreviation plugged := (plugged pd).

(** ** Messages of the host *)

(** The buffer of the control queue that messages come in, with its data. *)
Variables (mb mdata : Z).

(** The host puts a message into the buffer, and the driver handles it. *)
Definition deliver (c : virtio_console_control) : K (drv W) unit :=
  mode (set_mem (pokes (seqZ mdata sizeof_cpkt) (encode_cpkt c)));;
  modx (upd_buf mb (PortBuffer mdata PAGE_SIZE sizeof_cpkt 0));;
  handle_control_message frame pd mb.

Lemma length_cpkt c : length (encode_cpkt c) = 8%nat.
Proof. unfold encode_cpkt. by rewrite !length_app, !length_le_bytes. Qed.

Lemma mailbox_apart e a p B O l x : owns e (port_objs a p ++ buf_objs B ++ objs OBuffer O ++ file_objs p ++ l) -> (mb, OPortBuf) ∈ l -> x ∈ B -> x.1 <> mb.
Proof.
  intros [Hn _] Hl Hx E. rewrite fmap_app in Hn. apply list.NoDup_app in Hn as (_ & _ & Hn). rewrite fmap_app in Hn. apply list.NoDup_app in Hn as (_ & Hd & _).
  apply (Hd mb).
  - apply list_elem_of_fmap. exists (mb, OPortBuf). split; [done|]. rewrite <- E. by apply elem_buf_objs.
  - apply list_elem_of_fmap. exists (mb, OPortBuf). split; [done|]. do 2 (apply elem_of_app; right). done.
Qed.

(** The message in the buffer changes nothing of the port. *)
Lemma mailbox_plugged c e s d a p B O l opened :
  plugged e s d a p B O l opened -> (mb, OPortBuf) ∈ l ->
  plugged (set_mem (pokes (seqZ mdata sizeof_cpkt) (encode_cpkt c)) e) (upd_buf mb (PortBuffer mdata PAGE_SIZE sizeof_cpkt 0) s) d a p B O l opened.
Proof.
  intros Hpl Hl. destruct (Hpl) as [[He Ho Hp Hbs Hin Hins Hout Hid Hap] ? ? ? ? ? ? ? ? ? ?]. split; try done. split; try done; [by destruct He|].
  apply list.Forall_forall. intros x Hx. rewrite list.Forall_forall in Hbs. destruct (Hbs x Hx) as (pb & E & Hpb). exists pb. split; [|done].
  cbn. rewrite lookup_insert_ne; [done|]. apply not_eq_sym. by eapply mailbox_apart.
Qed.

Lemma find_id_spec e s d a p B O l opened (Q : Z -> env * drv W -> Prop) :
  plugged e s d a p B O l opened -> Q a (e, s) -> wp (find_port_by_id pd (pt_id p)) Q (e, s).
Proof.
  intros Hpl HQ. destruct (pl_list _ _ _ _ _ _ _ _ _ _ Hpl) as (before & after & Hl & Hb & _).
  unfold find_port_by_id. apply wp_bind. eapply dev_at_spec; [exact Hpl|]. rewrite Hl.
  eapply first_port_spec; [exact Hpl|apply Z.eqb_refl| |done].
  eapply list.Forall_impl; [exact Hb|]. intros b (q & Eq & Hin & _ & _ & _ & Hi). exists q. split_and!; try done. by apply Z.eqb_neq.
Qed.

(** The message reaches the port. *)
Lemma deliver_spec event value e s d a p B O l opened (Q : unit -> env * drv W -> Prop) :
  plugged e s d a p B O l opened -> (mb, OPortBuf) ∈ l -> 0 <= pt_id p < 2 ^ 32 -> 0 <= event < 2 ^ 16 -> 0 <= value < 2 ^ 16 ->
  (forall e' s', plugged e' s' d a p B O l opened ->
     (event = VIRTIO_CONSOLE_PORT_ADD -> wp (send_control_msg frame a VIRTIO_CONSOLE_PORT_READY 1;; mret tt) Q (e', s')) /\
     (event = VIRTIO_CONSOLE_PORT_REMOVE -> wp (unplug_port a) Q (e', s')) /\
     (event = VIRTIO_CONSOLE_PORT_OPEN ->
        wp (mod_port a (set_pt_host_connected (negb (value =? 0)));; reclaim_consumed_buffers a) Q (e', s'))) ->
  event ∈ [VIRTIO_CONSOLE_PORT_ADD; VIRTIO_CONSOLE_PORT_REMOVE; VIRTIO_CONSOLE_PORT_OPEN] ->
  wp (deliver (Cpkt (pt_id p) event value)) Q (e, s).
Proof.
  intros Hpl Hl Hid Hev Hval HQ Hin. unfold deliver. ksteps. pose proof (mailbox_plugged (Cpkt (pt_id p) event value) _ _ _ _ _ _ _ _ _ Hpl Hl) as Hpl1.
  set (e1 := set_mem _ e) in *. set (s1 := upd_buf mb _ s) in *. destruct (pl_st _ _ _ _ _ _ _ _ _ _ Hpl1) as [He1 Ho1 _ _ _ _ _ _ _].
  unfold handle_control_message. apply wp_bind.
  eapply object_spec; [exact He1|exact Ho1|do 4 (apply elem_of_app; right); exact Hl|cbn; by rewrite lookup_insert_eq|].
  apply wp_bind. unfold rd_buf. cbn [pb_size pb_offset pb_buf]. change (PAGE_SIZE <? 0 + 0 + sizeof_cpkt) with false. cbv iota. ksteps.
  assert (Ebs : peeks (e_mem e1) (seqZ (mdata + 0 + 0) sizeof_cpkt) = encode_cpkt (Cpkt (pt_id p) event value)).
  { rewrite !Z.add_0_r. apply peeks_pokes_eq; [apply NoDup_seqZ|]. by rewrite length_cpkt, length_seqZ. }
  rewrite Ebs, cpkt_roundtrip by done. cbn [cp_id cp_event cp_value].
  eapply find_id_spec; [exact Hpl1|]. rewrite (proj2 (Z.eqb_neq a 0)) by (eapply owns_nonnull; [exact He1|exact Ho1|left]). cbn [andb negb].
  destruct (HQ e1 s1 Hpl1) as (HA & HR & HO). clear HQ. rewrite !elem_of_cons in Hin.
  destruct Hin as [->|[->|[->|[]%elem_of_nil]]]; [exact (HA eq_refl)|exact (HR eq_refl)|exact (HO eq_refl)].
Qed.

(** The host opens or closes its side. *)
Lemma connect_spec v e s d a p B O l opened (Q : unit -> env * drv W -> Prop) :
  plugged e s d a p B O l opened ->
  (forall e' s' p', plugged e' s' d a p' B [] l opened -> same_port p p' -> pt_host_connected p' = v -> Q tt (e', s')) ->
  wp (mod_port a (set_pt_host_connected v);; reclaim_consumed_buffers a) Q (e, s).
Proof.
  intros Hpl HQ. pose proof (pl_st _ _ _ _ _ _ _ _ _ _ Hpl) as Hst. apply wp_bind. eapply mod_port_spec; [exact Hst|].
  set (p1 := set_pt_host_connected v p).
  assert (Hpl1 : plugged e (upd_port a p1 s) d a p1 B O l opened).
  { eapply plugged_from; [exact Hpl|by apply (port_st_flags _ _ _ p)|done..|apply (pl_kref _ _ _ _ _ _ _ _ _ _ Hpl)|apply (pl_guest _ _ _ _ _ _ _ _ _ _ Hpl)|apply kept_upd]. }
  eapply reclaim_spec; [apply (pl_st _ _ _ _ _ _ _ _ _ _ Hpl1)|rewrite (pl_portdev _ _ _ _ _ _ _ _ _ _ Hpl1); by eapply pd_nonnull|].
  intros e2 s2 p2 Hst2 Hi2 Hc2 Hk2. eapply HQ.
  - eapply plugged_kept; [exact Hpl1|by rewrite Hi2|done|done].
  - eapply same_port_trans; [|by apply core_same]. done.
  - by apply (f_equal pt_host_connected) in Hc2.
Qed.

(** ** From adding a port to its end *)

(** What happens to a port, and where in its life it is. *)
Inductive port_op := OpOpen | OpRelease | OpIntr | OpPoll | OpUnplug | OpMessage (event value : Z).
Inductive life := Plugged (opened : bool) | Unplugged | Gone.

Definition next_life (k : life) (o : port_op) : option life :=
  let off opened := if opened : bool then Unplugged else Gone in
  match k with
  | Plugged opened =>
      match o with
      | OpOpen => Some (Plugged true)
      | OpRelease => if opened then Some (Plugged false) else None
      | OpIntr => Some (Plugged opened)
      | OpPoll => if opened then Some (Plugged true) else None
      | OpUnplug => Some (off opened)
      | OpMessage event value =>
          if negb ((0 <=? value) && (value <? 2 ^ 16)) then None
          else if (event =? VIRTIO_CONSOLE_PORT_ADD) || (event =? VIRTIO_CONSOLE_PORT_OPEN) then Some (Plugged opened)
          else if event =? VIRTIO_CONSOLE_PORT_REMOVE then Some (off opened)
          else None
      end
  | Unplugged => match o with OpRelease => Some Gone | OpPoll => Some Unplugged | _ => None end
  | Gone => None
  end.
Fixpoint lives (k : life) (ops : list port_op) : option life :=
  match ops with
  | [] => Some k
  | o :: ops => match next_life k o with Some k => lives k ops | None => None end
  end.

Definition run_op (a : Z) p (o : port_op) : K (drv W) Z :=
  match o with
  | OpOpen => r ← port_fops_open frame (pt_devt p); mret r.1
  | OpRelease => port_fops_release frame a
  | OpIntr => in_intr pd (pt_in_vq p);; mret 0
  | OpPoll => port_fops_poll a
  | OpUnplug => unplug_port a;; mret 0
  | OpMessage event value => deliver (Cpkt (pt_id p) event value);; mret 0
  end.
Fixpoint run_ops (a : Z) p (ops : list port_op) : K (drv W) (list Z) :=
  match ops with
  | [] => mret []
  | o :: ops => r ← run_op a p o; rs ← run_ops a p ops; mret (r :: rs)
  end.

(** What the calls return. *)
Definition returns (k : life) (o : port_op) (r : Z) : Prop :=
  match k, o with
  | Plugged opened, OpOpen => r = if opened then - EMFILE else 0
  | _, OpRelease => r = 0
  | Unplugged, OpPoll => r = POLLHUP
  | _, _ => True
  end.
Fixpoint all_return (k : life) (ops : list port_op) (rs : list Z) : Prop :=
  match ops, rs with
  | [], [] => True
  | o :: ops, r :: rs => returns k o r /\ exists k', next_life k o = Some k' /\ all_return k' ops rs
  | _, _ => False
  end.

Definition holds (k : life) e s d (a : Z) p (l : list (Z * kobj)) : Prop :=
  match k with
  | Plugged opened => exists p' B O, plugged e s d a p' B O l opened /\ same_port p p'
  | Unplugged => exists p', unplugged e s a p' l /\ tokens (dr_w s) (pt_in_vq p) = [] /\ tokens (dr_w s) (pt_out_vq p) = []
  | Gone => gone e s a p l
  end.

Lemma gone_same e s a p p' l : same_port p p' -> gone e s a p' l -> gone e s a p l.
Proof. intros (_ & Ei & Eo & _) [? ? [? ?]]. split; [done..|]. by rewrite <- Ei, <- Eo. Qed.

Lemma unplug_step e s d a p p1 B O l opened (Q : unit -> env * drv W -> Prop) :
  plugged e s d a p1 B O l opened -> same_port p p1 ->
  (forall e' s', holds (if opened then Unplugged else Gone) e' s' d a p l -> Q tt (e', s')) -> wp (unplug_port a) Q (e, s).
Proof.
  intros Hpl Hs1 HQ. destruct (Hs1) as (_ & Ei & Eo & _). eapply unplug_spec; [exact Hpl|..].
  - intros e' s' -> Hg. by eapply HQ, gone_same.
  - intros e' s' p2 -> Hu Hs2 Hi Ho. apply HQ. exists p2. by rewrite <- Ei, <- Eo.
Qed.

(** A message that [next_life] allows. *)
Lemma message_step event value k' e s d a p p1 B O l opened (Q : Z -> env * drv W -> Prop) :
  next_life (Plugged opened) (OpMessage event value) = Some k' -> plugged e s d a p1 B O l opened -> same_port p p1 ->
  (mb, OPortBuf) ∈ l -> 0 <= pt_id p < 2 ^ 32 -> (forall e' s', holds k' e' s' d a p l -> Q 0 (e', s')) ->
  wp (deliver (Cpkt (pt_id p) event value);; mret 0) Q (e, s).
Proof.
  intros Hn Hpl Hs1 Hl Hid HQ. cbn [next_life] in Hn. destruct ((0 <=? value) && (value <? 2 ^ 16)) eqn:Ev; cbn [negb] in Hn; [|done].
  assert (Hv : 0 <= value < 2 ^ 16) by lia. clear Ev. destruct (Hs1) as (_ & _ & _ & Eid). rewrite <- Eid in *.
  assert (Hmore : forall e' s' p2 B' O', plugged e' s' d a p2 B' O' l opened -> same_port p1 p2 -> holds (Plugged opened) e' s' d a p l).
  { intros e' s' p2 B' O' H2 Hs2. exists p2, B', O'. split; [done|by eapply same_port_trans]. }
  assert (Hin : event ∈ [VIRTIO_CONSOLE_PORT_ADD; VIRTIO_CONSOLE_PORT_REMOVE; VIRTIO_CONSOLE_PORT_OPEN]).
  { rewrite !elem_of_cons. destruct (Z.eqb_spec event VIRTIO_CONSOLE_PORT_ADD); [by left|]. destruct (Z.eqb_spec event VIRTIO_CONSOLE_PORT_OPEN); [by do 2 right; left|].
    destruct (Z.eqb_spec event VIRTIO_CONSOLE_PORT_REMOVE); [by right; left|done]. }
  assert (He16 : 0 <= event < 2 ^ 16) by (rewrite !elem_of_cons in Hin; destruct Hin as [->|[->|[->|[]%elem_of_nil]]]; done).
  apply wp_bind. eapply deliver_spec; [exact Hpl|exact Hl|done|done|done| |done]. intros e1 s1 Hpl1. split_and!; intros ->; cbn in Hn.
  - injection Hn as <-. apply wp_bind. eapply send_msg_spec; [exact Hpl1|]. intros e2 s2 Hpl2 _. ksteps. by eapply HQ, Hmore.
  - eapply unplug_step; [exact Hpl1|exact Hs1|]. intros e2 s2 Hh. ksteps. injection Hn as <-. by apply HQ.
  - injection Hn as <-. eapply connect_spec; [exact Hpl1|]. intros e2 s2 p2 Hpl2 Hs2 _. ksteps. by eapply HQ, Hmore.
Qed.

Lemma run_op_spec k o k' e s d a p l :
  next_life k o = Some k' -> holds k e s d a p l -> (mb, OPortBuf) ∈ l -> 0 <= pt_id p < 2 ^ 32 ->
  wp (run_op a p o) (fun r '(e', s') => returns k o r /\ holds k' e' s' d a p l) (e, s).
Proof.
  intros Hn Hh Hl Hid. destruct k as [opened| |]; [|destruct o; try done|done].
  - destruct Hh as (p1 & B & O & Hpl & Hs1). destruct (Hs1) as (Edt & Ei & Eo & _).
    assert (Hmore : forall e' s' p2 B' O' o2, plugged e' s' d a p2 B' O' l o2 -> same_port p1 p2 -> holds (Plugged o2) e' s' d a p l).
    { intros e' s' p2 B' O' o2 H2 Hs2. exists p2, B', O'. split; [done|by eapply same_port_trans]. }
    destruct o as [| | | | |event value]; cbn [run_op].
    + injection Hn as <-. rewrite <- Edt. apply wp_bind. eapply port_open_spec; [exact Hpl|].
      intros e' s' p2 O' H2 Hs2. ksteps. split; [done|by eapply Hmore].
    + destruct opened; [|done]. injection Hn as <-. eapply port_release_spec; [exact Hpl|]. intros e' s' p2 B' H2 Hs2. split; [done|by eapply Hmore].
    + injection Hn as <-.
      rewrite <- Ei. apply wp_bind. eapply intr_spec; [exact Hpl|]. intros e' s' p2 B' H2 Hs2. ksteps. split; [by destruct opened|by eapply Hmore].
    + destruct opened; [|done]. injection Hn as <-. eapply poll_spec; [exact Hpl|]. intros r e' s' p2 O' H2 Hs2. split; [done|by eapply Hmore].
    + apply wp_bind. eapply unplug_step; [exact Hpl|exact Hs1|]. intros e' s' H'. ksteps. split; [by destruct opened|]. by injection Hn as <-.
    + eapply message_step; [exact Hn|exact Hpl|exact Hs1|done|done|]. intros e' s' H'. split; [by destruct opened|done].
  - injection Hn as <-. destruct Hh as (p1 & Hu & Hi & Ho). eapply release_unplugged; [exact Hu|]. intros e' s' He' Ho' Ew.
    split; [done|]. split; [done..|]. by rewrite Ew.
  - injection Hn as <-. destruct Hh as (p1 & Hu & Hi & Ho). cbn [run_op]. unfold port_fops_poll. apply wp_bind. eapply un_at_spec; [exact Hu|].
    rewrite (un_guest _ _ _ _ _ Hu). cbn [negb]. ksteps. split; [done|by exists p1].
Qed.

Lemma run_ops_spec ops : forall k k' e s d a p l, lives k ops = Some k' -> holds k e s d a p l -> (mb, OPortBuf) ∈ l -> 0 <= pt_id p < 2 ^ 32 ->
  wp (run_ops a p ops) (fun rs '(e', s') => all_return k ops rs /\ holds k' e' s' d a p l) (e, s).
Proof.
  induction ops as [|o ops IH]; intros k k' e s d a p l Hl Hh Hm Hid; cbn [lives run_ops all_return] in *; [by injection Hl as <-|].
  destruct (next_life k o) as [k1|] eqn:Ek; [|done]. apply wp_bind. eapply wp_mono; [by eapply run_op_spec|].
  intros r [e1 s1] [Hr Hh1]. apply wp_bind. eapply wp_mono; [by eapply IH|]. intros rs [e2 s2] [Hrs Hh2]. ksteps. split; [|done]. split; [done|by exists k1].
Qed.

(** C12: the life of a port of the driver.  [add_port] either fails, and leaves
    exactly the objects there were, or it makes a port from which every sequence
    of openings, closings, interrupts of its input queue, polls, messages of the
    host about the port and an unplug that [next_life] allows runs to its end, without a use after free or any other
    crash, and leaves the port as the sequence says: a second opening is refused,
    an unplugged port is polled as hung up, and when the port is gone all its
    objects and buffers are freed and its queues hold nothing. *)
Theorem driver_port_life id iq oq e s d l :
  spot pd e s d l -> room_for pd s d l id iq oq -> 0 <= id < 2 ^ 32 -> (mb, OPortBuf) ∈ l ->
  exists r e1 s1, add_port frame pd id (e, s) = Done r (e1, s1) /\
    (r < 0 /\ add_fails e1 s s1 l \/
     r = 0 /\ exists a p d', pt_id p = id /\ pt_in_vq p = iq /\ pt_out_vq p = oq /\ holds (Plugged false) e1 s1 d' a p l /\
       forall ops k, lives (Plugged false) ops = Some k ->
         exists rs e2 s2, run_ops a p ops (e1, s1) = Done rs (e2, s2) /\
           all_return (Plugged false) ops rs /\ holds k e2 s2 d' a p l).
Proof.
  intros Hs Hr Hid Hmb. enough (Hw : wp (add_port frame pd id) (fun r '(e1, s1) =>
      r < 0 /\ add_fails e1 s s1 l \/
      r = 0 /\ exists a p d', pt_id p = id /\ pt_in_vq p = iq /\ pt_out_vq p = oq /\ holds (Plugged false) e1 s1 d' a p l) (e, s)).
  - apply wp_done in Hw as (r & [e1 s1] & E & [Hf|(Er & a & p & d' & E1 & E2 & E3 & Hh)]); exists r, e1, s1; (split; [exact E|]); [by left|].
    right. split; [exact Er|]. exists a, p, d'. do 4 (split; [assumption|]). intros ops k Hk.
    destruct (proj1 (wp_done _ _ _) (run_ops_spec _ _ _ _ _ _ _ _ _ Hk Hh Hmb ltac:(by rewrite E1))) as (rs & [e2 s2] & E' & H2). exists rs, e2, s2. by split.
  - eapply add_port_spec; [exact Hs|exact Hr|by left|]. intros a e' s' p B Hpl E1 E2 E3. right. split; [done|].
    exists a, p, (set_pd_ports (pd_ports d ++ [a]) d). do 3 (split; [assumption|]). exists p, B, []. split; [exact Hpl|by split_and!].
Qed.
End Life.
