(* ===== verification/RequestFacts.v ===== *)
(** * A request through the driver in the guest

    What a program gets from the ioctl that encrypts or decrypts when it runs on
    a port of the driver, with a host behind the queues that answers. *)
From stdpp Require Import base gmap gmultiset list strings numbers.
From S2P Require Import Prelude Kernel KernelFacts Structs Vring VringFacts RingFacts VirtioDev Bus Backend BackendFacts Driver DriverDev DriverFacts.
Open Scope Z_scope.

(** ** The host *)

(** Besides what [VirtqueueLaws] has: one descriptor is enough for one buffer, and
    a buffer that comes back leaves its descriptors free.  The host answers what
    it gets through the queue [qo]: it takes the request at once and puts its
    answer into the next buffer of the queue [qi], and does nothing else. *)
Class AnsweringHost (W : Type) `{!GuestKernel W, !VirtqueueLaws W} (serve : bytes -> bytes) (qi qo : nat) := {
  add_fits : forall q outs ins tok e w r w', virtqueue_add_buf q outs ins tok (e, w) = Done r (e, w') ->
    (length outs + length ins = 1)%nat -> 0 < vq_room w q -> 0 <= r;
  get_room : forall q e w r w', virtqueue_get_buf q (e, w) = Done r (e, w') ->
    match r with None => vq_room w' q = vq_room w q | Some _ => vq_room w q < vq_room w' q end;
  kick_answers : forall e w e' w' tok cr n t buf size rest, let reply := serve (peeks (e_mem e) (seqZ cr n)) in
    vq_avail w qo = [VBuf tok [(cr, n)] []] -> vq_avail w qi = VBuf t [] [(buf, size)] :: rest -> vq_used w qi = [] ->
    vq_budget w <> 0%nat -> Z.of_nat (length reply) = n -> n <= size ->
    virtqueue_kick qo (e, w) = Done tt (e', w') ->
    e' = set_mem (pokes (seqZ buf n) reply) e /\ vq_avail w' qi = rest /\ vq_used w' qi = [(t, n)] /\
    vq_avail w' qo = [] /\ vq_used w' qo = vq_used w qo ++ [(tok, 0)] /\ (forall q, q <> qi -> q <> qo -> same_vq w w' q);
  kick_idle : forall q e w e' w', Forall has_ins (vq_avail w q) -> virtqueue_kick q (e, w) = Done tt (e', w') ->
    e' = e /\ forall q', same_vq w w' q'
}.

Section Request.
Context {W : Type} `{!GuestKernel W, !CryptoLimits, !VirtqueueLaws W}.
Context (serve : bytes -> bytes) (qi qo : nat) `{!AnsweringHost W serve qi qo}.
Implicit Types (w : W) (e : env) (s : drv W) (p : port) (pb : port_buffer).
Hypothesis Hq : qi <> qo.

(** ** The port and its buffer *)

Definition live e (x : Z) : Prop := x <> 0 /\ is_Some (e_heap e !! x).

Section Buffer.
Variables a b : Z.

Record seen e s p pb : Prop := {
  sn_a : live e a;
  sn_b : live e b;
  sn_port : dr_ports s !! a = Some p;
  sn_buf : dr_bufs s !! b = Some pb;
  sn_in : pt_in_vq p = qi;
  sn_out : pt_out_vq p = qo
}.

(** Only the port, the buffer and the queues differ. *)
Record near s s' : Prop := {
  nr_devs : dr_devs s' = dr_devs s;
  nr_data : dr_data s' = dr_data s;
  nr_ports : forall x, x <> a -> dr_ports s' !! x = dr_ports s !! x;
  nr_bufs : forall x, x <> b -> dr_bufs s' !! x = dr_bufs s !! x
}.
Lemma near_refl s : near s s.
Proof. done. Qed.
Lemma near_trans s1 s2 s3 : near s1 s2 -> near s2 s3 -> near s1 s3.
Proof. intros [D1 G1 P1 B1] [D2 G2 P2 B2]. split; [congruence|congruence|..]; intros x Hx; [by rewrite P2, P1|by rewrite B2, B1]. Qed.
Lemma near_port s p : near s (upd_port a p s).
Proof. split; try done. intros x Hx. cbn. by rewrite lookup_insert_ne by congruence. Qed.
Lemma near_buf s pb : near s (upd_buf b pb s).
Proof. split; try done. intros x Hx. cbn. by rewrite lookup_insert_ne by congruence. Qed.

Lemma live_object {A} (field : drv W -> gmap Z A) e s x y (Q : A -> env * drv W -> Prop) :
  live e x -> field s !! x = Some y -> Q y (e, s) -> wp (object_at field x) Q (e, s).
Proof.
  intros [H0 [k Hk]] Hy HQ. unfold object_at. rewrite (proj2 (Z.eqb_neq x 0)) by done. unfold touch. ksteps. rewrite Hk. ksteps. by rewrite Hy.
Qed.
Lemma seen_port_at e s p pb (Q : port -> env * drv W -> Prop) : seen e s p pb -> Q p (e, s) -> wp (port_at a) Q (e, s).
Proof. intros [] HQ. by eapply live_object. Qed.
Lemma seen_buf_at e s p pb (Q : port_buffer -> env * drv W -> Prop) : seen e s p pb -> Q pb (e, s) -> wp (buf_at b) Q (e, s).
Proof. intros [] HQ. by eapply live_object. Qed.
Lemma seen_mod_port f e s p pb (Q : unit -> env * drv W -> Prop) :
  seen e s p pb -> pt_in_vq (f p) = pt_in_vq p -> pt_out_vq (f p) = pt_out_vq p ->
  (seen e (upd_port a (f p) s) (f p) pb -> Q tt (e, upd_port a (f p) s)) -> wp (mod_port a f) Q (e, s).
Proof.
  intros Hs Ei Eo HQ. unfold mod_port. apply wp_bind. eapply seen_port_at; [exact Hs|]. apply HQ. destruct Hs as [? ? ? ? Hi Ho].
  split; try done; [cbn; by rewrite lookup_insert_eq|by rewrite Ei|by rewrite Eo].
Qed.
Lemma seen_mod_buf f e s p pb (Q : unit -> env * drv W -> Prop) :
  seen e s p pb -> (seen e (upd_buf b (f pb) s) p (f pb) -> Q tt (e, upd_buf b (f pb) s)) -> wp (mod_buf b f) Q (e, s).
Proof.
  intros Hs HQ. unfold mod_buf. apply wp_bind. eapply seen_buf_at; [exact Hs|]. apply HQ. destruct Hs.
  split; try done. cbn. by rewrite lookup_insert_eq.
Qed.
Lemma seen_w e s p pb w f : seen e s p pb -> seen (set_mem f e) (set_dr_w w s) p pb.
Proof. by intros []. Qed.

(** ** The queues *)

Definition alike w w' : Prop := (forall q, same_vq w w' q) /\ vq_budget w' = vq_budget w.
Lemma alike_trans w1 w2 w3 : alike w1 w2 -> alike w2 w3 -> alike w1 w3.
Proof.
  intros [H1 B1] [H2 B2]. split; [|congruence]. intros q. destruct (H1 q) as (? & ? & ?), (H2 q) as (? & ? & ?).
  split_and!; congruence.
Qed.

Lemma get_none q e s (Q : option (Z * Z) -> env * drv W -> Prop) :
  vq_used (dr_w s) q = [] -> (forall w', alike (dr_w s) w' -> Q None (e, set_dr_w w' s)) ->
  wp (on_kernel (virtqueue_get_buf q)) Q (e, s).
Proof.
  intros Hu HQ. destruct (get_buf_law q e (dr_w s)) as (w' & E & Hb & Ho & Ha & Hu'). rewrite Hu in E, Hu'. cbn in E, Hu'.
  eapply on_kernel_spec; [exact E|]. apply HQ. split; [|done]. intros q'. destruct (decide (q' = q)) as [->|]; [|by apply Ho].
  pose proof (get_room _ _ _ _ _ E) as Hr. cbn in Hr. split_and!; [done|congruence|done].
Qed.

Lemma get_some q t n us e s (Q : option (Z * Z) -> env * drv W -> Prop) :
  vq_used (dr_w s) q = (t, n) :: us ->
  (forall w', vq_budget w' = vq_budget (dr_w s) -> (forall q', q' <> q -> same_vq (dr_w s) w' q') ->
     vq_avail w' q = vq_avail (dr_w s) q -> vq_used w' q = us -> vq_room (dr_w s) q < vq_room w' q -> Q (Some (t, n)) (e, set_dr_w w' s)) ->
  wp (on_kernel (virtqueue_get_buf q)) Q (e, s).
Proof.
  intros Hu HQ. destruct (get_buf_law q e (dr_w s)) as (w' & E & Hb & Ho & Ha & Hu'). rewrite Hu in E, Hu'. cbn in E, Hu'.
  eapply on_kernel_spec; [exact E|]. apply HQ; try done. exact (get_room _ _ _ _ _ E).
Qed.

Lemma add_one q outs ins tok e s (Q : Z -> env * drv W -> Prop) :
  (length outs + length ins = 1)%nat -> 0 < vq_room (dr_w s) q ->
  (forall w', vq_budget w' = vq_budget (dr_w s) -> (forall q', q' <> q -> same_vq (dr_w s) w' q') ->
     vq_avail w' q = vq_avail (dr_w s) q ++ [VBuf tok outs ins] -> vq_used w' q = vq_used (dr_w s) q ->
     vq_room w' q = vq_room (dr_w s) q - 1 -> Q (vq_room (dr_w s) q - 1) (e, set_dr_w w' s)) ->
  wp (on_kernel (virtqueue_add_buf q outs ins tok)) Q (e, s).
Proof.
  intros Hl Hr HQ. destruct (add_buf_law q outs ins tok e (dr_w s)) as (r & w' & E & Hb & Ho & Hu & Hc).
  pose proof (add_fits _ _ _ _ _ _ _ _ E Hl Hr) as H0. destruct Hc as [[? _]|(_ & Ha & Hr1 & Hr2)]; [lia|].
  eapply on_kernel_spec; [exact E|]. assert (r = vq_room (dr_w s) q - 1) as -> by lia. by apply HQ.
Qed.

Lemma reclaim_idle e s p pb (Q : unit -> env * drv W -> Prop) :
  seen e s p pb -> pt_portdev p <> 0 -> vq_used (dr_w s) qo = [] ->
  (forall w', alike (dr_w s) w' -> Q tt (e, set_dr_w w' s)) -> wp (reclaim_consumed_buffers a) Q (e, s).
Proof.
  intros Hs Hd Hu HQ. unfold reclaim_consumed_buffers. apply wp_bind. eapply seen_port_at; [exact Hs|].
  rewrite (proj2 (Z.eqb_neq _ _)) by done. eapply (wp_while _ (fun z _ st => z = 0 /\ st = (e, s))); [|done|done].
  intros z [] st [-> ->]. unfold reclaim_round. apply wp_bind. eapply seen_port_at; [exact Hs|].
  apply wp_bind. apply get_none; [by rewrite (sn_out _ _ _ _ Hs)|]. intros w' Hw. ksteps. by apply HQ.
Qed.

Lemma write_idle e s p pb (Q : bool -> env * drv W -> Prop) :
  seen e s p pb -> pt_portdev p <> 0 -> pt_guest_connected p = true -> pt_host_connected p = true -> pt_outvq_full p = false ->
  vq_used (dr_w s) qo = [] -> (forall w', alike (dr_w s) w' -> Q false (e, set_dr_w w' s)) -> wp (will_write_block a) Q (e, s).
Proof.
  intros Hs Hd Hg Hh Hf Hu HQ. unfold will_write_block. apply wp_bind. eapply seen_port_at; [exact Hs|]. rewrite Hg, Hh. cbn [negb].
  apply wp_bind. eapply reclaim_idle; [exact Hs|done|done|]. intros w' Hw. apply wp_bind.
  eapply (seen_port_at _ _ _ pb); [by destruct Hs|]. rewrite Hf. by apply HQ.
Qed.

(** ** Sending the request *)

(** The queues when the host has answered with [n] bytes. *)
Record replied w w' (n : Z) : Prop := {
  rp_in : exists v, vq_avail w qi = v :: vq_avail w' qi;
  rp_used : vq_used w' qi = [(b, n)];
  rp_out : vq_avail w' qo = [] /\ vq_used w' qo = [];
  rp_room : vq_room w qo <= vq_room w' qo;
  rp_rest : forall q, q <> qi -> q <> qo -> same_vq w w' q
}.

Lemma send_done cr n size rest e s p pb (Q : Z -> env * drv W -> Prop) :
  let reply := serve (peeks (e_mem e) (seqZ cr n)) in
  let e' := set_mem (pokes (seqZ (pb_buf pb) n) reply) e in
  seen e s p pb -> pt_portdev p <> 0 -> vq_avail (dr_w s) qo = [] -> vq_used (dr_w s) qo = [] -> 1 < vq_room (dr_w s) qo ->
  vq_avail (dr_w s) qi = VBuf b [] [(pb_buf pb, size)] :: rest -> vq_used (dr_w s) qi = [] -> vq_budget (dr_w s) <> 0%nat ->
  Z.of_nat (length reply) = n -> n <= size ->
  (forall s' v, near s s' -> seen e' s' (set_pt_sent v p) pb -> replied (dr_w s) (dr_w s') n -> Q n (e', s')) ->
  wp (send_buf a cr n false) Q (e, s).
Proof.
  intros reply e' Hs Hd Hao Huo Hro Hai Hui Hb Hl Hn HQ. unfold send_buf. apply wp_bind. eapply seen_port_at; [exact Hs|].
  apply wp_bind. eapply reclaim_idle; [exact Hs|done|done|]. intros w1 [Hw1 Hb1]. rewrite (sn_out _ _ _ _ Hs).
  destruct (Hw1 qo) as (Ao1 & Uo1 & Ro1), (Hw1 qi) as (Ai1 & Ui1 & _).
  apply wp_bind. apply add_one; cbn [dr_w set_dr_w]; [done|lia|]. intros w2 Hb2 Hw2 Ao2 Uo2 Ro2. rewrite Ao1, Hao in Ao2. cbn in Ao2.
  destruct (Hw2 qi Hq) as (Ai2 & Ui2 & _). destruct (kick_law qo e w2) as (e3 & w3 & Ek & _ & _ & Hk).
  destruct (kick_answers e w2 e3 w3 cr cr n b (pb_buf pb) size rest) as (-> & Ai3 & Ui3 & Ao3 & Uo3 & Hw3); try done; try congruence.
  assert (Ro3 : vq_room w3 qo = vq_room w2 qo) by (destruct (Hk qo) as (? & ? & _ & _ & _ & Hr & _); exact Hr).
  apply wp_bind. eapply on_kernel_spec; [exact Ek|]. rewrite (proj2 (Z.ltb_ge _ _)), (proj2 (Z.eqb_neq _ _)) by lia.
  apply wp_bind. ksteps. unfold spin. eapply (wp_while _ (fun z _ st => z = 0 /\ st = (e', set_dr_w w3 (set_dr_w w2 (set_dr_w w1 s))))); [|done|done].
  intros z [] st [-> ->]. apply wp_bind. eapply get_some; [cbn [dr_w set_dr_w]; by rewrite Uo3, Uo2, Uo1, Huo|]. cbn [dr_w set_dr_w].
  intros w4 Hb4 Hw4 Ao4 Uo4 Ro4. ksteps. apply wp_bind. eapply (seen_mod_port _ _ _ p pb); [by destruct Hs|done|done|]. intros Hs5. ksteps.
  destruct (Hw4 qi Hq) as (Ai4 & Ui4 & _). eapply HQ; [|exact Hs5|].
  - eapply near_trans; [|apply near_port]. by split.
  - cbn. split; [exists (VBuf b [] [(pb_buf pb, size)]); congruence|congruence|split; congruence|lia|].
    intros q Hqi Hqo. destruct (Hw1 q) as (? & ? & ?), (Hw2 q Hqo) as (? & ? & ?), (Hw3 q Hqi Hqo) as (? & ? & ?), (Hw4 q Hqo) as (? & ? & ?).
    split_and!; congruence.
Qed.

(** ** Taking the answer *)

Lemma has_data_new n e s p pb (Q : bool -> env * drv W -> Prop) :
  seen e s p pb -> pt_inbuf p = 0 -> vq_used (dr_w s) qi = [(b, n)] ->
  (forall s' v, near s s' -> seen e s' (set_pt_inbuf b (set_pt_received v p)) (set_pb_len_offset n 0 pb) ->
     (forall q, q <> qi -> same_vq (dr_w s) (dr_w s') q) -> vq_avail (dr_w s') qi = vq_avail (dr_w s) qi ->
     vq_used (dr_w s') qi = [] -> 0 < vq_room (dr_w s') qi -> Q true (e, s')) ->
  wp (port_has_data a) Q (e, s).
Proof.
  intros Hs Hi Hu HQ. unfold port_has_data, get_inbuf. apply wp_bind, wp_bind. eapply seen_port_at; [exact Hs|].
  rewrite Hi, Z.eqb_refl, (sn_in _ _ _ _ Hs). cbn [negb]. apply wp_bind. eapply get_some; [exact Hu|]. intros w1 _ Hw1 Ai1 Ui1 Ri1.
  apply wp_bind. eapply (seen_mod_buf _ _ _ p pb); [by destruct Hs|]. intros Hs1.
  apply wp_bind. eapply (seen_mod_port _ _ _ p); [exact Hs1|done|done|]. intros Hs2. ksteps.
  eapply seen_mod_port; [exact Hs2|done|done|]. intros Hs3. ksteps.
  rewrite (proj2 (Z.eqb_neq b 0)) by apply (sn_b _ _ _ _ Hs). eapply HQ; [|exact Hs3|exact Hw1|exact Ai1|exact Ui1|].
  - eapply near_trans; [|apply near_port]. eapply near_trans; [|apply near_port]. eapply near_trans; [|apply near_buf]. by split.
  - cbn. pose proof (room_law (dr_w s) qi). lia.
Qed.

Lemma has_data_kept e s p pb (Q : bool -> env * drv W -> Prop) :
  seen e s p pb -> pt_inbuf p = b ->
  (forall s', near s s' -> seen e s' p pb -> dr_w s' = dr_w s -> Q true (e, s')) -> wp (port_has_data a) Q (e, s).
Proof.
  intros Hs Hi HQ. destruct (sn_b _ _ _ _ Hs) as [Hb _]. unfold port_has_data, get_inbuf. apply wp_bind, wp_bind. eapply seen_port_at; [exact Hs|].
  rewrite Hi, (proj2 (Z.eqb_neq b 0)) by done. cbn [negb]. ksteps. eapply seen_mod_port; [exact Hs|done|done|]. intros Hs1. ksteps.
  rewrite (proj2 (Z.eqb_neq b 0)) by done. assert (E : set_pt_inbuf b p = p) by (rewrite <- Hi; by destruct p). rewrite E in *.
  apply HQ; [apply near_port|done|done].
Qed.

Lemma requeue_done e s p pb (Q : Z -> env * drv W -> Prop) :
  seen e s p pb -> 0 < vq_room (dr_w s) qi -> Forall has_ins (vq_avail (dr_w s) qi) ->
  (forall r w', (forall q, q <> qi -> same_vq (dr_w s) w' q) ->
     vq_avail w' qi = vq_avail (dr_w s) qi ++ [VBuf b [] [(pb_buf pb, pb_size pb)]] -> vq_used w' qi = vq_used (dr_w s) qi -> Q r (e, set_dr_w w' s)) ->
  wp (add_inbuf qi b) Q (e, s).
Proof.
  intros Hs Hr Hf HQ. unfold add_inbuf. apply wp_bind. eapply seen_buf_at; [exact Hs|]. apply wp_bind. apply add_one; [done|done|].
  intros w1 _ Hw1 Ai1 Ui1 _. destruct (kick_law qi e w1) as (e2 & w2 & Ek & _). destruct (kick_idle qi e w1 e2 w2) as [-> Hw2]; [|done|].
  { rewrite Ai1. apply list.Forall_app. split; [done|]. by constructor. }
  apply wp_bind. eapply on_kernel_spec; [exact Ek|]. ksteps. destruct (Hw2 qi) as (Ai2 & Ui2 & _). apply (HQ _ w2); [|congruence..].
  intros q Hne. destruct (Hw1 q Hne) as (? & ? & ?), (Hw2 q) as (? & ? & ?). split_and!; congruence.
Qed.

Lemma fill_done cr n e s p pb (Q : Z -> env * drv W -> Prop) :
  let e' := set_mem (pokes (seqZ cr n) (peeks (e_mem e) (seqZ (pb_buf pb) n))) e in
  seen e s p pb -> pt_inbuf p = b -> pb_len pb = n -> pb_offset pb = 0 -> 0 < n < 2 ^ 64 -> n <= pb_size pb ->
  0 < vq_room (dr_w s) qi -> Forall has_ins (vq_avail (dr_w s) qi) ->
  (forall s', near s s' -> seen e' s' (set_pt_inbuf 0 p) (set_pb_offset n pb) ->
     (forall q, q <> qi -> same_vq (dr_w s) (dr_w s') q) -> vq_used (dr_w s') qi = vq_used (dr_w s) qi ->
     vq_avail (dr_w s') qi = vq_avail (dr_w s) qi ++ [VBuf b [] [(pb_buf pb, pb_size pb)]] -> Q n (e', s')) ->
  wp (fill_readbuf a cr n false) Q (e, s).
Proof.
  intros e' Hs Hi Hlen Hoff Hn Hsz Hr Hf HQ. unfold fill_readbuf. rewrite (proj2 (Z.eqb_neq n 0)) by lia.
  apply wp_bind. eapply has_data_kept; [exact Hs|done|]. intros s1 N1 Hs1 Ew1. cbn [negb].
  apply wp_bind. eapply seen_port_at; [exact Hs1|]. rewrite Hi. apply wp_bind. eapply seen_buf_at; [exact Hs1|].
  rewrite Hlen, Hoff, Z.sub_0_r, Z.add_0_l, u64_small, Z.min_id by lia. rewrite (proj2 (Z.ltb_ge _ _)) by done. ksteps. rewrite Z.add_0_r. fold e'.
  eapply (seen_mod_buf _ _ _ p pb); [by destruct Hs1|]. intros Hs2. rewrite Z.eqb_refl.
  apply wp_bind, wp_bind. eapply seen_mod_port; [exact Hs2|done|done|]. intros Hs3. apply wp_bind. rewrite (sn_in _ _ _ _ Hs).
  eapply requeue_done; [exact Hs3|cbn; by rewrite Ew1|cbn; by rewrite Ew1|]. cbn [dr_w set_dr_w upd_port upd_buf set_dr_ports set_dr_bufs]. rewrite Ew1.
  intros r w4 Hw4 Ai4 Ui4. ksteps. apply HQ; [|by destruct Hs3|done|done|done].
  eapply near_trans; [exact N1|]. eapply near_trans; [apply near_buf|]. eapply near_trans; [apply near_port|]. by split.
Qed.

(** ** The exchange *)

(** The port is open and connected, nothing is under way, and the buffer is the
    next one that the host gets. *)
Record idle_port e s p pb (rest : list vbuf) : Prop := {
  id_seen : seen e s p pb;
  id_portdev : pt_portdev p <> 0;
  id_guest : pt_guest_connected p = true;
  id_host : pt_host_connected p = true;
  id_full : pt_outvq_full p = false;
  id_inbuf : pt_inbuf p = 0;
  id_out : vq_avail (dr_w s) qo = [] /\ vq_used (dr_w s) qo = [];
  id_room : 1 < vq_room (dr_w s) qo;
  id_in : vq_avail (dr_w s) qi = VBuf b [] [(pb_buf pb, pb_size pb)] :: rest;
  id_used : vq_used (dr_w s) qi = [];
  id_ins : Forall has_ins rest;
  id_size : pb_size pb = PAGE_SIZE
}.

Lemma idle_alike e s p pb rest w : idle_port e s p pb rest -> alike (dr_w s) w -> idle_port e (set_dr_w w s) p pb rest.
Proof.
  intros [Hs ? ? ? ? ? [? ?] ? ? ? ? ?] [Hw _]. destruct (Hw qo) as (Ao & Uo & Ro), (Hw qi) as (Ai & Ui & _).
  split; cbn; try done; [by destruct Hs|split; congruence|lia|congruence|congruence].
Qed.

(** The same, later: the buffer went to the end of the queue. *)
Record turned s p pb (rest : list vbuf) s' p' pb' : Prop := {
  tn_near : near s s';
  tn_core : core p' = core p;
  tn_full : pt_outvq_full p' = pt_outvq_full p;
  tn_inbuf : pt_inbuf p' = 0;
  tn_buf : pb_buf pb' = pb_buf pb;
  tn_size : pb_size pb' = pb_size pb;
  tn_in : vq_avail (dr_w s') qi = rest ++ [VBuf b [] [(pb_buf pb, pb_size pb)]];
  tn_used : vq_used (dr_w s') qi = [];
  tn_out : vq_avail (dr_w s') qo = [] /\ vq_used (dr_w s') qo = [];
  tn_room : vq_room (dr_w s) qo <= vq_room (dr_w s') qo;
  tn_rest : forall q, q <> qi -> q <> qo -> same_vq (dr_w s) (dr_w s') q
}.

Variable sleep : K (drv W) Z.

Lemma exchange_done cr e s p pb rest (Q : option Z -> env * drv W -> Prop) :
  let n := sizeof_crypto_data in
  let reply := serve (peeks (e_mem e) (seqZ cr n)) in
  let e' := set_mem (pokes (seqZ cr n) reply) (set_mem (pokes (seqZ (pb_buf pb) n) reply) e) in
  idle_port e s p pb rest -> vq_budget (dr_w s) <> 0%nat -> Z.of_nat (length reply) = n -> 0 < n <= PAGE_SIZE ->
  (forall s' p' pb', turned s p pb rest s' p' pb' -> seen e' s' p' pb' -> Q None (e', s')) ->
  wp (exchange sleep a cr false) Q (e, s).
Proof.
  intros n reply e' [Hs Hd Hg Hh Hf Hi [Ao Uo] Ro Ai Ui Hins Hsz] Hb Hl Hn HQ. unfold exchange. apply wp_bind.
  eapply (send_done _ _ (pb_size pb) rest); [exact Hs|done|done|done|done|done|done|done|done|rewrite Hsz; apply Hn|].
  intros s1 v1 N1 Hs1 [[x Ai1] Ui1 [Ao1 Uo1] Ro1 Hw1]. rewrite Ai in Ai1. injection Ai1 as _ Ai1.
  apply wp_bind. eapply has_data_new; [exact Hs1|done|exact Ui1|]. intros s2 v2 N2 Hs2 Hw2 Ai2 Ui2 Ri2.
  apply wp_bind. eapply seen_port_at; [exact Hs2|]. ksteps. eapply seen_port_at; [exact Hs2|]. cbn [pt_guest_connected set_pt_inbuf set_pt_received set_pt_sent].
  rewrite Hg. cbn [negb]. apply wp_bind. eapply has_data_kept; [exact Hs2|done|]. intros s3 N3 Hs3 Ew3.
  apply wp_bind. eapply seen_port_at; [exact Hs3|]. cbn [negb andb]. apply wp_bind.
  assert (E4 : peeks (pokes (seqZ (pb_buf pb) n) reply (e_mem e)) (seqZ (pb_buf pb) n) = reply).
  { apply peeks_pokes_eq; [apply NoDup_seqZ|]. rewrite length_seqZ. lia. }
  eapply (fill_done cr n); [exact Hs3|done|done|done|unfold PAGE_SIZE in Hn; lia|cbn; rewrite Hsz; apply Hn|by rewrite Ew3|by rewrite Ew3, Ai2, <- Ai1|].
  rewrite Ew3. cbn [pb_buf set_pb_len_offset pb_size e_mem set_mem]. fold n; fold reply; rewrite E4. fold e'. intros s4 N4 Hs4 Hw4 Ui4 Ai4. ksteps.
  destruct (Hw2 qo) as (? & ? & ?), (Hw4 qo) as (? & ? & ?); [by apply not_eq_sym..|]. eapply HQ; [|exact Hs4].
  split; try done; [|congruence|congruence|split; congruence|lia|].
  - eapply near_trans; [exact N1|]. eapply near_trans; [exact N2|]. by eapply near_trans.
  - intros q Hqi Hqo. destruct (Hw1 q Hqi Hqo) as (? & ? & ?), (Hw2 q Hqi) as (? & ? & ?), (Hw4 q Hqi) as (? & ? & ?). split_and!; congruence.
Qed.
End Buffer.

(** ** The request block *)

(** Only memory of the kernel differs. *)
Record staged e0 e : Prop := {
  sg_only : mem_only e0 e;
  sg_user : user_eq (e_mem e) (e_mem e0)
}.
Lemma staged_refl e : staged e e.
Proof. split; [split; [by destruct e as [[] ? ? ? ? ? ? ? ?]|done]|done]. Qed.
Lemma staged_pokes e0 e x n bs : staged e0 e -> TASK_SIZE <= x -> staged e0 (set_mem (pokes (seqZ x n) bs) e).
Proof.
  intros [Hm Hu] Hx. split; [eapply mem_only_trans; [exact Hm|apply mem_only_pokes]|]. etrans; [by apply user_eq_kernel|done].
Qed.
Lemma staged_peeks e0 e x n : staged e0 e -> x + n <= TASK_SIZE -> peeks (e_mem e) (seqZ x n) = peeks (e_mem e0) (seqZ x n).
Proof. intros [_ Hu] Hx. by apply peeks_user_eq. Qed.
Lemma staged_pages e0 e : staged e0 e -> m_pages (e_mem e) = m_pages (e_mem e0).
Proof. by intros [[_ ?] _]. Qed.
Lemma staged_context e0 e : staged e0 e -> e_user e = e_user e0.
Proof. intros [[-> _] _]. done. Qed.

Lemma wr_done cr off bs e s (Q : unit -> env * drv W -> Prop) :
  off + Z.of_nat (length bs) <= sizeof_crypto_data -> Q tt (set_mem (pokes (seqZ (cr + off) (Z.of_nat (length bs))) bs) e, s) ->
  wp (wr_data cr off bs) Q (e, s).
Proof. intros Hl HQ. unfold wr_data. by rewrite (proj2 (Z.ltb_ge _ _)). Qed.
Lemma rd_done cr off n e s (Q : bytes -> env * drv W -> Prop) :
  off + n <= sizeof_crypto_data -> Q (peeks (e_mem e) (seqZ (cr + off) n)) (e, s) -> wp (rd_data cr off n) Q (e, s).
Proof. intros Hl HQ. unfold rd_data. by rewrite (proj2 (Z.ltb_ge _ _)). Qed.

Lemma fetch_done cr off from n e0 e s (Q : bool -> env * drv W -> Prop) :
  let e' := set_mem (pokes (seqZ (cr + off) n) (peeks (e_mem e0) (seqZ from n))) e in
  staged e0 e -> e_user e0 = true -> range_readable (e_mem e0) from n -> 0 <= n -> off + n <= sizeof_crypto_data ->
  Q true (e', s) -> wp (fetch cr off from n) Q (e, s).
Proof.
  intros e' Hs Hu Hr Hn Hl HQ. unfold fetch. apply wp_bind. apply copy_from_user_spec; [by rewrite (staged_context e0)|done|].
  intros bs nleft _ _ Heq H0. assert (nleft = 0) as -> by (apply H0; eapply range_readable_pages; [by apply staged_pages|exact Hr]).
  rewrite (Heq eq_refl), (staged_peeks e0 e) by (done || by eapply range_readable_bounds).
  assert (El : Z.of_nat (length (peeks (e_mem e0) (seqZ from n))) = n) by (rewrite length_peeks, length_seqZ; lia).
  apply wp_bind. apply wr_done; rewrite El; done.
Qed.
Lemma copy_back e0 e s x bs (Q : Z -> env * drv W -> Prop) :
  staged e0 e -> e_user e0 = true -> range_writable (e_mem e0) x (Z.of_nat (length bs)) ->
  Q 0 (set_mem (pokes (seqZ x (Z.of_nat (length bs))) bs) e, s) -> wp (copy_to_user x bs) Q (e, s).
Proof.
  intros Hs Hu Hw HQ. apply copy_to_user_spec; [by rewrite (staged_context e0)|]. intros l nleft _ _ Hl H0 _.
  assert (nleft = 0) as -> by (apply H0; eapply range_writable_pages; [by apply staged_pages|exact Hw]). by rewrite Hl.
Qed.

(** The block [R] is the request of a caller who passes [arg]. *)
Record packs (m : mem) (arg : Z) (R : bytes) : Prop := {
  pk_length : Z.of_nat (length R) = sizeof_crypto_data;
  pk_op : sub 0 sizeof_crypt_op R = peeks m (seqZ arg sizeof_crypt_op);
  pk_src : let op := decode_crypt_op (peeks m (seqZ arg sizeof_crypt_op)) in sub off_srcp (co_len op) R = peeks m (seqZ (co_src op) (co_len op));
  pk_dst : let op := decode_crypt_op (peeks m (seqZ arg sizeof_crypt_op)) in sub off_dstp (co_len op) R = peeks m (seqZ (co_dst op) (co_len op));
  pk_iv : let op := decode_crypt_op (peeks m (seqZ arg sizeof_crypt_op)) in
    sub off_ivp CRYPTO_BLOCK_MAX_LEN R = peeks m (seqZ (co_iv op) CRYPTO_BLOCK_MAX_LEN);
  pk_cmd : le_val (sub off_cmd 4 R) = CIOCCRYPT
}.

(** The caller passes a request that fits into the block, with buffers that can
    be read and written. *)
Record passes (m : mem) (arg : Z) (op : crypt_op) : Prop := {
  ps_op : op = decode_crypt_op (peeks m (seqZ arg sizeof_crypt_op));
  ps_arg : range_writable m arg sizeof_crypt_op;
  ps_len : 0 <= co_len op <= CRYPTO_DATA_MAX_LEN;
  ps_src : range_readable m (co_src op) (co_len op);
  ps_dst : range_writable m (co_dst op) (co_len op);
  ps_iv : range_readable m (co_iv op) CRYPTO_BLOCK_MAX_LEN
}.

(** The block that goes to the host. *)
Definition request_block (m : mem) (arg junk : Z) : bytes :=
  let op := decode_crypt_op (peeks m (seqZ arg sizeof_crypt_op)) in
  splice off_ivp (peeks m (seqZ (co_iv op) CRYPTO_BLOCK_MAX_LEN))
    (splice off_dstp (peeks m (seqZ (co_dst op) (co_len op)))
      (splice off_srcp (peeks m (seqZ (co_src op) (co_len op)))
        (splice 0 (peeks m (seqZ arg sizeof_crypt_op))
          (splice off_cmd (le_bytes 4 CIOCCRYPT) (replicate (Z.to_nat sizeof_crypto_data) junk))))).

Variable sleep : K (drv W) Z.

Lemma crypt_packs junk a cr arg op e0 e1 s (Q : Z -> env * drv W -> Prop) :
  passes (e_mem e0) arg op -> staged e0 e1 -> e_user e0 = true -> TASK_SIZE <= cr ->
  le_val (peeks (e_mem e1) (seqZ (cr + off_cmd) 4)) = CIOCCRYPT ->
  peeks (e_mem e1) (seqZ cr sizeof_crypto_data) = splice off_cmd (le_bytes 4 CIOCCRYPT) (replicate (Z.to_nat sizeof_crypto_data) junk) ->
  (forall e5, staged e0 e5 -> peeks (e_mem e5) (seqZ cr sizeof_crypto_data) = request_block (e_mem e0) arg junk ->
     packs (e_mem e0) arg (peeks (e_mem e5) (seqZ cr sizeof_crypto_data)) ->
     wp (finish_ioctl sleep a cr false (crypt_back cr arg)) Q (e5, s)) ->
  wp (port_ioctl_crypt sleep a cr arg false) Q (e1, s).
Proof.
  intros [-> Harg Hlen Hsrc Hdst Hiv] Hs1 Hu Hcr Hcmd Hblk HQ. destruct layout as (L1 & L2 & L3 & L4 & L5 & L6 & L7 & L8).
  set (m := e_mem e0) in *. set (op := decode_crypt_op (peeks m (seqZ arg sizeof_crypt_op))) in *.
  assert (H48 : sizeof_crypt_op = 48) by done. unfold port_ioctl_crypt.
  apply wp_bind. eapply fetch_done; [exact Hs1|done|by apply writable_range|lia|lia|]. cbn [negb]. rewrite Z.add_0_r. set (e2 := set_mem _ e1).
  assert (Hs2 : staged e0 e2) by (by apply staged_pokes). assert (Eop : peeks (e_mem e2) (seqZ cr sizeof_crypt_op) = peeks m (seqZ arg sizeof_crypt_op)).
  { apply peeks_stored; [lia|]. rewrite length_peeks, length_seqZ. lia. }
  apply wp_bind, rd_done; [lia|]. rewrite Z.add_0_r, Eop. fold op.
  apply wp_bind. eapply fetch_done; [exact Hs2|done|done|lia|lia|]. cbn [negb]. set (e3 := set_mem _ e2). assert (Hs3 : staged e0 e3) by (apply staged_pokes; [done|lia]).
  apply wp_bind. eapply fetch_done; [exact Hs3|done|by apply writable_range|lia|lia|]. cbn [negb]. set (e4 := set_mem _ e3).
  assert (Hs4 : staged e0 e4) by (apply staged_pokes; [done|lia]).
  apply wp_bind. eapply fetch_done; [exact Hs4|done|done|lia|lia|]. cbn [negb]. set (e5 := set_mem _ e4).
  apply HQ; [apply staged_pokes; [done|lia]| |].
  { unfold request_block. cbv zeta. fold m. fold op. rewrite <- Hblk. unfold e5, e4, e3, e2. cbn [e_mem set_mem]. fold m. rewrite !peeks_splice by (rewrite ?length_peeks, ?length_seqZ; lia).
    do 3 f_equal. rewrite <- (Z.add_0_r cr) at 1. apply peeks_splice; rewrite ?length_peeks, ?length_seqZ; lia. }
  split; cbv zeta; [rewrite length_peeks, length_seqZ; lia|..]; fold m; fold op; rewrite sub_peeks by lia; cbn [e_mem set_mem e5 e4 e3]; fold m; fold op.
  - rewrite Z.add_0_r, !peeks_apart by lia. exact Eop.
  - rewrite !peeks_apart by lia. apply peeks_stored; [lia|]. rewrite length_peeks, length_seqZ. lia.
  - rewrite peeks_apart by lia. apply peeks_stored; [lia|]. rewrite length_peeks, length_seqZ. lia.
  - apply peeks_stored; [lia|]. rewrite length_peeks, length_seqZ. lia.
  - rewrite !peeks_apart by lia. cbn [e2 e_mem set_mem]. by rewrite peeks_apart by lia.
Qed.

Lemma staged_same e0 e x n : staged e0 e -> x + n <= TASK_SIZE -> staged e0 (set_mem (pokes (seqZ x n) (peeks (e_mem e0) (seqZ x n))) e).
Proof.
  intros Hs Hx. rewrite <- (staged_peeks e0 e) by done. destruct Hs as [Hm Hu].
  split; [eapply mem_only_trans; [exact Hm|apply mem_only_pokes]|]. intros y Hy. cbn. rewrite pokes_peeks. by apply Hu.
Qed.

(** What the caller has got: the answer where it asked for it. *)
Record delivered (m : mem) (op : crypt_op) (data : bytes) (m' : mem) : Prop := {
  dl_data : peeks m' (seqZ (co_dst op) (co_len op)) = data;
  dl_rest : forall x, x < TASK_SIZE -> x ∉ seqZ (co_dst op) (co_len op) -> peek m' x = peek m x
}.

Lemma back_done cr arg op e0 e s (Q : Z -> env * drv W -> Prop) :
  let R := peeks (e_mem e) (seqZ cr sizeof_crypto_data) in
  passes (e_mem e0) arg op -> staged e0 e -> e_user e0 = true -> TASK_SIZE <= cr ->
  sub 0 sizeof_crypt_op R = peeks (e_mem e0) (seqZ arg sizeof_crypt_op) ->
  (forall e', mem_only e0 e' -> delivered (e_mem e0) op (sub off_dstp (co_len op) R) (e_mem e') -> Q 0 (e', s)) ->
  wp (crypt_back cr arg) Q (e, s).
Proof.
  intros R [Eop Harg Hlen _ Hdst _] Hs Hu Hcr ER HQ. destruct layout as (L1 & L2 & L3 & L4 & L5 & L6 & L7 & L8).
  assert (H48 : sizeof_crypt_op = 48) by done. unfold R in *. rewrite sub_peeks, Z.add_0_r in ER by lia. rewrite sub_peeks in HQ by lia. clear R.
  pose proof (range_writable_bounds _ _ _ Harg) as [_ Ba]. pose proof (range_writable_bounds _ _ _ Hdst) as [_ Bd].
  set (b := peeks (e_mem e0) (seqZ arg sizeof_crypt_op)) in *. assert (Eb : Z.of_nat (length b) = sizeof_crypt_op) by (unfold b; rewrite length_peeks, length_seqZ; lia).
  unfold crypt_back. apply wp_bind, rd_done; [lia|]. rewrite Z.add_0_r, ER. apply wp_bind. eapply (copy_back e0); [done|done|by rewrite Eb|].
  cbn [Z.eqb negb]. rewrite Eb. set (e2 := set_mem _ e). assert (Hs2 : staged e0 e2) by (by apply staged_same).
  apply wp_bind. unfold user_dst. ksteps.
  rewrite (proj2 (range_readable_pages _ (e_mem e2) _ _ (staged_pages _ _ Hs2) (writable_range _ _ _ Harg))), (staged_peeks e0 e2) by done.
  fold b. rewrite <- Eop. ksteps. apply rd_done; [lia|].
  assert (Ed : peeks (e_mem e2) (seqZ (cr + off_dstp) (co_len op)) = peeks (e_mem e) (seqZ (cr + off_dstp) (co_len op))) by (apply peeks_apart; lia).
  rewrite Ed. set (data := peeks (e_mem e) (seqZ (cr + off_dstp) (co_len op))) in *. assert (El : Z.of_nat (length data) = co_len op) by (unfold data; rewrite length_peeks, length_seqZ; lia).
  apply wp_bind. eapply (copy_back e0); [done|done|by rewrite El|]. rewrite El. ksteps. apply HQ.
  - eapply mem_only_trans; [apply Hs2|apply mem_only_pokes].
  - split; cbn [e_mem set_mem]; [apply peeks_stored; [lia|done]|]. intros x Hx Hn. rewrite peek_pokes_notin by done. by apply Hs2.
Qed.

(** ** The ioctl *)

Lemma live_grow e e1 L c k x : owns e L -> owns e1 ((c, k) :: L) -> live e x -> live e1 x.
Proof.
  intros [Hn Hh] Ho1 [H0 [k' Hk]]. split; [done|]. exists k'. rewrite Hh in Hk. apply elem_of_list_to_map_2 in Hk.
  eapply owns_lookup; [exact Ho1|]. by right.
Qed.
Lemma turned_alike a b s w p pb rest s' p' pb' :
  alike (dr_w s) w -> turned a b (set_dr_w w s) p pb rest s' p' pb' -> turned a b s p pb rest s' p' pb'.
Proof.
  intros [Hw _] [N ? ? ? ? ? ? ? ? Hr Hq']. destruct (Hw qo) as (_ & _ & Ro). split; try done; [by destruct N|cbn in Hr; lia|].
  intros q Hi Ho. destruct (Hw q) as (? & ? & ?), (Hq' q Hi Ho) as (? & ? & ?). cbn in *. split_and!; congruence.
Qed.

(** An answer to the block [R]: one of the same length, with the operation as it
    was. *)
Definition answers (R A : bytes) : Prop := length A = length R /\ sub 0 sizeof_crypt_op A = sub 0 sizeof_crypt_op R.

Lemma finish_done a b cr arg op e0 e s p pb rest L (Q : Z -> env * drv W -> Prop) :
  let R := peeks (e_mem e) (seqZ cr sizeof_crypto_data) in
  idle_port a b e s p pb rest -> vq_budget (dr_w s) <> 0%nat -> passes (e_mem e0) arg op -> staged e0 e -> e_user e0 = true ->
  answers R (serve R) -> TASK_SIZE <= cr -> TASK_SIZE <= pb_buf pb -> env_ok e0 -> owns e0 ((cr, OBuffer) :: L) -> packs (e_mem e0) arg R -> sizeof_crypto_data <= PAGE_SIZE ->
  (forall e' s' p' pb', env_ok e' -> owns e' L -> delivered (e_mem e0) op (sub off_dstp (co_len op) (serve R)) (e_mem e') ->
     turned a b s p pb rest s' p' pb' -> dr_ports s' !! a = Some p' -> dr_bufs s' !! b = Some pb' -> Q 0 (e', s')) ->
  wp (finish_ioctl sleep a cr false (crypt_back cr arg)) Q (e, s).
Proof.
  intros R Hid Hb Hpass Hs Hu [El Eop] Hcr Hbuf He Ho Hpk Hpg HQ. destruct layout as (L1 & L2 & L3 & L4 & L5 & L6 & L7 & L8).
  assert (Hl : Z.of_nat (length (serve R)) = sizeof_crypto_data) by (by rewrite El, (pk_length _ _ _ Hpk)).
  assert (H48 : sizeof_crypt_op = 48) by done. unfold finish_ioctl. apply wp_bind. eapply exchange_done; [exact Hid|done|exact Hl|lia|]. fold R. set (e2 := set_mem _ _).
  intros s2 p2 pb2 Ht [_ _ Hp2 Hpb2 _ _]. apply wp_bind. assert (Hs2 : staged e0 e2) by (by do 2 (apply staged_pokes; [|done])).
  assert (E2 : peeks (e_mem e2) (seqZ cr sizeof_crypto_data) = serve R) by (apply peeks_stored; [lia|done]).
  eapply back_done; [exact Hpass|exact Hs2|done|done|rewrite E2, Eop; apply Hpk|]. rewrite E2. intros e3 Hm3 Hd3.
  apply wp_bind. eapply (kfree_spec _ _ _ OBuffer L); [by eapply mem_only_ok|by eapply mem_only_owns|]. intros e4 Hw4 He4 Ho4. ksteps.
  eapply HQ; [done|done| |exact Ht|done|done]. by rewrite (sw_mem _ _ Hw4).
Qed.

Lemma ioctl_done a b arg op e s p pb rest L (Q : Z -> env * drv W -> Prop) :
  let R := request_block (e_mem e) arg (e_junk e) in
  idle_port a b e s p pb rest -> vq_budget (dr_w s) <> 0%nat -> passes (e_mem e) arg op -> e_user e = true -> e_allocs e = [] ->
  answers R (serve R) -> TASK_SIZE <= pb_buf pb -> env_ok e -> owns e L -> sizeof_crypto_data <= PAGE_SIZE ->
  (forall e' s' p' pb', packs (e_mem e) arg R -> env_ok e' -> owns e' L ->
     delivered (e_mem e) op (sub off_dstp (co_len op) (serve R)) (e_mem e') -> turned a b s p pb rest s' p' pb' ->
     dr_ports s' !! a = Some p' -> dr_bufs s' !! b = Some pb' -> Q 0 (e', s')) ->
  wp (port_fops_ioctl sleep a false CIOCCRYPT arg) Q (e, s).
Proof.
  intros R Hid Hb Hpass Hu Hal Han Hbuf He Ho Hpg HQ. destruct layout as (L1 & L2 & L3 & L4 & L5 & L6 & L7 & L8).
  destruct (Hid) as [Hs Hd Hg Hh Hf _ [_ Uo] _ _ _ _ _]. unfold port_fops_ioctl.
  apply wp_bind. eapply write_idle; [exact Hs|done|done|done|done|done|]. intros w1 Hw1. ksteps. change (0 <? 0) with false. cbv iota.
  pose proof (idle_alike _ _ _ _ _ _ _ _ Hid Hw1) as Hid1.
  apply wp_bind. eapply seen_port_at; [apply (id_seen _ _ _ _ _ _ _ Hid1)|]. rewrite Hg. cbn [negb].
  apply wp_bind. eapply kmalloc_spec; [exact He|exact Ho|by intros|]. intros cr e1 Hw He1 Ho1 H0 Hcr _. rewrite (proj2 (Z.eqb_neq cr 0)) by done.
  ksteps. apply wr_done; change (Z.of_nat (length (le_bytes 4 CIOCCRYPT))) with 4; [lia|].
  change (CIOCCRYPT =? CIOCGSESSION) with false. change (CIOCCRYPT =? CIOCCRYPT) with true. cbv iota. subst R.
  rewrite <- (sw_mem _ _ Hw) in *. set (R := request_block (e_mem e1) arg (e_junk e)) in *. assert (Hj : e_junk e1 = e_junk e) by apply Hw.
  eapply (crypt_packs (e_junk e) a cr arg op e1); [exact Hpass| |by rewrite (sw_user _ _ Hw)|done| | |].
  - do 2 (apply staged_pokes; [|lia]). apply staged_refl.
  - cbn [e_mem set_mem]. rewrite peeks_stored by done. vm_compute. reflexivity.
  - cbn [e_mem set_mem]. rewrite peeks_splice by (done || lia). f_equal. rewrite Hj. apply peeks_stored; [|rewrite length_replicate]; lia.
  - intros e5 Hs5 HR Hpk. eapply (finish_done _ b _ _ op e1); [|cbn [dr_w set_dr_w]; by rewrite (proj2 Hw1)|done|done|by rewrite (sw_user _ _ Hw)|by rewrite HR|done|exact Hbuf|done|exact Ho1|done|done|].
    + destruct Hid1 as [[Ha1 Hb1 ? ? ? ?] ? ? ? ? ? ? ? ? ? ? ?]. split; try done. pose proof (sg_only _ _ Hs5) as [E5 _].
      split; try done; rewrite E5; by eapply (live_grow e e1).
    + rewrite HR in *. intros e' s' p' pb' He' Ho' Hdl Ht Hp' Hpb'. eapply HQ; [exact Hpk|done|done|done|by eapply turned_alike|done|done].
Qed.

(** ** Ports that are ready *)

Definition offered s (v : vbuf) : Prop :=
  exists pb, v = VBuf (vb_tok v) [] [(pb_buf pb, pb_size pb)] /\ dr_bufs s !! vb_tok v = Some pb.

(** The port is open on both sides, nothing is under way, and the host has
    buffers for its answers. *)
Record ready pd e s d a p B l : Prop := {
  rd_plugged : plugged pd e s d a p B [] l true;
  rd_host : pt_host_connected p = true;
  rd_full : pt_outvq_full p = false;
  rd_inbuf : pt_inbuf p = 0;
  rd_queues : pt_in_vq p = qi /\ pt_out_vq p = qo;
  rd_used : vq_used (dr_w s) qi = [];
  rd_room : 1 < vq_room (dr_w s) qo;
  rd_some : vq_avail (dr_w s) qi <> [];
  rd_offers : Forall (offered s) (vq_avail (dr_w s) qi)
}.

Lemma offered_ins s v : offered s v -> has_ins v.
Proof. intros (pb & E & _). unfold has_ins. by rewrite E. Qed.

(** The next buffer is one of the port. *)
Lemma next_buffer pd e s d a p B l v rest :
  ready pd e s d a p B l -> vq_avail (dr_w s) qi = v :: rest ->
  exists pb, v = VBuf (vb_tok v) [] [(pb_buf pb, pb_size pb)] /\ dr_bufs s !! vb_tok v = Some pb /\ pb_size pb = PAGE_SIZE /\
    live e (vb_tok v) /\ TASK_SIZE <= pb_buf pb.
Proof.
  intros [[[He Ho _ Hbs Hin _ _ _ _] _ _ _ _ _ _ _ _ _ _] _ _ Hib [Ei Eo] Hu _ _ Hof] Hav.
  rewrite Hav in Hof. apply list.Forall_cons in Hof as [(pb & Ev & Hpb) _]. exists pb.
  assert (Ht : vb_tok v ∈ B.*1) by (rewrite Hin, Hib, Ei; unfold tokens; rewrite Hav; left).
  apply in_buf in Ht as [x Hx]. rewrite list.Forall_forall in Hbs. destruct (Hbs _ Hx) as (pb' & Epb' & Ex & Hsz). cbn in Epb', Ex.
  rewrite Hpb in Epb'. injection Epb' as <-. split_and!; try done.
  - assert (Hm : (vb_tok v, OPortBuf) ∈ port_objs a p ++ buf_objs B ++ objs OBuffer [] ++ file_objs p ++ l).
    { apply elem_of_app. right. apply elem_of_app. left. by apply (elem_buf_objs (vb_tok v, x)). }
    split; [by eapply owns_nonnull|]. exists OPortBuf. by eapply owns_lookup.
  - assert (Hm : (x, OBuffer) ∈ port_objs a p ++ buf_objs B ++ objs OBuffer [] ++ file_objs p ++ l).
    { apply elem_of_app. right. apply elem_of_app. left. unfold buf_objs. apply list_elem_of_In, in_concat.
      exists [(vb_tok v, OPortBuf); (x, OBuffer)]. split; [|by right; left]. apply list_elem_of_In, list_elem_of_fmap. by exists (vb_tok v, x). }
    rewrite Ex. by apply (env_heap _ He x OBuffer), (owns_lookup _ _ _ _ Ho).
Qed.

Lemma ready_idle pd e s d a p B l v rest pb :
  ready pd e s d a p B l -> vq_avail (dr_w s) qi = v :: rest -> v = VBuf (vb_tok v) [] [(pb_buf pb, pb_size pb)] ->
  dr_bufs s !! vb_tok v = Some pb -> pb_size pb = PAGE_SIZE -> live e (vb_tok v) -> idle_port a (vb_tok v) e s p pb rest.
Proof.
  intros Hr Hav Ev Hpb Hsz Hlive. destruct (Hr) as [Hpl Hh Hf Hib [Ei Eo] Hu Hroom _ Hof].
  pose proof (pd_nonnull _ _ _ _ _ _ _ _ _ _ Hpl) as Hnn. destruct Hpl as [[He Ho Hp _ _ _ Hout Hidle _] _ _ _ _ Hpd _ _ Hg _ _].
  split; try done.
  - split; try done. split; [eapply owns_nonnull; [exact He|exact Ho|left]|]. exists OPort. eapply owns_lookup; [exact Ho|left].
  - by rewrite Hpd.
  - rewrite Eo in *. split; [done|]. apply Permutation_nil in Hout. unfold tokens in Hout. rewrite Hidle in Hout. by apply fmap_nil_inv in Hout.
  - by rewrite <- Ev.
  - rewrite Hav in Hof. apply list.Forall_cons in Hof as [_ Hof]. eapply list.Forall_impl; [exact Hof|]. by apply offered_ins.
Qed.

Lemma turned_bufs a b s p pb rest s' p' pb' :
  turned a b s p pb rest s' p' pb' -> dr_bufs s !! b = Some pb -> dr_bufs s' !! b = Some pb' ->
  forall x pbx, dr_bufs s !! x = Some pbx -> exists pbx', dr_bufs s' !! x = Some pbx' /\ pb_buf pbx' = pb_buf pbx /\ pb_size pbx' = pb_size pbx.
Proof.
  intros [[_ _ _ Hb] _ _ _ ? ? _ _ _ _ _] E E' x pbx Hx. destruct (decide (x = b)) as [->|Hne].
  - rewrite E in Hx. injection Hx as <-. by exists pb'.
  - exists pbx. by rewrite Hb.
Qed.

Lemma turned_port a b e s p pb rest s' p' pb' e' B l L :
  port_st e s a p B [] [] l -> turned a b s p pb rest s' p' pb' -> dr_ports s' !! a = Some p' -> dr_bufs s !! b = Some pb ->
  dr_bufs s' !! b = Some pb' -> pt_in_vq p = qi -> pt_out_vq p = qo -> vq_used (dr_w s) qi = [] -> pb_size pb = PAGE_SIZE ->
  vq_avail (dr_w s) qi = VBuf b [] [(pb_buf pb, pb_size pb)] :: rest -> env_ok e' -> owns e' L -> L = port_objs a p ++ buf_objs B ++ objs OBuffer [] ++ l ->
  port_st e' s' a p' B [] [] l /\ kept a p s s'.
Proof.
  intros [He Ho Hp Hbs Hin Hins Hout Hidle Hap] Ht Hp' Epb Epb' Ei Eo Hu Hsz Hav He' Ho' ->.
  pose proof (turned_bufs _ _ _ _ _ _ _ _ _ Ht Epb Epb') as Hb.
  destruct Ht as [[Nd Ng Np Nb] Hc Hf Hi Hbuf Hsize Ai' Ui' [Ao' Uo'] _ Hw]. destruct (core_queues p p' Hc) as [Ei' Eo'].
  rewrite Ei, Eo in *. split; split; rewrite ?Ei', ?Eo', ?(core_objs a p p' Hc); try done.
  - eapply list.Forall_impl; [exact Hbs|]. intros x (pbx & E & E1 & E2). destruct (Hb _ _ E) as (pbx' & E' & F1 & F2).
    exists pbx'. split_and!; congruence.
  - rewrite Hin. cbn. unfold tokens. rewrite Hav, Ai', Hu, Ui', fmap_app. cbn. rewrite !app_nil_r. apply Permutation_cons_append.
  - rewrite Ai', Hav in *. apply list.Forall_cons in Hins as [Hh Ht]. apply list.Forall_app. split; [done|]. by constructor.
  - unfold tokens. by rewrite Ao', Uo'.
  - intros q Hqi Hqo. rewrite Ei in Hqi. rewrite Eo in Hqo. by rewrite (same_tokens (dr_w s) (dr_w s')) by (by apply Hw).
Qed.

Lemma ready_again pd e s d a p B l v rest pb s' p' pb' e' :
  ready pd e s d a p B l -> vq_avail (dr_w s) qi = v :: rest -> v = VBuf (vb_tok v) [] [(pb_buf pb, pb_size pb)] ->
  dr_bufs s !! vb_tok v = Some pb -> pb_size pb = PAGE_SIZE -> turned a (vb_tok v) s p pb rest s' p' pb' ->
  dr_ports s' !! a = Some p' -> dr_bufs s' !! vb_tok v = Some pb' -> env_ok e' ->
  owns e' (port_objs a p ++ buf_objs B ++ objs OBuffer [] ++ file_objs p ++ l) -> ready pd e' s' d a p' B l.
Proof.
  intros [Hpl Hh Hf Hib [Ei Eo] Hu Hroom _ Hof] Hav Ev Epb Hsz Ht Hp' Epb' He' Ho'.
  pose proof (pl_st _ _ _ _ _ _ _ _ _ _ Hpl) as Hst. rewrite Hib in Hst. assert (Hav' := Hav). rewrite Ev in Hav'.
  destruct (turned_port _ _ _ _ _ _ _ _ _ _ _ _ _ _ Hst Ht Hp' Epb Epb' Ei Eo Hu Hsz Hav' He' Ho' eq_refl) as [Hst' Hk].
  pose proof (turned_bufs _ _ _ _ _ _ _ _ _ Ht Epb Epb') as Hb.
  destruct Ht as [_ Hc Hf' Hi' Hbuf Hsize Ai' Ui' _ Hr' _]. destruct (core_queues p p' Hc) as [Ei' Eo']. split; try done.
  - eapply plugged_kept; [exact Hpl|by rewrite Hi'|done|done].
  - apply (f_equal pt_host_connected) in Hc. cbn in Hc. by rewrite Hc.
  - by rewrite Hf'.
  - by rewrite Ei', Eo'.
  - lia.
  - rewrite Ai'. by destruct rest.
  - assert (Hall : Forall (offered s') (vq_avail (dr_w s) qi)).
    { eapply list.Forall_impl; [exact Hof|]. intros x (pbx & Ex & Hx). destruct (Hb _ _ Hx) as (pbx' & Hx' & E1 & E2). exists pbx'. by rewrite E1, E2. }
    rewrite Hav in Hall. rewrite Ai', <- Ev. apply list.Forall_cons in Hall as [? ?]. apply list.Forall_app. split; [done|]. by constructor.
Qed.

(** The ioctl on a port that is ready. *)
Lemma ioctl_ready pd e s d a p B l arg op :
  let R := request_block (e_mem e) arg (e_junk e) in
  ready pd e s d a p B l -> vq_budget (dr_w s) <> 0%nat -> passes (e_mem e) arg op -> e_user e = true -> e_allocs e = [] ->
  sizeof_crypto_data <= PAGE_SIZE -> answers R (serve R) ->
  wp (port_fops_ioctl sleep a false CIOCCRYPT arg) (fun r '(e', s') => r = 0 /\ packs (e_mem e) arg R /\ exists p',
    delivered (e_mem e) op (sub off_dstp (co_len op) (serve R)) (e_mem e') /\ ready pd e' s' d a p' B l) (e, s).
Proof.
  intros R Hr Hb Hpass Hu Hal Hpg Han. destruct (vq_avail (dr_w s) qi) as [|v rest] eqn:Hav; [by destruct (rd_some _ _ _ _ _ _ _ _ Hr)|].
  destruct (next_buffer _ _ _ _ _ _ _ _ _ _ Hr Hav) as (pb & Ev & Epb & Hsz & Hlive & Hbuf).
  pose proof (ready_idle _ _ _ _ _ _ _ _ _ _ _ Hr Hav Ev Epb Hsz Hlive) as Hid.
  destruct (pl_st _ _ _ _ _ _ _ _ _ _ (rd_plugged _ _ _ _ _ _ _ _ Hr)) as [He Ho _ _ _ _ _ _ _].
  eapply ioctl_done; [exact Hid|done|exact Hpass|done|done|done|done|done|exact Ho|done|].
  intros e' s' p' pb' HR He' Ho' Hd Ht Hp' Hpb'. split; [done|]. split; [done|]. exists p'. split; [done|]. by eapply ready_again.
Qed.

(** C13: encrypting and decrypting through the driver in the guest.  On a port that
    is ready, with a host that answers the request [R] with [serve R], the ioctl
    CIOCCRYPT returns 0.  The host is sent the structure that the other side
    reads: the operation, the source, the destination and the IV of the caller
    at their places, and the command.  The caller finds the destination field of
    the answer in its buffer and the rest of its memory as it was; the block is
    freed, the buffer of the answer is given back to the host, and the port is
    ready again. *)
Theorem driver_crypt_correct pd e s d a p B l arg op :
  let R := request_block (e_mem e) arg (e_junk e) in
  ready pd e s d a p B l -> vq_budget (dr_w s) <> 0%nat -> passes (e_mem e) arg op -> e_user e = true -> e_allocs e = [] ->
  sizeof_crypto_data <= PAGE_SIZE -> answers R (serve R) ->
  packs (e_mem e) arg R /\ exists e' s' p',
    port_fops_ioctl sleep a false CIOCCRYPT arg (e, s) = Done 0 (e', s') /\
    delivered (e_mem e) op (sub off_dstp (co_len op) (serve R)) (e_mem e') /\ ready pd e' s' d a p' B l.
Proof.
  intros R Hr Hb Hpass Hu Hal Hpg Han. pose proof (ioctl_ready _ _ _ _ _ _ _ _ _ _ Hr Hb Hpass Hu Hal Hpg Han) as Hw.
  apply wp_done in Hw as (r & [e' s'] & E & -> & HR & p' & Hd & Hr'). split; [done|]. by exists e', s', p'.
Qed.
End Request.
