(* ===== verification/EndToEnd.v ===== *)
(** * From a program in the guest to the cipher and back

    The ioctl of a program in the guest on a port of the driver, with the device
    of the host behind its queues: the driver, the ring code, the serial bus, the
    crypto port and /dev/crypto of the host, composed. *)
From stdpp Require Import base gmap gmultiset list strings numbers.
From S2P Require Import Prelude Kernel KernelFacts Structs CryptoApi Sg Cryptlib CryptlibFacts Zc ZcFacts Fcrypt FcryptFacts Run RunFacts Authenc Ioctl FileFacts IoctlFacts.
From S2P Require Import Vring VringFacts RingFacts VirtioDev VirtioDevFacts Bus BusFacts PortFacts Backend BackendFacts Stack StackFacts.
From S2P Require Import Driver DriverDev DriverFacts RequestFacts.
Open Scope Z_scope.

Section EndToEnd.
Context `{CryptoAPI, !CryptoAPISizes, !CipherLaws, !HashLaws, !CryptoAPISucceeds, !CryptoLimits}.
Implicit Types (e : env) (s : csession).

(** ** The answer of the device *)

(** What the session [s] makes of the source [src] with the IV [iv]. *)
Definition computes s (op : crypt_op) (src iv out : bytes) : Prop :=
  exists iv' st',
    chunk (negb (co_op op =? COP_ENCRYPT)) s (memcpy (cd_iv (cs_cdata s)) iv (cd_ivsize (cs_cdata s))) (start_st s op) src src =
    (0, out, iv', st').

Variable map_ok : Z -> Z -> bool -> bool.
Variable frame : Z.

(** Kicked with the block [R] as a request for the session [s], the device leaves
    [A] in the buffer for the reply. *)
Definition device_answers s (R A : bytes) : Prop :=
  exists host_features vmstate e (v : vser (qhost files)) p qo qi base len l fd pr L i e' v',
    kicked map_ok frame e v p qo qi base len CIOCCRYPT l fd /\ qh_kernel (vs_host v) !! fd = Some pr /\ request_ok frame e base pr L i s /\
    peeks (e_mem e) (seqZ base sizeof_crypto_data) = R /\
    virtio_queue_notify (VirtioCallbacks0 := serial_callbacks (PortClass0 := crypto_port_class map_ok frame) map_ok host_features vmstate)
      (sp_ovq p) (e, v) = Done tt (e', v') /\
    peeks (e_mem e') (iov_part (chain_ins l) 0 sizeof_crypto_data) = A.

(** The operation of the request is not written. *)
Lemma answered_op e base p L i s out iv st :
  request_ok frame e base p L i s -> ses_ok s ->
  peeks (answered e base s out iv st) (seqZ base sizeof_crypt_op) = peeks (e_mem e) (seqZ base sizeof_crypt_op).
Proof.
  intros [_ Hfits Hlen Hiv Hnf _] Hs. destruct layout as (? & ? & ? & ? & ? & ? & ? & ?). unfold answered. cbv zeta.
  set (cop := req_cop (e_mem e) base) in *. set (k := request _ _ _).
  assert (Ed : co_dst cop = base + off_dstp) by done. unfold write_back.
  rewrite finish_digestsize. change (finishes s (kc_cop k)) with (finishes s cop). rewrite Hnf. change (kc_digestsize k) with 0. cbn [Z.eqb].
  destruct (writes_iv _); [unfold write_bytes; rewrite peeks_pokes_disj|]; try (apply peeks_pokes_disj, seqZ_disjoint; lia).
  apply seqZ_disjoint. rewrite finish_kcop_cop. change (co_iv (kc_cop k)) with (base + off_ivp). lia.
Qed.

(** The IV of the request is the one the cipher starts with. *)
Lemma request_iv e base p L i s :
  request_ok frame e base p L i s -> ses_ok s -> has_cipher s = true -> 0 <= base ->
  start_iv s (request e s (stack_kcop e (req_cop (e_mem e) base))) =
  memcpy (cd_iv (cs_cdata s)) (peeks (e_mem e) (seqZ (base + off_ivp) CRYPTO_BLOCK_MAX_LEN)) (cd_ivsize (cs_cdata s)).
Proof.
  intros [_ _ _ Hiv _ _] Hs Hc Hb. destruct layout as (? & ? & ? & ? & ? & ? & ? & ?). pose proof (session_ivsize _ Hs) as Hn.
  assert (H48 : sizeof_crypt_op = 48) by done. unfold start_iv, iv_bytes, request. rewrite Hc. cbn [kc_iv kc_ivlen kc_cop stack_kcop].
  change (co_iv (req_cop (e_mem e) base)) with (base + off_ivp). rewrite (proj2 (Z.eqb_neq _ _)) by lia.
  change EALG_MAX_BLOCK_LEN with 16. set (n := cd_ivsize (cs_cdata s)) in *. replace (Z.min (Z.min n n) 16) with n by lia.
  unfold memcpy. f_equal. rewrite (seqZ_split (base + off_ivp) n CRYPTO_BLOCK_MAX_LEN), peeks_app by lia.
  rewrite !take_app_length'; rewrite ?length_take, ?length_peeks, ?length_seqZ; try lia. rewrite take_ge; [done|].
  rewrite length_peeks, length_seqZ. lia.
Qed.

(** What the answer holds, in terms of the block. *)
Lemma device_answers_spec s R A :
  let op := decode_crypt_op (sub 0 sizeof_crypt_op R) in
  device_answers s R A -> has_cipher s = true ->
  answers R A /\ computes s op (sub off_srcp (co_len op) R) (sub off_ivp CRYPTO_BLOCK_MAX_LEN R) (sub off_dstp (co_len op) A).
Proof.
  intros op (hf & vm & e & v & p & qo & qi & base & len & l & fd & pr & L & i & e' & v' & Hk & Hfd & Hrq & HR & E & HA) Hc.
  destruct (notify_crypt _ _ hf vm _ _ _ _ _ _ _ _ _ _ _ _ _ Hk Hfd Hrq) as (e1 & v1 & p' & qo' & qi' & s' & E' & _ & Hd).
  assert (Ee : e1 = e') by (pose proof (eq_trans (eq_sym E') E); congruence). subst e1. destruct (ck_answer _ _ _ _ _ _ _ _ _ _ _ _ Hd) as (out & iv & st & Ho & _ & Hpk).
  rewrite HA in Hpk. assert (Hs := request_ses_ok _ _ _ _ _ _ _ Hrq).
  destruct layout as (? & ? & ? & ? & ? & ? & ? & ?). assert (H48 : sizeof_crypt_op = 48) by done.
  assert (Hb : 0 <= base).
  { eapply (rg_user _ _ _ _ _ _ (kk_regions _ _ _ _ _ _ _ _ _ _ _ _ Hk) RRequest base). change (zone base sizeof_crypto_data base). unfold zone. lia. }
  assert (Hop : req_cop (e_mem e) base = set_co_bufs (base + off_srcp) (base + off_dstp) (base + off_ivp) op).
  { unfold op. rewrite <- HR, sub_peeks, Z.add_0_r by lia. done. }
  pose proof (answered_dst map_ok frame base e pr L i s out iv st Hrq Hs Ho Hc) as Hdst. cbv zeta in Hdst. rewrite Hop, <- Hpk in Hdst.
  change (sub off_dstp (co_len op) A = out) in Hdst. split; [split|].
  - by rewrite Hpk, <- HR, !length_peeks.
  - rewrite Hpk, <- HR, !sub_peeks, Z.add_0_r by lia. by eapply answered_op.
  - exists iv, st. rewrite Hdst. destruct (Hrq) as [_ Hfits Hlen _ _ _]. rewrite Hop in Hfits, Hlen. cbn [co_len set_co_bufs] in Hlen.
    assert (0 <= co_len op) by (unfold crypt_op_fits, is_u in Hfits; cbn in Hfits; tauto).
    unfold crypt_out in Ho. cbv zeta in Ho. rewrite (request_iv e base pr L i s) in Ho by done. rewrite Hop in Ho.
    rewrite <- HR, !sub_peeks by lia. exact Ho.
Qed.

(** ** The program *)

Section Program.
Context {W : Type} `{!GuestKernel W, !VirtqueueLaws W}.
Context (serve : bytes -> bytes) (qi qo : nat) `{!AnsweringHost W serve qi qo}.
Hypothesis Hq : qi <> qo.
Variable sleep : K (drv W) Z.

(** C3: a program in the guest gets what the cipher of the host computes.  It
    calls the ioctl CIOCCRYPT on a port of the driver that is ready; the host
    answers as the device of QEMU does when its queue is kicked with the block
    that the driver sends, with the session open on /dev/crypto of the host.  Then
    the ioctl returns 0, and the destination of the program holds exactly what
    the cipher of that session makes of the program's source with the program's
    IV; the rest of its memory is as it was, nothing stays allocated in the guest
    and the port is ready for the next request. *)
Theorem guest_program_crypt pd e (d : drv W) dev a p B l arg op s :
  let m := e_mem e in
  let R := request_block m arg (e_junk e) in
  ready qi qo pd e d dev a p B l -> vq_budget (dr_w d) <> 0%nat -> passes m arg op -> e_user e = true -> e_allocs e = [] ->
  sizeof_crypto_data <= PAGE_SIZE -> device_answers s R (serve R) -> has_cipher s = true ->
  exists e' d' p' out,
    port_fops_ioctl sleep a false CIOCCRYPT arg (e, d) = Done 0 (e', d') /\
    computes s op (peeks m (seqZ (co_src op) (co_len op))) (peeks m (seqZ (co_iv op) CRYPTO_BLOCK_MAX_LEN)) out /\
    delivered m op out (e_mem e') /\ ready qi qo pd e' d' dev a p' B l.
Proof.
  intros m R Hr Hb Hpass Hu Hal Hpg Hdev Hc. destruct (device_answers_spec _ _ _ Hdev Hc) as [Han Hcomp].
  pose proof (ioctl_ready serve qi qo Hq sleep _ _ _ _ _ _ _ _ _ _ Hr Hb Hpass Hu Hal Hpg Han) as Hw.
  apply wp_done in Hw as (r & [e' d'] & E & -> & [_ Ho Hsrc _ Hiv _] & p' & Hdl & Hr').
  fold m R in Ho, Hsrc, Hiv, Hdl. cbv zeta in Hsrc, Hiv. rewrite Ho, <- (ps_op _ _ _ Hpass) in Hcomp.
  rewrite <- (ps_op _ _ _ Hpass) in Hsrc, Hiv. rewrite Hsrc, Hiv in Hcomp. by exists e', d', p', (sub off_dstp (co_len op) (serve R)).
Qed.
End Program.
End EndToEnd.
