(* ===== verification/SetupFacts.v ===== *)
(** * The queues of the device, seen from both sides

    The driver in the guest and the device of the host number the queues on their
    own; here they are shown to mean the same ones. *)
From stdpp Require Import base gmap gmultiset list strings numbers.
From S2P Require Import Prelude Kernel KernelFacts Structs Vring VirtioDev Bus BusFacts PortFacts Backend Driver DriverDev DriverFacts.
Open Scope Z_scope.

(** [find_vqs] gives the queues of the device in the order in which it is asked
    for them, or fails. *)
Class FindVqsLaw (W : Type) `{!GuestKernel W} := find_vqs_law : forall cbs e w,
  (exists w', find_vqs cbs (e, w) = Done (inl (seq 0 (length cbs))) (e, w')) \/
  (exists err w', find_vqs cbs (e, w) = Done (inr err) (e, w') /\ err < 0).

Section Setup.
Context {W : Type} `{!GuestKernel W, !CryptoLimits, !FindVqsLaw W}.
Implicit Types (e : env) (s : drv W) (d : ports_device).

Definition port_ovq (i : nat) : nat := S (port_ivq i).

(** The interrupt handlers go with the queues. *)
Definition callbacks_ok (n : nat) (cbs : list vq_callback) : Prop :=
  length cbs = (2 * n + 2)%nat /\ cbs !! 2%nat = Some ControlIntr /\ cbs !! 3%nat = Some NoCallback /\
  Forall (fun i => cbs !! port_ivq i = Some InIntr /\ cbs !! port_ovq i = Some OutIntr) (seq 0 n).
Global Instance vq_callback_eq_dec : EqDecision vq_callback.
Proof. solve_decision. Defined.
Global Instance callbacks_ok_dec n cbs : Decision (callbacks_ok n cbs).
Proof. unfold callbacks_ok. apply _. Defined.

Lemma callbacks_all e s : Forall (fun n => exists cbs, vq_callbacks true n (2 * n + 2) (e, s) = Done cbs (e, s) /\ callbacks_ok n cbs) (seq 1 31).
Proof.
  cbn [seq]. repeat constructor; (eexists; split; [vm_compute; reflexivity|]; apply (bool_decide_eq_true_1 (callbacks_ok _ _)); vm_compute; reflexivity).
Qed.

Lemma queues_all : Forall (fun n => exists ins outs,
  (forall e s, port_queues 1 0 0 (seq 0 (2 * n + 2)) (replicate n 0%nat) (replicate n 0%nat) (e, s) = Done (ins, outs) (e, s)) /\
  (forall e s, port_queues (n - 1) 1 4 (seq 0 (2 * n + 2)) ins outs (e, s) = Done (port_ivq <$> seq 0 n, port_ovq <$> seq 0 n) (e, s))) (seq 1 31).
Proof. cbn [seq]. repeat constructor; (eexists _, _; split; intros e s; vm_compute; reflexivity). Qed.

(** ** The driver *)

Lemma kmalloc_any n k e s l (Q : Z -> env * drv W -> Prop) :
  env_ok e -> owns e l -> (forall x e', env_ok e' -> owns e' (objs k (if_set x) ++ l) -> Q x (e', s)) -> wp (kmalloc n k) Q (e, s).
Proof.
  intros He Ho HQ. eapply kmalloc_spec; [exact He|exact Ho|intros; by apply HQ|].
  intros x e' _ He' Ho' Hx _ _. apply HQ; [done|]. by rewrite if_set_nz.
Qed.

(** The device as the host set it up, and as the driver found it. *)
Record agree_on {B} (v : vser B) d : Prop := {
  ag_c_ivq : pd_c_ivq d = vs_c_ivq v;
  ag_c_ovq : pd_c_ovq d = vs_c_ovq v;
  ag_in : pd_in_vqs d = vs_ivqs v;
  ag_out : pd_out_vqs d = vs_ovqs v
}.

Lemma place_spec {B} pd n in_arr out_arr (v : vser B) e s d L (Q : Z -> env * drv W -> Prop) :
  setup_ok n v -> (1 <= n <= 31)%nat -> env_ok e -> owns e L -> (pd, OPortdev) ∈ L -> dr_devs s !! pd = Some d ->
  (forall err s', err < 0 -> Q err (e, s')) ->
  (forall s' d', dr_devs s' !! pd = Some d' -> agree_on v d' -> pd_in_arr d' = in_arr -> pd_out_arr d' = out_arr -> Q 0 (e, s')) ->
  wp (place_vqs pd true n (2 * n + 2) in_arr out_arr) Q (e, s).
Proof.
  intros (Ec1 & Ec2 & _ & Ei & Eo & _) Hn He Ho Hin Hd Hf HQ. assert (Hs : n ∈ seq 1 31) by (apply elem_of_seq; lia).
  destruct (proj1 (list.Forall_forall _ _) (callbacks_all e s) n Hs) as (cbs & Ecb & Hl & _).
  destruct (proj1 (list.Forall_forall _ _) queues_all n Hs) as (ins & outs & E1 & E2).
  unfold place_vqs. apply wp_bind. eapply wp_eq; [exact Ecb|]. apply wp_bind.
  destruct (find_vqs_law cbs e (dr_w s)) as [[w' Ef]|(err & w' & Ef & Herr)]; (eapply on_kernel_spec; [exact Ef|]); [|by apply Hf].
  rewrite Hl. apply wp_bind. eapply wp_eq; [apply E1|]. apply wp_bind, wp_bind. unfold entry. rewrite !lookup_seq_lt by lia. ksteps.
  unfold mod_dev. apply wp_bind. eapply object_spec; [exact He|exact Ho|exact Hin|exact Hd|]. ksteps. eapply wp_eq; [apply E2|].
  apply wp_bind, wp_bind. eapply object_spec; [exact He|exact Ho|exact Hin|cbn; by rewrite lookup_insert_eq|]. ksteps.
  eapply HQ; [cbn; by rewrite lookup_insert_eq| |done|done]. split; cbn; by rewrite ?Ec1, ?Ec2, ?Ei, ?Eo.
Qed.

Lemma made_for {B Y} n running (host : B) e (y : Y) v :
  virtio_serial_init n running host (e, y) = Done (Some v) (e, y) -> 0 <= n -> (1 <= Z.to_nat n <= 31)%nat /\ setup_ok (Z.to_nat n) v.
Proof.
  intros E H0. assert (Hn : 1 <= n <= 31).
  { unfold virtio_serial_init in E. destruct (Z.eqb_spec n 0); [done|]. change (VIRTIO_PCI_QUEUE_MAX / 2 - 1) with 31 in E.
    destruct (Z.ltb_spec 31 n); [done|lia]. }
  split; [lia|]. pose proof (setup_all e y running host) as Ha. rewrite list.Forall_forall in Ha.
  destruct (Ha (Z.to_nat n)) as (v' & E' & _ & _ & _ & Hok); [apply elem_of_seq; lia|]. rewrite Z2Nat.id, E in E' by lia. by injection E' as ->.
Qed.

Lemma init_vqs_spec {B} (v : vser B) pd e s d l (Q : Z -> env * drv W -> Prop) :
  setup_ok (Z.to_nat (pd_max_nr_ports d)) v -> 1 <= pd_max_nr_ports d <= 31 -> use_multiport d = true -> dr_devs s !! pd = Some d ->
  env_ok e -> owns e l -> (pd, OPortdev) ∈ l ->
  (forall err e' s', err < 0 -> env_ok e' -> owns e' l -> Q err (e', s')) ->
  (forall e' s' d', env_ok e' -> dr_devs s' !! pd = Some d' -> agree_on v d' ->
     owns e' ((pd_in_arr d', OVqArray) :: (pd_out_arr d', OVqArray) :: l) -> Q 0 (e', s')) ->
  wp (init_vqs pd) Q (e, s).
Proof.
  intros Hok Hn Hm Hd He Ho Hin HF HQ. unfold init_vqs. apply wp_bind. eapply object_spec; [exact He|exact Ho|exact Hin|exact Hd|].
  rewrite Hm. set (n := pd_max_nr_ports d) in *. rewrite (u32_small (n + 1)), (u32_small ((n + 1) * 2)) by lia.
  apply wp_bind. eapply kmalloc_any; [exact He|exact Ho|]. intros x1 e1 He1 Ho1. apply wp_bind. eapply kmalloc_any; [exact He1|exact Ho1|]. intros x2 e2 He2 Ho2.
  apply wp_bind. eapply kmalloc_any; [exact He2|exact Ho2|]. intros x3 e3 He3 Ho3. apply wp_bind. eapply kmalloc_any; [exact He3|exact Ho3|]. intros x4 e4 He4 Ho4.
  apply wp_bind. eapply kmalloc_any; [exact He4|exact Ho4|]. intros x5 e5 He5 Ho5. set (A x := objs OVqArray (if_set x)) in *.
  assert (Hfree : forall e' s' l' r, env_ok e' -> owns e' (A x3 ++ A x2 ++ A x1 ++ l') -> (forall e'', env_ok e'' -> owns e'' l' -> Q r (e'', s')) ->
    wp (kfree x3;; kfree x2;; kfree x1;; mret r) Q (e', s')).
  { intros e' s' l' r He' Ho' HQ'. apply wp_bind. eapply kfree_set_spec; [exact He'|exact Ho'|]. intros f1 Hf1 Hg1. apply wp_bind. eapply kfree_set_spec; [exact Hf1|exact Hg1|].
    intros f2 Hf2 Hg2. apply wp_bind. eapply kfree_set_spec; [exact Hf2|exact Hg2|]. intros f3 Hf3 Hg3. ksteps. by apply HQ'. }
  assert (Hfail : forall err e' s', err < 0 -> env_ok e' -> owns e' (A x5 ++ A x4 ++ A x3 ++ A x2 ++ A x1 ++ l) ->
    wp ((if err =? 0 then mret tt else kfree x5;; kfree x4);; kfree x3;; kfree x2;; kfree x1;; mret err) Q (e', s')).
  { intros err e' s' Herr He' Ho'. rewrite (proj2 (Z.eqb_neq err 0)) by lia. apply wp_bind, wp_bind. eapply kfree_set_spec; [exact He'|exact Ho'|].
    intros f1 Hf1 Hg1. eapply kfree_set_spec; [exact Hf1|exact Hg1|]. intros f2 Hf2 Hg2. eapply Hfree; [exact Hf2|exact Hg2|]. intros. by apply HF. }
  apply wp_bind. destruct (_ || _) eqn:E; [by eapply Hfail|].
  apply orb_false_iff in E as [[[[E1 E2]%orb_false_iff E3]%orb_false_iff E4%Z.eqb_neq]%orb_false_iff E5%Z.eqb_neq].
  replace (Z.to_nat ((n + 1) * 2)) with (2 * Z.to_nat n + 2)%nat by lia.
  eapply place_spec; [exact Hok|lia|exact He5|exact Ho5|do 5 (apply elem_of_app; right); exact Hin|exact Hd|intros; by eapply Hfail|].
  intros s6 d6 Hd6 Hag E6 E7. apply wp_bind. eapply wp_eq; [reflexivity|]. eapply (Hfree _ _ (A x5 ++ A x4 ++ l)); [exact He5|eapply owns_perm; [|exact Ho5]; perm_solve|].
  intros e7 He7 Ho7. eapply HQ; [done|exact Hd6|exact Hag|]. rewrite E6, E7. unfold A in Ho7. rewrite !if_set_nz in Ho7 by done.
  eapply owns_perm; [|exact Ho7]. cbn. apply perm_swap.
Qed.

(** C14: the driver and the device agree on the queues.  When the driver in the guest
    sets up the queues of a device that the host made for 1 to 31 ports, it takes
    for the input and the output queue of every port, and for the two control
    queues, exactly those that the device uses as such, and asks for an interrupt
    handler of the right kind on each; of what it allocated only the two arrays of
    the device are left.  When it fails, nothing is left. *)
Theorem queues_agree {B Y} e0 (y : Y) running (host : B) v pd e s d l :
  virtio_serial_init (pd_max_nr_ports d) running host (e0, y) = Done (Some v) (e0, y) -> 0 <= pd_max_nr_ports d ->
  use_multiport d = true -> dr_devs s !! pd = Some d -> env_ok e -> owns e l -> (pd, OPortdev) ∈ l ->
  (exists cbs, vq_callbacks true (Z.to_nat (pd_max_nr_ports d)) (2 * Z.to_nat (pd_max_nr_ports d) + 2) (e, s) = Done cbs (e, s) /\
     Forall2 (fun i o => cbs !! i = Some InIntr /\ cbs !! o = Some OutIntr) (vs_ivqs v) (vs_ovqs v) /\
     cbs !! vs_c_ivq v = Some ControlIntr /\ cbs !! vs_c_ovq v = Some NoCallback) /\
  exists r e' s', init_vqs pd (e, s) = Done r (e', s') /\ env_ok e' /\
    (r < 0 /\ owns e' l \/
     r = 0 /\ exists d', dr_devs s' !! pd = Some d' /\ agree_on v d' /\
       owns e' ((pd_in_arr d', OVqArray) :: (pd_out_arr d', OVqArray) :: l)).
Proof.
  intros Ev H0 Hm Hd He Ho Hin. destruct (made_for _ _ _ _ _ _ Ev H0) as [Hn Hok]. split.
  - destruct (proj1 (list.Forall_forall _ _) (callbacks_all e s) (Z.to_nat (pd_max_nr_ports d))) as (cbs & Ecb & _ & C2 & C3 & Hc); [apply elem_of_seq; lia|].
    exists cbs. destruct Hok as (-> & -> & _ & -> & -> & _). split_and!; try done. apply Forall2_fmap, Forall_Forall2_diag, Hc.
  - enough (Hw : wp (init_vqs pd) (fun r '(e', s') => env_ok e' /\ (r < 0 /\ owns e' l \/ r = 0 /\ exists d', dr_devs s' !! pd = Some d' /\
      agree_on v d' /\ owns e' ((pd_in_arr d', OVqArray) :: (pd_out_arr d', OVqArray) :: l))) (e, s)).
    { apply wp_done in Hw as (r & [e' s'] & E & H'). by exists r, e', s'. }
    eapply init_vqs_spec; [exact Hok|lia|done|done|done|done|done|naive_solver|]. intros e' s' d' He' Hd' Ha Ho'. split; [done|]. right. by eauto.
Qed.
End Setup.
