(* ===== verification/Toy.v ===== *)
(** * A concrete CryptoAPI

    An instance of the CryptoAPI interface that satisfies its laws: a cipher
    that adds key and IV to every byte by exclusive or, and a hash that sums
    what it absorbed.  It gives the examples of the development something to
    run on. *)
From stdpp Require Import base gmap gmultiset list strings numbers.
From S2P Require Import Prelude Kernel CryptoApi.
Open Scope Z_scope.

Definition toy_mask (key iv : bytes) : Z := Z.lxor (default 0 (head key)) (default 0 (head iv)).

Definition toy_crypt (key iv data : bytes) : crypt_res :=
  CryptRes (- EINPROGRESS) [- EINPROGRESS; 0] iv (Z.lxor (toy_mask key iv) <$> data).

Definition toy_tag (tag : Z) (key assoc iv data : bytes) : bytes :=
  replicate (Z.to_nat tag) (foldr Z.add (toy_mask key iv) (assoc ++ data) mod 256).

Definition toy_seal (key : bytes) (tag : Z) (assoc iv data : bytes) : crypt_res :=
  let out := Z.lxor (toy_mask key iv) <$> data in
  CryptRes 0 [] iv (out ++ toy_tag tag key assoc iv out).

Definition toy_open (key : bytes) (tag : Z) (assoc iv data : bytes) : crypt_res :=
  let n := (length data - Z.to_nat tag)%nat in
  let body := take n data in
  CryptRes (if bool_decide (drop n data = toy_tag tag key assoc iv body) then 0 else - EBADMSG)
    [] iv (Z.lxor (toy_mask key iv) <$> body).

Definition toy_cipher (name : string) : option cipher_alg :=
  if bool_decide (name = "cbc(aes)") then Some (CipherAlg 16 16 15 (Some (16, 32)) 0)
  else if bool_decide (name = "ctr(aes)") then Some (CipherAlg 1 16 0 (Some (16, 32)) 0)
  else None.

Global Instance toy_api : CryptoAPI := {|
  hstate := bytes;
  hstate_new := [];
  ablkcipher := toy_cipher;
  ablkcipher_setkey _ _ := 0;
  ablkcipher_encrypt _ := toy_crypt;
  ablkcipher_decrypt _ := toy_crypt;
  aead name :=
    if bool_decide (name = "gcm(aes)") then Some (CipherAlg 1 12 0 None 16) else None;
  aead_setkey _ _ := 0;
  aead_encrypt _ := toy_seal;
  aead_decrypt _ := toy_open;
  ahash name :=
    if bool_decide (name = "sha1") || bool_decide (name = "hmac(sha1)")
    then Some (HashAlg 20 3) else None;
  ahash_setkey _ _ := 0;
  ahash_init _ key := (0, key);
  ahash_update _ st data := (0, [], st ++ data);
  ahash_final _ st := (0, [], replicate 20 (foldr Z.add 0 st mod 256));
  alg_driver_name name := Some (String.append name "-generic");
  kern_driver_only := None
|}.

Lemma length_toy_tag tag key assoc iv data :
  length (toy_tag tag key assoc iv data) = Z.to_nat tag.
Proof. apply length_replicate. Qed.

Global Instance toy_sizes : CryptoAPISizes.
Proof.
  constructor; simpl.
  - intros name a. unfold toy_cipher. repeat case_bool_decide; intros [= <-]; simpl.
    + split_and!; try lia. by exists 256.
    + split_and!; try lia. by exists 4096.
  - intros name a. case_bool_decide; intros [= <-]; simpl. lia.
  - intros name a. case_match; intros [= <-]; simpl. lia.
  - intros [] _ key iv data; simpl; by rewrite length_fmap.
  - intros [] _ key tag assoc iv data Htag; simpl.
    + rewrite length_fmap, length_take. lia.
    + rewrite length_app, length_fmap, length_toy_tag. lia.
  - intros name a st ret ev d. case_match; intros [= <-] [= <- <- <-]. done.
  - intros [] _ key iv data _; simpl; eauto.
  - intros [] _ key tag assoc iv data; simpl; unfold in_progress, EINPROGRESS, EBUSY.
    + case_bool_decide; unfold EBADMSG; lia.
    + lia.
  - intros _ st data ret ev st' [= <- <- <-]. unfold in_progress, EINPROGRESS, EBUSY. lia.
  - intros _ st ret ev d [= <- <- <-]. unfold in_progress, EINPROGRESS, EBUSY. lia.
Qed.

Lemma toy_crypt_involutive key iv data :
  cr_out (toy_crypt key iv (cr_out (toy_crypt key iv data))) = data.
Proof.
  simpl. rewrite <- list_fmap_compose. rewrite <- (list_fmap_id data) at 2.
  apply list_fmap_ext. intros i x _. simpl.
  by rewrite <- Z.lxor_assoc, Z.lxor_nilpotent, Z.lxor_0_l.
Qed.

Lemma toy_req_ok : req_ok (- EINPROGRESS) [- EINPROGRESS; 0].
Proof. right. split; [by left|done]. Qed.

Global Instance toy_cipher_laws : CipherLaws.
Proof.
  constructor.
  - intros name a key iv data r _ _ _ r'. split; [apply toy_req_ok|apply toy_crypt_involutive].
  - intros [] name a key iv d1 d2 f r1 r2 _ _ _ _ r; (split; [apply toy_req_ok|]);
      unfold r, r1, r2, f; simpl; by rewrite fmap_app.
  - intros dec name a key iv iv' data f Ha Hiv.
    assert (alg_ivsize a = 16) as Hs
      by (simpl in Ha; unfold toy_cipher in Ha; repeat case_bool_decide; by simplify_eq).
    rewrite Hs in Hiv. assert (toy_mask key iv = toy_mask key iv') as Hm
      by (destruct iv, iv'; simpl in Hiv; by simplify_eq).
    unfold f. destruct dec; simpl; by rewrite Hm.
Qed.

Global Instance toy_succeeds : CryptoAPISucceeds.
Proof.
  constructor; simpl.
  - intros [] name a key iv data _ _; apply toy_req_ok.
  - done.
  - intros name a st data ret ev st' _ [= <- <- <-]. by left.
  - intros name a st ret ev d _ [= <- <- <-]. by left.
Qed.

Global Instance toy_hash_laws : HashLaws.
Proof.
  constructor. intros name st d1 d2 ? ? ? ? ? ? [= <- <- <-] _ [= <- <- <-] _.
  exists 0, []. split; [simpl; by rewrite (assoc_L (++))|by left].
Qed.
