(* ===== verification/Examples.v ===== *)
(** * Examples

    A concrete file with one session (AES in CBC mode with SHA-1, over the
    CryptoAPI of [Toy]), a concrete request, and a concrete virtqueue; the main
    theorems applied to them. *)
From stdpp Require Import base gmap gmultiset list strings numbers.
From S2P Require Import Prelude Kernel KernelFacts Structs CryptoApi Sg Cryptlib CryptlibFacts Zc ZcFacts Fcrypt FcryptFacts Run RunFacts Authenc AuthencFacts Ioctl FileFacts IoctlFacts Vring VringFacts Toy.
Open Scope Z_scope.

(** ** An open file *)

Definition kaddr (i : Z) : Z := TASK_SIZE + i * PAGE_SIZE.

Definition ex_cdata : cipher_data :=
  CipherData 1 16 0 0 16 15 (kaddr 0) (kaddr 1) 0 0 (kaddr 2) (replicate 16 0) "cbc(aes)" (replicate 16 7) 0 [].
Definition ex_hdata : hash_data := HashData 1 20 3 (kaddr 3) (kaddr 4) (kaddr 5) "sha1" [] [].
Definition ex_session : csession :=
  CSession (kaddr 6) false ex_cdata ex_hdata 5 15 32 0 0 (kaddr 7) (replicate 32 0) (kaddr 8) (replicate 32 sg_zero).

(** A request of 32 bytes from page 17 to page 18, the digest and the IV on page 19. *)
Definition ex_cop : crypt_op := CryptOp 5 COP_ENCRYPT 0 32 (replicate 4 0) 69632 73728 77824 77888.
Definition ex_ccop : compat_crypt_op := CompatCryptOp 5 COP_ENCRYPT 0 32 69632 73728 77824 77888.
Definition ex_kcop : kernel_crypt_op := KernelCryptOp ex_cop 16 (seqZ 1 16) 0 (replicate 64 0).
Definition ex_item : todo_list_item := TodoItem (kaddr 9) ex_kcop 0.

Definition ex_priv : crypt_priv := CryptPriv (kaddr 10) [ex_session] [] [ex_item] [] 1 true 0.

Definition ex_mem : mem :=
  pokes (seqZ 65536 48) (encode_crypt_op ex_cop)
    (pokes (seqZ 65600 28) (encode_compat_crypt_op ex_ccop)
       (pokes (seqZ 69632 32) (seqZ 1 32)
          (Mem (list_to_map [(16, true); (17, true); (18, true); (19, true)]) ∅))).
Definition ex_env : env :=
  Env ex_mem true [] [77; 78] [5; 6] (list_to_map (priv_objs ex_priv)) (kaddr 11) ∅ 170.

Lemma ex_mem_ok : mem_ok ex_mem.
Proof.
  repeat apply pokes_mem_ok; [intros a; unfold peek; simpl; by rewrite lookup_empty| | |];
    apply (bool_decide_eq_true_1 (Forall (fun z => 0 <= z < 256) _)); vm_compute; reflexivity.
Defined.

Lemma ex_owns : owns ex_env (priv_objs ex_priv ++ []).
Proof.
  split; [apply (bool_decide_eq_true_1 (NoDup _)); vm_compute; reflexivity|by rewrite app_nil_r].
Defined.

Lemma ex_env_ok : env_ok ex_env.
Proof.
  split; [done..|]. intros a k Hk%elem_of_list_to_map_2. revert a k Hk. 
  assert (Hf : Forall (fun o : Z * kobj => TASK_SIZE <= o.1 < kaddr 11 /\ o.1 mod PAGE_SIZE = 0) (priv_objs ex_priv)).
  { apply (bool_decide_eq_true_1 (Forall _ _)); vm_compute; reflexivity. }
  intros a k Hk. rewrite list.Forall_forall in Hf. exact (Hf _ Hk).
Defined.

Lemma ex_ses_ok : ses_ok ex_session.
Proof.
  split; [|split|split|]; try done.
  - split; try done. intros _. by exists (CipherAlg 16 16 15 (Some (16, 32)) 0).
  - intros _. by exists (HashAlg 20 3).
Defined.

Lemma ex_handle : handle_ok ex_env ex_priv [].
Proof.
  split; [exact ex_env_ok| |exact ex_owns]. split; try done.
  - constructor; [exact ex_ses_ok|constructor].
  - apply (bool_decide_eq_true_1 (NoDup _)); vm_compute; reflexivity.
Defined.

Ltac in_range := split; vm_compute; reflexivity.

Lemma ex_bufs : zc_bufs ex_mem ex_session ex_cop.
Proof.
  split; [split|..]; try done; try in_range.
  - right. left. vm_compute. discriminate.
  - by left.
Defined.

Lemma ex_runs : runs ex_env ex_priv [] ex_kcop 0 ex_session.
Proof.
  split; try done; try exact ex_handle.
  - by left.
  - by left.
  - intros _. by exists 2.
  - split; [done|]. exact ex_bufs.
Defined.

Lemma ex_divides : (16 | 32).
Proof. by exists 2. Defined.

(** The request that decrypts the result over the source. *)
Definition ex_kcop_back : kernel_crypt_op :=
  KernelCryptOp (CryptOp 5 COP_DECRYPT 0 32 (replicate 4 0) 73728 69632 77824 77888) 16 (seqZ 1 16) 0 (replicate 64 0).

Lemma ex_runs_back : runs ex_env ex_priv [] ex_kcop_back 0 ex_session.
Proof.
  split; try done; try exact ex_handle.
  - by left.
  - by right.
  - intros _. exact ex_divides.
  - split; [done|]. split; [split|..]; try done; try in_range.
    + right. right. vm_compute. discriminate.
    + by left.
Defined.

Definition ex_rest : list (Z * kobj) := [(kaddr 9, OItem); (kaddr 10, OPriv)].

Lemma ex_ready : ready ex_env ex_session ex_rest.
Proof.
  destruct ex_ses_ok as [? ? ? _]. split; try done; try exact ex_env_ok. exact ex_owns.
Defined.

Lemma ex_call :
  crypt_call ex_env ex_priv [] (decode_crypt_op (peeks (e_mem ex_env) (seqZ 65536 sizeof_crypt_op)))
    65536 sizeof_crypt_op 0 ex_session.
Proof.
  replace (decode_crypt_op _) with ex_cop by (vm_compute; reflexivity).
  split; [|reflexivity|split; in_range|intros _; in_range|intros _; in_range|intros _; in_range].
  replace (request _ _ _) with (KernelCryptOp ex_cop 16 (peeks ex_mem (seqZ 77888 16)) 0 (replicate 64 170))
    by (vm_compute; reflexivity).
  destruct ex_runs. by split.
Defined.

Lemma ex_compat_call :
  crypt_call ex_env ex_priv []
    (compat_to_crypt_op ex_env (decode_compat_crypt_op (peeks (e_mem ex_env) (seqZ 65600 sizeof_compat_crypt_op))))
    65600 sizeof_compat_crypt_op 0 ex_session.
Proof.
  replace (compat_to_crypt_op _ _) with (compat_to_crypt_op ex_env ex_ccop) by (vm_compute; reflexivity).
  split; [|reflexivity|split; in_range|intros _; in_range|intros _; in_range|intros _; in_range].
  replace (request _ _ _) with
    (KernelCryptOp (compat_to_crypt_op ex_env ex_ccop) 16 (peeks ex_mem (seqZ 77888 16)) 0 (replicate 64 170))
    by (vm_compute; reflexivity).
  destruct ex_runs as [? ? ? ? ? ? ? [? []] ?]. by repeat (split; try done).
Defined.

Lemma crypto_run_correct_witness :
  exists e' p' k, crypto_run ex_kcop (ex_env, ex_priv) = Done (0, k) (e', p') /\ handle_ok e' p' [].
Proof.
  destruct (crypto_run_correct ex_env ex_priv [] ex_kcop 0 ex_session ex_runs eq_refl)
    as (e' & s' & out & iv & st & E & _ & _ & _ & _ & _ & Hh).
  eexists _, _, _. split; [exact E|exact Hh].
Defined.

Lemma crypt_roundtrip_witness :
  exists k1' k2' e1 p1 e2 p2,
    crypto_run ex_kcop (ex_env, ex_priv) = Done (0, k1') (e1, p1) /\
    crypto_run ex_kcop_back (e1, p1) = Done (0, k2') (e2, p2) /\
    peeks (e_mem e2) (seqZ 69632 32) = seqZ 1 32.
Proof.
  exact (crypt_roundtrip ex_env ex_priv [] ex_kcop ex_kcop_back 0 ex_session ex_runs ex_runs_back
    eq_refl eq_refl eq_refl eq_refl eq_refl eq_refl eq_refl eq_refl eq_refl).
Defined.


Lemma ioctl_crypt_correct_witness :
  exists e' p', cryptodev_ioctl CIOCCRYPT 65536 (ex_env, ex_priv) = Done 0 (e', p').
Proof.
  destruct (ioctl_crypt_correct ex_env ex_priv [] 65536 0 ex_session ex_call ex_mem_ok eq_refl)
    as (e' & p' & E & _).
  exists e', p'. exact E.
Defined.

Lemma compat_ioctl_crypt_correct_witness :
  exists e' p', cryptodev_compat_ioctl COMPAT_CIOCCRYPT 65600 (ex_env, ex_priv) = Done 0 (e', p').
Proof.
  destruct (compat_ioctl_crypt_correct ex_env ex_priv [] 65600 0 ex_session ex_compat_call ex_mem_ok eq_refl)
    as (e' & p' & E & _).
  exists e', p'. exact E.
Defined.

(** ** Sessions and files *)

Lemma ex_rng : Exists (fun r => u32 r ∉ cs_sid <$> cp_fcrypt ex_priv) (e_rng ex_env).
Proof. left. apply (bool_decide_eq_true_1 (_ ∉ _)). vm_compute. reflexivity. Defined.

(** A session with AES and SHA-1, the key at the start of page 17. *)
Definition ex_sop : session_op :=
  SessionOp CRYPTO_AES_CBC CRYPTO_SHA1 16 (replicate 4 0) 69632 0 (replicate 4 0) 0 0 (replicate 4 0).

Lemma ex_accepts : session_accepts ex_env ex_sop.
Proof.
  exists (Some "cbc(aes)"), 0, 0, (Some "sha1"), 0.
  split; [reflexivity|]. split; [reflexivity|]. split; [by left|]. split; (split; [done|]).
  - split; [in_range|vm_compute; reflexivity].
  - split; [done|vm_compute; reflexivity].
Defined.

Lemma ioctl_safe_witness :
  exists r e' p' lost, cryptodev_ioctl CIOCGSESSION 65536 (ex_env, ex_priv) = Done r (e', p') /\
    kept ex_env [] e' p' lost.
Proof.
  apply (proj1 (ioctl_safe ex_env ex_priv [] CIOCGSESSION 65536 ex_handle eq_refl ex_mem_ok ex_rng)); discriminate.
Defined.

Lemma create_session_correct_witness :
  exists sop' e' p', crypto_create_session ex_sop (ex_env, ex_priv) = Done (0, sop') (e', p').
Proof.
  destruct (create_session_correct ex_env ex_priv [] ex_sop ex_handle eq_refl ltac:(done) ltac:(done) ex_rng)
    as (r & sop' & e' & p' & E & _ & Hr).
  rewrite (Hr ex_accepts eq_refl) in E. exists sop', e', p'. exact E.
Defined.

Lemma session_lifecycle_witness :
  exists sop' e1 p1 e2,
    crypto_create_session ex_sop (ex_env, ex_priv) = Done (0, sop') (e1, p1) /\
    crypto_finish_session (so_ses sop') (e1, p1) = Done 0 (e2, ex_priv) /\ e_heap e2 = e_heap ex_env.
Proof.
  destruct (session_lifecycle ex_env ex_priv [] ex_sop ex_handle eq_refl ltac:(done) ltac:(done) ex_rng
    ex_accepts eq_refl) as (sop' & e1 & p1 & e2 & E1 & E2 & _ & Hh & _).
  exists sop', e1, p1, e2. split; [exact E1|]. split; [exact E2|exact Hh].
Defined.

Lemma finish_session_correct_witness :
  exists e', crypto_finish_session 5 (ex_env, ex_priv) = Done 0 (e', set_fcrypt [] ex_priv).
Proof.
  destruct (finish_session_correct ex_env ex_priv [] 5 ex_handle) as (e' & E & _).
  exists e'. exact E.
Defined.

Definition ex_empty : env := Env ex_mem true [] [77; 78] [5; 6] ∅ (kaddr 0) ∅ 170.

Lemma ex_empty_ok : env_ok ex_empty.
Proof. by split. Defined.

Lemma open_release_balanced_witness :
  exists e' p e2, cryptodev_open (ex_empty, None) = Done 0 (e', Some p) /\
    cryptodev_release (e', Some p) = Done 0 (e2, None) /\ e_heap e2 = ∅.
Proof.
  destruct (open_release_balanced ex_empty [] ex_empty_ok (conj (NoDup_nil_2 (A := Z)) eq_refl) eq_refl)
    as [(e' & p & E & Hh & _) Hrel].
  destruct (Hrel e' p Hh) as (e2 & E2 & He & _).
  exists e', p, e2. split; [exact E|]. split; [exact E2|exact He].
Defined.

Lemma ex_owns' :
  owns ex_env (array_objs ex_session ++ cdata_objs ex_cdata ++ hdata_objs ex_hdata ++ [(kaddr 6, OSession)] ++ ex_rest).
Proof.
  apply (owns_perm _ (priv_objs ex_priv ++ [])); [|exact ex_owns].
  apply (bool_decide_eq_true_1 (_ ≡ₚ _)). vm_compute. reflexivity.
Defined.

Lemma get_userbuf_exact_witness :
  exists src_sg dst_sg e1 s1,
    get_userbuf 69632 32 73728 32 (ex_env, ex_session) = Done (0, src_sg, dst_sg) (e1, s1) /\
    sg_addrs src_sg = seqZ 69632 32 /\ sg_addrs dst_sg = seqZ 73728 32.
Proof.
  destruct (proj1 (wp_done _ _ _) (get_userbuf_exact ex_env ex_session 69632 73728 32
    (cdata_objs ex_cdata ++ hdata_objs ex_hdata ++ [(kaddr 6, OSession)] ++ ex_rest)
    ex_env_ok ex_owns' ltac:(by destruct ex_ses_ok) ltac:(done) ltac:(done) ltac:(done)
    ltac:(in_range) ltac:(in_range))) as ([[rc ssg] dsg] & [e1 s1] & E & _ & _ & _ & Hr).
  destruct Hr as [(_ & _ & Hn)|(Hrc & Hs & Hd & _)]; [by destruct Hn|].
  rewrite Hrc in E. exists ssg, dsg, e1, s1. split; [exact E|]. split; [exact Hs|exact Hd].
Defined.

(** ** Asynchronous jobs *)

Lemma ex_jobs : Forall (fun it => exists i s, runs (set_user false ex_env) ex_priv [] (it_kcop it) i s) (cp_todo ex_priv).
Proof.
  constructor; [|constructor]. exists 0%nat, ex_session. destruct ex_runs as [[He Hp Ho] ? ? ? ? ? ? ? ?].
  split; try done; [|by right]. split; [|exact Hp|exact Ho]. by destruct He.
Defined.

Lemma cryptask_serves_all_witness :
  exists e' p', cryptask_routine (ex_env, ex_priv) = Done tt (e', p') /\ cp_todo p' = [].
Proof.
  destruct (cryptask_serves_all ex_env ex_priv [] ex_handle eq_refl ex_jobs) as (e' & p' & l & E & Ht & _).
  exists e', p'. split; [exact E|exact Ht].
Defined.

(** The same file with an idle queue of one item. *)
Definition ex_idle : crypt_priv := CryptPriv (kaddr 10) [ex_session] [ex_item] [] [] 1 false 0.

(** The state after a step that returns. *)
Definition after {S A} (m : M S A) (s : S) : S := match m s with Done _ s' => s' | Crash _ => s end.

Lemma after_done {S A} (m : M S A) s (f : A -> bool) :
  match m s with Done a _ => f a | Crash _ => false end = true ->
  exists a, f a = true /\ m s = Done a (after m s).
Proof. unfold after. destruct (m s) as [a s'|]; [|done]. by exists a. Qed.

Definition ex_submitted : env * crypt_priv := after (crypto_async_run ex_kcop) (ex_env, ex_idle).
Definition ex_worked : env * crypt_priv := after cryptask_routine ex_submitted.
Definition ex_fetched : env * crypt_priv := after (crypto_async_fetch ex_kcop) ex_worked.

(** One job is submitted, run by the worker, and fetched. *)
Lemma ex_trace : exists k,
  async_trace (ex_env, ex_idle) [Submitted ex_kcop; Other; Fetched 0 k] (ex_fetched.1, ex_fetched.2).
Proof.
  destruct (after_done (crypto_async_run ex_kcop) (ex_env, ex_idle) (fun r => r =? 0) ltac:(vm_compute; reflexivity))
    as (r1 & ->%Z.eqb_eq & E1).
  destruct (after_done cryptask_routine ex_submitted (fun _ => true) ltac:(vm_compute; reflexivity)) as ([] & _ & E2).
  destruct (after_done (crypto_async_fetch ex_kcop) ex_worked (fun r => r.1 =? 0) ltac:(vm_compute; reflexivity))
    as ([r3 k] & Hr%Z.eqb_eq & E3). cbn [fst] in Hr. subst r3.
  exists k. rewrite <- (surjective_pairing ex_fetched). eapply (trace_snoc _ [Submitted ex_kcop; Other]); [eapply (trace_snoc _ [Submitted ex_kcop]);
    [eapply (trace_snoc _ []); [apply trace_nil|by apply step_submit]|by apply step_work]|].
  eapply step_fetch; [exact E3|].
  assert (Hd : match cp_done ex_worked.2 with [] => false | _ => true end = true) by (vm_compute; reflexivity).
  change (cp_done ex_worked.2 <> []). intros Hn. rewrite Hn in Hd. discriminate Hd.
Defined.

Lemma async_fifo_witness :
  exists k, submitted [Submitted ex_kcop; Other; Fetched 0 k] =
    fetched [Submitted ex_kcop; Other; Fetched 0 k] ++ item_cops (cp_done ex_fetched.2) ++
    item_cops (cp_todo ex_fetched.2).
Proof.
  destruct ex_trace as (k & Htr). exists k.
  destruct (async_fifo ex_env ex_idle [Submitted ex_kcop; Other; Fetched 0 k] ex_fetched.1 ex_fetched.2
    ltac:(by split) eq_refl eq_refl Htr) as [Hs _]. exact Hs.
Defined.

(** ** Records *)

(** Pages 18 and 19 are pinned; a record goes to page 18, with 13 bytes of
    authenticated data on page 19. *)
Definition ex_pinned : env :=
  Env ex_mem true [] [77; 78] [5; 6] (list_to_map (priv_objs ex_priv)) (kaddr 11) {[+ 18; 19 +]} 170.
Definition ex_dst : list sg_entry := [SG 18 0 256 true].
Definition ex_auth : list sg_entry := [SG 19 0 13 true].
Definition ex_caop : crypt_auth_op :=
  CryptAuthOp 5 COP_ENCRYPT COP_FLAG_AEAD_TLS_TYPE 32 13 77824 73728 73728 69632 20 (replicate 4 0) 77888 16
    (replicate 4 0).

Lemma ex_live sg :
  forallb (fun a => page_live ex_pinned (page_of a)) (sg_addrs sg) = true -> sg_live ex_pinned sg.
Proof. intros H. apply Forall_forall. intros a Ha. rewrite forallb_forall in H. by apply H. Qed.

Lemma ex_runnable : runnable ex_pinned ex_session (priv_objs ex_priv ++ []).
Proof.
  split; [exact ex_owns| | |by intros _]; apply (bool_decide_eq_true_1 (_ ⊆ _)); vm_compute; reflexivity.
Defined.

Lemma ex_auth_room : sg_room ex_pinned ex_auth 13.
Proof. split; [by vm_compute|]. apply ex_live. vm_compute. reflexivity. Defined.
Lemma ex_dst_room n : 0 <= n <= 256 -> sg_room ex_pinned ex_dst n.
Proof. intros Hn. split; [exact Hn|]. apply ex_live. vm_compute. reflexivity. Defined.

Lemma ex_tls : tls_ready ex_pinned ex_session (priv_objs ex_priv ++ []) ex_auth 13 ex_dst 32 20.
Proof.
  destruct ex_ses_ok as [? ? _ _]. split; try done.
  - exact ex_runnable.
  - exact ex_auth_room.
  - apply (bool_decide_eq_true_1 (NoDup _)). vm_compute. reflexivity.
  - apply ex_live. vm_compute. reflexivity.
  - replace (sg_addrs ex_auth) with (seqZ 77824 13) by (vm_compute; reflexivity).
    replace (sg_addrs ex_dst) with (seqZ 73728 256) by (vm_compute; reflexivity). apply seqZ_disjoint. lia.
Defined.


Lemma tls_check_tag_correct_witness :
  exists s', tls_check_tag ex_caop ex_auth 13 ex_dst 52 false (ex_pinned, ex_session) =
    Done (- EBADMSG, 32) (ex_pinned, s') \/
  tls_check_tag ex_caop ex_auth 13 ex_dst 52 false (ex_pinned, ex_session) = Done (0, 32) (ex_pinned, s').
Proof.
  destruct (tls_check_tag_correct ex_pinned ex_session _ ex_caop ex_auth 13 ex_dst 32 ex_runnable
    ltac:(by destruct ex_ses_ok) eq_refl ex_auth_room (ex_dst_room 52 ltac:(lia)) ltac:(lia) ltac:(by vm_compute)
    ltac:(by vm_compute)) as (ret & s' & E & _ & Hr).
  exists s'. destruct (decide (ret = 0)) as [H0|H0]; [right; rewrite H0 in E; exact E|left].
  rewrite (Hr H0) in E. exact E.
Defined.

(** The tag in memory is not the one of the packet, which stays as it is. *)
Lemma srtp_verify_first_witness :
  exists s', srtp_decrypt ex_caop ex_auth 13 ex_dst 32 (ex_pinned, ex_session) = Done (- EBADMSG) (ex_pinned, s').
Proof.
  destruct (srtp_verify_first ex_pinned ex_session _ ex_caop ex_auth 13 ex_dst 32 ex_runnable
    ltac:(by destruct ex_ses_ok) ltac:(by destruct ex_ses_ok) eq_refl eq_refl ex_auth_room
    (ex_dst_room 32 ltac:(lia)) ex_divides eq_refl ltac:(by vm_compute) ltac:(by vm_compute) ltac:(in_range))
    as (ret & e' & s' & E & Hbad & _).
  assert (Hn := bool_decide_eq_false_1 (peeks ex_mem (seqZ 69632 20) =
    srtp_tag ex_pinned ex_session (peeks ex_mem (sg_part ex_auth 0 13)) 20)).
  destruct (Hbad (Hn ltac:(vm_compute; reflexivity))) as [Hr He].
  rewrite Hr, He in E. exists s'. exact E.
Defined.

(** ** A virtqueue *)

(** A queue of two entries at page 1; the guest offers a chain of a buffer of 16
    bytes to read and one of 64 bytes to write. *)
Definition ex_queue : virtqueue := virtqueue_init (VirtQueue (VRing 2 0 0 0) 4096 0 0 false true 0 0).
Definition ex_guest : env :=
  Env (pokes (seqZ 4096 32)
         (le_bytes 8 20480 ++ le_bytes 4 16 ++ le_bytes 2 VRING_DESC_F_NEXT ++ le_bytes 2 1 ++
          le_bytes 8 24576 ++ le_bytes 4 64 ++ le_bytes 2 VRING_DESC_F_WRITE ++ le_bytes 2 0)
         (pokes (seqZ 4128 6) (le_bytes 2 0 ++ le_bytes 2 1 ++ le_bytes 2 0) (Mem ∅ ∅)))
    true [] [] [] ∅ (kaddr 0) ∅ 170.
Definition ex_map (a len : Z) (w : bool) : bool := true.
Definition ex_chain : list (bool * iovec) := [(false, (20480, 16)); (true, (24576, 64))].

Lemma ex_guest_ok : mem_ok (e_mem ex_guest).
Proof.
  repeat apply pokes_mem_ok; [intros a; unfold peek; simpl; by rewrite lookup_empty| |];
    apply (bool_decide_eq_true_1 (Forall (fun z => 0 <= z < 256) _)); vm_compute; reflexivity.
Defined.

Lemma pop_safe_witness :
  virtqueue_pop ex_map 0 (ex_guest, ex_queue) = Crash Exited \/
  virtqueue_pop ex_map 0 (ex_guest, ex_queue) = Done None (ex_guest, ex_queue) \/
  exists el, virtqueue_pop ex_map 0 (ex_guest, ex_queue) = Done (Some el) (ex_guest, popped ex_queue).
Proof.
  destruct (pop_safe ex_map 0 ex_guest ex_queue ex_guest_ok eq_refl) as [E|[[E _]|(el & E & _)]].
  - left. exact E.
  - right. left. exact E.
  - right. right. exists el. exact E.
Defined.

Lemma ex_offered : offered ex_map 0 ex_guest ex_queue ex_chain.
Proof.
  split; [by vm_compute|by vm_compute|intros m H; vm_compute in H; discriminate| |by vm_compute|].
  - change (chain (e_mem ex_guest) 4096 2 0 ex_chain /\ 2 <= 2). split; [|done].
    apply (chain_next (e_mem ex_guest) 4096 2 0 [(true, (24576, 64))]); [reflexivity|by vm_compute|].
    apply (chain_last (e_mem ex_guest) 4096 2 1). reflexivity.
  - split; by repeat constructor.
Defined.

Lemma pop_exact_witness :
  virtqueue_pop ex_map 0 (ex_guest, ex_queue) =
    Done (Some (VQElem 0 [(24576, 64)] [(20480, 16)])) (ex_guest, popped ex_queue).
Proof. exact (pop_exact ex_map 0 ex_guest ex_queue ex_chain ex_offered). Defined.

Lemma push_exact_witness :
  exists m' q', virtqueue_push (VQElem 0 [(24576, 64)] [(20480, 16)]) 64 (ex_guest, ex_queue) =
    Done tt (set_mem (fun _ => m') ex_guest, q') /\ used_id m' ex_queue 0 = 0 /\ used_len m' ex_queue 0 = 64.
Proof.
  destruct (push_exact (VQElem 0 [(24576, 64)] [(20480, 16)]) 64 ex_guest ex_queue ex_guest_ok
    ltac:(by vm_compute) ltac:(by vm_compute) ltac:(by vm_compute)) as (m' & q' & E & Hi & Hl & _).
  exists m', q'. split; [exact E|]. split; [exact Hi|exact Hl].
Defined.

Lemma need_event_correct_witness : exists k, 0 <= k < u16 (1 - 65534) /\ 65535 = u16 (65534 + k).
Proof. exact (proj1 (need_event_correct 65535 1 65534 ltac:(lia)) eq_refl). Defined.

Lemma avail_bytes_safe_witness :
  (exists b, virtqueue_avail_bytes 64 0 (ex_guest, ex_queue) = Done b (ex_guest, ex_queue)) \/
  virtqueue_avail_bytes 64 0 (ex_guest, ex_queue) = Crash Exited.
Proof. exact (avail_bytes_safe 64 0 ex_guest ex_queue ex_guest_ok eq_refl). Defined.

Lemma iov_roundtrip_witness :
  exists m', iov_from_buf [(20480, 16); (24576, 64)] 10 4096 20 (ex_guest, tt) =
      Done 20 (set_mem (fun _ => m') ex_guest, tt) /\
    iov_to_buf [(20480, 16); (24576, 64)] 10 20 (set_mem (fun _ => m') ex_guest, tt) =
      Done (peeks (e_mem ex_guest) (seqZ 4096 20)) (set_mem (fun _ => m') ex_guest, tt).
Proof.
  assert (Hn := bool_decide_eq_true_1 (NoDup (iov_addrs [(20480, 16); (24576, 64)]))).
  destruct (iov_roundtrip [(20480, 16); (24576, 64)] 10 4096 20 ex_guest tt
    ltac:(by repeat constructor) (Hn ltac:(vm_compute; reflexivity))
    ltac:(by vm_compute) ltac:(done)
    ltac:(intros a Ha%elem_of_seqZ; unfold iov_addrs; cbn; rewrite app_nil_r, elem_of_app, !elem_of_seqZ; lia))
    as (m' & E1 & _ & E2).
  exists m'. split; [exact E1|exact E2].
Defined.
