(* ===== verification/StackExamples.v ===== *)
(** * Examples of the stack

    A guest with a crypto port, its two rings in memory, a session open on the
    host and a request in the queue; the theorems about the device, the bus, the
    port and the whole stack applied to them. *)
From stdpp Require Import base gmap gmultiset list strings numbers.
From S2P Require Import Prelude Kernel KernelFacts Structs CryptoApi Sg Cryptlib CryptlibFacts Zc ZcFacts Fcrypt FcryptFacts Run RunFacts Authenc Ioctl FileFacts IoctlFacts.
From S2P Require Import Vring VringFacts RingFacts VirtioDev VirtioDevFacts Bus BusFacts PortFacts Backend BackendFacts Stack StackFacts SessionFacts ResetFacts Toy Examples.
Open Scope Z_scope.

(** ** The host *)

Global Instance ex_limits : CryptoLimits.
Proof. refine {| CRYPTO_DATA_MAX_LEN := 32; CRYPTO_BLOCK_MAX_LEN := 16 |}; done. Defined.

(** A file with one session, AES in CBC mode. *)
Definition st_session : csession :=
  CSession (kaddr 6) false ex_cdata hash_data_zero 5 15 32 0 0 (kaddr 7) (replicate 32 0) (kaddr 8) (replicate 32 sg_zero).
Definition st_priv : crypt_priv := CryptPriv (kaddr 10) [st_session] [] [] [] 0 false 1.

(** ** The guest *)

(** The ring to the guest at page 34, the ring from the guest at page 32. *)
Definition st_qi : virtqueue := virtqueue_init (VirtQueue (VRing 4 0 0 0) 139264 0 0 false true 0 0).
Definition st_qo : virtqueue := virtqueue_init (VirtQueue (VRing 4 0 0 0) 131072 0 0 false true 0 0).

(** The request at page 36, the buffer for the reply at page 37, and the stack
    of QEMU at page 38. *)
Definition st_base : Z := 147456.
Definition st_reply : Z := 151552.
Definition st_frame : Z := 155648.

Definition st_op : crypt_op := CryptOp 5 COP_ENCRYPT 0 32 (replicate 4 0) 69632 73728 0 77824.

Definition st_desc (addr len flags : Z) : bytes := le_bytes 8 addr ++ le_bytes 4 len ++ le_bytes 2 flags ++ le_bytes 2 0.
Definition st_mem : mem :=
  pokes (seqZ 131072 16) (st_desc st_base 200 0)
   (pokes (seqZ 131136 6) (le_bytes 2 0 ++ le_bytes 2 1 ++ le_bytes 2 0)
    (pokes (seqZ 139264 16) (st_desc st_reply 256 VRING_DESC_F_WRITE)
     (pokes (seqZ 139328 6) (le_bytes 2 0 ++ le_bytes 2 1 ++ le_bytes 2 0)
      (pokes (seqZ st_base 48) (encode_crypt_op st_op)
       (pokes (seqZ (st_base + 112) 32) (seqZ 1 32)
        (pokes (seqZ (st_base + 176) 16) (seqZ 101 16)
         (pokes (seqZ (st_base + 192) 4) (le_bytes 4 CIOCCRYPT)
           (Mem (list_to_map ((fun i => (i, true)) <$> seqZ 32 8)) ∅)))))))).
Definition st_env : env :=
  Env st_mem true [] [77; 78] [6; 7] (list_to_map (priv_objs st_priv)) (kaddr 11) ∅ 170.

(** The port, and the bus it is on. *)
Definition st_port : sport :=
  SPort 8192 0 1 None 1 (VQElem 0 [] []) 0 0 false true true false 4096 false true.
Definition st_host : qhost files := QHost {[ 4096 := 5 ]} 8208 [] [] {[ 5 := st_priv ]}.
Definition st_vdev : vdev queue_handler :=
  VDev 4 0 0 2 8 (replicate 8 0) VIRTIO_NO_VECTOR [st_qi; st_qo] [Some HandleInput; Some HandleOutput] true [].
Definition st_bus : vser (qhost files) :=
  VSer st_vdev 2 3 [0%nat] [1%nat] 1 [st_port] [1] (CConfig 0 0 1) st_host.

(** ** They are as the theorems want them *)

Lemma st_mem_ok : mem_ok st_mem.
Proof.
  repeat apply pokes_mem_ok; [intros a; unfold peek; simpl; by rewrite lookup_empty|..];
    apply (bool_decide_eq_true_1 (Forall (fun z => 0 <= z < 256) _)); vm_compute; reflexivity.
Defined.

Lemma st_ses_ok : ses_ok st_session.
Proof. destruct ex_ses_ok. split; try done. Defined.

Lemma st_handle : handle_ok st_env st_priv [].
Proof.
  split; [split; [done..|]|split; try done|split].
  - intros a k Hk%elem_of_list_to_map_2. revert a k Hk.
    assert (Hf : Forall (fun o : Z * kobj => TASK_SIZE <= o.1 < kaddr 11 /\ o.1 mod PAGE_SIZE = 0) (priv_objs st_priv)).
    { apply (bool_decide_eq_true_1 (Forall _ _)); vm_compute; reflexivity. }
    intros a k Hk. rewrite list.Forall_forall in Hf. exact (Hf _ Hk).
  - constructor; [exact st_ses_ok|constructor].
  - apply (bool_decide_eq_true_1 (NoDup _)); vm_compute; reflexivity.
  - apply (bool_decide_eq_true_1 (NoDup _)); vm_compute; reflexivity.
  - by rewrite app_nil_r.
Defined.

Lemma st_request : request_ok st_frame st_env st_base st_priv [] 0 st_session.
Proof.
  assert (E : req_cop (e_mem st_env) st_base =
    CryptOp 5 COP_ENCRYPT 0 32 (replicate 4 0) (st_base + 112) (st_base + 144) 0 (st_base + 176)) by (vm_compute; reflexivity).
  split.
  - rewrite E. clear E.
    split; [|reflexivity|split; in_range|intros _; in_range|intros Hf; vm_compute in Hf; discriminate|intros _; in_range].
    replace (request _ _ _) with (KernelCryptOp
      (CryptOp 5 COP_ENCRYPT 0 32 (replicate 4 0) (st_base + 112) (st_base + 144) 0 (st_base + 176)) 16
      (seqZ 101 16) 0 (replicate 64 170)) by (vm_compute; reflexivity).
    split; [exact st_handle|by left|by left|reflexivity|reflexivity|done|intros _; by exists 2| |reflexivity].
    split; [done|]. split; [split|..]; try in_range; [right; left; vm_compute; discriminate|by vm_compute|by left].
  - rewrite E. clear E. by vm_compute.
  - rewrite E. clear E. by vm_compute.
  - clear E. by vm_compute.
  - rewrite E. clear E. vm_compute. reflexivity.
  - reflexivity.
Defined.

Definition st_chain : list (bool * iovec) := [(true, (st_reply, 256))].

Lemma st_ring_ok q n : vr_num (vq_vring q) = 4 -> vr_desc (vq_vring q) = n -> vr_avail (vq_vring q) = n + 64 ->
  vr_used (vq_vring q) = n + 4096 -> 0 < n < 2 ^ 40 -> ring_ok q.
Proof.
  intros E1 E2 E3 E4 Hn. split; [split; rewrite ?E1, ?E2, ?E3, ?E4; lia|].
  unfold driver_zone, desc_zone, avail_zone, device_zone, zone. rewrite E1, E2, E3, E4. lia.
Qed.

Lemma st_out_ring : ring_ok st_qo.
Proof. by apply (st_ring_ok st_qo 131072). Defined.
Lemma st_in_ring : ring_ok st_qi.
Proof. by apply (st_ring_ok st_qi 139264). Defined.

Lemma st_out_start : chain_start st_mem st_qo (next_head st_mem st_qo) = (131072, 4, 0).
Proof. vm_compute. reflexivity. Defined.
Lemma st_in_start : chain_start st_mem st_qi (next_head st_mem st_qi) = (139264, 4, 0).
Proof. vm_compute. reflexivity. Defined.

(** Where the regions lie. *)
Definition st_range (r : region) : Z * Z :=
  match r with
  | ROffer true => (131072, 135168) | RUsed true => (135168, 139264)
  | ROffer false => (139264, 143360) | RUsed false => (143360, 147456)
  | RRequest => (147456, 151552) | RReply => (151552, 155648) | RFrame => (155648, 159744)
  end.

Lemma st_in_range r x :
  in_region st_frame st_mem st_qo st_qi st_base (chain_ins st_chain) r x -> (st_range r).1 <= x < (st_range r).2.
Proof.
  destruct r as [[]|[]| | |]; cbn [in_region st_range fst snd].
  - unfold offer_zone, table_zone. rewrite st_out_start. unfold driver_zone, desc_zone, avail_zone, zone.
    change (vr_desc (vq_vring st_qo)) with 131072. change (vr_avail (vq_vring st_qo)) with 131136.
    change (vr_num (vq_vring st_qo)) with 4. lia.
  - unfold offer_zone, table_zone. rewrite st_in_start. unfold driver_zone, desc_zone, avail_zone, zone.
    change (vr_desc (vq_vring st_qi)) with 139264. change (vr_avail (vq_vring st_qi)) with 139328.
    change (vr_num (vq_vring st_qi)) with 4. lia.
  - unfold device_zone, zone. change (vr_used (vq_vring st_qo)) with 135168. change (vr_num (vq_vring st_qo)) with 4. lia.
  - unfold device_zone, zone. change (vr_used (vq_vring st_qi)) with 143360. change (vr_num (vq_vring st_qi)) with 4. lia.
  - unfold zone. change sizeof_crypto_data with 200. unfold st_base. lia.
  - unfold zone, st_frame, sizeof_crypt_op. lia.
  - change (iov_addrs (chain_ins st_chain)) with (seqZ st_reply 256 ++ []). rewrite app_nil_r, elem_of_seqZ. unfold st_reply. lia.
Qed.

Lemma st_regions : regions_ok st_frame st_mem st_qo st_qi st_base (chain_ins st_chain).
Proof.
  split.
  - intros r r' x Hx%st_in_range Hx'%st_in_range.
    destruct r as [[]|[]| | |], r' as [[]|[]| | |]; try reflexivity; cbn in Hx, Hx'; lia.
  - intros r x Hx%st_in_range. unfold TASK_SIZE, PAGE_SIZE. destruct r as [[]|[]| | |]; cbn in Hx; lia.
Defined.

Lemma st_offers_out : offers ex_map st_mem st_qo [(false, (st_base, 200))].
Proof.
  split; [by vm_compute|intros Hf; vm_compute in Hf; discriminate| | |by vm_compute|split; by repeat constructor].
  - rewrite st_out_start. split_and!; [lia..| |cbn; lia]. apply (chain_last st_mem 131072 4 0). vm_compute. reflexivity.
  - intros x Hx Hu. apply (or_intror (A := driver_zone st_qo x)) in Hx.
    apply (rg_disjoint _ _ _ _ _ _ st_regions (ROffer true) (RUsed true) x Hx) in Hu. discriminate Hu.
Defined.

Lemma st_offers_in : offers ex_map st_mem st_qi st_chain.
Proof.
  split; [by vm_compute|intros Hf; vm_compute in Hf; discriminate| | |by vm_compute|split; by repeat constructor].
  - rewrite st_in_start. split_and!; [lia..| |cbn; lia]. apply (chain_last st_mem 139264 4 0). vm_compute. reflexivity.
  - intros x Hx Hu. apply (or_intror (A := driver_zone st_qi x)) in Hx.
    apply (rg_disjoint _ _ _ _ _ _ st_regions (ROffer false) (RUsed false) x Hx) in Hu. discriminate Hu.
Defined.

Lemma st_submitted : submitted_ok ex_map st_frame st_mem st_qo st_qi st_base (chain_ins st_chain) st_env 200 CIOCCRYPT.
Proof.
  split; [exact st_out_ring|reflexivity|vm_compute; reflexivity|exact st_offers_out|by intros x|by vm_compute|by vm_compute|].
  vm_compute. reflexivity.
Defined.

Lemma st_reply_ok : reply_ok ex_map st_frame st_mem st_qo st_qi st_base (chain_ins st_chain) st_env st_chain.
Proof.
  split; [reflexivity|exact st_in_ring|reflexivity|by vm_compute|exact st_offers_in|by intros x|by vm_compute| | |by vm_compute].
  - by repeat constructor.
  - apply (bool_decide_eq_true_1 (NoDup _)). vm_compute. reflexivity.
Defined.

Lemma st_port_open : port_open st_port st_host 5.
Proof. split; try reflexivity; [discriminate|]. split; [discriminate|reflexivity]. Defined.

Lemma guest_crypt_correct_witness :
  exists e' v', virtio_queue_notify (VirtioCallbacks0 := serial_callbacks (PortClass0 := crypto_port_class ex_map st_frame)
      ex_map 0 None) 1 (st_env, st_bus) = Done tt (e', v') /\
    take 32 (drop 144 (peeks (e_mem e') (seqZ st_reply 200))) = (Z.lxor (Z.lxor 7 101) <$> seqZ 1 32).
Proof.
  destruct (guest_crypt_correct ex_map st_frame 0 None st_env st_bus st_port st_qo st_qi st_base 200 st_chain 5
    st_priv [] 0 st_session ltac:(repeat constructor; by intros ?%elem_of_nil) eq_refl ltac:(discriminate) eq_refl eq_refl
    eq_refl ltac:(discriminate) st_port_open eq_refl eq_refl st_regions st_submitted st_reply_ok st_request eq_refl)
    as (e' & v' & p' & qo' & qi' & s' & out & iv & st & E & _ & _ & Ho & Hr).
  exists e', v'. split; [exact E|]. clear E. cbv zeta in Hr.
  replace (iov_part (chain_ins st_chain) 0 sizeof_crypto_data) with (seqZ st_reply 200) in Hr by (vm_compute; reflexivity).
  apply (f_equal (fun r => r.1.1.2)) in Ho. vm_compute in Ho. rewrite <- Ho in Hr. exact Hr.
Defined.

Lemma st_kicked : kicked ex_map st_frame st_env st_bus st_port st_qo st_qi st_base 200 CIOCCRYPT st_chain 5.
Proof.
  split; [repeat constructor; by intros ?%elem_of_nil|reflexivity| |reflexivity|discriminate|exact st_port_open|reflexivity|exact st_regions|
    exact st_submitted|exact st_reply_ok].
  split; [discriminate|split; reflexivity].
Defined.

(** The same guest with other requests in the buffer: a new session with AES and a
    key of 16 bytes, and the end of session 5. *)
Definition ss_sop : session_op :=
  SessionOp CRYPTO_AES_CBC 0 16 (replicate 4 0) 4096 0 (replicate 4 0) 0 0 (replicate 4 0).
Definition st_write (cmd : Z) (bs : bytes) (m : mem) : mem :=
  pokes (seqZ st_base (Z.of_nat (length bs))) bs (pokes (seqZ (st_base + 192) 4) (le_bytes 4 cmd) m).
Definition ss_write : mem -> mem := st_write CIOCGSESSION (encode_session_op ss_sop ++ seqZ 201 16).
Definition sf_write : mem -> mem := st_write CIOCFSESSION (le_bytes 4 5).

Lemma st_rewritten cmd bs :
  Z.of_nat (length bs) <= 192 -> le_val (peeks (st_write cmd bs st_mem) (seqZ (st_base + 192) 4)) = cmd ->
  kicked ex_map st_frame (set_mem (st_write cmd bs) st_env) st_bus st_port st_qo st_qi st_base 200 cmd st_chain 5.
Proof.
  intros Hl Hc. apply (kicked_rewritten ex_map st_frame st_env (st_write cmd bs) _ _ _ _ _ _ CIOCCRYPT); [exact st_kicked| |exact Hc].
  change sizeof_crypto_data with 200 in *. eapply only_trans; apply only_pokes; intros x Hx; cbn; unfold zone in *; change sizeof_crypto_data with 200; lia.
Qed.

Lemma ss_request : cipher_request (set_mem ss_write st_env) st_priv [] (req_sop (ss_write st_mem) st_base) "cbc(aes)" 0 0.
Proof.
  assert (E : req_sop (ss_write st_mem) st_base = set_so_key (st_base + 48) ss_sop) by (vm_compute; reflexivity).
  rewrite E. clear E. split; [apply handle_mem; exact st_handle|reflexivity|reflexivity| |by vm_compute|split; [discriminate|reflexivity]|reflexivity|].
  - left. apply (bool_decide_eq_true_1 (_ ∉ _)). vm_compute. reflexivity.
  - split; [done|]. split; [in_range|vm_compute; reflexivity].
Defined.

Lemma guest_session_correct_witness :
  exists e' v' s, virtio_queue_notify (VirtioCallbacks0 := serial_callbacks (PortClass0 := crypto_port_class ex_map st_frame)
      ex_map 0 None) 1 (set_mem ss_write st_env, st_bus) = Done tt (e', v') /\
    cipher_ready "cbc(aes)" (seqZ 201 16) 0 0 (cs_cdata s) /\
    qh_kernel (vs_host v') !! 5 = Some (set_fcrypt [s; st_session] st_priv).
Proof.
  destruct (guest_session_correct ex_map st_frame 0 None (set_mem ss_write st_env) st_bus st_port st_qo st_qi st_base 200 st_chain 5
    st_priv [] "cbc(aes)" 0 0) as (e' & v' & p' & qo' & qi' & s & E & _ & [Hn Eh _ _ _]);
    [apply st_rewritten; [vm_compute; discriminate|vm_compute; reflexivity]|reflexivity|exact ss_request|in_range|].
  exists e', v', s. split; [exact E|]. split; [exact (cs_keyed _ _ _ _ _ _ _ Hn)|]. rewrite Eh. reflexivity.
Defined.

Lemma guest_finish_correct_witness :
  exists e' v', virtio_queue_notify (VirtioCallbacks0 := serial_callbacks (PortClass0 := crypto_port_class ex_map st_frame)
      ex_map 0 None) 1 (set_mem sf_write st_env, st_bus) = Done tt (e', v') /\
    qh_kernel (vs_host v') !! 5 = Some (set_fcrypt [] st_priv).
Proof.
  destruct (guest_finish_correct ex_map st_frame 0 None (set_mem sf_write st_env) st_bus st_port st_qo st_qi st_base 200 st_chain 5
    st_priv []) as (e' & v' & p' & qo' & qi' & E & _ & [Eh _ _ _]);
    [apply st_rewritten; [vm_compute; discriminate|vm_compute; reflexivity]|reflexivity|apply handle_mem; exact st_handle|reflexivity|in_range|].
  exists e', v'. split; [exact E|]. rewrite Eh. vm_compute. reflexivity.
Defined.


(** ** The bus *)

Definition ends {S A} (o : outcome S A) : bool := match o with Done _ _ => true | Crash _ => false end.
Definition result {S A} (o : outcome S A) : option A := match o with Done a _ => Some a | Crash _ => None end.
Definition st_class : PortClass (qhost files) := crypto_port_class ex_map st_frame.

Lemma discard_drains_witness :
  exists e' v' q', discard_vq_data ex_map 1 (st_env, st_bus) = Done tt (e', v') /\
    heads (e_mem e') q' = 0 /\ agree (outside (device_zone st_qo)) st_mem (e_mem e').
Proof.
  destruct (discard_drains ex_map 1 st_env st_bus st_qo st_mem_ok eq_refl st_out_ring eq_refl)
    as [E|(e' & v' & q' & E & _ & _ & Hh & Ha)]; [apply (f_equal ends) in E; vm_compute in E; discriminate E|].
  exists e', v', q'. split; [exact E|]. clear E. by split.
Defined.

Lemma write_to_port_safe_witness :
  exists n e' v', write_to_port ex_map 8192 st_base 48 (st_env, st_bus) = Done n (e', v') /\
    0 <= n <= 48 /\ agree (unreached ex_map st_qi) st_mem (e_mem e').
Proof.
  destruct (write_to_port_safe ex_map 8192 st_base 48 st_env st_bus st_port st_qi st_mem_ok eq_refl eq_refl eq_refl
    st_in_ring ltac:(split; [discriminate|reflexivity])) as [E|(n & e' & v' & q' & E & Hn & _ & _ & _ & _ & Ha)]; [apply (f_equal ends) in E; vm_compute in E; discriminate E|].
  exists n, e', v'. split; [exact E|]. clear E. by split.
Defined.

Lemma st_offering : offering ex_map st_qi [st_chain] st_env st_base 48.
Proof.
  assert (Hreply : forall x, x ∈ iov_addrs (room [st_chain]) ->
    in_region st_frame st_mem st_qo st_qi st_base (chain_ins st_chain) RReply x).
  { done. }
  assert (Hapart : forall r r' x, in_region st_frame st_mem st_qo st_qi st_base (chain_ins st_chain) r x ->
    in_region st_frame st_mem st_qo st_qi st_base (chain_ins st_chain) r' x -> r = r') by exact (rg_disjoint _ _ _ _ _ _ st_regions).
  split; [exact st_in_ring|by vm_compute|by split; [exact st_offers_in|]|by vm_compute|split|..].
  - by repeat constructor.
  - apply (bool_decide_eq_true_1 (NoDup _)). vm_compute. reflexivity.
  - intros x Hx Hd. discriminate (Hapart RReply (RUsed false) x (Hreply x Hx) Hd).
  - intros x Hx%elem_of_seqZ Hr%Hreply%st_in_range. cbn in Hr. unfold st_base in Hx. lia.
  - intros x Hx Hd. apply (st_in_range (RUsed false)) in Hd. cbn in Hd. unfold zone, st_base in Hx. lia.
  - intros x Hx%Hreply. split.
    + intros Hd. discriminate (Hapart RReply (ROffer false) x Hx (or_introl Hd)).
    + intros [Ht|[]]. discriminate (Hapart RReply (ROffer false) x Hx (or_intror Ht)).
  - intros x [Ht|[]] Hd. discriminate (Hapart (ROffer false) (RUsed false) x (or_intror Ht) Hd).
Defined.

Lemma write_to_port_exact_witness :
  exists e' v', write_to_port ex_map 8192 st_base 48 (st_env, st_bus) = Done 48 (e', v') /\
    peeks (e_mem e') (seqZ st_reply 48) = peeks st_mem (seqZ st_base 48).
Proof.
  destruct (write_to_port_exact ex_map 8192 st_base 48 st_env st_bus st_port st_qi [st_chain] eq_refl eq_refl eq_refl
    st_offering ltac:(discriminate)) as (e' & v' & q' & r & E & Hd).
  exists e', v'. split; [exact E|]. clear E. exact (dl_data _ _ _ _ _ _ _ _ _ _ _ Hd).
Defined.

(** ** The device *)

Lemma set_addr_placed_witness :
  exists q', virtio_queue_set_addr 1 200704 (st_env, st_bus) = Done tt (st_env, upd_vq 1 q' st_bus) /\
    ring_ok q' /\ vr_desc (vq_vring q') = 200704.
Proof.
  destruct (set_addr_placed 1 200704 st_env st_bus st_qo) as (q' & E & Hr & _ & _ & Hd & _);
    [reflexivity|split; [reflexivity|discriminate]|reflexivity..|discriminate|].
  exact (ex_intro _ q' (conj E (conj Hr Hd))).
Defined.

(** ** Setting up the device and its ports *)

Lemma serial_init_correct_witness :
  exists v, virtio_serial_init 4 true st_host (st_env, tt) = Done (Some v) (st_env, tt) /\
    max_ports v = 4 /\ setup_ok 4 v /\ bus_ok v.
Proof.
  destruct (serial_init_correct st_env tt true st_host 4 ltac:(discriminate)) as [_ Hok].
  destruct (Hok ltac:(split; discriminate)) as (v & E & _ & Hm & _ & Hs & Hb).
  exact (ex_intro _ v (conj E (conj Hm (conj Hs Hb)))).
Defined.

Lemma serial_config_read_witness :
  exists v', virtio_config_read (VirtioCallbacks0 := serial_callbacks (PortClass0 := st_class) ex_map 0 None) 4 4
    (st_env, st_bus) = Done 1 (st_env, v').
Proof.
  destruct (serial_config_read (PortClass0 := st_class) ex_map 0 None 4 4 st_env st_bus) as [E _];
    [split; repeat constructor|split; [discriminate|reflexivity]|reflexivity|reflexivity|split; [discriminate|reflexivity]..|].
  replace (config_at st_bus 4 4) with 1 in E by (vm_compute; reflexivity). exact (ex_intro _ _ E).
Defined.

(** The device for four ports as it is set up. *)
Definition st_empty : vser (qhost files) :=
  match virtio_serial_init 4 true st_host (st_env, tt) with Done (Some v) _ => v | _ => st_bus end.

(** A port that asks for a number. *)
Definition st_new : sport := SPort 12288 0 0 None VIRTIO_CONSOLE_BAD_ID (VQElem 0 [] []) 0 0 false false false false 0 false true.

(** The device with that port plugged in, as port 1. *)
Definition st_plugged : sport := SPort 12288 4 5 None 1 (VQElem 0 [] []) 0 0 false false false false 0 false true.
Definition st_full : vser (qhost files) := set_vs_ports_map [3] (set_vs_ports [st_plugged] st_empty).

Lemma st_class_init p e v : exists r, port_init (PortClass := st_class) p (e, v) = Done r (e, v).
Proof. cbn. unfold virtconsole_initfn. destruct (_ && _); by eexists. Defined.

Lemma st_empty_ok : bus_ok st_empty.
Proof.
  split; try (vm_compute; (reflexivity || by split)); try (by constructor).
  apply (bool_decide_eq_true_1 (_ ∉ _)). vm_compute. reflexivity.
Defined.

Lemma st_full_ok : bus_ok st_full.
Proof.
  split; [by vm_compute|vm_compute; reflexivity|vm_compute; by split| |apply list.NoDup_singleton..|].
  - apply (bool_decide_eq_true_1 (_ ∉ _)). vm_compute. reflexivity.
  - constructor; [|constructor]. split; [by vm_compute|]. split; [by exists 3|]. vm_compute. by split.
Defined.

(** No queue has a ring yet. *)
Lemma st_unset (v : vser (qhost files)) n q : vd_vq (vs_vdev v) !! n = Some q -> virtio_queue_ready q = false -> queue_ok v n.
Proof. intros Hq Hr. exists q. split; [exact Hq|]. by rewrite Hr. Defined.

Lemma plug_port_witness :
  exists e' v' p', virtser_port_qdev_init (PortClass0 := st_class) ex_map st_new (st_env, st_empty) = Done 0 (e', v') /\
    bus_ok v' /\ vs_ports v' = [p'] /\ sp_id p' = 1.
Proof.
  destruct (plug_port (PortClass0 := st_class) ex_map st_class_init st_env st_empty st_new st_empty_ok st_mem_ok)
    as [(c & E & _)|(r & e' & v' & E & Hb & Hr)].
  - eapply (st_unset st_empty 2); vm_compute; reflexivity.
  - by vm_compute.
  - apply (bool_decide_eq_true_1 (_ ∉ _)). vm_compute. reflexivity.
  - apply (f_equal ends) in E. vm_compute in E. discriminate E.
  - destruct Hr as [(Hr & _ & _ & [Hf|Hf])|(-> & _ & p' & Hp & _ & Hi & _)].
    + exfalso. clear E. destruct Hf as [[? Hf]|[Hf|Hf]]; vm_compute in Hf; [discriminate..|by apply Hf].
    + exfalso. clear E. apply (f_equal result) in Hf. vm_compute in Hf. by injection Hf as <-.
    + exists e', v', p'. split; [exact E|]. clear E. split; [exact Hb|]. split; [exact Hp|]. rewrite Hi. vm_compute. reflexivity.
Defined.

Lemma unplug_port_witness :
  exists e' v', virtser_port_qdev_exit (PortClass0 := st_class) ex_map 12288 (st_env, st_full) = Done 0 (e', v') /\
    bus_ok v' /\ vs_ports v' = [].
Proof.
  destruct (unplug_port (PortClass0 := st_class) ex_map eq_refl st_env st_full st_plugged st_full_ok st_mem_ok)
    as [(c & E & _)|(e' & v' & E & Hb & Hp & _)].
  - by left.
  - eapply (st_unset st_full 2); vm_compute; reflexivity.
  - eapply (st_unset st_full 5); vm_compute; reflexivity.
  - apply (f_equal ends) in E. vm_compute in E. discriminate E.
  - exact (ex_intro _ e' (ex_intro _ v' (conj E (conj Hb Hp)))).
Defined.

(** ** Opening, closing and resetting *)

Definition st_message (value : Z) : K (vser (qhost files)) unit :=
  handle_control_message (PortClass0 := st_class) ex_map (encode_cpkt (Cpkt 1 VIRTIO_CONSOLE_PORT_OPEN value)).

Lemma port_lifecycle_witness :
  (exists e' v' pr, st_message 1 (st_env, st_bus) = Done tt (e', v') /\
     qh_kernel (vs_host v') = <[6 := pr]> {[ 5 := st_priv ]} /\ fresh_handle pr) /\
  exists e' v', st_message 0 (st_env, st_bus) = Done tt (e', v') /\ qh_infos (vs_host v') = ∅ /\ owns e' [].
Proof.
  destruct st_handle as [He Hp Ho]. split.
  - destruct (port_lifecycle ex_map st_frame st_env st_bus 1 st_port (priv_objs st_priv)) as [Hopen _];
      [reflexivity..|split; [discriminate|reflexivity]|reflexivity|].
    destruct (Hopen 6 [7]) as (e' & v' & p' & pr & E & _ & _ & _ & _ & Hk & _ & Hf);
      [reflexivity|discriminate|exact He| |reflexivity..|discriminate|].
    { rewrite app_nil_r in Ho. exact Ho. }
    exact (ex_intro _ e' (ex_intro _ v' (ex_intro _ pr (conj E (conj Hk Hf))))).
  - destruct (port_lifecycle ex_map st_frame st_env st_bus 1 st_port []) as [_ Hclose];
      [reflexivity..|split; [discriminate|reflexivity]|reflexivity|].
    destruct (Hclose 5 st_priv) as (e' & v' & p' & E & _ & _ & Hi & _ & _ & Hw);
      [discriminate|reflexivity..|by split|discriminate|].
    exists e', v'. split; [exact E|]. clear E. split; [|exact Hw]. rewrite Hi. reflexivity.
Defined.

Lemma st_files : files_ok st_env st_host [st_port] [(5, st_priv)] [].
Proof.
  destruct st_handle as [He Hp Ho]. split; [|apply list.NoDup_singleton..|exact He|exact Ho].
  constructor; [|constructor]. split; [discriminate|]. by split_and!.
Defined.

Lemma reset_closes_all_witness :
  exists e' v', virtio_reset (VirtioCallbacks0 := serial_callbacks (PortClass0 := st_class) ex_map 0 None)
      (st_env, st_bus) = Done tt (e', v') /\ owns e' [] /\
    qh_infos (vs_host v') = ∅ /\ (sp_guest_connected <$> vs_ports v') = [false].
Proof.
  destruct (reset_closes_all ex_map st_frame 0 None st_env st_bus [(5, st_priv)] [] (list.NoDup_singleton _) st_files)
    as (e' & v' & E & _ & Ho & Hp & Hh & _).
  exists e', v'. split; [exact E|]. clear E. split; [exact Ho|]. rewrite Hh, Hp. by split.
Defined.
