(* ===== verification/MigrateExamples.v ===== *)
(** * Examples of migration

    A file that is kept as its bytes and delivered a few at a time, and the
    device of [StackExamples] in the middle of a request, which goes over such a
    file to a host where the same port is plugged in. *)
From stdpp Require Import base gmap gmultiset list strings numbers.
From S2P Require Import Prelude Kernel Vring RingFacts VirtioDev Bus BusFacts QemuFile QemuFileFacts Migrate MigrateFacts Backend Stack Examples StackExamples.
Open Scope Z_scope.

(** ** The file *)

Definition byte_put (bs : bytes) (pos : Z) : K bytes Z := modx (fun y => y ++ bs);; mret (Z.of_nat (length bs)).
Definition byte_get (pos size : Z) : K bytes (bytes + Z) :=
  y ← getx; let n := Nat.min 7 (Z.to_nat size) in modx (drop n);; mret (inl (take n y)).

Global Instance byte_file : FileOps bytes := {| put_buffer := Some byte_put; get_buffer := Some byte_get |}.
Global Instance byte_out : OutStream bytes.
Proof.
  refine {| out := fun y => y; put_out := byte_put; put_out_buffer := eq_refl |}.
  intros bs pos e y Hbs. exists (Z.of_nat (length bs)), (y ++ bs). split_and!; [done| |done]. destruct bs; [done|cbn; lia].
Defined.
Global Instance byte_in : InStream bytes.
Proof.
  refine {| left_in := fun y => y; get_in := byte_get; get_in_buffer := eq_refl |}.
  intros pos size e y Hs. set (n := Nat.min 7 (Z.to_nat size)). exists (take n y), (drop n y). split_and!.
  - done.
  - by rewrite take_drop.
  - rewrite length_take. lia.
  - intros H0 Hy. destruct y; [done|]. by destruct n eqn:E; [lia|].
Defined.

Definition mg_writer : qfile bytes := qemu_fopen_ops [].
Definition mg_reader (bs : bytes) : qfile bytes := qemu_fopen_ops bs.

Lemma mg_writer_ok : writer_ok mg_writer.
Proof. by split. Defined.
Lemma mg_reader_ok bs : reader_ok (mg_reader bs).
Proof. by split. Defined.

(** Forty thousand bytes, more than the buffer holds, written and flushed, and a
    hundred of a thousand bytes read. *)
Lemma file_is_stream_witness :
  (exists f', qemu_put_buffer (replicate (200 * 200) 7) (st_env, mg_writer) = Done tt (st_env, f') /\
     written f' = replicate (200 * 200) 7) /\
  exists f', qemu_get_buffer 100 (st_env, mg_reader (replicate 1000 5)) = Done (replicate 100 5) (st_env, f') /\
     ahead f' = replicate 900 5.
Proof.
  destruct (file_is_stream (Y := bytes) st_env) as (Hput & _ & Hget). split.
  - destruct (Hput mg_writer (replicate (200 * 200) 7) mg_writer_ok) as (f' & E & _ & Hw).
    + rewrite length_replicate. lia.
    + exact (ex_intro _ f' (conj E Hw)).
  - destruct (Hget (mg_reader (replicate 1000 5)) 100 (mg_reader_ok _)) as (f' & E & _ & Ha); [lia|].
    exact (ex_intro _ f' (conj E Ha)).
Defined.

(** ** The devices *)

(** At the source the port has handed the first 50 bytes of a request on. *)
Definition mg_port : sport :=
  SPort 8192 0 1 None 1 (VQElem 0 [] [(st_base, 200)]) 0 50 true true true true 4096 false true.
Definition mg_source : vser (qhost files) := set_vs_ports [mg_port] st_bus.

(** At the destination it is plugged in and nothing has happened. *)
Definition mg_queue : virtqueue := VirtQueue (VRing 4 0 0 0) 0 0 0 false true 0 0.
Definition mg_port0 : sport :=
  SPort 20480 0 1 None 1 (VQElem 0 [] []) 0 0 false false true false 0 false true.
Definition mg_host : qhost files := QHost ∅ 8208 [] [] ∅.
Definition mg_vdev : vdev queue_handler :=
  VDev 0 0 0 0 8 (replicate 8 0) VIRTIO_NO_VECTOR [mg_queue; mg_queue] [Some HandleInput; Some HandleOutput] true [].
Definition mg_dest (max : Z) : vser (qhost files) := VSer mg_vdev 2 3 [0%nat] [1%nat] max [mg_port0] [1] (CConfig 0 0 max) mg_host.

Lemma mg_saves : transport_saves (Y := bytes) None None [] (fun _ => []).
Proof. split; intros; apply puts_ret. Defined.
Lemma mg_loads : transport_loads (Y := bytes) None None [] (fun _ => []).
Proof. split; intros; apply loads_ret. Defined.

Lemma mg_queue_fits q : q = st_qi \/ q = st_qo -> queue_fits st_mem q.
Proof.
  intros Hq. assert (H : heads st_mem (virtqueue_init q) = 1) by (destruct Hq as [-> | ->]; vm_compute; reflexivity).
  assert (Hn : vr_num (vq_vring q) = 4) by (destruct Hq as [-> | ->]; reflexivity).
  split; [lia|destruct Hq as [-> | ->]; cbn; lia..| |lia]. intros E. by destruct Hq as [-> | ->].
Qed.

Lemma mg_twin max : twin_device 2 st_env mg_source (mg_dest max).
Proof.
  split.
  - split; [cbn; lia..|]. split; [reflexivity|cbn; lia].
  - change (Forall (queue_fits st_mem) [st_qi; st_qo]).
    apply list.Forall_cons_2; [by apply mg_queue_fits; left|]. apply list.Forall_cons_2; [by apply mg_queue_fits; right|constructor].
  - split; [cbn; lia|reflexivity].
  - reflexivity.
  - reflexivity.
  - cbn. lia.
  - cbn. lia.
  - vm_compute. discriminate.
  - repeat constructor; cbn; lia.
Qed.

Lemma mg_same_ports : twin_ports ex_map mg_source (mg_dest 1).
Proof.
  split; [reflexivity|reflexivity| |cbn; lia|apply list.NoDup_singleton..]. constructor; [|constructor].
  split; [reflexivity|reflexivity|discriminate| |].
  - split; [cbn; lia..|]. split; [cbn; lia|cbn; split; [lia|constructor]|].
    split; [cbn; lia|]. constructor; [|constructor]. unfold st_base. split; cbn; lia.
  - intros _. repeat constructor.
Qed.

Lemma migrate_roundtrip_witness :
  exists bs v' f f', virtio_serial_save None None mg_source (st_env, mg_writer) = Done tt (st_env, f) /\ written f = bs /\
    virtio_serial_load (VirtioCallbacks0 := serial_callbacks (PortClass0 := st_class) ex_map 2 None)
      None None ex_map 3 (st_env, (mg_dest 1, mg_reader bs)) = Done 0 (st_env, (v', f')) /\
    continues mg_source (mg_dest 1) v'.
Proof.
  destruct (migrate_roundtrip (PortClass0 := st_class) None None None None [] (fun _ => []) ex_map 2 None st_env st_env
    mg_source (mg_dest 1) mg_saves mg_loads (mg_twin 1) mg_same_ports) as (bs & v' & Hc & Hsave & Hload).
  destruct (Hsave mg_writer mg_writer_ok) as (f & E & _ & Hw). destruct (Hload (mg_reader bs) []) as (f' & E' & _).
  - apply mg_reader_ok.
  - symmetry. apply app_nil_r.
  - exact (ex_intro _ bs (ex_intro _ v' (ex_intro _ f (ex_intro _ f' (conj E (conj Hw (conj E' Hc))))))).
Defined.

