(* ===== verification/DriverExamples.v ===== *)
(** * Examples of the driver in the guest

    A host with queues of two entries, which takes what it is sent and answers
    one request, and a port of the driver on it. *)
From stdpp Require Import base gmap gmultiset list strings numbers.
From S2P Require Import Prelude Kernel KernelFacts Structs Vring VringFacts VirtioDev Bus BusFacts PortFacts Backend.
From S2P Require Import CryptoApi Zc Fcrypt Run RunFacts Ioctl IoctlFacts BackendFacts Stack StackFacts.
From S2P Require Import Driver DriverDev DriverFacts LifeFacts RequestFacts EndToEnd SetupFacts Toy Examples StackExamples.
Open Scope Z_scope.

(** ** A host *)

(** A queue of two entries, by the entries the host has not used yet and those it
    has. *)
Inductive vq2 :=
  | QE | QA (v : vbuf) | QU (t : Z * Z) | QAA (v v' : vbuf) | QAU (v : vbuf) (t : Z * Z) | QUU (t t' : Z * Z).
Definition avail2 (q : vq2) : list vbuf :=
  match q with QE | QU _ | QUU _ _ => [] | QA v | QAU v _ => [v] | QAA v v' => [v; v'] end.
Definition used2 (q : vq2) : list (Z * Z) :=
  match q with QE | QA _ | QAA _ _ => [] | QU t | QAU _ t => [t] | QUU t t' => [t; t'] end.
Definition room2 (q : vq2) : Z := match q with QE => 2 | QA _ | QU _ => 1 | _ => 0 end.

Definition add2 (v : vbuf) (q : vq2) : option vq2 :=
  match q with QE => Some (QA v) | QA v1 => Some (QAA v1 v) | QU t => Some (QAU v t) | _ => None end.
Definition get2 (q : vq2) : vq2 :=
  match q with QU _ => QE | QAU v _ => QA v | QUU _ t => QU t | _ => q end.
Definition detach2 (q : vq2) : option Z * vq2 :=
  match q with
  | QE => (None, QE)
  | QA v => (Some (vb_tok v), QE)
  | QU t => (Some t.1, QE)
  | QAA v v' => (Some (vb_tok v), QA v')
  | QAU v t => (Some (vb_tok v), QU t)
  | QUU t t' => (Some t.1, QU t')
  end.

(** The host takes the entries it cannot write to. *)
Definition no_ins (v : vbuf) : bool := match vb_ins v with [] => true | _ => false end.
Definition done_with (v : vbuf) : Z * Z := (vb_tok v, 0).
Definition consume2 (q : vq2) : vq2 :=
  match q with
  | QA v => if no_ins v then QU (done_with v) else q
  | QAA v v' =>
      if no_ins v then if no_ins v' then QUU (done_with v) (done_with v') else QAU v' (done_with v)
      else if no_ins v' then QAU v (done_with v') else q
  | QAU v t => if no_ins v then QUU t (done_with v) else q
  | _ => q
  end.
(** It fills the next entry it can write to. *)
Definition fill2 (n : Z) (q : vq2) : vq2 :=
  match q with QA v => QU (vb_tok v, n) | QAA v v' => QAU v' (vb_tok v, n) | _ => q end.

(** The queues, and whether the host still answers. *)
Record host2 := Host2 { h_q : nat -> vq2; h_more : bool }.
Definition set_q (q : nat) (x : vq2) (w : host2) : host2 := Host2 (fun q' => if (q' =? q)%nat then x else h_q w q') (h_more w).

(** The answer: the operation as it was, and the complement of the rest. *)
Definition serve2 (R : bytes) : bytes := take 144 R ++ (Z.lxor 98 <$> take 32 (drop 112 R)) ++ drop 176 R.

(** The request and the place for its answer, when there are both. *)
Definition asked (q : nat) (w : host2) : option (Z * Z * (Z * Z * Z)) :=
  if (q =? 5)%nat && h_more w then
    match avail2 (h_q w 5), avail2 (h_q w 4), used2 (h_q w 4) with
    | [VBuf _ [(cr, n)] []], VBuf t [] [(buf, size)] :: _, [] => Some (cr, n, (t, buf, size))
    | _, _, _ => None
    end
  else None.
Definition kick2 (q : nat) : K host2 unit :=
  w ← getx;
  e ← gete;
  setx (set_q q (consume2 (h_q w q)) w);;
  match asked q w with
  | None => mret tt
  | Some (cr, n, (_, buf, size)) =>
      let reply := serve2 (peeks (e_mem e) (seqZ cr n)) in
      if (Z.of_nat (length reply) =? n) && (n <=? size) then
        mode (set_mem (pokes (seqZ buf n) reply));;
        modx (fun w => Host2 (h_q (set_q 4 (fill2 n (h_q w 4)) w)) false)
      else mret tt
  end.

Global Instance guest2 : GuestKernel host2 := {|
  virtqueue_add_buf q outs ins tok :=
    w ← getx;
    match add2 (VBuf tok outs ins) (h_q w q) with
    | Some x => setx (set_q q x w);; mret (room2 x)
    | None => mret (- 28)
    end;
  virtqueue_kick := kick2;
  virtqueue_get_buf q := w ← getx; setx (set_q q (get2 (h_q w q)) w);; mret (head (used2 (h_q w q)));
  virtqueue_detach_unused_buf q := w ← getx; let r := detach2 (h_q w q) in setx (set_q q r.2 w);; mret r.1;
  cdev_add _ := mret 0;
  device_error _ := mret 0;
  class_create := mret 0;
  debugfs_create_dir := mret true;
  register_virtio_driver := mret 0;
  unregister_virtio_driver := mret tt;
  hvc_instantiate := mret 0;
  hvc_error _ := mret 0;
  hvc_resize _ _ _ := mret tt;
  hvc_irq_requested _ _ := mret tt;
  hvc_poll _ := mret false;
  hvc_kick := mret tt;
  sysfs_create_group _ := mret 0;
  register_chrdev := mret 250;
  find_vqs cbs := mret (inl (seq 0 (length cbs)));
  del_vqs := mret tt;
  virtio_device_reset := mret tt;
  virtio_config_get _ n := mret (replicate n 0);
  early_put_chars _ _ n := mret n
|}.

(** ** It is a host *)

Lemma set_q_eq q x w : h_q (set_q q x w) q = x.
Proof. cbn. by rewrite Nat.eqb_refl. Qed.
Lemma set_q_ne q q' x w : q' <> q -> h_q (set_q q x w) q' = h_q w q'.
Proof. intros Hq. cbn. by rewrite (proj2 (Nat.eqb_neq q' q)). Qed.

(** What kicking does to one queue. *)
Definition moves (q q' : vq2) : Prop := exists moved lens, avail2 q ≡ₚ moved ++ avail2 q' /\ used2 q' = used2 q ++ lens /\
  Forall2 (fun b t => t.1 = vb_tok b /\ 0 <= t.2 <= iov_size (vb_ins b)) moved lens /\ room2 q' = room2 q.

Lemma moves_refl q : moves q q.
Proof. exists [], []. split_and!; [done|by rewrite app_nil_r|constructor|done]. Qed.
Lemma no_ins_size v : no_ins v = true -> iov_size (vb_ins v) = 0.
Proof. unfold no_ins. by destruct (vb_ins v). Qed.
Lemma no_ins_false v : no_ins v = false <-> has_ins v.
Proof. unfold no_ins, has_ins. by destruct (vb_ins v). Qed.

Lemma consume_moves q : moves q (consume2 q).
Proof.
  destruct q as [|v|t|v v'|v t|t t']; cbn; try apply moves_refl.
  - destruct (no_ins v) eqn:E; [|apply moves_refl]. exists [v], [done_with v]. split_and!; try done. repeat constructor; cbn; rewrite ?(no_ins_size v E); done.
  - destruct (no_ins v) eqn:E, (no_ins v') eqn:E'; [| | |apply moves_refl].
    + exists [v; v'], [done_with v; done_with v']. split_and!; try done. repeat constructor; cbn; rewrite ?(no_ins_size v E), ?(no_ins_size v' E'); done.
    + exists [v], [done_with v]. split_and!; try done. repeat constructor; cbn; rewrite ?(no_ins_size v E); done.
    + exists [v'], [done_with v']. split_and!; [apply perm_swap|done| |done]. repeat constructor; cbn; rewrite ?(no_ins_size v' E'); done.
  - destruct (no_ins v) eqn:E; [|apply moves_refl]. exists [v], [done_with v]. split_and!; try done. repeat constructor; cbn; rewrite ?(no_ins_size v E); done.
Qed.
Lemma consume_idle q : Forall has_ins (avail2 q) -> consume2 q = q.
Proof.
  destruct q as [|v|t|v v'|v t|t t']; cbn; try done; intros H; [| |].
  - apply list.Forall_cons in H as [H _]. by rewrite (proj2 (no_ins_false v)).
  - apply list.Forall_cons in H as [H [H' _]%list.Forall_cons]. by rewrite (proj2 (no_ins_false v)), (proj2 (no_ins_false v')).
  - apply list.Forall_cons in H as [H _]. by rewrite (proj2 (no_ins_false v)).
Qed.
Lemma consume_ins q : Forall has_ins (avail2 (consume2 q)).
Proof.
  destruct q as [|v|t|v v'|v t|t t']; cbn; try constructor; try destruct (no_ins v) eqn:E; try destruct (no_ins v') eqn:E';
    cbn; repeat constructor; by apply no_ins_false.
Qed.
Lemma fill_moves n t buf size rest q : avail2 q = VBuf t [] [(buf, size)] :: rest -> used2 q = [] -> 0 <= n <= size ->
  moves q (fill2 n q) /\ avail2 (fill2 n q) = rest /\ used2 (fill2 n q) = [(t, n)].
Proof.
  intros Ha Hu Hn. destruct q as [|v| |v v'| |]; try done; cbn in *; injection Ha as -> <-; (split; [|done]);
    exists [VBuf t [] [(buf, size)]], [(t, n)]; (split_and!; [done|done|repeat constructor; cbn; lia|done]).
Qed.

(** The two cases of a kick. *)
Lemma asked_some q w cr n t buf size : asked q w = Some (cr, n, (t, buf, size)) ->
  q = 5%nat /\ h_more w = true /\ (exists tok, avail2 (h_q w 5) = [VBuf tok [(cr, n)] []]) /\
  (exists rest, avail2 (h_q w 4) = VBuf t [] [(buf, size)] :: rest) /\ used2 (h_q w 4) = [].
Proof.
  unfold asked. destruct (Nat.eqb_spec q 5), (h_more w); try done. cbn [andb].
  destruct (avail2 (h_q w 5)) as [|[tok [|[cr' n'] [|]] [|]] [|]]; try done.
  destruct (avail2 (h_q w 4)) as [|[t' [|] [|[buf' size'] [|]]] rest]; try done. destruct (used2 (h_q w 4)); [|done].
  intros [= -> -> -> -> ->]. split_and!; eauto.
Qed.
Lemma asked_request w tok cr n t buf size rest :
  h_more w = true -> avail2 (h_q w 5) = [VBuf tok [(cr, n)] []] -> avail2 (h_q w 4) = VBuf t [] [(buf, size)] :: rest -> used2 (h_q w 4) = [] ->
  asked 5 w = Some (cr, n, (t, buf, size)).
Proof. intros Hm E5 E4 E4'. unfold asked. by rewrite Hm, E5, E4, E4'. Qed.

Lemma kick_cases q e w :
  kick2 q (e, w) = Done tt (e, set_q q (consume2 (h_q w q)) w) \/
  exists cr n t buf size, let reply := serve2 (peeks (e_mem e) (seqZ cr n)) in
    asked q w = Some (cr, n, (t, buf, size)) /\ Z.of_nat (length reply) = n /\ n <= size /\
    kick2 q (e, w) = Done tt (set_mem (pokes (seqZ buf n) reply) e,
      Host2 (h_q (set_q 4 (fill2 n (h_q w 4)) (set_q 5 (consume2 (h_q w 5)) w))) false).
Proof.
  unfold kick2, mbind, M_bind. cbn. destruct (asked q w) as [[[cr n] [[t buf] size]]|] eqn:E; [|by left].
  destruct (Z.of_nat (length (serve2 _)) =? n) eqn:E1; [|by left]. destruct (n <=? size) eqn:E2; [|by left]. right.
  exists cr, n, t, buf, size. apply Z.eqb_eq in E1. apply Z.leb_le in E2. split_and!; try done. cbn.
  by destruct (asked_some _ _ _ _ _ _ _ E) as (-> & _).
Qed.

Definition more (w : host2) : nat := if h_more w then 1 else 0.

Lemma kick2_law q e w : exists e' w', kick2 q (e, w) = Done tt (e', w') /\ mem_only e e' /\
  (forall a, (forall q' b, b ∈ avail2 (h_q w q') -> a ∉ iov_addrs (vb_ins b)) -> peek (e_mem e') a = peek (e_mem e) a) /\
  (forall q', moves (h_q w q') (h_q w' q') /\
     (Forall has_ins (avail2 (h_q w q')) -> (length (used2 (h_q w' q')) + more w' <= length (used2 (h_q w q')) + more w)%nat)) /\
  Forall has_ins (avail2 (h_q w' q)).
Proof.
  destruct (kick_cases q e w) as [E|(cr & n & t & buf & size & Ha & Hl & Hn & E)]; eexists _, _; (split; [exact E|]).
  - split_and!; [by destruct e as [[] ? ? ? ? ? ? ? ?]|done| |rewrite set_q_eq; apply consume_ins]. intros q'.
    destruct (decide (q' = q)) as [->|Hq]; [rewrite set_q_eq|rewrite set_q_ne by done; split; [apply moves_refl|done]].
    split; [apply consume_moves|]. intros Hi. by rewrite consume_idle.
  - set (reply := serve2 _) in *. destruct (asked_some _ _ _ _ _ _ _ Ha) as (-> & Hm & [tok E5] & [rest E4] & U4).
    destruct (fill_moves n t buf size rest (h_q w 4) E4 U4) as (Hmv & _ & Hu); [lia|]. split_and!.
    + split; [done|]. cbn. by rewrite pokes_pages.
    + intros a Hna. cbn. apply peek_pokes_notin. intros Hin. apply (Hna 4%nat (VBuf t [] [(buf, size)])); [rewrite E4; left|].
      cbn. rewrite app_nil_r. apply elem_of_seqZ in Hin. apply elem_of_seqZ. lia.
    + intros q'. unfold more. cbn [h_q h_more]. rewrite Hm. destruct (decide (q' = 4)%nat) as [->|H4].
      * rewrite set_q_eq. split; [exact Hmv|]. rewrite Hu, U4. cbn. lia.
      * rewrite set_q_ne by done. destruct (decide (q' = 5)%nat) as [->|H5]; [rewrite set_q_eq|rewrite set_q_ne by done].
        -- split; [apply consume_moves|]. rewrite E5. intros [Hh _]%list.Forall_cons. by destruct Hh.
        -- split; [apply moves_refl|]. lia.
    + cbn [h_q]. rewrite set_q_ne, set_q_eq by done. apply consume_ins.
Qed.

Global Instance guest2_laws : VirtqueueLaws host2.
Proof.
  refine {| vq_avail w q := avail2 (h_q w q); vq_used w q := used2 (h_q w q); vq_room w q := room2 (h_q w q); vq_budget := more |}.
  - intros w q. by destruct (h_q w q).
  - intros w q. by destruct (h_q w q).
  - intros w q. unfold more. by destruct (h_q w q), (h_more w).
  - intros q outs ins tok e w. cbn. unfold mbind, M_bind. cbn. destruct (add2 _ (h_q w q)) as [x|] eqn:E.
    + exists (room2 x), (set_q q x w). split_and!; try done; [by intros q' Hq; rewrite set_q_ne|rewrite set_q_eq; by destruct (h_q w q); simplify_eq/=|].
      right. rewrite set_q_eq. by destruct (h_q w q); simplify_eq/=.
    + exists (- 28), w. split_and!; try done. by left.
  - intros q e w. exists (set_q q (get2 (h_q w q)) w). split_and!; [done|done|by intros q' Hq; rewrite set_q_ne|..]; rewrite set_q_eq; by destruct (h_q w q).
  - intros q e w. exists (detach2 (h_q w q)).1, (set_q q (detach2 (h_q w q)).2 w). split_and!; [done|by intros q' Hq; rewrite set_q_ne|..]; rewrite set_q_eq.
    + intros b. destruct (h_q w q); cbn; try done; set_solver.
    + destruct (h_q w q) as [|v|t|v v'|v t|t t']; cbn; rewrite ?Nat.eqb_refl; done.
  - intros q e w. destruct (kick2_law q e w) as (e' & w' & E & Hm & Hp & Hq & _). exists e', w'. split_and!; try done.
    intros q'. destruct (Hq q') as [(moved & lens & ? & ? & ? & ?) Hl]. by exists moved, lens.
Defined.

Global Instance guest2_prompt : PromptHost host2.
Proof.
  split. intros q e w e' w' E. destruct (kick2_law q e w) as (e2 & w2 & E2 & _ & _ & _ & Hi).
  change (kick2 q (e, w) = Done tt (e', w')) in E. rewrite E in E2. by injection E2 as -> ->.
Defined.
Global Instance guest2_services : ServiceLaws host2.
Proof. split; intros devt e w; by exists 0, w. Defined.
Global Instance guest2_find : FindVqsLaw host2.
Proof. intros cbs e w. left. by exists w. Defined.

Global Instance guest2_answers : AnsweringHost host2 serve2 4 5.
Proof.
  split.
  - intros q outs ins tok e w r w' E _ Hr. cbn in E, Hr. unfold mbind, M_bind in E. cbn in E.
    destruct (h_q w q); cbn in *; try lia; by injection E as <- _.
  - intros q e w r w' E. cbn in E. unfold mbind, M_bind in E. cbn in E. injection E as <- <-.
    cbn. rewrite Nat.eqb_refl. by destruct (h_q w q).
  - intros e w e' w' tok cr n t buf size rest reply Ho Hi Hu Hb Hl Hn E. cbn in Ho, Hi, Hu, Hb.
    assert (Hm : h_more w = true) by (unfold more in Hb; by destruct (h_more w)).
    pose proof (asked_request w tok cr n t buf size rest Hm Ho Hi Hu) as Ha. change (kick2 5 (e, w) = Done tt (e', w')) in E.
    destruct (kick_cases 5 e w) as [E2|(cr' & n' & t' & buf' & size' & Ha' & _ & _ & E2)].
    { exfalso. unfold kick2, mbind, M_bind in E2. cbn in E2. rewrite Ha in E2. fold reply in E2.
      rewrite (proj2 (Z.eqb_eq _ _) Hl), (proj2 (Z.leb_le _ _) Hn) in E2. cbn in E2. apply (f_equal (fun o => match o with Done _ s => h_more s.2 | _ => true end)) in E2.
      cbn in E2. congruence. }
    rewrite Ha in Ha'. injection Ha' as <- <- <- <- <-. rewrite E in E2. injection E2 as -> ->.
    destruct (fill_moves n t buf size rest (h_q w 4) Hi Hu) as (_ & Ai & Ui); [lia|]. cbn.
    split_and!; [done|done|done|..].
    + destruct (h_q w 5) as [|v| | |v |]; try done; cbn in *; by injection Ho as ->.
    + destruct (h_q w 5) as [|v| | |v |]; try done; cbn in *; by injection Ho as ->.
    + intros q H4 H5. by do 6 (destruct q as [|q]; try done).
  - intros q e w e' w' Hi E. cbn in Hi. change (kick2 q (e, w) = Done tt (e', w')) in E.
    destruct (kick_cases q e w) as [E2|(cr & n & t & buf & size & Ha & _)].
    + rewrite E in E2. injection E2 as -> ->. split; [done|]. intros q'. rewrite consume_idle by done.
      assert (Eq : h_q (set_q q (h_q w q) w) q' = h_q w q') by (destruct (decide (q' = q)) as [->|Hq]; [apply set_q_eq|by apply set_q_ne]).
      unfold same_vq. cbn [vq_avail vq_used vq_room guest2_laws]. by rewrite Eq.
    + destruct (asked_some _ _ _ _ _ _ _ Ha) as (-> & _ & [tok E5] & _). rewrite E5 in Hi. apply list.Forall_cons in Hi as [Hh _]. by destruct Hh.
Defined.

(** ** The device *)

Definition dv_pd : Z := kaddr 0.
Definition dv_frame : Z := kaddr 100.
(** The objects: the device, its arrays, and a buffer of the control queue. *)
Definition dv_mb : Z := kaddr 20.
Definition dv_mdata : Z := kaddr 21.
Definition dv_objs : list (Z * kobj) :=
  [(dv_pd, OPortdev); (kaddr 1, OVqArray); (kaddr 2, OVqArray); (dv_mb, OPortBuf); (dv_mdata, OBuffer)].
Definition dv_dev (ports : list Z) : ports_device := PortsDevice ports 2 2 2 3 (kaddr 1) [0%nat; 4%nat] (kaddr 2) [1%nat; 5%nat] 0 250.
Definition dv_data : ports_driver_data := PortsDriverData [dv_pd] 1 0 [] true.
Definition dv_env : env := Env (Mem ∅ ∅) true [] [] [] (list_to_map dv_objs) (kaddr 30) ∅ 170.
Definition dv_drv : drv host2 := Drv dv_data false 0 {[dv_pd := dv_dev []]} ∅ ∅ (Host2 (fun _ => QE) true).

Lemma heap_ok (l : list (Z * kobj)) next :
  forallb (fun x => (TASK_SIZE <=? x.1) && (x.1 <? next) && (x.1 mod PAGE_SIZE =? 0)) l = true ->
  forall a k, (list_to_map l : gmap Z kobj) !! a = Some k -> TASK_SIZE <= a < next /\ a mod PAGE_SIZE = 0.
Proof.
  intros Hl a k Ha. apply elem_of_list_to_map_2 in Ha. rewrite forallb_forall in Hl. apply list_elem_of_In, Hl in Ha. cbn in Ha. lia.
Qed.

Lemma dv_spot : spot dv_pd dv_env dv_drv (dv_dev []) dv_objs.
Proof.
  split; [split; [done|done|by apply heap_ok]| |split; [done|left]|done|done].
  split; [|done]. apply (bool_decide_eq_true_1 (NoDup _)). vm_compute. reflexivity.
Defined.
Lemma dv_room : room_for dv_pd dv_drv (dv_dev []) dv_objs 1 4 5.
Proof. split; try done. Defined.

Lemma dv_id : 0 <= 1 < 2 ^ 32.
Proof. by split. Defined.
Lemma dv_mailbox : (dv_mb, OPortBuf) ∈ dv_objs.
Proof. do 3 right. left. Defined.

(** Port 1 is added, announced again, opened by the host and by the guest, polled,
    removed by the host while it is open, and closed. *)
Definition dv_ops : list port_op :=
  [OpMessage VIRTIO_CONSOLE_PORT_ADD 1; OpMessage VIRTIO_CONSOLE_PORT_OPEN 1; OpOpen; OpOpen; OpIntr; OpPoll;
   OpMessage VIRTIO_CONSOLE_PORT_REMOVE 1; OpPoll; OpRelease].

Lemma driver_port_life_witness :
  exists e1 s1 a p d', add_port dv_frame dv_pd 1 (dv_env, dv_drv) = Done 0 (e1, s1) /\
    exists rs e2 s2, run_ops dv_frame dv_pd dv_mb dv_mdata a p dv_ops (e1, s1) = Done rs (e2, s2) /\
      all_return (Plugged false) dv_ops rs /\ holds dv_pd Gone e2 s2 d' a p dv_objs.
Proof.
  destruct (driver_port_life dv_frame dv_pd dv_mb dv_mdata 1 4 5 dv_env dv_drv (dv_dev []) dv_objs dv_spot dv_room
    dv_id dv_mailbox)
    as (r & e1 & s1 & E & [[Hr _]|(-> & a & p & d' & _ & _ & _ & _ & Hops)]).
  - exfalso. assert (H0 : match add_port dv_frame dv_pd 1 (dv_env, dv_drv) with Done r _ => r =? 0 | Crash _ => false end = true) by (vm_compute; reflexivity).
    rewrite E in H0. apply Z.eqb_eq in H0. rewrite H0 in Hr. discriminate Hr.
  - exists e1, s1, a, p, d'. split; [exact E|]. apply Hops. reflexivity.
Defined.

(** ** A request *)

(** The port, open on both sides, with one buffer that the host has. *)
Definition rq_port : port :=
  Port dv_pd 0 4 5 (kaddr 8) 0 0 0 0 170 0 0 (kaddr 4) (MKDEV 250 1) (kaddr 5) 2 0 1 false true true.
Definition rq_bufs : list (Z * Z) := [(kaddr 6, kaddr 7)].
Definition rq_objs : list (Z * kobj) := port_objs (kaddr 3) rq_port ++ buf_objs rq_bufs ++ file_objs rq_port ++ dv_objs.

(** The program asks to encrypt 32 bytes; the block it makes is the request of
    [StackExamples]. *)
Definition rq_arg : Z := 65536.
Definition rq_mem : mem :=
  pokes (seqZ rq_arg 48) (encode_crypt_op st_op)
   (pokes (seqZ 69632 32) (seqZ 1 32)
    (pokes (seqZ 77824 16) (seqZ 101 16) (Mem (list_to_map ((fun i => (i, true)) <$> seqZ 16 4)) ∅))).
Definition rq_env : env := Env rq_mem true [] [] [] (list_to_map rq_objs) (kaddr 30) ∅ 0.
Definition rq_host : host2 := Host2 (fun q => if (q =? 4)%nat then QA (VBuf (kaddr 6) [] [(kaddr 7, PAGE_SIZE)]) else QE) true.
Definition rq_drv : drv host2 :=
  Drv dv_data false 0 {[dv_pd := dv_dev [kaddr 3]]} {[kaddr 3 := rq_port]} {[kaddr 6 := PortBuffer (kaddr 7) PAGE_SIZE 0 0]} rq_host.

Lemma rq_ready : ready 4 5 dv_pd rq_env rq_drv (dv_dev [kaddr 3]) (kaddr 3) rq_port rq_bufs dv_objs.
Proof.
  split; try done; [split; try done|].
  - split; try done.
    + split; [done|done|by apply heap_ok].
    + split; [apply (bool_decide_eq_true_1 (NoDup _)); vm_compute; reflexivity|done].
    + repeat constructor. by eexists.
    + change (Forall has_ins [VBuf (kaddr 6) [] [(kaddr 7, PAGE_SIZE)]]). by repeat constructor.
  - split; [done|left].
  - exists [], []. split; [done|]. split; [constructor|apply not_elem_of_nil].
  - change (Forall (offered rq_drv) [VBuf (kaddr 6) [] [(kaddr 7, PAGE_SIZE)]]). repeat constructor. by exists (PortBuffer (kaddr 7) PAGE_SIZE 0 0).
Defined.

Lemma rq_passes : passes rq_mem rq_arg st_op.
Proof. split; [vm_compute; reflexivity|split; vm_compute; reflexivity|done|split; vm_compute; reflexivity..]. Defined.

(** The block that the driver makes. *)
Definition rq_block : bytes := peeks st_mem (seqZ st_base 200).
Lemma rq_block_made : request_block rq_mem rq_arg 0 = rq_block.
Proof. vm_compute. reflexivity. Defined.
Lemma rq_answers : answers rq_block (serve2 rq_block).
Proof. split; vm_compute; reflexivity. Defined.

Lemma driver_crypt_correct_witness :
  packs rq_mem rq_arg (request_block rq_mem rq_arg 0) /\ exists e' s' p',
    port_fops_ioctl (mret 0) (kaddr 3) false CIOCCRYPT rq_arg (rq_env, rq_drv) = Done 0 (e', s') /\
    delivered rq_mem st_op (sub off_dstp 32 (serve2 (request_block rq_mem rq_arg 0))) (e_mem e') /\
    ready 4 5 dv_pd e' s' (dv_dev [kaddr 3]) (kaddr 3) p' rq_bufs dv_objs.
Proof.
  apply (driver_crypt_correct serve2 4 5 ltac:(discriminate) (mret 0) dv_pd rq_env rq_drv (dv_dev [kaddr 3]) (kaddr 3) rq_port rq_bufs
    dv_objs rq_arg st_op rq_ready); [discriminate|exact rq_passes|reflexivity|reflexivity|vm_compute; discriminate|].
  change (answers (request_block rq_mem rq_arg 0) (serve2 (request_block rq_mem rq_arg 0))). rewrite rq_block_made. exact rq_answers.
Defined.

(** ** The same request, with the device of the host behind the queues *)

Definition st_notify : outcome (env * vser (qhost files)) unit :=
  virtio_queue_notify (VirtioCallbacks0 := serial_callbacks (PortClass0 := crypto_port_class ex_map st_frame) ex_map 0 None) 1 (st_env, st_bus).
Lemma st_answer :
  match st_notify with Done _ (e', _) => peeks (e_mem e') (iov_part (chain_ins st_chain) 0 sizeof_crypto_data) | Crash _ => [] end = serve2 rq_block.
Proof. vm_compute. reflexivity. Defined.

Lemma rq_device : device_answers ex_map st_frame st_session rq_block (serve2 rq_block).
Proof.
  assert (Ha := st_answer). destruct st_notify as [[] [e' v']|c] eqn:E; [|apply (f_equal length) in Ha; vm_compute in Ha; discriminate Ha].
  exists 0, None, st_env, st_bus, st_port, st_qo, st_qi, st_base, 200, st_chain, 5, st_priv, [], 0%nat, e', v'.
  split; [exact st_kicked|]. split; [reflexivity|]. split; [exact st_request|]. split; [reflexivity|]. split; [exact E|exact Ha].
Defined.

Lemma guest_program_crypt_witness :
  exists e' s' p' out, port_fops_ioctl (mret 0) (kaddr 3) false CIOCCRYPT rq_arg (rq_env, rq_drv) = Done 0 (e', s') /\
    computes st_session st_op (seqZ 1 32) (seqZ 101 16) out /\ out = (Z.lxor 98 <$> seqZ 1 32) /\ delivered rq_mem st_op out (e_mem e') /\
    ready 4 5 dv_pd e' s' (dv_dev [kaddr 3]) (kaddr 3) p' rq_bufs dv_objs.
Proof.
  destruct (guest_program_crypt ex_map st_frame serve2 4 5 ltac:(discriminate) (mret 0) dv_pd rq_env rq_drv (dv_dev [kaddr 3]) (kaddr 3)
    rq_port rq_bufs dv_objs rq_arg st_op st_session rq_ready ltac:(discriminate) rq_passes eq_refl eq_refl ltac:(vm_compute; discriminate)
    ltac:(change (device_answers ex_map st_frame st_session (request_block rq_mem rq_arg 0) (serve2 (request_block rq_mem rq_arg 0)));
      rewrite rq_block_made; exact rq_device) eq_refl) as (e' & s' & p' & out & E & Hc & Hd & Hr).
  exists e', s', p', out. split; [exact E|]. split; [exact Hc|]. split; [|split; [exact Hd|exact Hr]].
  destruct Hc as (iv & st & Hc). apply (f_equal (fun r => r.1.1.2)) in Hc. symmetry in Hc. etrans; [exact Hc|]. vm_compute. reflexivity.
Defined.

(** ** The queues *)

Definition sq_dev : ports_device := PortsDevice [] 3 2 0 0 0 [] 0 [] 0 250.
Definition sq_drv : drv host2 := Drv dv_data false 0 {[dv_pd := sq_dev]} ∅ ∅ (Host2 (fun _ => QE) true).
Definition sq_objs : list (Z * kobj) := [(dv_pd, OPortdev)].
Definition sq_env : env := Env (Mem ∅ ∅) true [] [] [] (list_to_map sq_objs) (kaddr 1) ∅ 170.

Lemma queues_agree_witness :
  exists v : vser unit, virtio_serial_init 3 true tt (sq_env, tt) = Done (Some v) (sq_env, tt) /\
    exists e' s' d', init_vqs dv_pd (sq_env, sq_drv) = Done 0 (e', s') /\ dr_devs s' !! dv_pd = Some d' /\ agree_on v d'.
Proof.
  destruct (proj1 (list.Forall_forall _ _) (setup_all sq_env tt true tt) 3%nat) as (v & E & _); [apply elem_of_seq; lia|].
  change (Z.of_nat 3) with 3 in E. exists v. split; [exact E|].
  destruct (queues_agree sq_env tt true tt v dv_pd sq_env sq_drv sq_dev sq_objs E) as (_ & r & e' & s' & Ei & _ & Hc);
    [discriminate|reflexivity|reflexivity|split; [discriminate|reflexivity|by apply heap_ok]|split; [repeat constructor; apply not_elem_of_nil|reflexivity]|left|].
  assert (H0 : match init_vqs dv_pd (sq_env, sq_drv) with Done r _ => r =? 0 | Crash _ => false end = true) by (vm_compute; reflexivity).
  rewrite Ei in H0. apply Z.eqb_eq in H0. rewrite H0 in *. destruct Hc as [[Hr _]|(_ & d' & Hd & Ha & _)]; [discriminate Hr|].
  exists e', s', d'. split; [exact Ei|]. split; [exact Hd|exact Ha].
Defined.
